(* ===== verification/_CoqProject ===== *)
-Q . S2P
Prelude.v
GoText.v
GoTime.v
Domain.v
Awgparam.v
JsonText.v
Store.v
Ipam.v
NetText.v
NetAddr.v
Webhook.v
Users.v
Crypto.v
Tunnel.v
Profile.v
Backend.v
Secrets.v
Sealing.v
Auth.v
Accounts.v
Tokens.v
Matchers.v
ImportConfig.v
Iface.v
Registry.v
RegistryCache.v
Catalog.v
Devices.v
ClientConf.v
ClientImport.v
Reconcile.v
Converge.v
RuntimeApply.v
Accounting.v
Metering.v
Corrections.v
Samples.v
Plans.v
NextPlan.v
Subscription.v
Purchase.v
