(* ===== verification/Prelude.v ===== *)
(** * WG-Guard verification library

    WG-Guard is a node manager for AmneziaWG tunnels: a Go process that keeps
    accounts, their devices (tunnel peers) and the node's configuration in one
    SQLite database, meters the peers' traffic, enforces quotas and expiries,
    and reports what happens through a webhook outbox. This library models
    the services that carry those rules and proves what makes them correct.

    ** How the program is modelled

    - The database is the record [Store.store]: one finite map per table, the
      append-only journals as lists, and the clock of the operation. An
      operation that runs inside [database.DB.WithTx] is a value of the monad
      [Tx A := store -> result err (A * store)]; [WithTx] commits the store of
      a success and keeps the old one on an error. Unique indexes, foreign
      keys and cascades of migrations/ are written out in the inserts and
      deletes. An operation that reads outside its transaction is split into
      its read phase and its commit phase, so that interleavings with other
      writers are sequences of steps of the step relations.
    - Go's [int], [int64] and [uint64] are [Z] with the wrap-around written
      out ([i64], [u64]). Instants are nanoseconds since the epoch, UTC; the
      text columns keep RFC 3339 strings and SQL compares them as text, so
      [GoTime] defines the printed form and the comparison used.
    - A Go map that is ranged over is a finite map plus an explicit order,
      and theorems quantify over the order.
    - Errors keep the machine code of internal/domain/errors.go, not the
      message; I/O errors of the database driver are not modelled.
    - Random bytes and the clock come from the classes [Entropy] and the
      store; the webhook recorder is the class [EventRecorder], whose law
      [RecorderFrame] (only the outbox changes) the clients are proved
      against and [Webhook] discharges.
    - Code that also changes something outside the database (a tunnel backend)
      is a value of the monad [act S E A], whose errors keep the changes made
      before them. The backend is a class of operations with a class of laws;
      the engine is proved against the laws, the in-memory backend meets them.
    - The [settings] table, with its cache, is the state of [Registry]; the
      interface service reads it through the class [Iface.Settings], which
      [Catalog.registry_settings] implements.
    - Concurrent callers are events of a step relation, one per critical
      section.

    ** Files

    - [Prelude]: machine integers, results and the transaction monad,
      record update, decimal text, shared list and table lemmas.
    - [GoText]: signed decimals, booleans, splitting and joining
      ([strconv], [strings]).
    - [GoTime]: the calendar, RFC 3339 texts and their order ([time] as
      the services use it). Chronological and text order agree across
      seconds and disagree within one.
    - [Domain] (internal/domain): statuses, reasons, error codes, tri-
      state options, time-ordered identifiers.
    - [JsonText]: what Go's JSON encoder writes for strings and lists of
      strings and its decoder reads back: the round trip on valid UTF-8.
    - [Store] (migrations/, internal/database): the tables and [WithTx];
      the interface classes [Entropy], [EventRecorder], [RecorderFrame].
    - [Ipam] (internal/ipam/pools.go): pool parsing, capacity, overlap
      validation.
    - [Awgparam] (internal/awgparam): scalar-or-range parameters, their
      exact syntax and the text, JSON and column codecs.
    - [NetText] (internal/settings/defaults.go): addresses, hostnames and
      endpoints as texts; [ValidEndpoint] against its grammar.
    - [NetAddr]: the 128 bits of an IPv6 text and the canonical text of an
      address.
    - [Webhook] (internal/webhook): [RecordTx] fan-out with tenant
      isolation, the worker's pass, retries and dead-lettering.
    - [Users] (internal/user): every account operation, the username
      invariant over all interleavings, bulk creation and its termination.
    - [Crypto]: SHA-256 with its test vectors, the interfaces of X25519
      and of the random source.
    - [Tunnel] (internal/tunnel/keys.go): base64 keys, their generation
      and validation.
    - [Profile] (internal/iface/iface.go, profile.go, presets.go,
      internal/tunnel/tunnel.go): the AmneziaWG parameter sets: their
      constraints, the generator of every policy, which is never refused
      by its own check, and the stored columns with their round trip.
    - [Backend] (internal/tunnel/tunnel.go, tunnel/fake): the operations
      of a tunnel backend, the contract [BackendLaws] the services rely
      on, stated over the links a backend holds, and the in-memory
      backend, an instance of it.
    - [Secrets] (internal/secrets): envelopes, the key ring, the rotation
      of the master key as a list of durable states, each of which opens
      every secret.
    - [Sealing]: random draws and encryption as steps of a transaction
      body.
    - [Auth] (internal/auth/scopes.go, password.go): the scope registry
      and what a grant list allows, password hashes and their
      verification.
    - [Accounts] (internal/auth/session.go, internal/admin,
      internal/reseller): panel accounts, their sessions and tenants, the
      step relation of the operations and the invariant it keeps, the
      effective grants of a session, lockout.
    - [Tokens] (internal/token): API tokens: issuing under an account's
      ceilings, verification against the current ones, the source
      allowlist, revocation.
    - [Matchers] (internal/egress/matchers.go, presets.go,
      internal/egress/match): the routing rule text, its normal form, the
      presets, the compiled matchers.
    - [ImportConfig] (internal/egress/wgconf.go): imported client
      configurations, and what the runtimes can be given of them.
    - [Iface] (internal/iface/iface.go, pools.go): interface profiles:
      creation with the automatic port and pool, updates, overflow pools,
      deletion; no two share a name, a port or an address, and every
      device stays inside a pool.
    - [Registry] (internal/settings/settings.go,
      internal/api/handlers_misc.go): the typed settings, their validation
      and encoding, batches, the redaction of secrets.
    - [RegistryCache]: the settings cache under any interleaving of
      readers and writers, as a step relation.
    - [Catalog] (internal/settings/defaults.go, internal/web/settings.go):
      the catalogue, the panel's form, and what the interface service can
      rely on when it reads a setting.
    - [Devices] (internal/device): creation under the device limit,
      address allocation against the specification [first_free], key
      rotation and revocation.
    - [ClientConf] (internal/clientconf/clientconf.go): the configuration
      a device downloads, and how the importer reads a block of printed
      settings.
    - [ClientImport]: the round trip of the two: what [ClientConf] renders
      [ImportConfig] reads back.
    - [Reconcile] (internal/reconcile): the pass that makes a backend
      match the database, statement by statement, over any backend and any
      order of its maps.
    - [Converge]: what a pass achieves, from the contract alone: it
      settles every interface it could handle, two passes are enough from
      any state, links of others stay, retired keys are acknowledged only
      when off; and the parameter correction that drops the peers.
    - [RuntimeApply] (internal/runtimeapply): the coordinator of
      concurrent passes as a step relation, and the deletion of an
      interface composed with the engine.
    - [Accounting] (internal/accounting/accounting.go): one metering
      cycle, as definitions.
    - [Metering]: the theorems on the cycle: what is charged, quota
      enforcement, independence of Go's map order, the meter never
      overcharges.
    - [Corrections] (accounting.go): the expiry pass, quota additions,
      meter corrections.
    - [Samples] (internal/accounting/samples.go): the sample flush, the
      rollups, the retention.
    - [Plans] (internal/plan): templates, their invariant, what an account
      created from one is entitled to.
    - [NextPlan] (internal/integration/next_plan.go): the queued
      successor: its fixed terms, the activation transaction, the
      activation pass and its progress.
    - [Subscription] (internal/subscription): link tokens, their unique
      resolution, rotation and revocation, the coordinated rotation of an
      account's access.
    - [Purchase] (internal/integration/purchase.go): purchases and top-
      ups, atomic and idempotent under the principal's key.

    ** Bounds and fuel

    The bulk creation loop carries fuel for five hundred iterations, the most
    a validated request can ask for; [Users.CreateBulk_ends] shows it is
    enough, [Users.bulk_loop_never_ends] that no fuel is when the last index
    is the largest [int]. The address scan of one pool carries the size of the
    pool, decimal printing the binary logarithm of the number
    ([Prelude.dec_fuel]).

    ** Not modelled

    Text rendering of errors, log lines and durations; I/O failures of
    SQLite, files, subprocesses and HTTP; the packages listed as not
    modelled in the manifest: the panel and REST handlers (request
    decoding around the services above), host installation, backups,
    egress routing and its kernel programming, TLS, terminal and command-
    line code, and cryptography. *)
From stdpp Require Import base tactics strings gmap list fin_maps sets.
From Stdlib Require Import ZArith Lia Ascii.
From Stdlib Require String.

Open Scope Z_scope.

#[global] Arguments String.append !a b : simpl nomatch, rename.

(** ** Machine-width integers

    Go's [int64], [uint64] and [uint32] arithmetic wraps silently; the model
    keeps the values in [Z] and writes the wrap-around out. *)

Definition max_int64 : Z := 9223372036854775807.

(** [i64 z]: the [int64] whose bits are the low 64 bits of [z]. *)
Definition i64 (z : Z) : Z := (z + 2 ^ 63) mod 2 ^ 64 - 2 ^ 63.

(** [u64 z]: the [uint64] whose bits are the low 64 bits of [z]. *)
Definition u64 (z : Z) : Z := z mod 2 ^ 64.

(** [u32 z]: the [uint32] whose bits are the low 32 bits of [z]. *)
Definition u32 (z : Z) : Z := z mod 2 ^ 32.

Definition is_i64 (z : Z) : Prop := - 2 ^ 63 <= z < 2 ^ 63.
Definition is_u64 (z : Z) : Prop := 0 <= z < 2 ^ 64.

(** ** Fallible computations *)

Inductive result (E A : Type) : Type :=
| Ok (a : A)
| Err (e : E).
Arguments Ok {E A} a.
Arguments Err {E A} e.

Definition rbind {E A B} (f : A -> result E B) (m : result E A) : result E B :=
  match m with Ok a => f a | Err e => Err e end.

#[export] Instance result_ret E : MRet (result E) := fun A a => Ok a.
#[export] Instance result_bind E : MBind (result E) := fun A B => rbind.

Definition is_ok {E A} (m : result E A) : bool :=
  match m with Ok _ => true | Err _ => false end.

(** ** State and errors

    A transaction body reads and writes the store and either commits with a
    value or fails; a failed body yields no store, which is what
    [tx.Rollback] leaves of it. *)

Definition tx (S E A : Type) : Type := S -> result E (A * S).

Definition tx_ret {S E A} (a : A) : tx S E A := fun s => Ok (a, s).
Definition tx_bind {S E A B} (f : A -> tx S E B) (m : tx S E A) : tx S E B :=
  fun s => match m s with Ok (a, s') => f a s' | Err e => Err e end.

#[export] Instance tx_mret S E : MRet (tx S E) := fun A => tx_ret.
#[export] Instance tx_mbind S E : MBind (tx S E) := fun A B => tx_bind.

Definition tx_fail {S E A} (e : E) : tx S E A := fun _ => Err e.
Definition tx_gets {S E A} (f : S -> A) : tx S E A := fun s => Ok (f s, s).
Definition tx_modify {S E} (f : S -> S) : tx S E unit := fun s => Ok (tt, f s).
Definition tx_lift {S E A} (m : result E A) : tx S E A :=
  fun s => match m with Ok a => Ok (a, s) | Err e => Err e end.

(** [tx_guard b e]: the early return [if b { return e }]. *)
Definition tx_guard {S E} (b : bool) (e : E) : tx S E unit :=
  if b then tx_fail e else tx_ret tt.

(** [tx_when b m]: the statement [if b { m }]. *)
Definition tx_when {S E} (b : bool) (m : tx S E unit) : tx S E unit :=
  if b then m else tx_ret tt.

(** The [for ... range] loop over [l], stopped by the first error. *)
Fixpoint tx_iter {S E A} (f : A -> tx S E unit) (l : list A) : tx S E unit :=
  match l with
  | [] => tx_ret tt
  | x :: l => tx_bind (fun _ => tx_iter f l) (f x)
  end.

(** An effect on a state that outlives its errors: the kernel, a report under
    construction. A failed step keeps what it changed before it failed. *)

Definition act (S E A : Type) : Type := S -> result E A * S.

Definition act_ret {S E A} (a : A) : act S E A := fun s => (Ok a, s).
Definition act_bind {S E A B} (f : A -> act S E B) (m : act S E A) : act S E B :=
  fun s => match m s with (Ok a, s') => f a s' | (Err e, s') => (Err e, s') end.

#[export] Instance act_mret S E : MRet (act S E) := fun A => act_ret.
#[export] Instance act_mbind S E : MBind (act S E) := fun A B => act_bind.

Definition act_fail {S E A} (e : E) : act S E A := fun s => (Err e, s).
Definition act_gets {S E A} (f : S -> A) : act S E A := fun s => (Ok (f s), s).
Definition act_modify {S E} (f : S -> S) : act S E unit := fun s => (Ok tt, f s).
Definition act_lift {S E A} (m : result E A) : act S E A := fun s => (m, s).
Definition act_when {S E} (b : bool) (m : act S E unit) : act S E unit :=
  if b then m else act_ret tt.

(** [x, err := m]: the error is a value. *)
Definition act_try {S E A} (m : act S E A) : act S E (result E A) := fun s =>
  let '(r, s') := m s in (Ok r, s').

Fixpoint act_iter {S E A} (f : A -> act S E unit) (l : list A) : act S E unit :=
  match l with
  | [] => act_ret tt
  | x :: l => act_bind (fun _ => act_iter f l) (f x)
  end.

(** ** Record update

    [r <|proj := v|>] is [r] with one field replaced, as a Go assignment
    [r.proj = v] or one column of an SQL [UPDATE].  The instance is found by
    abstracting the projection in the record's eta-expansion. *)

Class Eta (R : Type) := eta : R -> R.
Class Setter {R T : Type} (proj : R -> T) := upd_field : (T -> T) -> R -> R.
#[global] Arguments upd_field {R T} proj {_} _ _ /.

Ltac derive_setter :=
  lazymatch goal with
  | |- @Setter ?R ?T ?proj =>
      let inst := constr:(_ : Eta R) in
      let h := lazymatch inst with ?h => h end in
      let e := eval unfold h in inst in
      let p := eval pattern proj in e in
      lazymatch p with
      | ?g _ =>
          let s := eval cbv beta in
            (fun (f : T -> T) => g (fun r : R => f (proj r))) in
          exact s
      end
  end.
#[export] Hint Extern 0 (Setter _) => derive_setter : typeclass_instances.

Notation "r <| proj := v |>" := (upd_field proj (fun _ => v) r)
  (at level 1, left associativity, proj at level 9, v at level 200,
   format "r <| proj  :=  v |>") : stdpp_scope.
Notation "r <| proj ::= f |>" := (upd_field proj f r)
  (at level 1, left associativity, proj at level 9, f at level 200,
   format "r <| proj  ::=  f |>") : stdpp_scope.

(** ** Decimal text *)

Definition digit_char (d : Z) : ascii := ascii_of_nat (Z.to_nat (48 + d)).

Definition digit_val (c : ascii) : option Z :=
  let n := Z.of_nat (nat_of_ascii c) in
  if (48 <=? n) && (n <=? 57) then Some (n - 48) else None.

Fixpoint dec_go (fuel : nat) (n : Z) (acc : string) : string :=
  match fuel with
  | O => acc
  | S fuel =>
      let acc := String (digit_char (n mod 10)) acc in
      if n <? 10 then acc else dec_go fuel (n / 10) acc
  end.

(** [strconv.FormatUint(n, 10)]; one more than [log2 n] digits are enough. *)
Definition dec (n : Z) : string := dec_go (S (Z.to_nat (Z.log2 n))) n "".

Fixpoint undec_go (s : string) (acc : Z) : option Z :=
  match s with
  | EmptyString => Some acc
  | String c s =>
      match digit_val c with
      | Some d => undec_go s (acc * 10 + d)
      | None => None
      end
  end.

(** [strconv.ParseUint(s, 10, bits)]: no sign, at least one digit, in range. *)
Definition parse_uint (bits : Z) (s : string) : option Z :=
  match s with
  | EmptyString => None
  | _ => match undec_go s 0 with
         | Some n => if n <? 2 ^ bits then Some n else None
         | None => None
         end
  end.

(** ** Text helpers *)

Fixpoint str_all (p : ascii -> bool) (s : string) : bool :=
  match s with EmptyString => true | String c s => p c && str_all p s end.

(** Bytes of a text as numbers, and back. *)
Definition byte_of (c : ascii) : Z := Z.of_nat (nat_of_ascii c).
Definition char_of (b : Z) : ascii := ascii_of_nat (Z.to_nat b).
Definition bytes_of (s : string) : list Z := List.map byte_of (String.list_ascii_of_string s).
Definition text_of (l : list Z) : string := String.string_of_list_ascii (List.map char_of l).

(** [s[:n]] and [s[n:]] for an [n] within the text. *)
Fixpoint str_take (n : nat) (s : string) : string :=
  match n, s with S n, String c s => String c (str_take n s) | _, _ => "" end.
Fixpoint str_drop (n : nat) (s : string) : string :=
  match n, s with S n, String _ s => str_drop n s | _, _ => s end.

Fixpoint str_count (c : ascii) (s : string) : nat :=
  match s with
  | EmptyString => 0%nat
  | String d s => if Ascii.eqb c d then S (str_count c s) else str_count c s
  end.

(** [strings.Cut(s, sep)] for a one-byte separator. *)
Fixpoint str_cut (sep : ascii) (s : string) : string * string * bool :=
  match s with
  | EmptyString => ("", "", false)
  | String c s =>
      if Ascii.eqb c sep then ("", s, true)
      else let '(a, b, ok) := str_cut sep s in (String c a, b, ok)
  end.

Definition is_digit (c : ascii) : bool :=
  match digit_val c with Some _ => true | None => false end.
Definition in_range (lo hi : ascii) (c : ascii) : bool :=
  (nat_of_ascii lo <=? nat_of_ascii c)%nat && (nat_of_ascii c <=? nat_of_ascii hi)%nat.

(** [strings.TrimSpace]: the UTF-8 encodings of the runes of Unicode's
    [White_Space] property, stripped from both ends. *)
Definition bytes (l : list nat) : string :=
  String.string_of_list_ascii (List.map ascii_of_nat l).

Definition space_runes : list string :=
  List.map bytes
    ([[9]; [10]; [11]; [12]; [13]; [32]; [194; 133]; [194; 160]; [225; 154; 128];
      [226; 128; 168]; [226; 128; 169]; [226; 128; 175]; [226; 129; 159];
      [227; 128; 128]]
     ++ List.map (fun k => [226; 128; 128 + k]) (seq 0 11))%nat.

Fixpoint strip_prefix (p s : string) : option string :=
  match p, s with
  | EmptyString, _ => Some s
  | String a p, String b s => if Ascii.eqb a b then strip_prefix p s else None
  | _, EmptyString => None
  end.

Fixpoint strip_any (ps : list string) (s : string) : option string :=
  match ps with
  | [] => None
  | p :: ps => match strip_prefix p s with Some r => Some r | None => strip_any ps s end
  end.

Fixpoint trim_left (fuel : nat) (ps : list string) (s : string) : string :=
  match fuel with
  | O => s
  | S fuel => match strip_any ps s with Some r => trim_left fuel ps r | None => s end
  end.

Definition str_rev (s : string) : string :=
  String.string_of_list_ascii (rev (String.list_ascii_of_string s)).

Definition trim_space (s : string) : string :=
  let l := trim_left (String.length s) space_runes s in
  str_rev (trim_left (String.length l) (List.map str_rev space_runes) (str_rev l)).

(** ** Lemmas: integers *)

(** [lia] with division and remainder by constants. *)
Ltac dlia := Z.to_euclidean_division_equations; lia.

Lemma i64_id z : is_i64 z -> i64 z = z.
Proof. unfold is_i64, i64; intros; rewrite Z.mod_small by lia; lia. Qed.

Lemma u64_id z : is_u64 z -> u64 z = z.
Proof. unfold is_u64, u64; intros; apply Z.mod_small; lia. Qed.

Lemma i64_range z : is_i64 (i64 z).
Proof.
  unfold is_i64, i64. pose proof (Z.mod_pos_bound (z + 2 ^ 63) (2 ^ 64) ltac:(lia)). lia.
Qed.

Lemma u32_range z : 0 <= u32 z < 2 ^ 32.
Proof. apply Z.mod_pos_bound. lia. Qed.

Lemma u64_range z : is_u64 (u64 z).
Proof. unfold is_u64, u64. apply Z.mod_pos_bound. lia. Qed.

(** ** Lemmas: transactions *)

Lemma Ok_inj {A E} (a b : A) : @Ok E _ a = Ok b -> a = b.
Proof. by intros [=]. Qed.

Lemma Ok_pair_inj {S E A} (a b : A) (s s' : S) : @Ok E _ (a, s) = Ok (b, s') -> a = b /\ s = s'.
Proof. by intros [=]. Qed.

Lemma res_bind_ok {E A B} (m : result E A) (f : A -> result E B) b :
  m ≫= f = Ok b -> exists a, m = Ok a /\ f a = Ok b.
Proof. destruct m as [a|]; [eauto|discriminate]. Qed.

(** The first step of a computation that succeeded: its value and equation. *)
Tactic Notation "res_step" hyp(H) "as" simple_intropattern(x) simple_intropattern(Hx) :=
  apply res_bind_ok in H as (x & Hx & H).

Lemma tx_bind_ok {S E A B} (m : tx S E A) (f : A -> tx S E B) s b s2 :
  mbind f m s = Ok (b, s2) ->
  exists a s1, m s = Ok (a, s1) /\ f a s1 = Ok (b, s2).
Proof. unfold mbind, tx_mbind, tx_bind. destruct (m s) as [[a s1]|]; eauto; discriminate. Qed.

Lemma tx_guard_ok {S E} (b : bool) (e : E) (s s' : S) u :
  tx_guard b e s = Ok (u, s') -> b = false /\ s' = s.
Proof. destruct b; cbn; [discriminate|]. intros [= _ <-]. auto. Qed.

(** [tx_inv H] turns the success of a transaction body into the successes of
    its statements, and the equations of the guards it passed. *)
Ltac tx_inv H :=
  lazymatch type of H with
  | mbind _ _ _ = Ok (_, _) =>
      let a := fresh "a" in let s := fresh "s" in
      let H1 := fresh "H" in let H2 := fresh "H" in
      apply tx_bind_ok in H as (a & s & H1 & H2); tx_inv H1; tx_inv H2
  | tx_guard _ _ _ = Ok (_, _) =>
      let H1 := fresh "Hg" in apply tx_guard_ok in H as [H1 H]; subst
  | tx_ret _ _ = Ok (_, _) => cbv [tx_ret] in H; injection H as ??; subst
  | mret _ _ = Ok (_, _) => cbv [mret tx_mret tx_ret] in H; injection H as ??; subst
  | tx_gets _ _ = Ok (_, _) => cbv [tx_gets] in H; injection H as ??; subst
  | tx_modify _ _ = Ok (_, _) => cbv [tx_modify] in H; injection H as ??; subst
  | tx_fail _ _ = Ok (_, _) => discriminate H
  | _ => idtac
  end.

(** [tx_run] runs the leading statements of a transaction body. *)
Ltac tx_run :=
  cbv [mbind tx_mbind mret tx_mret tx_bind tx_ret tx_gets tx_modify tx_fail tx_guard tx_when].

(** A property of stores preserved by every element is preserved by the loop. *)
Lemma tx_iter_inv {S E A} (P : S -> Prop) (f : A -> tx S E unit) l s u s' :
  (forall x s u s', x ∈ l -> P s -> f x s = Ok (u, s') -> P s') ->
  P s -> tx_iter f l s = Ok (u, s') -> P s'.
Proof.
  revert s. induction l as [|x l IH]; intros s Hf Hs H; cbn in H.
  - by injection H as _ <-.
  - apply tx_bind_ok in H as (a & s1 & H1 & H2).
    eapply IH; [intros; eapply Hf; [right|..]; eauto| |exact H2].
    eapply Hf; [left|..]; eauto.
Qed.

(** Outcomes of an effect: [Q] of its results, [X] of the states it fails in. *)
Definition acts {S E A} (Q : A -> S -> Prop) (X : E -> S -> Prop) (m : act S E A) (s : S) : Prop :=
  match m s with (Ok a, s') => Q a s' | (Err e, s') => X e s' end.

Lemma acts_bind {S E A B} (Q : A -> S -> Prop) (R : B -> S -> Prop) (X : E -> S -> Prop)
    (m : act S E A) (f : A -> act S E B) s :
  acts Q X m s -> (forall a s', Q a s' -> acts R X (f a) s') -> acts R X (m ≫= f) s.
Proof.
  unfold acts, mbind, act_mbind, act_bind. destruct (m s) as [[a|e] s']; [|done].
  intros HQ Hf. by apply Hf.
Qed.

Lemma acts_ret {S E A} (Q : A -> S -> Prop) (X : E -> S -> Prop) a s : Q a s -> acts Q X (mret a) s.
Proof. done. Qed.

Lemma acts_weaken {S E A} (Q R : A -> S -> Prop) (X Y : E -> S -> Prop) (m : act S E A) s :
  acts Q X m s -> (forall a s', Q a s' -> R a s') -> (forall e s', X e s' -> Y e s') -> acts R Y m s.
Proof. unfold acts. destruct (m s) as [[a|e] s']; auto. Qed.

(** An invariant of every element's effect is one of the loop. *)
Lemma acts_iter {S E A} (I : S -> Prop) (f : A -> act S E unit) l s :
  I s -> (forall x s, x ∈ l -> I s -> acts (fun _ => I) (fun _ => I) (f x) s) ->
  acts (fun _ => I) (fun _ => I) (act_iter f l) s.
Proof.
  revert s. induction l as [|x l IH]; intros s Hs Hf; [done|]. cbn [act_iter].
  apply (acts_bind (fun _ => I)).
  - apply Hf; [apply list_elem_of_here|done].
  - intros _ s' Hs'. apply IH; [done|]. intros y t Hy. apply Hf. by apply list_elem_of_further.
Qed.

(** ** Lemmas: decimal text *)

Lemma digit_val_char d : 0 <= d < 10 -> digit_val (digit_char d) = Some d.
Proof.
  intros H. assert (exists k : nat, d = Z.of_nat k /\ (k < 10)%nat) as (k & -> & Hk).
  { exists (Z.to_nat d). lia. }
  do 10 (destruct k as [|k]; [reflexivity|]). lia.
Qed.

Lemma undec_dec_go fuel n acc :
  0 <= n < 10 ^ Z.of_nat fuel -> (0 < fuel)%nat ->
  undec_go (dec_go fuel n acc) 0 = undec_go acc n.
Proof.
  revert n acc. induction fuel as [|fuel IH]; [lia|]. intros n acc Hn _. cbn [dec_go].
  pose proof (Z.mod_pos_bound n 10 ltac:(lia)). pose proof (Z.div_mod n 10 ltac:(lia)).
  destruct (Z.ltb_spec n 10).
  - cbn [undec_go]. rewrite digit_val_char by lia. f_equal. rewrite Z.mod_small; lia.
  - rewrite Nat2Z.inj_succ, Z.pow_succ_r in Hn by lia.
    rewrite IH; [|split; [apply Z.div_pos; lia|apply Z.div_lt_upper_bound; lia]|].
    + cbn [undec_go]. rewrite digit_val_char by lia. f_equal. lia.
    + destruct fuel; [cbn in Hn; lia|lia].
Qed.

Lemma dec_fuel n : 0 <= n -> n < 10 ^ Z.of_nat (S (Z.to_nat (Z.log2 n))).
Proof.
  intros Hn. rewrite Nat2Z.inj_succ, Z2Nat.id by apply Z.log2_nonneg.
  apply Z.lt_le_trans with (2 ^ Z.succ (Z.log2 n)).
  - destruct (Z.eq_dec n 0) as [->|]; [reflexivity|]. apply Z.log2_spec. lia.
  - apply Z.pow_le_mono_l. pose proof (Z.log2_nonneg n). lia.
Qed.

Lemma undec_dec n : 0 <= n -> undec_go (dec n) 0 = Some n.
Proof.
  intros Hn. unfold dec. rewrite undec_dec_go; [done|split; [done|by apply dec_fuel]|lia].
Qed.

Lemma dec_go_cons fuel n acc : (0 < fuel)%nat -> exists c s, dec_go fuel n acc = String c s.
Proof.
  revert n acc. induction fuel as [|fuel IH]; [lia|]. intros n acc _. cbn.
  destruct (n <? 10); [eauto|]. destruct fuel; [eauto|]. apply IH. lia.
Qed.

Lemma parse_uint_dec bits n : 0 <= n < 2 ^ bits -> parse_uint bits (dec n) = Some n.
Proof.
  intros Hn. unfold parse_uint.
  destruct (dec_go_cons (S (Z.to_nat (Z.log2 n))) n "") as (c & s & E); [lia|].
  change (dec n = String c s) in E. rewrite E, <- E, undec_dec by lia.
  by rewrite (proj2 (Z.ltb_lt _ _)) by lia.
Qed.

Lemma digit_char_is_digit d : 0 <= d < 10 -> is_digit (digit_char d) = true.
Proof. intros H. unfold is_digit. by rewrite digit_val_char. Qed.

Lemma str_all_dec_go fuel n acc :
  0 <= n -> str_all is_digit acc = true -> str_all is_digit (dec_go fuel n acc) = true.
Proof.
  revert n acc. induction fuel as [|fuel IH]; [done|]. intros n acc Hn Ha. cbn [dec_go].
  pose proof (Z.mod_pos_bound n 10 ltac:(lia)).
  assert (str_all is_digit (String (digit_char (n mod 10)) acc) = true) as Hs.
  { cbn. by rewrite digit_char_is_digit, Ha by lia. }
  destruct (n <? 10); [done|]. apply IH; [apply Z.div_pos; lia|done].
Qed.

Lemma str_all_dec n : 0 <= n -> str_all is_digit (dec n) = true.
Proof. intros. by apply str_all_dec_go. Qed.

Lemma undec_go_digits s acc : str_all is_digit s = true -> is_Some (undec_go s acc).
Proof.
  revert acc. induction s as [|c s IH]; intros acc; cbn; [eauto|].
  unfold is_digit at 1. destruct (digit_val c); cbn; [auto|discriminate].
Qed.

Lemma str_take_app a b : str_take (String.length a) (a +:+ b) = a.
Proof. induction a as [|c a IH]; cbn; congruence. Qed.

Lemma str_drop_app a b : str_drop (String.length a) (a +:+ b) = b.
Proof. induction a as [|c a IH]; cbn; [done|apply IH]. Qed.

Lemma str_length_app a b : String.length (a +:+ b) = (String.length a + String.length b)%nat.
Proof. induction a as [|c a IH]; cbn; congruence. Qed.

Lemma length_text_of l : String.length (text_of l) = length l.
Proof. unfold text_of. induction l; cbn; congruence. Qed.

Lemma length_bytes_of s : length (bytes_of s) = String.length s.
Proof. unfold bytes_of. induction s; cbn; congruence. Qed.

Lemma char_of_byte c : char_of (byte_of c) = c.
Proof. unfold char_of, byte_of. by rewrite Nat2Z.id, ascii_nat_embedding. Qed.

Lemma text_of_bytes s : text_of (bytes_of s) = s.
Proof. unfold text_of, bytes_of. induction s as [|c s IH]; cbn; [done|]. by rewrite char_of_byte, IH. Qed.

Lemma bytes_of_range s : Forall (fun b => 0 <= b < 256) (bytes_of s).
Proof.
  unfold bytes_of. induction s as [|c s IH]; cbn; constructor; [|done].
  unfold byte_of. pose proof (nat_ascii_bounded c). lia.
Qed.

Lemma str_cut_app sep a b :
  str_all (fun c => negb (Ascii.eqb c sep)) a = true ->
  str_cut sep (a +:+ String sep b) = (a, b, true).
Proof.
  induction a as [|c a IH]; cbn.
  - by rewrite Ascii.eqb_refl.
  - intros [H1 H2]%andb_prop. rewrite (proj1 (negb_true_iff _) H1). by rewrite IH.
Qed.

Lemma str_all_weaken (p q : ascii -> bool) s :
  (forall c, p c = true -> q c = true) -> str_all p s = true -> str_all q s = true.
Proof. intros H. induction s as [|c s IH]; cbn; [done|]. intros [H1 H2]%andb_prop. by rewrite H, IH. Qed.

Lemma dec_not_sep sep n : is_digit sep = false -> 0 <= n ->
  str_all (fun c => negb (Ascii.eqb c sep)) (dec n) = true.
Proof.
  intros Hs Hn. eapply str_all_weaken; [|by apply str_all_dec].
  intros c Hc. destruct (Ascii.eqb_spec c sep) as [->|]; [congruence|done].
Qed.

Lemma str_all_app p s t : str_all p (s +:+ t) = str_all p s && str_all p t.
Proof. induction s as [|c s IH]; cbn; [done|]. by rewrite IH, andb_assoc. Qed.

Lemma undec_go_nonneg s acc w : 0 <= acc -> undec_go s acc = Some w -> 0 <= w.
Proof.
  revert acc. induction s as [|c s IH]; intros acc Ha; cbn; [by intros [= <-]|].
  destruct (digit_val c) as [d|] eqn:E; [|done]. apply IH.
  unfold digit_val in E. destruct (_ && _) eqn:E'; [|done]. injection E as <-. lia.
Qed.

Lemma parse_uint_range bits s n : parse_uint bits s = Some n -> 0 <= n < 2 ^ bits.
Proof.
  unfold parse_uint. destruct s as [|c s]; [done|].
  destruct (undec_go (String c s) 0) as [w|] eqn:E; [|done].
  destruct (Z.ltb_spec w (2 ^ bits)); [|done]. intros [= <-].
  split; [by eapply undec_go_nonneg in E|done].
Qed.

(** ** Lemmas: filters *)

Lemma filter_none {A} (P : A -> Prop) `{forall x, Decision (P x)} (l : list A) :
  (forall x, x ∈ l -> ~ P x) -> filter P l = [].
Proof.
  induction l as [|x l IH]; intros Hl; [done|].
  rewrite filter_cons_False by (apply Hl; left). apply IH. intros y Hy. apply Hl. by right.
Qed.

Lemma filter_all {A} (P : A -> Prop) `{forall x, Decision (P x)} (l : list A) :
  (forall x, x ∈ l -> P x) -> filter P l = l.
Proof.
  induction l as [|x l IH]; intros Hl; [done|].
  rewrite filter_cons_True by (apply Hl; left). f_equal. apply IH. intros y Hy. apply Hl. by right.
Qed.

(** ** Lemmas: the rows of a table *)

Lemma elem_of_values `{Countable K} {V} (m : gmap K V) v :
  v ∈ (map_to_list m).*2 <-> exists k, m !! k = Some v.
Proof.
  rewrite list_elem_of_fmap. split.
  - intros ([k w] & -> & Hk). exists k. by apply elem_of_map_to_list.
  - intros [k Hk]. exists (k, v). by rewrite elem_of_map_to_list.
Qed.

Lemma existsb_values `{Countable K} {V} (p : V -> bool) (m : gmap K V) :
  existsb p (map_to_list m).*2 = true <-> exists k v, m !! k = Some v /\ p v = true.
Proof.
  rewrite existsb_exists. setoid_rewrite <-list_elem_of_In.
  setoid_rewrite elem_of_values. split.
  - intros (v & [k Hk] & Hv). by exists k, v.
  - intros (k & v & Hk & Hv). exists v. eauto.
Qed.

Lemma existsb_values_false `{Countable K} {V} (p : V -> bool) (m : gmap K V) :
  existsb p (map_to_list m).*2 = false <-> forall k v, m !! k = Some v -> p v = false.
Proof.
  rewrite <-not_true_iff_false, existsb_values. split.
  - intros Hn k v Hk. destruct (p v) eqn:E; [|done]. exfalso. eauto.
  - intros Hp (k & v & Hk & Hv). by rewrite (Hp k v Hk) in Hv.
Qed.

(** ** Lemmas: the order of texts (byte order, as SQLite's BINARY collation) *)

Lemma ascii_compare_N a b : Ascii.compare a b = N.compare (N_of_ascii a) (N_of_ascii b).
Proof. done. Qed.

Lemma str_leb_trans a b c : String.leb a b = true -> String.leb b c = true -> String.leb a c = true.
Proof.
  unfold String.leb. revert b c. induction a as [|x a IH]; intros [|y b] [|z c]; cbn; try done.
  rewrite !ascii_compare_N.
  destruct (N.compare_spec (N_of_ascii x) (N_of_ascii y)) as [E1|E1|E1]; [| |done];
    destruct (N.compare_spec (N_of_ascii y) (N_of_ascii z)) as [E2|E2|E2]; try done; intros H1 H2.
  - rewrite E1, E2, N.compare_refl. by apply (IH b).
  - rewrite E1. by rewrite (proj2 (N.compare_lt_iff _ _) E2).
  - rewrite <- E2. by rewrite (proj2 (N.compare_lt_iff _ _) E1).
  - by rewrite (proj2 (N.compare_lt_iff _ _) (N.lt_trans _ _ _ E1 E2)).
Qed.

Lemma str_ltb_leb a b : String.ltb a b = negb (String.leb b a).
Proof.
  unfold String.ltb, String.leb. rewrite (String.compare_antisym a b).
  by destruct (String.compare b a).
Qed.

Lemma str_leb_refl a : String.leb a a = true.
Proof. by destruct (String.leb_total a a). Qed.
