(* ===== verification/GoText.v ===== *)
(** * Numbers, booleans and lists as texts ([strconv], [strings])

    The conversions the settings, the reconciler's report and the network
    parsers share: signed decimals, booleans, splitting and joining, and their
    round trips. *)
From stdpp Require Import base tactics strings list.
From Stdlib Require Import ZArith Lia Ascii.
From Stdlib Require String.
From S2P Require Import Prelude.

Open Scope Z_scope.

(** ** Definitions *)

(** [strconv.FormatInt(n, 10)], [%d]. *)
Definition int_text (z : Z) : string := if z <? 0 then "-" +:+ dec (- z) else dec z.
(** [strconv.FormatBool]. *)
Definition bool_text (b : bool) : string := if b then "true" else "false".

(** [strconv.ParseInt(s, 10, 64)]: one optional sign, digits, in range. *)
Definition parse_int64 (s : string) : option Z :=
  match s with
  | String "-" s =>
      match parse_uint 64 s with Some n => if n <=? 2 ^ 63 then Some (- n) else None | None => None end
  | String "+" s | s =>
      match parse_uint 64 s with Some n => if n <? 2 ^ 63 then Some n else None | None => None end
  end.

(** [strconv.ParseBool]. *)
Definition parse_bool (s : string) : option bool :=
  if existsb (String.eqb s) ["1"; "t"; "T"; "true"; "TRUE"; "True"] then Some true
  else if existsb (String.eqb s) ["0"; "f"; "F"; "false"; "FALSE"; "False"] then Some false
  else None.

(** [strings.Split(s, sep)] for a one-byte separator. *)
Fixpoint str_split (sep : ascii) (s : string) : list string :=
  match s with
  | EmptyString => [""]
  | String c s =>
      if Ascii.eqb c sep then "" :: str_split sep s
      else match str_split sep s with x :: l => String c x :: l | [] => [] end
  end.

(** [strings.Join]. *)
Fixpoint str_join (sep : string) (l : list string) : string :=
  match l with [] => "" | [s] => s | s :: l => s +:+ sep +:+ str_join sep l end.

(** [strings.ToLower] on the ASCII letters. *)
Definition lower_char (c : ascii) : ascii := if in_range "A" "Z" c then char_of (byte_of c + 32) else c.
Fixpoint str_lower (s : string) : string :=
  match s with EmptyString => "" | String c s => String (lower_char c) (str_lower s) end.

(** [strings.LastIndexByte] as a cut: before and after the last separator. *)
Fixpoint str_cut_last (sep : ascii) (s : string) : option (string * string) :=
  match s with
  | EmptyString => None
  | String c s =>
      match str_cut_last sep s with
      | Some (a, b) => Some (String c a, b)
      | None => if Ascii.eqb c sep then Some ("", s) else None
      end
  end.

Definition has_char (c : ascii) (s : string) : bool := negb (str_all (fun d => negb (Ascii.eqb d c)) s).
Definition has_prefix (p s : string) : bool := match strip_prefix p s with Some _ => true | None => false end.

(** [strings.TrimSuffix(s, c)] for a one-byte suffix; [strings.HasSuffix]. *)
Fixpoint trim_suffix (c : ascii) (s : string) : string :=
  match s with
  | EmptyString => ""
  | String d EmptyString => if Ascii.eqb d c then "" else s
  | String d s => String d (trim_suffix c s)
  end.
Definition has_suffix (c : ascii) (s : string) : bool := negb (String.eqb (trim_suffix c s) s).

(** ** Lemmas *)

Lemma parse_int64_text n : is_i64 n -> parse_int64 (int_text n) = Some n.
Proof.
  unfold is_i64, int_text. intros Hn. destruct (Z.ltb_spec n 0) as [H|H].
  - cbn [String.append parse_int64]. rewrite parse_uint_dec by lia.
    rewrite (proj2 (Z.leb_le _ _)) by lia. f_equal. lia.
  - unfold parse_int64. pose proof (str_all_dec n H) as Hd.
    pose proof (parse_uint_dec 64 n ltac:(lia)) as Hp.
    destruct (dec n) as [|c s]; [done|]. cbn in Hd.
    destruct c as [[] [] [] [] [] [] [] []]; try discriminate Hd;
      rewrite Hp, (proj2 (Z.ltb_lt _ _)) by lia; done.
Qed.

Lemma parse_bool_text b : parse_bool (bool_text b) = Some b.
Proof. by destruct b. Qed.

Lemma parse_int64_range s n : parse_int64 s = Some n -> is_i64 n.
Proof.
  unfold is_i64. assert (forall t, match parse_uint 64 t with Some n => if n <? 2 ^ 63 then Some n else None | None => None end = Some n ->
    - 2 ^ 63 <= n < 2 ^ 63) as Hpos.
  { intros t. destruct (parse_uint 64 t) as [m|] eqn:E; [|done]. apply parse_uint_range in E.
    destruct (Z.ltb_spec m (2 ^ 63)); [|done]. intros [= <-]. lia. }
  assert (forall t, match parse_uint 64 t with Some n => if n <=? 2 ^ 63 then Some (- n) else None | None => None end = Some n ->
    - 2 ^ 63 <= n < 2 ^ 63) as Hneg.
  { intros t. destruct (parse_uint 64 t) as [m|] eqn:E; [|done]. apply parse_uint_range in E.
    destruct (Z.leb_spec m (2 ^ 63)); [|done]. intros [= <-]. lia. }
  unfold parse_int64. destruct s as [|c s]; [by apply (Hpos "")|].
  destruct c as [[] [] [] [] [] [] [] []]; first [by apply Hneg | by apply Hpos].
Qed.

Lemma int_text_nonempty n : int_text n <> "".
Proof.
  unfold int_text. destruct (n <? 0); [done|]. unfold dec.
  by destruct (dec_go_cons (S (Z.to_nat (Z.log2 n))) n "" ltac:(lia)) as (c & s & ->).
Qed.

Lemma str_split_nil sep s : str_split sep s <> [].
Proof. induction s as [|c s IH]; [done|]. cbn. destruct (Ascii.eqb c sep); [done|]. by destruct (str_split sep s). Qed.

(** Joining what was split gives the text back. *)
Lemma str_join_split sep s : str_join (String sep "") (str_split sep s) = s.
Proof.
  induction s as [|c s IH]; [done|]. cbn. destruct (Ascii.eqb_spec c sep) as [->|Hc].
  - pose proof (str_split_nil sep s). destruct (str_split sep s) as [|x l]; [done|]. cbn in *. by rewrite IH.
  - pose proof (str_split_nil sep s). destruct (str_split sep s) as [|x [|y l]]; [done| |]; cbn in *; by rewrite <-IH.
Qed.

(** Every character of a part is one of the text. *)
Lemma str_split_all (p : ascii -> bool) sep s :
  p sep = true -> Forall (fun x => str_all p x = true) (str_split sep s) -> str_all p s = true.
Proof.
  intros Hp. induction s as [|c s IH]; [done|]. cbn. destruct (Ascii.eqb_spec c sep) as [->|Hc].
  - intros [_ H]%Forall_cons. by rewrite Hp, IH.
  - destruct (str_split sep s) as [|x l] eqn:E; [by apply str_split_nil in E|].
    intros [[H1 H2]%andb_prop H]%Forall_cons. cbn. rewrite H1, IH; [done|]. by constructor.
Qed.

Lemma str_cut_last_app sep s a b : str_cut_last sep s = Some (a, b) -> s = a +:+ String sep b.
Proof.
  revert a. induction s as [|c s IH]; intros a; [done|]. cbn.
  destruct (str_cut_last sep s) as [[x y]|]; [intros [= <- <-]; cbn; by rewrite <-(IH x)|].
  destruct (Ascii.eqb_spec c sep) as [->|]; [|done]. by intros [= <- <-].
Qed.

Lemma trim_suffix_all (p : ascii -> bool) c s : p c = true -> str_all p (trim_suffix c s) = true -> str_all p s = true.
Proof.
  intros Hp. induction s as [|d [|e s] IH]; [done| |].
  - cbn. destruct (Ascii.eqb_spec d c) as [->|]; [by rewrite Hp|done].
  - change (trim_suffix c (String d (String e s))) with (String d (trim_suffix c (String e s))). cbn [str_all] in *.
    intros [H1 H2]%andb_prop. by rewrite H1, IH.
Qed.
