(* ===== verification/GoTime.v ===== *)
(** * Instants, durations and their stored text

    An instant ([time.Time] in UTC) is a number of nanoseconds since the Unix
    epoch; a [time.Duration] is an [int64] of nanoseconds.  The services store
    instants as [t.UTC().Format(time.RFC3339Nano)] text: columns keep the
    instant here, and the SQL comparisons that the code makes on the text are
    made on [rfc3339nano], byte by byte as SQLite's BINARY collation does. *)
From stdpp Require Import base tactics strings gmap list.
From Stdlib Require Import ZArith Lia Ascii.
From Stdlib Require String.
From S2P Require Import Prelude.

Open Scope Z_scope.

(** ** Durations *)

Definition second : Z := 1000000000.
Definition hour : Z := 3600 * second.
Definition day : Z := 24 * hour.

(** [time.Duration(n) * time.Second]: the product of two [int64]s wraps. *)
Definition seconds (n : Z) : Z := i64 (n * second).

(** [t.Add(d)]. *)
Definition time_add (t d : Z) : Z := t + d.

(** [t.Truncate(d)]: down to a multiple of [d] since the zero time, 1 January
    of the year 1. *)
Definition zero_time_offset : Z := 62135596800 * second.
Definition truncate (t d : Z) : Z :=
  if d <=? 0 then t else t - (t + zero_time_offset) mod d.

(** ** The proleptic Gregorian calendar of package time *)

(** The year (from 1) and the day of the year (from 0) of a day number. *)
Definition year_yday (d : Z) : Z * Z :=
  let d := d + 719162 in
  let n400 := d / 146097 in
  let d := d mod 146097 in
  let n100 := Z.min 3 (d / 36524) in
  let d := d - 36524 * n100 in
  let n4 := d / 1461 in
  let d := d - 1461 * n4 in
  let n1 := Z.min 3 (d / 365) in
  (400 * n400 + 100 * n100 + 4 * n4 + n1 + 1, d - 365 * n1).

Definition is_leap (y : Z) : bool :=
  (y mod 4 =? 0) && (negb (y mod 100 =? 0) || (y mod 400 =? 0)).

Definition month_lengths (leap : bool) : list Z :=
  [31; if leap then 29 else 28; 31; 30; 31; 30; 31; 31; 30; 31; 30; 31].

Fixpoint month_day_go (ls : list Z) (m d : Z) : Z * Z :=
  match ls with
  | [] => (m, d + 1)
  | l :: ls => if d <? l then (m, d + 1) else month_day_go ls (m + 1) (d - l)
  end.
Definition month_day (leap : bool) (yday : Z) : Z * Z :=
  month_day_go (month_lengths leap) 1 yday.

(** ** [Format(time.RFC3339Nano)] *)

(** Exactly [w] decimal digits. *)
Fixpoint fixed (w : nat) (n : Z) : string :=
  match w with
  | O => ""
  | S w => fixed w (n / 10) +:+ String (digit_char (n mod 10)) ""
  end.

Definition year_text (y : Z) : string :=
  if (0 <=? y) && (y <? 10000) then fixed 4 y
  else if y <? 0 then "-" +:+ fixed 4 (- y) else dec y.

(** The fraction of [.999999999]: trailing zeros dropped, nothing when zero. *)
Fixpoint frac_go (w : nat) (n : Z) : string :=
  match w with
  | O => ""
  | S w => if n mod 10 =? 0 then frac_go w (n / 10)
           else fixed w (n / 10) +:+ String (digit_char (n mod 10)) ""
  end.
Definition frac_text (ns : Z) : string :=
  if ns =? 0 then "" else "." +:+ frac_go 9 ns.

Definition date_text (d : Z) : string :=
  let '(y, yday) := year_yday d in
  let '(m, d) := month_day (is_leap y) yday in
  year_text y +:+ "-" +:+ fixed 2 m +:+ "-" +:+ fixed 2 d.

Definition clock_text (sod : Z) : string :=
  fixed 2 (sod / 3600) +:+ ":" +:+ fixed 2 (sod / 60 mod 60) +:+ ":" +:+
  fixed 2 (sod mod 60).

Definition rfc3339nano (t : Z) : string :=
  let s := t / second in
  (date_text (s / 86400) +:+ "T" +:+ clock_text (s mod 86400)) +:+
  frac_text (t mod second) +:+ "Z".

(** SQLite's [<] and [<=] on TEXT columns. *)
Definition text_lt (a b : string) : bool :=
  match String.compare a b with Lt => true | _ => false end.
Definition text_le (a b : string) : bool :=
  match String.compare a b with Gt => false | _ => true end.

(** [col < ?] with both sides stored instants. *)
Definition stored_lt (a b : Z) : bool := text_lt (rfc3339nano a) (rfc3339nano b).

(** ** Lemmas: text comparison *)

Lemma string_app_assoc (a b c : string) : (a +:+ b) +:+ c = a +:+ (b +:+ c).
Proof. induction a as [|x a IH]; [done|]. cbn. by f_equal. Qed.

Lemma compare_refl s : String.compare s s = Eq.
Proof.
  induction s as [|c s IH]; [done|]. cbn. unfold Ascii.compare.
  by rewrite N.compare_refl.
Qed.

Lemma compare_app a b c d :
  String.length a = String.length b ->
  String.compare (a +:+ c) (b +:+ d) =
    match String.compare a b with Eq => String.compare c d | r => r end.
Proof.
  revert b. induction a as [|x a IH]; intros [|y b] H; try discriminate; [done|].
  cbn. destruct (Ascii.compare x y); try done. apply IH. by injection H.
Qed.

Lemma string_app_length a b :
  String.length (a +:+ b) = (String.length a + String.length b)%nat.
Proof. induction a as [|x a IH]; [done|]. cbn. by f_equal. Qed.

Lemma fixed_length w n : String.length (fixed w n) = w.
Proof.
  revert n. induction w as [|w IH]; intros n; [done|]. cbn.
  rewrite string_app_length, IH. cbn. lia.
Qed.

Lemma compare_digit a b :
  0 <= a < 10 -> 0 <= b < 10 ->
  String.compare (String (digit_char a) "") (String (digit_char b) "") = (a ?= b).
Proof.
  assert (forall k, 0 <= k < 10 -> k ∈ [0;1;2;3;4;5;6;7;8;9]) as H.
  { intros k Hk. rewrite list_elem_of_In. cbn. lia. }
  intros Ha%H Hb%H. revert a Ha. rewrite <-Forall_forall. revert b Hb.
  rewrite <-Forall_forall. repeat constructor.
Qed.

Lemma compare_fixed w a b :
  0 <= a < 10 ^ Z.of_nat w -> 0 <= b < 10 ^ Z.of_nat w ->
  String.compare (fixed w a) (fixed w b) = (a ?= b).
Proof.
  revert a b. induction w as [|w IH]; intros a b Ha Hb.
  { cbn in *. by replace a with b by lia; rewrite Z.compare_refl. }
  rewrite Nat2Z.inj_succ, Z.pow_succ_r in Ha, Hb by lia.
  cbn [fixed]. rewrite compare_app by by rewrite !fixed_length.
  pose proof (Z.mod_pos_bound a 10 ltac:(lia)). pose proof (Z.mod_pos_bound b 10 ltac:(lia)).
  pose proof (Z.div_mod a 10 ltac:(lia)). pose proof (Z.div_mod b 10 ltac:(lia)).
  rewrite IH by (split; [apply Z.div_pos; lia|apply Z.div_lt_upper_bound; lia]).
  rewrite compare_digit by done.
  destruct (Z.compare_spec (a / 10) (b / 10)); symmetry.
  - destruct (Z.compare_spec (a mod 10) (b mod 10)).
    + apply Z.compare_eq_iff. lia.
    + apply Z.compare_lt_iff. lia.
    + apply Z.compare_gt_iff. lia.
  - apply Z.compare_lt_iff. lia.
  - apply Z.compare_gt_iff. lia.
Qed.

Lemma compare_fixed_app w a b x y :
  0 <= a < 10 ^ Z.of_nat w -> 0 <= b < 10 ^ Z.of_nat w ->
  String.compare (fixed w a +:+ x) (fixed w b +:+ y) =
    match a ?= b with Eq => String.compare x y | r => r end.
Proof. intros. rewrite compare_app by by rewrite !fixed_length. by rewrite compare_fixed. Qed.

(** ** Lemmas: the calendar *)

(** Days before the year [y], counted from 1 January of the year 1. *)
Definition year_start (y : Z) : Z :=
  365 * (y - 1) + (y - 1) / 4 - (y - 1) / 100 + (y - 1) / 400.

Lemma year_yday_spec d y k :
  year_yday d = (y, k) ->
  d + 719162 = year_start y + k /\ 0 <= k < 365 + (if is_leap y then 1 else 0).
Proof.
  unfold year_yday, year_start. intros [= <- <-].
  set (e := d + 719162).
  pose proof (Z.div_mod e 146097 ltac:(lia)).
  pose proof (Z.mod_pos_bound e 146097 ltac:(lia)).
  set (q := e / 146097) in *. set (r := e mod 146097) in *. clearbody q r.
  set (n100 := Z.min 3 (r / 36524)).
  assert (0 <= n100 <= 3 /\ 0 <= r - 36524 * n100 <= 36524 /\
          (n100 < 3 -> r - 36524 * n100 < 36524)) as (Hn & Hr & Hr') by (subst n100; dlia).
  clearbody n100. set (r1 := r - 36524 * n100) in *.
  set (n4 := r1 / 1461).
  assert (0 <= n4 <= 24 /\ 0 <= r1 - 1461 * n4 < 1461 /\
     (n4 = 24 -> n100 < 3 -> r1 - 1461 * n4 < 1460)) as (Hm & Hs & Hs') by (subst n4; dlia).
  clearbody n4. set (r2 := r1 - 1461 * n4) in *.
  set (n1 := Z.min 3 (r2 / 365)).
  assert (0 <= n1 <= 3 /\ 0 <= r2 - 365 * n1 <= 365 /\ (n1 < 3 -> r2 - 365 * n1 < 365))
    as (Hk & Hu & Hu') by (subst n1; dlia).
  clearbody n1. 
  assert ((400 * q + 100 * n100 + 4 * n4 + n1 + 1 - 1) / 4 = 100 * q + 25 * n100 + n4) as E4 by dlia.
  assert ((400 * q + 100 * n100 + 4 * n4 + n1 + 1 - 1) / 100 = 4 * q + n100) as E100 by dlia.
  assert ((400 * q + 100 * n100 + 4 * n4 + n1 + 1 - 1) / 400 = q) as E400 by dlia.
  rewrite E4, E100, E400. split; [lia|].
  split; [lia|]. unfold is_leap.
  set (y := 400 * q + 100 * n100 + 4 * n4 + n1 + 1).
  destruct (Z.eqb_spec (y mod 4) 0), (Z.eqb_spec (y mod 100) 0), (Z.eqb_spec (y mod 400) 0);
    cbn; subst y; dlia.
Qed.

Lemma year_yday_mono d1 d2 y1 k1 y2 k2 :
  year_yday d1 = (y1, k1) -> year_yday d2 = (y2, k2) -> d1 < d2 ->
  y1 < y2 \/ (y1 = y2 /\ k1 < k2).
Proof.
  intros [E1 H1]%year_yday_spec [E2 H2]%year_yday_spec Hd.
  destruct (Z.lt_trichotomy y1 y2) as [?|[->|Hy]]; [by left|right; lia|exfalso].
  assert (year_start y2 + 365 + (if is_leap y2 then 1 else 0) <= year_start y1); [|lia].
  assert (forall y, year_start y + 365 + (if is_leap y then 1 else 0) = year_start (y + 1)) as Hs.
  { intros y. unfold year_start, is_leap.
    destruct (Z.eqb_spec (y mod 4) 0), (Z.eqb_spec (y mod 100) 0), (Z.eqb_spec (y mod 400) 0);
      cbn; dlia. }
  rewrite Hs. replace y1 with (y2 + 1 + (y1 - y2 - 1)) by lia.
  generalize (y1 - y2 - 1) (ltac:(lia) : 0 <= y1 - y2 - 1). intros n Hn. unfold year_start. dlia.
Qed.

(** The position of a month and day within the year, checked day by day. *)
Definition month_day_key (leap : bool) (k : Z) : Z :=
  let '(m, d) := month_day leap k in 100 * m + d.

Fixpoint Z_upto (n : nat) (k : Z) (p : Z -> bool) : bool :=
  match n with O => true | S n => p k && Z_upto n (k + 1) p end.

Lemma Z_upto_spec n k p : Z_upto n k p = true ->
  forall i, k <= i < k + Z.of_nat n -> p i = true.
Proof.
  revert k. induction n as [|n IH]; intros k; [lia|]. cbn. intros [H1 H2]%andb_prop i Hi.
  destruct (Z.eq_dec i k) as [->|]; [done|]. apply (IH (k + 1)); [done|lia].
Qed.

Lemma month_day_bounds leap k : 0 <= k < 366 ->
  1 <= (month_day leap k).1 <= 13 /\ 1 <= (month_day leap k).2 <= 31.
Proof.
  intros Hk.
  assert (Z_upto 366 0 (fun k => let '(m, d) := month_day leap k in
    (1 <=? m) && (m <=? 13) && (1 <=? d) && (d <=? 31)) = true) as H
    by by destruct leap; vm_compute.
  pose proof (Z_upto_spec _ _ _ H k ltac:(lia)) as Hp. cbn beta in Hp.
  destruct (month_day leap k) as [m d]. cbn. lia.
Qed.

Lemma month_day_step leap k : 0 <= k < 365 ->
  month_day_key leap k < month_day_key leap (k + 1).
Proof.
  intros Hk.
  assert (Z_upto 365 0 (fun k => month_day_key leap k <? month_day_key leap (k + 1)) = true)
    as H by by destruct leap; vm_compute.
  pose proof (Z_upto_spec _ _ _ H k ltac:(lia)) as Hp. cbn beta in Hp. lia.
Qed.

Lemma month_day_mono leap k1 k2 : 0 <= k1 -> k1 < k2 -> k2 < 366 ->
  month_day_key leap k1 < month_day_key leap k2.
Proof.
  intros H1 H2. assert (exists n, k2 = k1 + 1 + Z.of_nat n) as [n ->]
    by (exists (Z.to_nat (k2 - k1 - 1)); lia).
  clear H2. induction n as [|n IH]; intros H.
  - rewrite Z.add_0_r. apply month_day_step. lia.
  - specialize (IH ltac:(lia)).
    pose proof (month_day_step leap (k1 + 1 + Z.of_nat n) ltac:(lia)).
    replace (k1 + 1 + Z.of_nat (S n)) with (k1 + 1 + Z.of_nat n + 1) by lia. lia.
Qed.

(** A day of a four-digit year. *)
Definition day_ok (d : Z) : Prop := -719162 <= d < 2932897.

Lemma compare_cons c a b : String.compare (String c a) (String c b) = String.compare a b.
Proof. cbn. unfold Ascii.compare. by rewrite N.compare_refl. Qed.

Lemma year_text_ok d y k : day_ok d -> year_yday d = (y, k) ->
  0 <= y < 10000 /\ year_text y = fixed 4 y.
Proof.
  unfold day_ok. intros H [E Hk]%year_yday_spec.
  assert (0 <= y < 10000) as Hy by (unfold year_start in *; destruct (is_leap y); dlia).
  split; [done|]. unfold year_text.
  by rewrite (proj2 (Z.leb_le _ _)), (proj2 (Z.ltb_lt _ _)) by lia.
Qed.

Lemma date_text_length d : day_ok d -> String.length (date_text d) = 10%nat.
Proof.
  intros Hd. unfold date_text. destruct (year_yday d) as [y k] eqn:E.
  destruct (year_text_ok _ _ _ Hd E) as [_ ->].
  destruct (month_day (is_leap y) k) as [m n].
  rewrite !string_app_length, !fixed_length. done.
Qed.

Lemma clock_text_length q : String.length (clock_text q) = 8%nat.
Proof. unfold clock_text. by rewrite !string_app_length, !fixed_length. Qed.

Lemma yday_bound d y k : year_yday d = (y, k) -> 0 <= k < 366.
Proof. intros [_ H]%year_yday_spec. destruct (is_leap y); lia. Qed.

Lemma date_text_lt d1 d2 : day_ok d1 -> day_ok d2 -> d1 < d2 ->
  String.compare (date_text d1) (date_text d2) = Lt.
Proof.
  intros Hd1 Hd2 Hlt. unfold date_text.
  destruct (year_yday d1) as [y1 k1] eqn:E1. destruct (year_yday d2) as [y2 k2] eqn:E2.
  destruct (year_text_ok _ _ _ Hd1 E1) as [B1 ->].
  destruct (year_text_ok _ _ _ Hd2 E2) as [B2 ->].
  pose proof (yday_bound _ _ _ E1) as L1. pose proof (yday_bound _ _ _ E2) as L2.
  pose proof (month_day_bounds (is_leap y1) k1 L1) as M1.
  pose proof (month_day_bounds (is_leap y2) k2 L2) as M2.
  pose proof (year_yday_mono _ _ _ _ _ _ E1 E2 Hlt) as Hcase.
  assert (y1 = y2 ->
    month_day_key (is_leap y1) k1 < month_day_key (is_leap y2) k2) as Hmd.
  { intros ->. apply month_day_mono; lia. }
  unfold month_day_key in Hmd.
  destruct (month_day (is_leap y1) k1) as [m1 n1], (month_day (is_leap y2) k2) as [m2 n2].
  cbn [fst snd] in *.
  rewrite compare_fixed_app by (cbn; lia). cbn [String.append]. rewrite compare_cons.
  rewrite compare_fixed_app by (cbn; lia). cbn [String.append]. rewrite compare_cons.
  rewrite compare_fixed by (cbn; lia).
  destruct (Z.compare_spec y1 y2); [|done|lia].
  destruct (Z.compare_spec m1 m2); [|done|lia].
  apply Z.compare_lt_iff. lia.
Qed.

Lemma clock_text_compare q1 q2 : 0 <= q1 < 86400 -> 0 <= q2 < 86400 ->
  String.compare (clock_text q1) (clock_text q2) = (q1 ?= q2).
Proof.
  intros H1 H2. unfold clock_text.
  rewrite compare_fixed_app by (cbn; dlia). cbn [String.append]. rewrite compare_cons.
  rewrite compare_fixed_app by (cbn; dlia). cbn [String.append]. rewrite compare_cons.
  rewrite compare_fixed by (cbn; dlia).
  destruct (Z.compare_spec (q1 / 3600) (q2 / 3600)); symmetry.
  - destruct (Z.compare_spec (q1 / 60 mod 60) (q2 / 60 mod 60)).
    + destruct (Z.compare_spec (q1 mod 60) (q2 mod 60));
        [apply Z.compare_eq_iff|apply Z.compare_lt_iff|apply Z.compare_gt_iff]; dlia.
    + apply Z.compare_lt_iff. dlia.
    + apply Z.compare_gt_iff. dlia.
  - apply Z.compare_lt_iff. dlia.
  - apply Z.compare_gt_iff. dlia.
Qed.

(** An instant of a year from 1 to 9999, whose text has four year digits. *)
Definition year_ok (t : Z) : Prop := day_ok (t / second / 86400).

(** The whole-second part of the text orders as the seconds do. *)
Lemma rfc3339nano_compare t1 t2 :
  year_ok t1 -> year_ok t2 ->
  String.compare (rfc3339nano t1) (rfc3339nano t2) =
    match t1 / second ?= t2 / second with
    | Eq => String.compare (frac_text (t1 mod second) +:+ "Z") (frac_text (t2 mod second) +:+ "Z")
    | c => c
    end.
Proof.
  unfold year_ok, rfc3339nano. set (s1 := t1 / second). set (s2 := t2 / second).
  intros Hy1 Hy2.
  rewrite compare_app by by rewrite !string_app_length, !clock_text_length, !date_text_length.
  rewrite compare_app by by rewrite !date_text_length. cbn [String.append].
  rewrite compare_cons, clock_text_compare by (apply Z.mod_pos_bound; lia).
  destruct (Z.lt_trichotomy (s1 / 86400) (s2 / 86400)) as [Hd|[Hd|Hd]].
  - rewrite date_text_lt by done. by replace (s1 ?= s2) with Lt by (symmetry; apply Z.compare_lt_iff; dlia).
  - rewrite Hd, compare_refl. replace (s1 mod 86400 ?= s2 mod 86400) with (s1 ?= s2); [done|].
    destruct (Z.compare_spec s1 s2); symmetry;
      [apply Z.compare_eq_iff|apply Z.compare_lt_iff|apply Z.compare_gt_iff]; dlia.
  - rewrite String.compare_antisym, date_text_lt by done. cbn.
    by replace (s1 ?= s2) with Gt by (symmetry; apply Z.compare_gt_iff; dlia).
Qed.

Lemma stored_lt_by_second t1 t2 : year_ok t1 -> year_ok t2 -> t1 / second <> t2 / second ->
  stored_lt t1 t2 = (t1 / second <? t2 / second).
Proof.
  intros H1 H2 Hs. unfold stored_lt, text_lt. rewrite rfc3339nano_compare by done.
  destruct (Z.compare_spec (t1 / second) (t2 / second)); [done| |]; symmetry;
    [apply Z.ltb_lt|apply Z.ltb_ge]; lia.
Qed.

Lemma compare_first_lt x y a b :
  Ascii.compare x y = Lt -> String.compare (String x a) (String y b) = Lt.
Proof. intros H. cbn. by rewrite H. Qed.

Lemma frac_text_nonzero n : n <> 0 -> exists f, frac_text n = String "." f.
Proof. intros H. unfold frac_text. rewrite (proj2 (Z.eqb_neq _ _)) by done. cbn. eauto. Qed.

(** ** Properties *)

(** Stored expiry and due times are compared as text: across different
    seconds the text comparison is the chronological one. *)
Theorem stored_lt_seconds t1 t2 :
  year_ok t1 -> year_ok t2 -> t1 / second <> t2 / second ->
  stored_lt t1 t2 = (t1 <? t2).
Proof.
  intros H1 H2 Hs. rewrite stored_lt_by_second by done. unfold second in *.
  destruct (Z.ltb_spec t1 t2); [apply Z.ltb_lt|apply Z.ltb_ge]; dlia.
Qed.

Theorem stored_lt_seconds_witness : stored_lt (1700000000 * second) (1700000001 * second) = true.
Proof.
  apply (stored_lt_seconds (1700000000 * second) (1700000001 * second));
    [change (-719162 <= 19675 < 2932897); lia..|done].
Defined.

(** Within a second the order is the wrong way round: the text of the bare
    second comes after the text of every fraction of it, so an instant is
    stored as being before the start of its own second. *)
Theorem stored_lt_subsecond k n :
  0 < n < second -> year_ok (k * second) ->
  stored_lt (k * second + n) (k * second) = true /\ stored_lt (k * second) (k * second + n) = false.
Proof.
  intros Hn Hy. unfold second in *.
  assert ((k * 1000000000 + n) / 1000000000 = k /\ (k * 1000000000 + n) mod 1000000000 = n /\
          k * 1000000000 / 1000000000 = k /\ k * 1000000000 mod 1000000000 = 0) as (E1 & E2 & E3 & E4).
  { split_and!; [dlia..|apply Z.div_mul; lia|apply Z.mod_mul; lia]. }
  assert (year_ok (k * 1000000000 + n)) as Hy' by (unfold year_ok, second in *; rewrite E1, E3 in *; done).
  destruct (frac_text_nonzero n) as [f Ef]; [lia|].
  assert (String.compare (rfc3339nano (k * 1000000000 + n)) (rfc3339nano (k * 1000000000)) = Lt) as Hc.
  { rewrite rfc3339nano_compare by done. unfold second. rewrite E1, E2, E3, E4, Z.compare_refl, Ef.
    done. }
  unfold stored_lt, text_lt. rewrite (String.compare_antisym (rfc3339nano (k * 1000000000))), Hc. done.
Qed.

Theorem stored_lt_subsecond_witness :
  stored_lt (1700000000 * second + 500000000) (1700000000 * second) = true.
Proof.
  destruct (stored_lt_subsecond 1700000000 500000000) as [H _];
    [unfold second; lia|change (-719162 <= 19675 < 2932897); lia|exact H].
Defined.
