(* ===== verification/Domain.v ===== *)
(** * Shared domain types (internal/domain)

    Lifecycle enums, machine error codes, the tri-state limit fields of the
    API and the time-ordered identifiers. *)
From stdpp Require Import base tactics strings gmap list.
From Stdlib Require Import ZArith Lia Ascii.
From Stdlib Require String.
From S2P Require Import Prelude GoTime.

Open Scope Z_scope.

(** ** Lifecycle enums

    The Go types are strings; the named constants are constructors and every
    other text is kept by the last one, which the [Valid] methods reject. *)

Inductive UserStatus :=
| UserActive
| UserDisabled
| UserSuspended
| UserExpired
| UserTrafficExceeded
| UserWaitingFirstConnection
| UserStatusOther (raw : string).

Inductive DisableReason :=
| DisableManual
| DisableExpired
| DisableTrafficLimit
| DisableAdminAction
| DisableReasonOther (raw : string).

Inductive StartPolicy :=
| StartImmediate
| StartFirstConnection
| StartPolicyOther (raw : string).

Inductive BackendMode :=
| BackendKernel
| BackendUserspace
| BackendModeOther (raw : string).

#[export] Instance UserStatus_eq_dec : EqDecision UserStatus.
Proof. solve_decision. Defined.
#[export] Instance DisableReason_eq_dec : EqDecision DisableReason.
Proof. solve_decision. Defined.
#[export] Instance StartPolicy_eq_dec : EqDecision StartPolicy.
Proof. solve_decision. Defined.

#[export] Instance BackendMode_eq_dec : EqDecision BackendMode.
Proof. solve_decision. Defined.

(** [StartPolicy("")]: the policy field absent from a request. *)
Definition StartPolicyAbsent : StartPolicy := StartPolicyOther "".

Definition UserStatus_Valid (s : UserStatus) : bool :=
  match s with UserStatusOther _ => false | _ => true end.

(** Whether a user in this status should have live peers in the backend. *)
Definition PeerWanted (s : UserStatus) : bool :=
  match s with UserActive | UserWaitingFirstConnection => true | _ => false end.

Definition DisableReason_Valid (r : DisableReason) : bool :=
  match r with DisableReasonOther _ => false | _ => true end.

Definition StartPolicy_Valid (p : StartPolicy) : bool :=
  match p with StartPolicyOther _ => false | _ => true end.

Definition BackendMode_Valid (m : BackendMode) : bool :=
  match m with BackendModeOther _ => false | _ => true end.

Definition mode_text (m : BackendMode) : string :=
  match m with
  | BackendKernel => "kernel"
  | BackendUserspace => "userspace"
  | BackendModeOther raw => raw
  end.

Definition status_text (s : UserStatus) : string :=
  match s with
  | UserActive => "active"
  | UserDisabled => "disabled"
  | UserSuspended => "suspended"
  | UserExpired => "expired"
  | UserTrafficExceeded => "traffic_exceeded"
  | UserWaitingFirstConnection => "waiting_first_connection"
  | UserStatusOther raw => raw
  end.

Definition reason_text (r : DisableReason) : string :=
  match r with
  | DisableManual => "manual"
  | DisableExpired => "expired"
  | DisableTrafficLimit => "traffic_limit"
  | DisableAdminAction => "admin_action"
  | DisableReasonOther raw => raw
  end.

(** ** Machine error codes *)

Inductive code :=
| CodeInvalidRequest | CodeUnauthorized | CodeForbidden | CodeRateLimited
| CodeNodeUnavailable | CodeInternal | CodeNotFound | CodeUserNotFound
| CodeUsernameExists | CodeDeviceNotFound | CodeDeviceLimitReached
| CodeDevicePoolExhausted | CodeDeviceKeyExists | CodePlanNotFound | CodePlanInUse
| CodeInterfaceNotFound | CodeInterfaceNameTaken | CodePortInUse | CodeSubnetInvalid
| CodeSubnetOverlap | CodeParamConstraint | CodeCredentialInvalid | CodeSessionExpired
| CodeTokenInvalid | CodeTokenExists | CodeIdempotencyKeyReused | CodeAdminNotFound
| CodeAdminExists | CodeOwnerProtected | CodeSettingUnknown | CodeSettingInvalid
| CodeConfigInvalid.

#[export] Instance code_eq_dec : EqDecision code.
Proof. solve_decision. Defined.

(** An error is a coded [*domain.Error] (its message is not kept) or a plain
    error of the service, named here by its format string. *)
Inductive err :=
| E (c : code)
| Plain (msg : string).

#[export] Instance err_eq_dec : EqDecision err.
Proof. solve_decision. Defined.

Definition CodeOf (e : err) : code :=
  match e with E c => c | Plain _ => CodeInternal end.

(** ** Tri-state fields *)

Record OptInt64 := MkOptInt64 { o_set : bool; o_null : bool; o_value : Z }.
Definition OptAbsent : OptInt64 := MkOptInt64 false false 0.
Definition OptNull : OptInt64 := MkOptInt64 true true 0.
Definition OptVal (v : Z) : OptInt64 := MkOptInt64 true false v.

(** [OptInt] is the same shape over [int], 64 bits wide on the platform. *)
Definition OptInt : Type := OptInt64.

Record OptString := MkOptString { os_set : bool; os_null : bool; os_value : string }.
Definition OptStrAbsent : OptString := MkOptString false false "".

Definition Resolve (o : OptInt64) (current : option Z) : option Z :=
  if negb (o_set o) then current
  else if o_null o then None
  else Some (o_value o).

(** A JSON token of the payload: the literal [null], an integer that fits the
    field, or anything else, which [json.Unmarshal] rejects. *)
Inductive json_int := JNull | JInt (v : Z) | JBad.

Definition OptInt64_UnmarshalJSON (o : OptInt64) (b : json_int) : option OptInt64 :=
  match b with
  | JNull => Some (MkOptInt64 true true (o_value o))
  | JInt v => if bool_decide (is_i64 v) then Some (MkOptInt64 true (o_null o) v) else None
  | JBad => None
  end.

(** ** Identifiers *)

Definition hex_char (d : Z) : ascii :=
  ascii_of_nat (Z.to_nat (if d <? 10 then 48 + d else 87 + d)).

(** [hex.Encode]: two lower-case digits per byte. *)
Definition hex_byte (b : Z) (rest : string) : string :=
  String (hex_char (b / 16)) (String (hex_char (b mod 16)) rest).
Fixpoint hex_bytes (bs : list Z) (rest : string) : string :=
  match bs with [] => rest | b :: bs => hex_byte b (hex_bytes bs rest) end.

(** [byte(x)]: the low eight bits. *)
Definition to_byte (x : Z) : Z := x mod 256.

(** [NewID] at Unix millisecond [ms], the ten random bytes being [r]. *)
Definition NewID (ms : Z) (r : list Z) : string :=
  let at_ i := nth i r 0 in
  let b6 := Z.lor (Z.land (at_ 0%nat) 15) 112 in
  let b8 := Z.lor (Z.land (at_ 2%nat) 63) 128 in
  hex_bytes [to_byte (Z.shiftr ms 40); to_byte (Z.shiftr ms 32);
             to_byte (Z.shiftr ms 24); to_byte (Z.shiftr ms 16)]
   (String "-" (hex_bytes [to_byte (Z.shiftr ms 8); to_byte ms]
     (String "-" (hex_bytes [b6; at_ 1%nat]
       (String "-" (hex_bytes [b8; at_ 3%nat]
         (String "-" (hex_bytes [at_ 4%nat; at_ 5%nat; at_ 6%nat; at_ 7%nat;
                                 at_ 8%nat; at_ 9%nat] "")))))))).

(** ** Lemmas *)

Lemma compare_hex_char a b : 0 <= a < 16 -> 0 <= b < 16 ->
  Ascii.compare (hex_char a) (hex_char b) = (a ?= b).
Proof.
  assert (forall k, 0 <= k < 16 -> k ∈ [0;1;2;3;4;5;6;7;8;9;10;11;12;13;14;15]) as H.
  { intros k Hk. rewrite list_elem_of_In. cbn. lia. }
  intros Ha%H Hb%H. revert a Ha. rewrite <-Forall_forall. revert b Hb.
  rewrite <-Forall_forall. repeat constructor.
Qed.

Lemma compare_hex_byte a b x y : 0 <= a < 256 -> 0 <= b < 256 ->
  String.compare (hex_byte a x) (hex_byte b y) =
    match a ?= b with Eq => String.compare x y | c => c end.
Proof.
  intros Ha Hb. unfold hex_byte. cbn [String.compare].
  rewrite !compare_hex_char by dlia.
  destruct (Z.compare_spec a b) as [->|H|H].
  - by rewrite !Z.compare_refl.
  - destruct (Z.compare_spec (a / 16) (b / 16)); [|done|dlia].
    by replace (a mod 16 ?= b mod 16) with Lt by (symmetry; apply Z.compare_lt_iff; dlia).
  - destruct (Z.compare_spec (a / 16) (b / 16)); [|dlia|done].
    by replace (a mod 16 ?= b mod 16) with Gt by (symmetry; apply Z.compare_gt_iff; dlia).
Qed.

(** The millisecond, read back from the first six bytes. *)
Lemma id_millis ms : 0 <= ms < 2 ^ 48 ->
  ms = to_byte (Z.shiftr ms 40) * 2 ^ 40 + to_byte (Z.shiftr ms 32) * 2 ^ 32
     + to_byte (Z.shiftr ms 24) * 2 ^ 24 + to_byte (Z.shiftr ms 16) * 2 ^ 16
     + to_byte (Z.shiftr ms 8) * 2 ^ 8 + to_byte ms.
Proof. intros H. unfold to_byte. rewrite !Z.shiftr_div_pow2 by lia. dlia. Qed.

Lemma to_byte_range x : 0 <= to_byte x < 256.
Proof. apply Z.mod_pos_bound. lia. Qed.

(** ** Properties *)

(** Identifiers minted in different milliseconds sort, as text, in the order
    they were minted, whatever the random bytes. *)
Theorem NewID_time_ordered ms1 ms2 r1 r2 :
  0 <= ms1 < 2 ^ 48 -> 0 <= ms2 < 2 ^ 48 -> ms1 < ms2 ->
  String.compare (NewID ms1 r1) (NewID ms2 r2) = Lt.
Proof.
  intros H1%id_millis H2%id_millis Hlt. unfold NewID. cbn [hex_bytes].
  repeat match goal with
  | |- context [to_byte ?x] =>
      let b := fresh "b" in pose proof (to_byte_range x); set (b := to_byte x) in *; clearbody b
  end.
  repeat (rewrite compare_cons ||
    (rewrite compare_hex_byte by done;
     match goal with |- context [Z.compare ?a ?b] =>
       destruct (Z.compare_spec a b); [subst|done|lia] end)).
  lia.
Qed.

Theorem NewID_time_ordered_witness :
  String.compare (NewID 1700000000123 (repeat 255 10)) (NewID 1700000000124 (repeat 0 10)) = Lt.
Proof. apply NewID_time_ordered; lia. Defined.
