(* ===== verification/Awgparam.v ===== *)
(** * Scalar-or-range parameters (internal/awgparam)

    The obfuscation headers and timers of an AmneziaWG interface are a number
    or an inclusive interval of numbers, of 32 or 16 bits. A value travels as
    configuration text, as JSON and as a database column; the round trips of
    the three are instances of one codec class. *)
From stdpp Require Import base tactics strings list.
From Stdlib Require Import ZArith Lia Ascii.
From Stdlib Require String.
From S2P Require Import Prelude Domain.

Open Scope Z_scope.

(** ** JSON strings

    [json.Unmarshal] of a quoted text: escapes, surrogate pairs, and the
    replacement of bytes that are not UTF-8. *)

Definition dquote : ascii := char_of 34.
Definition backslash : ascii := char_of 92.

Definition cont (b : Z) : bool := (128 <=? b) && (b <=? 191).

(** The length of the well-formed UTF-8 sequence at the head, 0 if none. *)
Definition utf8_len (s : string) : nat :=
  match s with
  | EmptyString => 0%nat
  | String c s =>
      let b := byte_of c in
      let n k := match String.get k s with Some c => byte_of c | None => 0 end in
      if b <? 128 then 1%nat
      else if (194 <=? b) && (b <=? 223) then if cont (n 0%nat) then 2%nat else 0%nat
      else if (224 <=? b) && (b <=? 239) then
        let lo := if b =? 224 then 160 else 128 in
        let hi := if b =? 237 then 159 else 191 in
        if (lo <=? n 0%nat) && (n 0%nat <=? hi) && cont (n 1%nat) then 3%nat else 0%nat
      else if (240 <=? b) && (b <=? 244) then
        let lo := if b =? 240 then 144 else 128 in
        let hi := if b =? 244 then 143 else 191 in
        if (lo <=? n 0%nat) && (n 0%nat <=? hi) && cont (n 1%nat) && cont (n 2%nat) then 4%nat
        else 0%nat
      else 0%nat
  end.

Definition encode_rune (r : Z) : string :=
  let tail k := char_of (128 + Z.land (Z.shiftr r (6 * k)) 63) in
  if r <? 128 then String (char_of r) ""
  else if r <? 2048 then String (char_of (192 + Z.shiftr r 6)) (String (tail 0) "")
  else if r <? 65536 then
    String (char_of (224 + Z.shiftr r 12)) (String (tail 1) (String (tail 0) ""))
  else String (char_of (240 + Z.shiftr r 18))
         (String (tail 2) (String (tail 1) (String (tail 0) ""))).

Definition rune_error : Z := 65533.

Definition hex_val (c : ascii) : option Z :=
  let b := byte_of c in
  if (48 <=? b) && (b <=? 57) then Some (b - 48)
  else if (97 <=? b) && (b <=? 102) then Some (b - 87)
  else if (65 <=? b) && (b <=? 70) then Some (b - 55)
  else None.

(** The rune of a [\uXXXX] escape and what follows it. *)
Definition getu4 (s : string) : option (Z * string) :=
  match s with
  | String a (String u (String c3 (String c2 (String c1 (String c0 s))))) =>
      if Ascii.eqb a backslash && Ascii.eqb u "u" then
        match hex_val c3, hex_val c2, hex_val c1, hex_val c0 with
        | Some h3, Some h2, Some h1, Some h0 => Some (((h3 * 16 + h2) * 16 + h1) * 16 + h0, s)
        | _, _, _, _ => None
        end
      else None
  | _ => None
  end.

Definition surrogate (r : Z) : bool := (55296 <=? r) && (r <? 57344).

Definition unescape_u (s : string) : option (Z * string) :=
  match getu4 s with
  | None => None
  | Some (r, rest) =>
      if negb (surrogate r) then Some (r, rest)
      else match getu4 rest with
           | Some (r1, rest1) =>
               if (r <? 56320) && (56320 <=? r1) && (r1 <? 57344)
               then Some ((r - 55296) * 1024 + (r1 - 56320) + 65536, rest1)
               else Some (rune_error, rest)
           | None => Some (rune_error, rest)
           end
  end.

Definition simple_escape (c : ascii) : option Z :=
  if Ascii.eqb c dquote || Ascii.eqb c backslash || Ascii.eqb c "/" then Some (byte_of c)
  else if Ascii.eqb c "b" then Some 8
  else if Ascii.eqb c "f" then Some 12
  else if Ascii.eqb c "n" then Some 10
  else if Ascii.eqb c "r" then Some 13
  else if Ascii.eqb c "t" then Some 9
  else None.

(** The text up to the closing quote, and what follows it. *)
Fixpoint unquote_go (fuel : nat) (s : string) : option (string * string) :=
  match fuel, s with
  | S fuel, String c rest =>
      let more text s := match unquote_go fuel s with
                         | Some (t, r) => Some (String.append text t, r)
                         | None => None
                         end in
      if Ascii.eqb c dquote then Some ("", rest)
      else if byte_of c <? 32 then None
      else if Ascii.eqb c backslash then
        match rest with
        | EmptyString => None
        | String e rest' =>
            match simple_escape e with
            | Some b => more (String (char_of b) "") rest'
            | None => match unescape_u s with
                      | Some (r, s) => more (encode_rune r) s
                      | None => None
                      end
            end
        end
      else
        match utf8_len s with
        | O => more (encode_rune rune_error) rest
        | n => more (String.substring 0 n s) (String.substring n (String.length s - n) s)
        end
  | _, _ => None
  end.

Definition json_space (c : ascii) : bool :=
  Ascii.eqb c " " || Ascii.eqb c (char_of 9) || Ascii.eqb c (char_of 10) || Ascii.eqb c (char_of 13).

(** [json.Unmarshal(data, &text)] for data that starts with a quote. *)
Definition unmarshal_string (data : string) : option string :=
  match data with
  | String _ s =>
      match unquote_go (String.length s) s with
      | Some (t, r) => if str_all json_space r then Some t else None
      | None => None
      end
  | EmptyString => None
  end.

(** ** Ranges *)

(** [U32Range] and [U16Range]: the width is an argument of what depends on it. *)
Record Range := MkRange { low : Z; high : Z }.

Definition zero_range : Range := MkRange 0 0.

(** Within the width, and low not above high. *)
Definition range_ok (bits : Z) (r : Range) : Prop := 0 <= low r <= high r /\ high r < 2 ^ bits.

Definition NewRange (lo hi : Z) : result err Range :=
  if hi <? lo then Err (Plain "range low exceeds high") else Ok (MkRange lo hi).

Definition Scalar (value : Z) : Range := MkRange value value.

Definition decimalDigits (text : string) : bool :=
  negb (String.eqb text "") && str_all is_digit text.

Definition parseBounds (text : string) (bitSize : Z) : result err (Z * Z) :=
  if String.eqb text "" || (1 <? Z.of_nat (str_count "-" text)) then Err (Plain "invalid range syntax")
  else
    let '(lowText, highText, ranged) := str_cut "-" text in
    if negb (decimalDigits lowText) || (ranged && negb (decimalDigits highText))
    then Err (Plain "invalid range syntax")
    else match parse_uint bitSize lowText with
    | None => Err (Plain "range bound exceeds bits")
    | Some lo =>
        match (if ranged then parse_uint bitSize highText else Some lo) with
        | None => Err (Plain "range bound exceeds bits")
        | Some hi => if hi <? lo then Err (Plain "range low exceeds high") else Ok (lo, hi)
        end
    end.

Definition ParseRange (bits : Z) (text : string) : result err Range :=
  '(lo, hi) ← parseBounds text bits; Ok (MkRange lo hi).

Definition ParseU32Range : string -> result err Range := ParseRange 32.
Definition ParseU16Range : string -> result err Range := ParseRange 16.

Definition IsZero (r : Range) : bool := (low r =? 0) && (high r =? 0).

Definition Overlaps (r other : Range) : bool := (low r <=? high other) && (low other <=? high r).

Definition range_text (r : Range) : string :=
  if low r =? high r then dec (low r)
  else String.append (dec (low r)) (String "-" (dec (high r))).

(** [json.Marshal] copies a text of digits and one dash between quotes. *)
Definition marshalJSON (text : string) (scalar : bool) : string :=
  if scalar then text else String dquote (String.append text (String dquote "")).

Definition MarshalJSON (r : Range) : string := marshalJSON (range_text r) (low r =? high r).

Definition jsonRangeText (data : string) : result err string :=
  match data with
  | EmptyString => Err (Plain "invalid range JSON")
  | String c _ =>
      if Ascii.eqb c dquote then
        match unmarshal_string data with
        | Some text => Ok text
        | None => Err (Plain "invalid range JSON")
        end
      else if negb (decimalDigits data) then Err (Plain "invalid range JSON") else Ok data
  end.

Definition UnmarshalJSON (bits : Z) (data : string) : result err Range :=
  text ← jsonRangeText data; ParseRange bits text.

(** The driver's values that a column of this kind can hold. *)
Inductive column := CNull | CInt (v : Z) | CText (v : string) | CBytes (v : string) | COther.

Definition scan (bits : Z) (src : column) : result err Range :=
  match src with
  | CNull => Ok zero_range
  | CInt v => if (v <? 0) || (2 ^ bits - 1 <? v) then Err (Plain "legacy range integer is out of bounds")
              else Ok (Scalar v)
  | CText v | CBytes v => if String.eqb v "" then Ok zero_range else ParseRange bits v
  | COther => Err (Plain "cannot scan range")
  end.

Definition scanU32 : column -> result err Range := scan 32.
Definition scanU16 : column -> result err Range := scan 16.

Definition Value (r : Range) : column := CText (if IsZero r then "" else range_text r).

(** ** Lemmas: JSON strings *)

(** The bytes that [json.Marshal] and its inverse copy as they are. *)
Definition plain_char (c : ascii) : bool := is_digit c || Ascii.eqb c "-".

Lemma plain_char_cases c : plain_char c = true ->
  Ascii.eqb c dquote = false /\ Ascii.eqb c backslash = false /\ 32 <= byte_of c < 128.
Proof.
  destruct c as [b0 b1 b2 b3 b4 b5 b6 b7].
  destruct b0, b1, b2, b3, b4, b5, b6, b7; vm_compute; intros [=]; repeat split; done.
Qed.

Lemma substring_all s : String.substring 0 (String.length s) s = s.
Proof. induction s as [|c s IH]; cbn; [done|by f_equal]. Qed.

Lemma unquote_plain s rest fuel : str_all plain_char s = true -> (String.length s < fuel)%nat ->
  unquote_go fuel (s +:+ String dquote rest) = Some (s, rest).
Proof.
  revert fuel. induction s as [|c s IH]; intros [|fuel] Hs Hf; cbn in Hf; try lia.
  - by cbn -[dquote]; rewrite Ascii.eqb_refl.
  - cbn in Hs. apply andb_prop in Hs as [(Hq & Hb & Hc)%plain_char_cases Hs].
    change (String c s +:+ String dquote rest) with (String c (s +:+ String dquote rest)).
    cbn [unquote_go]. rewrite Hq, Hb. destruct (Z.ltb_spec (byte_of c) 32); [lia|].
    assert (utf8_len (String c (s +:+ String dquote rest)) = 1%nat) as ->.
    { unfold utf8_len. by rewrite (proj2 (Z.ltb_lt _ _)) by lia. }
    cbn [String.substring String.length Nat.sub]. rewrite Nat.sub_0_r, substring_all.
    assert (String.substring 0 0 (s +:+ String dquote rest) = "") as ->
      by (destruct s; reflexivity).
    rewrite IH by (done || lia). done.
Qed.

Lemma unmarshal_quoted s : str_all plain_char s = true ->
  unmarshal_string (String dquote (s +:+ String dquote "")) = Some s.
Proof.
  intros Hs. cbn [unmarshal_string].
  rewrite unquote_plain; [reflexivity|done|]. induction s; cbn; [lia|].
  apply andb_prop in Hs as [_ Hs]. specialize (IHs Hs). lia.
Qed.

(** ** Lemmas: range texts *)

Lemma str_count_app c s t : str_count c (s +:+ t) = (str_count c s + str_count c t)%nat.
Proof. induction s as [|d s IH]; cbn; [done|]. destruct (Ascii.eqb c d); lia. Qed.

Lemma str_count_none c s : str_all (fun d => negb (Ascii.eqb d c)) s = true -> str_count c s = 0%nat.
Proof.
  induction s as [|d s IH]; cbn; [done|]. intros [Hd Hs]%andb_prop.
  rewrite Ascii.eqb_sym. apply negb_true_iff in Hd. by rewrite Hd, IH.
Qed.

Lemma str_cut_none sep a : str_all (fun c => negb (Ascii.eqb c sep)) a = true ->
  str_cut sep a = (a, "", false).
Proof.
  induction a as [|c a IH]; cbn; [done|]. intros [H1%negb_true_iff H2]%andb_prop.
  by rewrite H1, IH.
Qed.

Lemma dec_not_empty n : dec n <> "".
Proof.
  destruct (dec_go_cons (S (Z.to_nat (Z.log2 n))) n "") as (c & s & E); [lia|].
  unfold dec. rewrite E. done.
Qed.

Lemma decimalDigits_dec n : 0 <= n -> decimalDigits (dec n) = true.
Proof.
  intros Hn. unfold decimalDigits. rewrite str_all_dec by done.
  by rewrite (proj2 (String.eqb_neq _ _) (dec_not_empty n)).
Qed.

Lemma dec_no_dash n : 0 <= n -> str_all (fun c => negb (Ascii.eqb c "-")) (dec n) = true.
Proof. by apply dec_not_sep. Qed.

Lemma ParseRange_text bits r : range_ok bits r -> ParseRange bits (range_text r) = Ok r.
Proof.
  destruct r as [lo hi]. intros [Hl Hh]. cbn in Hl, Hh.
  unfold ParseRange, parseBounds, range_text. cbn [low high].
  destruct (Z.eqb_spec lo hi) as [<-|Hne].
  - rewrite (proj2 (String.eqb_neq _ _) (dec_not_empty lo)), str_count_none by (apply dec_no_dash; lia).
    cbn [orb]. rewrite (proj2 (Z.ltb_ge _ _)) by lia.
    rewrite str_cut_none, decimalDigits_dec, parse_uint_dec by (done || lia || apply dec_no_dash; lia).
    cbn. by rewrite Z.ltb_irrefl.
  - set (t := String.append (dec lo) (String "-" (dec hi))).
    assert (t <> "") as Ht.
    { pose proof (dec_not_empty lo). unfold t. destruct (dec lo); [done|]. cbn. done. }
    assert (str_count "-" t = 1%nat) as Hc.
    { unfold t. rewrite str_count_app. cbn [str_count]. rewrite Ascii.eqb_refl.
      rewrite !str_count_none by (apply dec_no_dash; lia). done. }
    rewrite (proj2 (String.eqb_neq _ _) Ht), Hc. cbn [orb]. change (1 <? Z.of_nat 1) with false.
    unfold t. rewrite str_cut_app by (apply dec_no_dash; lia).
    rewrite !decimalDigits_dec, !parse_uint_dec by lia. cbn.
    by rewrite (proj2 (Z.ltb_ge _ _)) by lia.
Qed.

Lemma range_text_plain r : 0 <= low r -> 0 <= high r -> str_all plain_char (range_text r) = true.
Proof.
  intros Hl Hh. assert (forall n, 0 <= n -> str_all plain_char (dec n) = true) as Hd.
  { intros n Hn. eapply str_all_weaken; [|by apply str_all_dec].
    intros c Hc. unfold plain_char. by rewrite Hc. }
  unfold range_text. destruct (_ =? _); [by apply Hd|].
  rewrite str_all_app. cbn [str_all]. by rewrite !Hd.
Qed.

Lemma jsonRangeText_MarshalJSON r : 0 <= low r -> 0 <= high r ->
  jsonRangeText (MarshalJSON r) = Ok (range_text r).
Proof.
  intros Hl Hh. unfold MarshalJSON, marshalJSON.
  destruct (Z.eqb_spec (low r) (high r)) as [E|E].
  - unfold range_text. rewrite E, Z.eqb_refl. pose proof (decimalDigits_dec (high r) Hh) as Hd.
    destruct (dec (high r)) as [|c s] eqn:Ed; [done|]. unfold jsonRangeText. rewrite Hd.
    unfold decimalDigits in Hd. cbn in Hd. apply andb_prop in Hd as [Hc _].
    destruct (plain_char_cases c) as [-> _]; [unfold plain_char; by rewrite Hc|]. done.
  - unfold jsonRangeText. rewrite Ascii.eqb_refl, unmarshal_quoted; [done|].
    by apply range_text_plain.
Qed.

(** ** The codecs *)

(** A way to write values of a type down and to read them back. *)
Class Codec (A C : Type) := {
  encode : A -> C;
  decode : C -> result err A;
  storable : A -> Prop;
  decode_encode : forall a, storable a -> decode (encode a) = Ok a
}.

#[refine] Instance text_codec (bits : Z) : Codec Range string := {
  encode := range_text;
  decode := ParseRange bits;
  storable := range_ok bits
}.
Proof. apply ParseRange_text. Defined.

#[refine] Instance json_codec (bits : Z) : Codec Range string := {
  encode := MarshalJSON;
  decode := UnmarshalJSON bits;
  storable := range_ok bits
}.
Proof.
  intros r Hr. unfold UnmarshalJSON. rewrite jsonRangeText_MarshalJSON by (destruct Hr; lia).
  by apply ParseRange_text.
Defined.

#[refine] Instance column_codec (bits : Z) : Codec Range column := {
  encode := Value;
  decode := scan bits;
  storable := range_ok bits
}.
Proof.
  intros r Hr. unfold Value, IsZero. cbn [scan].
  destruct (Z.eqb_spec (low r) 0) as [El|]; [destruct (Z.eqb_spec (high r) 0) as [Eh|]|]; cbn [andb].
  - destruct r; cbn in *; subst. done.
  - rewrite (proj2 (String.eqb_neq _ _)); [by apply ParseRange_text|].
    intros E. apply ParseRange_text in Hr. rewrite E in Hr. done.
  - rewrite (proj2 (String.eqb_neq _ _)); [by apply ParseRange_text|].
    intros E. apply ParseRange_text in Hr. rewrite E in Hr. done.
Defined.

(** ** Lemmas: what is parsed *)

Lemma str_cut_spec sep s a b ok : str_cut sep s = (a, b, ok) ->
  if ok then s = a +:+ String sep b else s = a /\ b = "".
Proof.
  revert a b ok. induction s as [|c s IH]; intros a b ok; cbn; [by intros [= <- <- <-]|].
  destruct (Ascii.eqb_spec c sep) as [->|]; [by intros [= <- <- <-]|].
  destruct (str_cut sep s) as [[a' b'] ok'] eqn:E. intros [= <- <- <-].
  specialize (IH _ _ _ eq_refl). destruct ok'; [by cbn; f_equal|].
  destruct IH as [-> ->]. done.
Qed.

Lemma decimalDigits_no_dash a : decimalDigits a = true ->
  a <> "" /\ str_all (fun c => negb (Ascii.eqb c "-")) a = true.
Proof.
  intros [Hn%negb_true_iff%String.eqb_neq Hd]%andb_prop. split; [done|].
  eapply str_all_weaken; [|exact Hd]. intros c Hc. destruct (Ascii.eqb_spec c "-") as [->|]; done.
Qed.

Lemma parse_uint_undec bits a n : a <> "" -> n < 2 ^ bits ->
  undec_go a 0 = Some n -> parse_uint bits a = Some n.
Proof.
  unfold parse_uint. intros Ha Hn Hu. destruct a; [done|]. rewrite Hu.
  by rewrite (proj2 (Z.ltb_lt _ _)) by lia.
Qed.

Lemma parse_uint_inv bits a n : parse_uint bits a = Some n -> undec_go a 0 = Some n.
Proof.
  unfold parse_uint. destruct a as [|c a]; [done|]. destruct (undec_go _ _); [|done].
  destruct (_ <? _); [congruence|done].
Qed.

(** ** Properties *)

(** The texts accepted as a range are exactly the decimal numbers and the
    pairs of decimal numbers joined by a dash, within the width and in order;
    the result is what they denote. *)
Theorem ParseRange_exact bits text r :
  ParseRange bits text = Ok r <->
  range_ok bits r /\ exists a, decimalDigits a = true /\ undec_go a 0 = Some (low r) /\
    (text = a /\ high r = low r \/
     exists b, decimalDigits b = true /\ undec_go b 0 = Some (high r) /\
               text = a +:+ String "-" b).
Proof.
  unfold ParseRange, parseBounds. split.
  - destruct (_ || _) eqn:E0; [done|]. destruct (str_cut "-" text) as [[a b] ok] eqn:Ec.
    apply str_cut_spec in Ec. destruct (negb (decimalDigits a)) eqn:Ea; [done|].
    apply negb_false_iff in Ea. cbn [orb]. destruct ok; cbn [andb].
    + destruct (negb (decimalDigits b)) eqn:Eb; [done|]. apply negb_false_iff in Eb.
      destruct (parse_uint bits a) as [lo|] eqn:El; [|done].
      destruct (parse_uint bits b) as [hi|] eqn:Eh; [|done].
      destruct (Z.ltb_spec hi lo); [done|]. cbn. intros [= <-].
      pose proof (parse_uint_range _ _ _ El). pose proof (parse_uint_range _ _ _ Eh).
      split; [split; cbn; lia|]. exists a. split; [done|].
      split; [by eapply parse_uint_inv|]. right. exists b. eauto using parse_uint_inv.
    + destruct (parse_uint bits a) as [lo|] eqn:El; [|done].
      rewrite Z.ltb_irrefl. cbn. intros [= <-]. pose proof (parse_uint_range _ _ _ El).
      split; [split; cbn; lia|]. exists a. split; [done|].
      split; [by eapply parse_uint_inv|]. left. destruct Ec as [-> _]. done.
  - intros ([Hl Hh] & a & Ha & Hua & Hcase). destruct (decimalDigits_no_dash a Ha) as [Hane Had].
    destruct Hcase as [[-> E]|(b & Hb & Hub & ->)].
    + rewrite (proj2 (String.eqb_neq _ _) Hane), str_count_none by done.
      cbn [orb]. change (1 <? Z.of_nat 0) with false. cbn iota. rewrite str_cut_none by done. rewrite Ha. cbn [negb orb andb].
      rewrite (parse_uint_undec bits a (low r) Hane ltac:(lia) Hua), Z.ltb_irrefl. cbn.
      destruct r; cbn in *; congruence.
    + destruct (decimalDigits_no_dash b Hb) as [Hbne Hbd].
      assert (a +:+ String "-" b <> "") as Hne by (destruct a; done).
      assert (str_count "-" (a +:+ String "-" b) = 1%nat) as Hc.
      { rewrite str_count_app. cbn [str_count]. rewrite Ascii.eqb_refl, !str_count_none by done. done. }
      rewrite (proj2 (String.eqb_neq _ _) Hne), Hc. cbn [orb]. change (1 <? Z.of_nat 1) with false.
      cbn iota. rewrite str_cut_app, Ha, Hb by done. cbn [negb orb andb].
      rewrite (parse_uint_undec bits a (low r) Hane ltac:(lia) Hua), (parse_uint_undec bits b (high r) Hbne ltac:(lia) Hub).
      rewrite (proj2 (Z.ltb_ge _ _)) by lia. cbn. by destruct r.
Qed.

(** A parameter survives every way it travels, at both widths: printed and
    parsed, through JSON (a number, or a quoted range), and through the
    database column (empty text for the unset value). *)
Theorem ranges_round_trip r :
  (range_ok 32 r -> ParseU32Range (range_text r) = Ok r /\
     UnmarshalJSON 32 (MarshalJSON r) = Ok r /\ scanU32 (Value r) = Ok r) /\
  (range_ok 16 r -> ParseU16Range (range_text r) = Ok r /\
     UnmarshalJSON 16 (MarshalJSON r) = Ok r /\ scanU16 (Value r) = Ok r).
Proof.
  split; intros Hr; split_and!;
    first [exact (decode_encode (Codec := text_codec _) r Hr)
          |exact (decode_encode (Codec := json_codec _) r Hr)
          |exact (decode_encode (Codec := column_codec _) r Hr)].
Qed.

(** [Overlaps] decides whether two ranges have a value in common. *)
Theorem Overlaps_common_value bits r q : range_ok bits r -> range_ok bits q ->
  Overlaps r q = true <-> exists v, low r <= v <= high r /\ low q <= v <= high q.
Proof.
  intros [Hr _] [Hq _]. unfold Overlaps. rewrite andb_true_iff, !Z.leb_le. split.
  - intros H. exists (Z.max (low r) (low q)). lia.
  - intros (v & H). lia.
Qed.

(** ** Witnesses *)

Theorem ranges_round_trip_witness :
  ParseU32Range "4294967290-4294967295" = Ok (MkRange 4294967290 4294967295) /\
  scanU16 (Value (MkRange 0 0)) = Ok (MkRange 0 0).
Proof.
  split.
  - destruct (ranges_round_trip (MkRange 4294967290 4294967295)) as [H _].
    destruct H as (H & _); [split; cbn; lia|]. exact H.
  - destruct (ranges_round_trip (MkRange 0 0)) as [_ H].
    destruct H as (_ & _ & H); [split; cbn; lia|]. exact H.
Defined.

Theorem Overlaps_common_value_witness :
  exists v, 5 <= v <= 9 /\ 9 <= v <= 12.
Proof.
  apply (Overlaps_common_value 32 (MkRange 5 9) (MkRange 9 12)); [split; cbn; lia..|reflexivity].
Defined.
