(* ===== verification/JsonText.v ===== *)
(** * JSON texts of strings and string lists

    What [json.Marshal] writes for a string and for a list of strings, and
    what [json.Unmarshal] reads back into them ([Awgparam] has the decoder of
    one string). A valid UTF-8 text survives the round trip. *)
From stdpp Require Import base tactics strings list.
From Stdlib Require Import ZArith Lia Ascii.
From Stdlib Require String.
From S2P Require Import Prelude GoTime Domain Awgparam.

Open Scope Z_scope.

Definition hex_digit (d : Z) : ascii := char_of (if d <? 10 then 48 + d else 87 + d).

(** [\u] and four hexadecimal digits. *)
Definition escape_u (r : Z) : string :=
  String backslash (String "u" (String (hex_digit (Z.shiftr r 12)) (String (hex_digit (Z.land (Z.shiftr r 8) 15))
    (String (hex_digit (Z.land (Z.shiftr r 4) 15)) (String (hex_digit (Z.land r 15)) ""))))).

Definition escape_as (c : ascii) : string := String backslash (String c "").

(** An ASCII byte; [<], [>] and [&] are escaped too. *)
Definition encode_char (c : ascii) : string :=
  let b := byte_of c in
  if Ascii.eqb c dquote || Ascii.eqb c backslash then escape_as c
  else if b =? 8 then escape_as "b"
  else if b =? 12 then escape_as "f"
  else if b =? 10 then escape_as "n"
  else if b =? 13 then escape_as "r"
  else if b =? 9 then escape_as "t"
  else if (b <? 32) || Ascii.eqb c "<" || Ascii.eqb c ">" || Ascii.eqb c "&" then escape_u b
  else String c "".

(** A sequence of several bytes; the two line separators are escaped. *)
Definition encode_sequence (h : string) : string :=
  if String.eqb h (text_of [226; 128; 168]) then escape_u 8232
  else if String.eqb h (text_of [226; 128; 169]) then escape_u 8233
  else h.

Fixpoint encode_go (fuel : nat) (s : string) : string :=
  match fuel, s with
  | S fuel, String c rest =>
      if byte_of c <? 128 then encode_char c +:+ encode_go fuel rest
      else match utf8_len s with
           | O => escape_u rune_error +:+ encode_go fuel rest
           | n => encode_sequence (str_take n s) +:+ encode_go fuel (str_drop n s)
           end
  | _, _ => ""
  end.

(** [json.Marshal(s)]. *)
Definition marshal_string (s : string) : string :=
  String dquote (encode_go (String.length s) s +:+ String dquote "").

Fixpoint marshal_items (l : list string) : string :=
  match l with
  | [] => "]"
  | [s] => marshal_string s +:+ "]"
  | s :: l => marshal_string s +:+ "," +:+ marshal_items l
  end.

(** [json.Marshal] of a [[]string]; [None] is the nil slice. *)
Definition marshal_list (l : option (list string)) : string :=
  match l with None => "null" | Some l => "[" +:+ marshal_items l end.

Fixpoint skip_space (s : string) : string :=
  match s with String c r => if json_space c then skip_space r else s | EmptyString => s end.

(** One element: a string, or null, which leaves the zero string. *)
Definition read_item (s : string) : option (string * string) :=
  match strip_prefix "null" s with
  | Some r => Some ("", r)
  | None =>
      match s with
      | String c r => if Ascii.eqb c dquote then unquote_go (String.length r) r else None
      | EmptyString => None
      end
  end.

Fixpoint read_items (fuel : nat) (s : string) : option (list string * string) :=
  match fuel with
  | O => None
  | S fuel =>
      match read_item (skip_space s) with
      | None => None
      | Some (x, r) =>
          match skip_space r with
          | String c r =>
              if Ascii.eqb c "," then
                match read_items fuel r with Some (l, r) => Some (x :: l, r) | None => None end
              else if Ascii.eqb c "]" then Some ([x], r) else None
          | EmptyString => None
          end
      end
  end.

(** [json.Unmarshal(data, &l)]: anything else is an error. *)
Definition unmarshal_list (data : string) : option (option (list string)) :=
  let s := skip_space data in
  match strip_prefix "null" s with
  | Some r => if str_all json_space r then Some None else None
  | None =>
      match s with
      | String c r =>
          if negb (Ascii.eqb c "[") then None
          else
            match skip_space r with
            | String d r' =>
                if Ascii.eqb d "]" then (if str_all json_space r' then Some (Some []) else None)
                else match read_items (S (String.length r)) r with
                     | Some (l, r) => if str_all json_space r then Some (Some l) else None
                     | None => None
                     end
            | EmptyString => None
            end
      | EmptyString => None
      end
  end.

(** [utf8.ValidString]. *)
Fixpoint valid_utf8 (fuel : nat) (s : string) : bool :=
  match fuel, s with
  | _, EmptyString => true
  | O, _ => false
  | S fuel, _ => match utf8_len s with O => false | n => valid_utf8 fuel (str_drop n s) end
  end.

Definition utf8 (s : string) : Prop := valid_utf8 (String.length s) s = true.

(** ** Lemmas *)


Lemma str_app_nil s : s +:+ "" = s.
Proof. induction s as [|c s IH]; [done|]. cbn. by rewrite IH. Qed.

Lemma substring_split n s : String.substring 0 n s = str_take n s /\
  String.substring n (String.length s - n) s = str_drop n s.
Proof.
  revert s. induction n as [|n IH]; intros s; [split; [by destruct s|]|].
  - by rewrite Nat.sub_0_r, substring_all.
  - destruct s as [|c s]; [done|]. cbn. destruct (IH s) as [-> H]. split; [done|]. exact H.
Qed.

(** What is not escaped is copied, a sequence at a time. *)
Lemma unquote_step s n fuel : utf8_len s = S n ->
  match s with String c _ => Ascii.eqb c dquote = false /\ Ascii.eqb c backslash = false /\ 32 <= byte_of c | _ => True end ->
  unquote_go (S fuel) s =
  match unquote_go fuel (str_drop (S n) s) with Some (t, r) => Some (str_take (S n) s +:+ t, r) | None => None end.
Proof.
  destruct s as [|c s]; [done|]. intros Hn (H1 & H2 & H3). cbn [unquote_go].
  rewrite H1, H2, (proj2 (Z.ltb_ge _ _) H3), Hn. by destruct (substring_split (S n) (String c s)) as [-> ->].
Qed.

Lemma encode_char_read c s fuel : byte_of c < 128 ->
  unquote_go (S fuel) (encode_char c +:+ s) =
  match unquote_go fuel s with Some (t, r) => Some (String c t, r) | None => None end.
Proof.
  destruct c as [b0 b1 b2 b3 b4 b5 b6 b7].
  destruct b7; [intros H; exfalso; revert H; destruct b0, b1, b2, b3, b4, b5, b6; vm_compute; done|intros _].
  destruct b0, b1, b2, b3, b4, b5, b6; first [reflexivity | by apply (unquote_step (String _ s) 0)].
Qed.

Ltac missing_byte := cbn [String.get]; change (cont 0) with false; rewrite ?andb_false_r; cbn [andb]; try done.

(** A well-formed sequence is read off its own bytes. *)
Lemma utf8_len_prefix s n : utf8_len s = S n ->
  exists h t, s = h +:+ t /\ String.length h = S n /\ forall r, utf8_len (h +:+ r) = S n.
Proof.
  destruct s as [|c s]; [done|]. unfold utf8_len at 1. fold utf8_len. cbv zeta.
  destruct (byte_of c <? 128) eqn:E0.
  { intros [= <-]. exists (String c ""), s. split_and!; [done..|]. intros r. unfold utf8_len; cbn [String.append]. by rewrite E0. }
  destruct ((194 <=? byte_of c) && (byte_of c <=? 223)) eqn:E1.
  { destruct s as [|c1 s]; [done|]. cbn [String.get]. destruct (cont (byte_of c1)) eqn:C1; [|done]. intros [= <-].
    exists (String c (String c1 "")), s. split_and!; [done..|]. intros r. unfold utf8_len; cbn [String.append]; cbv zeta. rewrite E0, E1. cbn [String.get]. by rewrite C1. }
  destruct ((224 <=? byte_of c) && (byte_of c <=? 239)) eqn:E2.
  { destruct s as [|c1 [|c2 s]]; [by missing_byte..|]. cbn [String.get].
    match goal with |- (if ?b then _ else _) = _ -> _ => destruct b eqn:C1; [|done] end. intros [= <-].
    exists (String c (String c1 (String c2 ""))), s. split_and!; [done..|]. intros r. unfold utf8_len; cbn [String.append]; cbv zeta. rewrite E0, E1, E2. cbn [String.get]. by rewrite C1. }
  destruct ((240 <=? byte_of c) && (byte_of c <=? 244)) eqn:E3; [|done].
  destruct s as [|c1 [|c2 [|c3 s]]]; [by missing_byte..|]. cbn [String.get].
  match goal with |- (if ?b then _ else _) = _ -> _ => destruct b eqn:C1; [|done] end. intros [= <-].
  exists (String c (String c1 (String c2 (String c3 "")))), s. split_and!; [done..|]. intros r. unfold utf8_len; cbn [String.append]; cbv zeta. rewrite E0, E1, E2, E3. cbn [String.get]. by rewrite C1.
Qed.

Lemma encode_sequence_read h n s fuel : String.length h = S n -> (forall r, utf8_len (h +:+ r) = S n) ->
  match h with String c _ => 128 <= byte_of c | _ => True end ->
  unquote_go (S fuel) (encode_sequence h +:+ s) =
  match unquote_go fuel s with Some (t, r) => Some (h +:+ t, r) | None => None end.
Proof.
  intros Hl Hu Hc. unfold encode_sequence.
  destruct (String.eqb_spec h (text_of [226; 128; 168])) as [->|_]; [reflexivity|].
  destruct (String.eqb_spec h (text_of [226; 128; 169])) as [->|_]; [reflexivity|].
  rewrite (unquote_step _ n); [|done|].
  - by rewrite <-Hl, str_drop_app, str_take_app.
  - destruct h as [|c h]; [done|]. cbn. split_and!; [| |lia].
    + destruct (Ascii.eqb_spec c dquote) as [->|?]; [by exfalso; apply Hc|done].
    + destruct (Ascii.eqb_spec c backslash) as [->|?]; [by exfalso; apply Hc|done].
Qed.

Lemma str_take_drop n s : str_take n s +:+ str_drop n s = s.
Proof. revert s. induction n as [|n IH]; intros [|c s]; cbn; [done..|]. by rewrite IH. Qed.

Lemma length_str_drop_le n s : (String.length (str_drop n s) <= String.length s)%nat.
Proof. revert s. induction n as [|n IH]; intros [|c s]; cbn; [lia..|]. specialize (IH s). lia. Qed.

(** A longer reading fuel changes nothing. *)
Lemma encode_go_read n s fuel rest : (String.length s <= n)%nat -> valid_utf8 n s = true -> (String.length s < fuel)%nat ->
  unquote_go fuel (encode_go n s +:+ String dquote rest) = Some (s, rest).
Proof.
  revert s fuel. induction n as [|n IH]; intros s [|fuel] Hn Hv Hf; try lia.
  - destruct s; [|cbn in Hn; lia]. cbn -[dquote]. by rewrite Ascii.eqb_refl.
  - destruct s as [|c s]; [cbn -[dquote]; by rewrite Ascii.eqb_refl|]. cbn [encode_go].
    destruct (utf8_len (String c s)) as [|k] eqn:Ek; [cbn [valid_utf8] in Hv; by rewrite Ek in Hv|].
    assert (valid_utf8 n (str_drop (S k) (String c s)) = true) as Hv' by (cbn [valid_utf8] in Hv; by rewrite Ek in Hv).
    assert (String.length (str_drop (S k) (String c s)) <= String.length s)%nat as Hd by exact (length_str_drop_le k s).
    cbn in Hn, Hf. destruct (Z.ltb_spec (byte_of c) 128) as [Hc|Hc].
    + assert (k = 0%nat) as ->.
      { unfold utf8_len in Ek. rewrite (proj2 (Z.ltb_lt _ _) Hc) in Ek. by injection Ek as <-. }
      cbn [str_drop] in Hv'.
      assert ((encode_char c +:+ encode_go n s) +:+ String dquote rest = encode_char c +:+ (encode_go n s +:+ String dquote rest)) as ->
        by apply string_app_assoc.
      rewrite encode_char_read, IH by (done || lia). done.
    + destruct (utf8_len_prefix _ _ Ek) as (h & t & Es & Hl & Hu).
      assert ((encode_sequence (str_take (S k) (String c s)) +:+ encode_go n (str_drop (S k) (String c s))) +:+ String dquote rest =
        encode_sequence h +:+ (encode_go n t +:+ String dquote rest)) as ->.
      { rewrite Es, <-Hl, str_take_app, str_drop_app. apply string_app_assoc. }
      rewrite Es, <-Hl, str_drop_app in Hv', Hd.
      rewrite (encode_sequence_read h k), IH; [by rewrite <-Es|lia|done|lia|done|done|].
      destruct h as [|d h]; [done|]. injection Es as <- _. done.
Qed.

Lemma encode_char_length c : (1 <= String.length (encode_char c))%nat.
Proof.
  unfold encode_char, escape_as, escape_u. cbv zeta.
  repeat match goal with |- context [if ?b then _ else _] => destruct b end; cbn; lia.
Qed.

Lemma encode_sequence_length h : (String.length h <= String.length (encode_sequence h))%nat.
Proof.
  unfold encode_sequence.
  destruct (String.eqb_spec h (text_of [226; 128; 168])) as [->|_]; [vm_compute; lia|].
  destruct (String.eqb_spec h (text_of [226; 128; 169])) as [->|_]; [vm_compute; lia|done].
Qed.

(** The encoding is never shorter than the text. *)
Lemma encode_go_length n s : (String.length s <= n)%nat -> valid_utf8 n s = true ->
  (String.length s <= String.length (encode_go n s))%nat.
Proof.
  revert s. induction n as [|n IH]; intros [|c s] Hn Hv; cbn [String.length encode_go] in *; try lia.
  destruct (utf8_len (String c s)) as [|k] eqn:Ek; [cbn [valid_utf8] in Hv; by rewrite Ek in Hv|].
  assert (valid_utf8 n (str_drop (S k) (String c s)) = true) as Hv' by (cbn [valid_utf8] in Hv; by rewrite Ek in Hv).
  destruct (Z.ltb_spec (byte_of c) 128) as [Hc|Hc].
  - assert (k = 0%nat) as ->.
    { unfold utf8_len in Ek. rewrite (proj2 (Z.ltb_lt _ _) Hc) in Ek. by injection Ek as <-. }
    rewrite string_app_length. pose proof (encode_char_length c). specialize (IH s ltac:(lia) Hv'). lia.
  - rewrite string_app_length. pose proof (encode_sequence_length (str_take (S k) (String c s))) as H1.
    pose proof (length_str_drop_le k s) as H3. specialize (IH (str_drop (S k) (String c s))).
    pose proof (f_equal String.length (str_take_drop (S k) (String c s))) as H2. rewrite string_app_length in H2.
    cbn [String.length] in H2. change (str_drop (S k) (String c s)) with (str_drop k s) in *. specialize (IH ltac:(lia) Hv'). lia.
Qed.

Lemma read_item_marshal s rest : utf8 s -> read_item (marshal_string s +:+ rest) = Some (s, rest).
Proof.
  intros H. unfold marshal_string, read_item. cbn [String.append].
  assert ((encode_go (String.length s) s +:+ String dquote "") +:+ rest =
    encode_go (String.length s) s +:+ String dquote rest) as -> by apply string_app_assoc.
  change (strip_prefix "null" (String dquote (encode_go (String.length s) s +:+ String dquote rest))) with (@None string).
  rewrite Ascii.eqb_refl. apply encode_go_read; [done|done|]. rewrite string_app_length. cbn [String.length].
  pose proof (encode_go_length (String.length s) s ltac:(done) H). lia.
Qed.

Lemma skip_space_marshal s rest : skip_space (marshal_string s +:+ rest) = marshal_string s +:+ rest.
Proof. done. Qed.

Lemma read_items_marshal l fuel rest : l <> [] -> Forall utf8 l -> (length l <= fuel)%nat ->
  read_items fuel (marshal_items l +:+ rest) = Some (l, rest).
Proof.
  revert fuel. induction l as [|s l IH]; intros fuel Hne Hl Hf; [done|].
  apply Forall_cons in Hl as [Hs Hl]. destruct fuel as [|fuel]; cbn in Hf; [lia|]. cbn [read_items].
  destruct l as [|s' l].
  - cbn [marshal_items]. rewrite string_app_assoc, skip_space_marshal, read_item_marshal by done. done.
  - change (marshal_items (s :: s' :: l)) with (marshal_string s +:+ "," +:+ marshal_items (s' :: l)).
    rewrite !string_app_assoc, skip_space_marshal, read_item_marshal by done.
    change (skip_space ("," +:+ (marshal_items (s' :: l) +:+ rest))) with (String "," (marshal_items (s' :: l) +:+ rest)).
    cbn [Ascii.eqb Bool.eqb]. rewrite IH by (done || cbn in *; lia). done.
Qed.

Lemma length_marshal_items l : (length l < String.length (marshal_items l))%nat.
Proof.
  induction l as [|s [|s' l] IH]; [cbn; lia| |].
  { change (marshal_items [s]) with (marshal_string s +:+ "]"). rewrite string_app_length. cbn. lia. }
  change (marshal_items (s :: s' :: l)) with (marshal_string s +:+ "," +:+ marshal_items (s' :: l)).
  rewrite !string_app_length. cbn [length String.length] in *. lia.
Qed.

(** Every list of UTF-8 texts is read back from its encoding. *)
Lemma unmarshal_marshal_list o : (forall l, o = Some l -> Forall utf8 l) -> unmarshal_list (marshal_list o) = Some o.
Proof.
  destruct o as [[|s l]|]; [done| |done]. intros Hl. specialize (Hl _ eq_refl).
  pose proof (length_marshal_items (s :: l)) as Hlen.
  pose proof (read_items_marshal (s :: l) (S (String.length (marshal_items (s :: l)))) "" ltac:(done) Hl ltac:(lia)) as H.
  rewrite str_app_nil in H. unfold unmarshal_list, marshal_list.
  change (skip_space ("[" +:+ marshal_items (s :: l))) with (String "[" (marshal_items (s :: l))).
  change (strip_prefix "null" (String "[" (marshal_items (s :: l)))) with (@None string). cbn [Ascii.eqb Bool.eqb negb].
  assert (exists x, marshal_items (s :: l) = String dquote x) as [x Hx] by (destruct l; eexists; reflexivity).
  rewrite H, Hx. done.
Qed.
