(* ===== verification/Store.v ===== *)
(** * The node's store (migrations/, internal/database)

    The SQLite tables as finite maps over their primary keys, the rows as
    records of the columns (nullable columns are options), the transaction
    helper [WithTx], and the interface the services use to emit webhook
    events.  The clock and the position in the entropy stream are part of the
    state: an operation reads one instant and mints identifiers from both. *)
From stdpp Require Import base tactics strings gmap list fin_maps sets.
From Stdlib Require Import ZArith Lia.
From S2P Require Import Prelude GoTime Domain Awgparam.

Open Scope Z_scope.

(** ** JSON values of event payloads and metadata *)

Inductive json :=
| JsNull
| JsBool (b : bool)
| JsNum (z : Z)
| JsStr (s : string).

Abbreviation json_obj := (list (string * json)).

Definition js_opt_num (v : option Z) : json := match v with Some z => JsNum z | None => JsNull end.
Definition js_opt_str (v : option string) : json := match v with Some s => JsStr s | None => JsNull end.

Fixpoint js_field (k : string) (o : json_obj) : option json :=
  match o with
  | [] => None
  | (k', v) :: o => if String.eqb k k' then Some v else js_field k o
  end.

(** ** Rows *)

Record User := MkUser {
  u_ID : string;
  u_ResellerID : option string;
  u_Username : string;
  u_DisplayName : string;
  u_Note : string;
  u_Tags : list string;
  u_Status : UserStatus;
  u_DisableReason : option DisableReason;
  u_TrafficLimitBytes : option Z;
  u_TrafficUsedRX : Z;
  u_TrafficUsedTX : Z;
  u_SpeedLimitDownKbps : option Z;
  u_SpeedLimitUpKbps : option Z;
  u_DeviceLimit : option Z;
  u_TemplateID : option string;
  u_InterfaceID : option string;
  u_StartPolicy : StartPolicy;
  u_DurationSeconds : option Z;
  u_ActivatedAt : option Z;
  u_ExpiresAt : option Z;
  u_LastActivityAt : option Z;
  u_Enabled : bool;
  u_Metadata : json_obj;
  u_DeletedAt : option Z;
  u_CreatedAt : Z;
  u_UpdatedAt : Z
}.

#[export] Instance eta_User : Eta User := fun u =>
  MkUser (u_ID u) (u_ResellerID u) (u_Username u) (u_DisplayName u) (u_Note u) (u_Tags u)
    (u_Status u) (u_DisableReason u) (u_TrafficLimitBytes u) (u_TrafficUsedRX u)
    (u_TrafficUsedTX u) (u_SpeedLimitDownKbps u) (u_SpeedLimitUpKbps u) (u_DeviceLimit u)
    (u_TemplateID u) (u_InterfaceID u) (u_StartPolicy u) (u_DurationSeconds u)
    (u_ActivatedAt u) (u_ExpiresAt u) (u_LastActivityAt u) (u_Enabled u) (u_Metadata u)
    (u_DeletedAt u) (u_CreatedAt u) (u_UpdatedAt u).

Record Device := MkDevice {
  d_ID : string;
  d_UserID : string;
  d_InterfaceID : string;
  d_Name : string;
  d_IPv4 : string;
  d_PublicKey : string;
  d_PrivKeyEnc : string;
  d_PSKEnc : option string;
  d_Enabled : bool;
  d_LastHandshake : option Z;
  d_LastEndpoint : string;
  d_RXBytes : Z;
  d_TXBytes : Z;
  d_LastRX : Z;
  d_LastTX : Z;
  d_CreatedAt : Z;
  d_UpdatedAt : Z
}.

#[export] Instance eta_Device : Eta Device := fun d =>
  MkDevice (d_ID d) (d_UserID d) (d_InterfaceID d) (d_Name d) (d_IPv4 d) (d_PublicKey d)
    (d_PrivKeyEnc d) (d_PSKEnc d) (d_Enabled d) (d_LastHandshake d) (d_LastEndpoint d)
    (d_RXBytes d) (d_TXBytes d) (d_LastRX d) (d_LastTX d) (d_CreatedAt d) (d_UpdatedAt d).

(** The profile columns of [tunnel_interfaces]; the legacy integer headers are
    written beside the range columns and never read. *)
Record ObfColumns := MkObfColumns {
  oc_jc : option Z; oc_jmin : option Z; oc_jmax : option Z; oc_s1 : option Z; oc_s2 : option Z;
  oc_h1 : option Z; oc_h2 : option Z; oc_h3 : option Z; oc_h4 : option Z;
  oc_h1_range : column; oc_h2_range : column; oc_h3_range : column; oc_h4_range : column;
  oc_i1 : option string; oc_i2 : option string; oc_i3 : option string; oc_i4 : option string;
  oc_i5 : option string;
  oc_s3 : Z; oc_s4 : Z; oc_hpk : string;
  oc_padding : column; oc_rekey_after : column; oc_rekey_timeout : column;
  oc_reject_after : column; oc_keepalive : column; oc_handshake : column;
  oc_trailers : Z; oc_cookies : Z
}.

(** A row of [tunnel_interfaces]. The extra pools are a JSON list; [None] is
    text that does not decode. *)
Record Iface := MkIface {
  i_ID : string;
  i_Name : string;
  i_ListenPort : Z;
  i_Subnet : string;
  i_ExtraPools : option (list string);
  i_MTU : Z;
  i_PublicKey : string;
  i_PrivKeyEnc : string;
  i_Obf : ObfColumns;
  i_Preset : string;
  i_Enabled : bool;
  i_BackendMode : BackendMode;
  i_EndpointOverride : option string;
  i_CreatedAt : Z;
  i_UpdatedAt : Z
}.

#[export] Instance eta_Iface : Eta Iface := fun i =>
  MkIface (i_ID i) (i_Name i) (i_ListenPort i) (i_Subnet i) (i_ExtraPools i) (i_MTU i)
    (i_PublicKey i) (i_PrivKeyEnc i) (i_Obf i) (i_Preset i) (i_Enabled i) (i_BackendMode i)
    (i_EndpointOverride i) (i_CreatedAt i) (i_UpdatedAt i).

(** The profile columns of a plain interface. *)
Definition plain_columns : ObfColumns :=
  MkObfColumns None None None None None None None None None
    (CText "") (CText "") (CText "") (CText "") None None None None None 0 0 ""
    (CText "") (CText "") (CText "") (CText "") (CText "") (CText "") 0 0.

Record Plan := MkPlan {
  p_ID : string;
  p_Name : string;
  p_TrafficLimitBytes : option Z;
  p_DurationSeconds : option Z;
  p_StartPolicy : StartPolicy;
  p_DeviceLimit : option Z;
  p_SpeedLimitDownKbps : option Z;
  p_SpeedLimitUpKbps : option Z;
  p_InterfaceID : option string;
  p_Enabled : bool;
  p_CreatedAt : Z;
  p_UpdatedAt : Z
}.

#[export] Instance eta_Plan : Eta Plan := fun p =>
  MkPlan (p_ID p) (p_Name p) (p_TrafficLimitBytes p) (p_DurationSeconds p) (p_StartPolicy p)
    (p_DeviceLimit p) (p_SpeedLimitDownKbps p) (p_SpeedLimitUpKbps p) (p_InterfaceID p)
    (p_Enabled p) (p_CreatedAt p) (p_UpdatedAt p).

Record Endpoint := MkEndpoint {
  e_ID : string;
  e_ResellerID : option string;
  e_IncludeResellerEvents : bool;
  e_URL : string;
  e_Enabled : bool;
  e_Events : list string;
  e_CreatedAt : Z
}.

Record WebhookEvent := MkEvent {
  ev_ID : string;
  ev_Type : string;
  ev_Payload : json_obj;
  ev_CreatedAt : Z;
  ev_ResellerID : option string
}.

Inductive DeliveryStatus := DPending | DDelivered | DDead.

Record Delivery := MkDelivery {
  dl_ID : string;
  dl_EndpointID : string;
  dl_EventID : string;
  dl_EventType : string;
  dl_Payload : json_obj;
  dl_Status : DeliveryStatus;
  dl_Attempts : Z;
  dl_NextAttemptAt : option Z;
  dl_LastError : string;
  dl_CreatedAt : Z;
  dl_UpdatedAt : Z
}.

#[export] Instance eta_Delivery : Eta Delivery := fun d =>
  MkDelivery (dl_ID d) (dl_EndpointID d) (dl_EventID d) (dl_EventType d) (dl_Payload d)
    (dl_Status d) (dl_Attempts d) (dl_NextAttemptAt d) (dl_LastError d) (dl_CreatedAt d)
    (dl_UpdatedAt d).

(** The terms of a queued successor ([integration.NextPlanTerms]). *)
Record NextPlanTerms := MkTerms {
  t_Name : string;
  t_TrafficLimitBytes : option Z;
  t_DurationSeconds : option Z;
  t_DeviceLimit : option Z;
  t_SpeedLimitDownKbps : option Z;
  t_SpeedLimitUpKbps : option Z;
  t_InterfaceID : option string
}.

Inductive QueueState := QQueued | QNeedsReview.
#[export] Instance QueueState_eq_dec : EqDecision QueueState.
Proof. solve_decision. Defined.

Record QueuedPlan := MkQueued {
  q_TemplateID : string;
  q_SourceTemplateID : option string;
  q_Terms : NextPlanTerms;
  q_Carry : bool;
  q_State : QueueState;
  q_ReviewReason : string;
  q_PrincipalScope : string;
  q_CreatedAt : Z;
  q_UpdatedAt : Z
}.

#[export] Instance eta_QueuedPlan : Eta QueuedPlan := fun q =>
  MkQueued (q_TemplateID q) (q_SourceTemplateID q) (q_Terms q) (q_Carry q) (q_State q)
    (q_ReviewReason q) (q_PrincipalScope q) (q_CreatedAt q) (q_UpdatedAt q).

Record Activation := MkActivation {
  a_ID : string;
  a_UserID : string;
  a_TemplateID : string;
  a_Trigger : string;
  a_Previous : json_obj;
  a_Applied : json_obj;
  a_ActivatedAt : Z
}.

Record AuditEntry := MkAudit {
  au_ActorType : string;
  au_ActorID : string;
  au_Action : string;
  au_Target : string;
  au_Metadata : json_obj
}.

(** A subscription link: the sealed token and its lookup hash. *)
Record SubLink := MkSubLink {
  sl_TokenEncrypted : string;
  sl_TokenHash : string;
  sl_CreatedAt : Z;
  sl_RotatedAt : option Z;
  sl_RevokedAt : option Z
}.

#[export] Instance eta_SubLink : Eta SubLink := fun l =>
  MkSubLink (sl_TokenEncrypted l) (sl_TokenHash l) (sl_CreatedAt l) (sl_RotatedAt l) (sl_RevokedAt l).

(** [accounting.QuotaSnapshot] and [integration.Result]: the recoverable
    outcome of an automation request. *)
Record QuotaSnapshot := MkSnapshot {
  qs_TrafficLimitBytes : Z;
  qs_TrafficUsedRX : Z;
  qs_TrafficUsedTX : Z;
  qs_Status : UserStatus
}.

Record OpResult := MkResult {
  or_ID : string;
  or_Kind : string;
  or_State : string;
  or_UserID : string;
  or_DeviceID : string;
  or_DeviceIDs : list string;
  or_TemplateID : string;
  or_Before : option QuotaSnapshot;
  or_After : option QuotaSnapshot;
  or_CreatedAt : Z
}.

(** A row of [integration_operations]; the table is keyed by its unique key hash. *)
Record Operation := MkOperation {
  op_ID : string;
  op_ScopeKey : string;
  op_Kind : string;
  op_RequestHash : string;
  op_Result : OpResult;
  op_CreatedAt : Z;
  op_ExpiresAt : Z
}.

(** The accounts of the panel (migrations/0001, 0003, 0009, 0010, 0016): the
    resellers, the administrators, their sessions, the API tokens. Grants are
    JSON texts. *)
Record Reseller := MkReseller {
  rs_Slug : string;
  rs_DisplayName : string;
  rs_Permissions : string;
  rs_Enabled : bool;
  rs_CreatedAt : Z;
  rs_UpdatedAt : Z
}.

#[export] Instance eta_Reseller : Eta Reseller := fun r =>
  MkReseller (rs_Slug r) (rs_DisplayName r) (rs_Permissions r) (rs_Enabled r) (rs_CreatedAt r) (rs_UpdatedAt r).

Record AdminRow := MkAdminRow {
  ar_Username : string;
  ar_PasswordHash : string;
  ar_Role : string;
  ar_Permissions : string;
  ar_Enabled : bool;
  ar_CreatedAt : Z;
  ar_UpdatedAt : Z;
  ar_ResellerID : option string;
  ar_Locale : string;
  ar_AppearancePreset : string;
  ar_AppearanceDigits : string
}.

#[export] Instance eta_AdminRow : Eta AdminRow := fun a =>
  MkAdminRow (ar_Username a) (ar_PasswordHash a) (ar_Role a) (ar_Permissions a) (ar_Enabled a) (ar_CreatedAt a)
    (ar_UpdatedAt a) (ar_ResellerID a) (ar_Locale a) (ar_AppearancePreset a) (ar_AppearanceDigits a).

Record SessionRow := MkSessionRow {
  se_AdminID : string;
  se_TokenHash : string;
  se_CreatedAt : Z;
  se_LastSeenAt : Z;
  se_ExpiresAt : Z;
  se_SourceIP : string
}.

#[export] Instance eta_SessionRow : Eta SessionRow := fun x =>
  MkSessionRow (se_AdminID x) (se_TokenHash x) (se_CreatedAt x) (se_LastSeenAt x) (se_ExpiresAt x) (se_SourceIP x).

Record TokenRow := MkTokenRow {
  tr_Name : string;
  tr_Prefix : string;
  tr_TokenHash : string;
  tr_Scopes : string;
  tr_ExpiresAt : option Z;
  tr_Enabled : bool;
  tr_CIDR : string;
  tr_LastUsedAt : option Z;
  tr_CreatedAt : Z;
  tr_ResellerID : option string;
  tr_IssuedBy : option string
}.

#[export] Instance eta_TokenRow : Eta TokenRow := fun t =>
  MkTokenRow (tr_Name t) (tr_Prefix t) (tr_TokenHash t) (tr_Scopes t) (tr_ExpiresAt t) (tr_Enabled t) (tr_CIDR t)
    (tr_LastUsedAt t) (tr_CreatedAt t) (tr_ResellerID t) (tr_IssuedBy t).

Inductive Granularity := GHourly | GDaily.
#[export] Instance Granularity_eq_dec : EqDecision Granularity.
Proof. solve_decision. Defined.
#[export] Instance Granularity_countable : Countable Granularity.
Proof.
  refine (inj_countable' (fun g => match g with GHourly => true | GDaily => false end)
            (fun b : bool => if b then GHourly else GDaily) _).
  by intros [].
Defined.

(** ** The store *)

Record store := MkStore {
  users : gmap string User;
  devices : gmap string Device;
  ifaces : gmap string Iface;
  templates : gmap string Plan;
  resellers : gmap string Reseller;
  reseller_access : gset (string * string);        (* reseller, template *)
  admins : gmap string AdminRow;
  admin_sessions : gmap string SessionRow;
  api_tokens : gmap string TokenRow;
  retired_peer_keys : gset (string * string);      (* interface, public key *)
  webhook_endpoints : gmap string Endpoint;
  webhook_events : list WebhookEvent;
  webhook_deliveries : list Delivery;
  next_plan_queue : gmap string QueuedPlan;        (* user *)
  next_plan_activations : list Activation;
  sub_links : gmap string SubLink;                 (* user *)
  integration_operations : gmap string Operation;  (* key hash *)
  traffic_samples : gmap (string * Z) (Z * Z);
  traffic_rollups : gmap (string * Granularity * Z) (Z * Z);
  audit_log : list AuditEntry;
  clock : Z;
  entropy_pos : nat
}.

#[export] Instance eta_store : Eta store := fun s =>
  MkStore (users s) (devices s) (ifaces s) (templates s) (resellers s) (reseller_access s)
    (admins s) (admin_sessions s) (api_tokens s)
    (retired_peer_keys s) (webhook_endpoints s) (webhook_events s) (webhook_deliveries s)
    (next_plan_queue s) (next_plan_activations s) (sub_links s) (integration_operations s)
    (traffic_samples s) (traffic_rollups s)
    (audit_log s) (clock s) (entropy_pos s).

Definition empty_store (now : Z) : store :=
  MkStore ∅ ∅ ∅ ∅ ∅ ∅ ∅ ∅ ∅ ∅ ∅ [] [] ∅ [] ∅ ∅ ∅ ∅ [] now 0.

Abbreviation Tx A := (tx store err A).

(** [WithTx]: the body's store is committed when it returns no error, and the
    store is unchanged when it does. *)
Definition WithTx {A} (fn : Tx A) (s : store) : result err A * store :=
  match fn s with
  | Ok (a, s') => (Ok a, s')
  | Err e => (Err e, s)
  end.

(** ** Clock and identifiers *)

Class Entropy := rand : nat -> list Z.

(** A concrete entropy stream for the examples: the draw's number, repeated. *)
Definition counting_entropy : Entropy := fun n => List.repeat (Z.of_nat n mod 256) 10.

Definition now_ : Tx Z := tx_gets clock.

Definition new_id `{Entropy} : Tx string := fun s =>
  Ok (NewID (clock s / 1000000) (rand (entropy_pos s)),
      s <| entropy_pos := S (entropy_pos s) |>).

(** ** Events

    [RecordTx] is the interface of the services to the webhook outbox; a nil
    recorder emits nothing. *)

Class EventRecorder := RecordTx : option (string -> json_obj -> Tx unit).

Definition record `{EventRecorder} (event : string) (data : json_obj) : Tx unit :=
  match RecordTx with Some r => r event data | None => tx_ret tt end.

(** What a service may assume of the recorder: it only adds to the outbox. *)
Definition outbox_only (s s' : store) : Prop :=
  exists evs dls n, s' = s <| webhook_events := evs |> <| webhook_deliveries := dls |>
                           <| entropy_pos := n |>.

Class RecorderFrame (R : EventRecorder) : Prop :=
  recorder_frame : forall r event data s s' u,
    RecordTx = Some r -> r event data s = Ok (u, s') -> outbox_only s s'.

#[export] Instance nil_recorder_frame : RecorderFrame None.
Proof. intros r event data s s' u H. discriminate. Qed.

(** ** Queries shared by the services *)

(** A row of [users] that is not soft-deleted. *)
Definition live_user (id : string) (s : store) : option User :=
  match users s !! id with
  | Some u => match u_DeletedAt u with None => Some u | Some _ => None end
  | None => None
  end.

Definition user_devices (id : string) (s : store) : list Device :=
  filter (fun d => d_UserID d = id) (map_to_list (devices s)).*2.

Definition put_user (u : User) (s : store) : store := s <| users ::= <[u_ID u := u]> |>.
Definition put_device (d : Device) (s : store) : store := s <| devices ::= <[d_ID d := d]> |>.

(** A nullable foreign key that names a row of its table. *)
Definition fk {A} (t : gmap string A) (k : option string) : bool :=
  match k with None => true | Some k => bool_decide (is_Some (t !! k)) end.

(** [nullText]: an empty text is stored as NULL. *)
Definition nullText (s : option string) : option string :=
  match s with Some t => if String.eqb t "" then None else Some t | None => None end.

(** [resolveString]: the tri-state of a text field. *)
Definition resolveString (o : OptString) (current : option string) : option string :=
  if negb (os_set o) then current else if os_null o then None else Some (os_value o).

(** ** Lemmas *)

#[export] Instance outbox_only_refl : Reflexive outbox_only.
Proof.
  intros s. exists (webhook_events s), (webhook_deliveries s), (entropy_pos s). by destruct s.
Qed.

#[export] Instance outbox_only_trans : Transitive outbox_only.
Proof. intros s1 s2 s3 (?&?&?&->) (e&d&n&->). exists e, d, n. by destruct s1. Qed.

Lemma record_frame `{R : EventRecorder, !RecorderFrame R} event data s s' u :
  record event data s = Ok (u, s') -> outbox_only s s'.
Proof.
  unfold record. destruct RecordTx as [r|] eqn:E.
  - eauto using recorder_frame.
  - intros [= _ <-]. reflexivity.
Qed.

(** The tables outside the outbox, read through an [outbox_only] step. *)
Lemma outbox_only_tables s s' : outbox_only s s' ->
  users s' = users s /\ devices s' = devices s /\ ifaces s' = ifaces s /\
  templates s' = templates s /\ retired_peer_keys s' = retired_peer_keys s /\
  next_plan_queue s' = next_plan_queue s /\ clock s' = clock s /\
  traffic_samples s' = traffic_samples s /\ audit_log s' = audit_log s.
Proof. intros (?&?&?&->). done. Qed.

Lemma WithTx_err {A} (fn : Tx A) s e : (WithTx fn s).1 = Err e -> (WithTx fn s).2 = s.
Proof. unfold WithTx. destruct (fn s) as [[a s']|]; cbn; congruence. Qed.

Lemma WithTx_ok {A} (fn : Tx A) s a : (WithTx fn s).1 = Ok a -> fn s = Ok (a, (WithTx fn s).2).
Proof. unfold WithTx. destruct (fn s) as [[b s']|]; cbn; congruence. Qed.

Lemma WithTx_run {A} (fn : Tx A) s a s' : WithTx fn s = (Ok a, s') -> fn s = Ok (a, s').
Proof. unfold WithTx. destruct (fn s) as [[b s1]|]; congruence. Qed.

(** Minting an identifier only advances the entropy. *)
Lemma new_id_frame `{Entropy} s id s' : new_id s = Ok (id, s') ->
  users s' = users s /\ clock s' = clock s /\ s' = s <| entropy_pos := S (entropy_pos s) |> /\
  id = NewID (clock s / 1000000) (rand (entropy_pos s)).
Proof. unfold new_id. by intros [<- <-]%Ok_pair_inj. Qed.

Lemma new_id_outbox `{Entropy} s id s' : new_id s = Ok (id, s') -> outbox_only s s'.
Proof.
  intros (_ & _ & -> & _)%new_id_frame.
  exists (webhook_events s), (webhook_deliveries s), (S (entropy_pos s)). by destruct s.
Qed.

Lemma elem_of_user_devices id s d : d ∈ user_devices id s <->
  exists k, devices s !! k = Some d /\ d_UserID d = id.
Proof.
  unfold user_devices. rewrite list_elem_of_filter, elem_of_values.
  split; [intros (? & k & ?)|intros (k & ? & ?)]; eauto.
Qed.

Lemma nullText_idem v : nullText (nullText v) = nullText v.
Proof. destruct v as [t|]; [|done]. cbn. destruct (String.eqb t "") eqn:E; [done|]. cbn. by rewrite E. Qed.
