(* ===== verification/Ipam.v ===== *)
(** * IPv4 pools (internal/ipam)

    The bounded pool contract shared by allocation, capacity and the runtime:
    canonical RFC 1918 networks of at least five device addresses, at most
    sixteen per interface and pairwise disjoint.

    The part of [net/netip] that the code uses is written out for IPv4: an
    address is the 32-bit number, [None] stands for the invalid [Addr].  An
    IPv6 text does not parse here; every caller in the package treats a parsed
    IPv6 prefix and an unparsable text alike. *)
From stdpp Require Import base tactics strings gmap list list_numbers.
From Stdlib Require Import ZArith Lia Ascii.
From Stdlib Require String.
From S2P Require Import Prelude GoTime Domain.

Open Scope Z_scope.

(** ** net/netip, IPv4 *)

Record Prefix := MkPrefix { pf_addr : Z; pf_bits : Z }.

#[export] Instance Prefix_eq_dec : EqDecision Prefix.
Proof. solve_decision. Defined.

Definition host_bits (p : Prefix) : Z := 32 - pf_bits p.

Definition addr_text (a : Z) : string :=
  dec (Z.shiftr a 24) +:+ "." +:+ dec (to_byte (Z.shiftr a 16)) +:+ "." +:+
  dec (to_byte (Z.shiftr a 8)) +:+ "." +:+ dec (to_byte a).

Definition prefix_text (p : Prefix) : string :=
  addr_text (pf_addr p) +:+ "/" +:+ dec (pf_bits p).

(** A decimal field without a leading zero, at most [max]. *)
Definition parse_field (max : Z) (s : string) : option Z :=
  match s with
  | EmptyString => None
  | String c rest =>
      if Ascii.eqb c "0" && negb (String.eqb rest "") then None
      else match undec_go s 0 with
           | Some v => if v <=? max then Some v else None
           | None => None
           end
  end.

Definition ParseAddr (s : string) : option Z :=
  let '(f0, r, ok0) := str_cut "." s in
  let '(f1, r, ok1) := str_cut "." r in
  let '(f2, f3, ok2) := str_cut "." r in
  if ok0 && ok1 && ok2 then
    a ← parse_field 255 f0; b ← parse_field 255 f1;
    c ← parse_field 255 f2; d ← parse_field 255 f3;
    Some (a * 2 ^ 24 + b * 2 ^ 16 + c * 2 ^ 8 + d)
  else None.

(** The slash is the last one in the text; with two of them either reading
    leaves a slash in a decimal field, and the text is refused. *)
Definition ParsePrefix (s : string) : option Prefix :=
  let '(a, b, ok) := str_cut "/" s in
  if ok then addr ← ParseAddr a; bits ← parse_field 32 b; Some (MkPrefix addr bits)
  else None.

Definition Masked (p : Prefix) : Prefix :=
  MkPrefix (Z.ldiff (pf_addr p) (Z.ones (host_bits p))) (pf_bits p).

Definition Next (a : Z) : option Z := if a =? 2 ^ 32 - 1 then None else Some (a + 1).

Definition Contains (p : Prefix) (a : Z) : bool :=
  Z.shiftr (Z.lxor a (pf_addr p)) (host_bits p) =? 0.

Definition Overlaps (p q : Prefix) : bool :=
  let bits := Z.min (pf_bits p) (pf_bits q) in
  if bits =? 0 then true
  else Z.shiftr (pf_addr p) (32 - bits) =? Z.shiftr (pf_addr q) (32 - bits).

Definition IsPrivate (a : Z) : bool :=
  (Z.shiftr a 24 =? 10)
  || ((Z.shiftr a 24 =? 172) && (Z.land (to_byte (Z.shiftr a 16)) 240 =? 16))
  || ((Z.shiftr a 24 =? 192) && (to_byte (Z.shiftr a 16) =? 168)).

(** ** internal/ipam *)

Definition MaxPools : Z := 16.

Definition Last (p : Prefix) : Z :=
  u32 (Z.lor (pf_addr (Masked p)) (u32 (Z.shiftl 1 (host_bits p) - 1))).

Definition Parse (cidr : string) : result err Prefix :=
  match ParsePrefix cidr with
  | None => Err (E CodeSubnetInvalid)
  | Some p =>
      if negb (bool_decide (p = Masked p)) || (29 <? pf_bits p)
         || negb (IsPrivate (pf_addr p)) || negb (IsPrivate (Last p))
      then Err (E CodeSubnetInvalid)
      else Ok p
  end.

Definition Capacity (p : Prefix) : Z := u64 (Z.shiftl 1 (host_bits p) - 3).

Definition Assignable (pool : Prefix) (address : Z) : bool :=
  Contains pool address
  && negb (address =? pf_addr (Masked pool))
  && negb (bool_decide (Some address = Next (pf_addr (Masked pool))))
  && negb (address =? Last pool).

Definition Gateway (cidr : string) : string :=
  match ParsePrefix cidr with
  | None => ""
  | Some p =>
      match Next (pf_addr (Masked p)) with
      | Some g => prefix_text (MkPrefix g (pf_bits p))
      | None => "invalid Prefix"
      end
  end.

Fixpoint validate_go (prefixes : list Prefix) (pools : list string) : result err unit :=
  match pools with
  | [] => Ok tt
  | cidr :: pools =>
      p ← Parse cidr;
      if existsb (Overlaps p) prefixes then Err (E CodeSubnetOverlap)
      else validate_go (prefixes ++ [p]) pools
  end.

Definition Validate (pools : list string) : result err unit :=
  let n := Z.of_nat (length pools) in
  if (n <? 1) || (MaxPools <? n) then Err (E CodeSubnetInvalid)
  else validate_go [] pools.

(** [Decode] of the primary network and the stored extras ([None]: text that
    is not a JSON list of strings). *)
Definition Decode (primary : string) (extras : option (list string)) : result err (list string) :=
  match extras with
  | None => Err (Plain "ipam: invalid stored pool list")
  | Some additional =>
      _ ← Validate (primary :: additional); Ok (primary :: additional)
  end.

(** ** Lemmas: text *)

Definition valid_addr (a : Z) : Prop := 0 <= a < 2 ^ 32.
Definition valid_prefix (p : Prefix) : Prop := valid_addr (pf_addr p) /\ 0 <= pf_bits p <= 32.

Lemma parse_field_dec max n : 0 <= n <= max -> max < 256 -> parse_field max (dec n) = Some n.
Proof.
  intros Hn Hmax.
  assert (Z_upto 256 0 (fun n => match dec n with
    | EmptyString => false
    | String c rest => negb (Ascii.eqb c "0" && negb (String.eqb rest "")) end) = true) as H
    by by vm_compute.
  pose proof (Z_upto_spec _ _ _ H n ltac:(lia)) as Hp. cbn beta in Hp. clear H.
  pose proof (undec_dec n ltac:(lia)) as Hu. unfold parse_field.
  destruct (dec n) as [|c rest]; [done|]. apply negb_true_iff in Hp. rewrite Hp, Hu.
  by rewrite (proj2 (Z.leb_le _ _)) by lia.
Qed.

Lemma ParseAddr_text a : valid_addr a -> ParseAddr (addr_text a) = Some a.
Proof.
  unfold valid_addr, ParseAddr, addr_text. intros Ha.
  pose proof (to_byte_range a). pose proof (to_byte_range (Z.shiftr a 8)).
  pose proof (to_byte_range (Z.shiftr a 16)).
  assert (0 <= Z.shiftr a 24 <= 255) by (rewrite Z.shiftr_div_pow2 by lia; dlia).
  cbn [String.append].
  rewrite !str_cut_app by (apply dec_not_sep; [done|lia]). cbn [andb].
  rewrite !parse_field_dec by lia. cbn. f_equal.
  unfold to_byte. rewrite !Z.shiftr_div_pow2 by lia. dlia.
Qed.

Lemma addr_text_no_slash a : valid_addr a ->
  str_all (fun c => negb (Ascii.eqb c "/")) (addr_text a) = true.
Proof.
  intros Ha. unfold addr_text.
  rewrite !str_all_app. unfold valid_addr in Ha.
  rewrite !dec_not_sep; try done; try apply to_byte_range.
  rewrite Z.shiftr_div_pow2 by lia. dlia.
Qed.

(** ** Lemmas: bits *)

Lemma ones_pow k : Z.ones k = 2 ^ k - 1.
Proof. rewrite Z.ones_equiv. lia. Qed.

Lemma masked_div p : valid_prefix p ->
  pf_addr (Masked p) = pf_addr p / 2 ^ host_bits p * 2 ^ host_bits p.
Proof.
  intros [_ Hb]. unfold Masked, host_bits in *. cbn.
  by rewrite Z.ldiff_ones_r, Z.shiftr_div_pow2, Z.shiftl_mul_pow2 by lia.
Qed.

Lemma lor_ones_add x k : 0 <= k -> Z.lor (x * 2 ^ k) (2 ^ k - 1) = x * 2 ^ k + (2 ^ k - 1).
Proof.
  intros Hk. rewrite <-ones_pow.
  assert (Z.land (x * 2 ^ k) (Z.ones k) = 0) as H by (rewrite Z.land_ones by lia; by apply Z.mod_mul; lia).
  rewrite Z.add_nocarry_lxor by done. symmetry. by apply Z.lxor_lor.
Qed.

Lemma pow_host p : valid_prefix p -> 1 <= 2 ^ host_bits p <= 2 ^ 32.
Proof.
  intros [_ H]. unfold host_bits. split.
  - pose proof (Z.pow_pos_nonneg 2 (32 - pf_bits p)). lia.
  - apply Z.pow_le_mono_r; lia.
Qed.

(** The block of a prefix: its masked address and the number of addresses. *)
Lemma masked_bounds p : valid_prefix p ->
  0 <= pf_addr (Masked p) /\ pf_addr (Masked p) <= pf_addr p /\
  pf_addr p < pf_addr (Masked p) + 2 ^ host_bits p /\
  pf_addr (Masked p) + 2 ^ host_bits p <= 2 ^ 32.
Proof.
  intros Hp. rewrite masked_div by done. pose proof (pow_host p Hp).
  destruct Hp as [[H1 H2] Hb].
  pose proof (Z.div_mod (pf_addr p) (2 ^ host_bits p) ltac:(lia)).
  pose proof (Z.mod_pos_bound (pf_addr p) (2 ^ host_bits p) ltac:(lia)).
  pose proof (Z.div_pos (pf_addr p) (2 ^ host_bits p) ltac:(lia) ltac:(lia)).
  assert (2 ^ 32 = 2 ^ pf_bits p * 2 ^ host_bits p) as E.
  { unfold host_bits. rewrite <-Z.pow_add_r by lia. f_equal. lia. }
  split; [nia|]. split; [nia|]. split; [nia|].
  rewrite E in *. assert (pf_addr p / 2 ^ host_bits p < 2 ^ pf_bits p); [|nia].
  apply Z.div_lt_upper_bound; lia.
Qed.

Lemma Last_eq p : valid_prefix p -> Last p = pf_addr (Masked p) + 2 ^ host_bits p - 1.
Proof.
  intros Hp. unfold Last. pose proof (pow_host p Hp). pose proof (masked_bounds p Hp) as Hm.
  assert (u32 (Z.shiftl 1 (host_bits p) - 1) = 2 ^ host_bits p - 1) as ->.
  { rewrite Z.shiftl_1_l. apply Z.mod_small. lia. }
  revert Hm. rewrite masked_div by done. intros Hm.
  rewrite lor_ones_add by (unfold host_bits; destruct Hp; lia).
  unfold u32. rewrite Z.mod_small; lia.
Qed.

Lemma Contains_spec p a : valid_prefix p -> valid_addr a ->
  Contains p a = true <-> pf_addr (Masked p) <= a <= Last p.
Proof.
  intros Hp Ha. rewrite Last_eq, masked_div by done. unfold Contains.
  pose proof (pow_host p Hp). set (k := host_bits p) in *.
  assert (0 <= k) by (subst k; unfold host_bits; destruct Hp; lia).
  rewrite Z.eqb_eq, Z.shiftr_lxor, Z.lxor_eq_0_iff, !Z.shiftr_div_pow2 by lia.
  pose proof (Z.div_mod a (2 ^ k) ltac:(lia)). pose proof (Z.mod_pos_bound a (2 ^ k) ltac:(lia)).
  split; [intros E; rewrite <-E; lia|]. intros Hr.
  symmetry. apply Z.div_unique with (a - pf_addr p / 2 ^ k * 2 ^ k); lia.
Qed.

Lemma IsPrivate_spec a : valid_addr a ->
  IsPrivate a = true <->
    10 * 2 ^ 24 <= a < 11 * 2 ^ 24 \/
    172 * 2 ^ 24 + 16 * 2 ^ 16 <= a < 172 * 2 ^ 24 + 32 * 2 ^ 16 \/
    192 * 2 ^ 24 + 168 * 2 ^ 16 <= a < 192 * 2 ^ 24 + 169 * 2 ^ 16.
Proof.
  unfold valid_addr, IsPrivate, to_byte. intros Ha.
  rewrite !Z.shiftr_div_pow2 by lia.
  assert (forall b, 0 <= b < 256 -> (Z.land b 240 =? 16) = (16 <=? b) && (b <? 32)) as Hl.
  { intros b Hb.
    assert (Z_upto 256 0 (fun b => Bool.eqb (Z.land b 240 =? 16) ((16 <=? b) && (b <? 32))) = true)
      as H by by vm_compute.
    apply Bool.eqb_prop. exact (Z_upto_spec _ _ _ H b ltac:(lia)). }
  rewrite Hl by (apply Z.mod_pos_bound; lia).
  rewrite !orb_true_iff, !andb_true_iff, !Z.eqb_eq, Z.leb_le, Z.ltb_lt.
  split; [intros [[H|[H1 [H2 H3]]]|[H1 H2]]|intros [H|[H|H]]]; dlia.
Qed.

Lemma ParsePrefix_valid s p : ParsePrefix s = Some p -> valid_prefix p.
Proof.
  unfold ParsePrefix, ParseAddr.
  assert (forall max f v, parse_field max f = Some v -> 0 <= v <= max) as Hf.
  { intros max f v. unfold parse_field. destruct f as [|c f]; [done|].
    destruct (_ && _); [done|]. destruct (undec_go (String c f) 0) as [w|] eqn:E; [|done].
    destruct (Z.leb_spec w max); [|done]. intros [= <-]. split; [|done].
    by eapply (undec_go_nonneg _ 0). }
  destruct (str_cut "/" s) as [[a b] ok].
  destruct (str_cut "." a) as [[f0 r0] ok0]. destruct (str_cut "." r0) as [[f1 r1] ok1].
  destruct (str_cut "." r1) as [[f2 r2] ok2].
  intros H. repeat (case_match; [|discriminate]).
  repeat match type of H with
  | context [parse_field ?m ?f] =>
      destruct (parse_field m f) eqn:?; cbn in H; [|discriminate]
  end.
  injection H as <-.
  repeat match goal with H : parse_field _ _ = Some _ |- _ => apply Hf in H end.
  unfold valid_prefix, valid_addr. cbn. lia.
Qed.

Lemma Parse_ok s p : Parse s = Ok p ->
  ParsePrefix s = Some p /\ valid_prefix p /\ p = Masked p /\ pf_bits p <= 29 /\
  IsPrivate (pf_addr p) = true /\ IsPrivate (Last p) = true.
Proof.
  unfold Parse. destruct (ParsePrefix s) as [q|] eqn:E; [|done].
  destruct (_ || _) eqn:Hg; [done|]. intros [= ->].
  rewrite !orb_false_iff, !negb_false_iff, Z.ltb_ge in Hg.
  destruct Hg as [[[H1%bool_decide_eq_true H2] H3] H4].
  split_and!; eauto using ParsePrefix_valid.
Qed.

(** Both ends of a block private puts the whole block in one private range. *)
Lemma private_block p a : valid_prefix p -> p = Masked p ->
  IsPrivate (pf_addr p) = true -> IsPrivate (Last p) = true ->
  pf_addr p <= a <= Last p -> IsPrivate a = true.
Proof.
  intros Hp Hm H1 H2 Ha. pose proof (masked_bounds p Hp) as B. pose proof (Last_eq p Hp) as L.
  pose proof (masked_div p Hp) as D. rewrite <-Hm in B, L, D.
  pose proof (pow_host p Hp).
  assert (valid_addr a /\ valid_addr (Last p)) as [Va Vl] by (unfold valid_addr; lia).
  apply (IsPrivate_spec _ (proj1 Hp)) in H1. apply (IsPrivate_spec _ Vl) in H2.
  apply (IsPrivate_spec _ Va).
  destruct Hp as [_ Hb]. rewrite L in *. set (f := pf_addr p) in *. clearbody f.
  assert (host_bits p ∈ seqZ 0 33) as Hin by (apply elem_of_seqZ; unfold host_bits; lia).
  set (k := host_bits p) in *. clearbody k. generalize dependent (f / 2 ^ k). intros q D.
  clear -H1 H2 Ha D Hin. revert D Ha H1 H2. revert k Hin.
  rewrite <-Forall_forall. let l := eval vm_compute in (seqZ 0 33) in change (seqZ 0 33) with l.
  repeat apply List.Forall_cons; try apply List.Forall_nil; intros; lia.
Qed.

(** ** Lemmas: the assignable addresses of a pool *)

(** The addresses of the block of [p], in order. *)
Definition block (p : Prefix) : list Z := seqZ (pf_addr (Masked p)) (2 ^ host_bits p).

Lemma elem_of_block p a : valid_prefix p ->
  a ∈ block p <-> valid_addr a /\ Contains p a = true.
Proof.
  intros Hp. pose proof (masked_bounds p Hp) as B. pose proof (Last_eq p Hp) as L.
  unfold block. rewrite elem_of_seqZ. unfold valid_addr. split.
  - intros H. assert (valid_addr a) by (unfold valid_addr; lia). split; [done|].
    apply Contains_spec; [done|done|lia].
  - intros [Ha H]. apply Contains_spec in H; [lia|done|done].
Qed.

Lemma Assignable_spec p a : valid_prefix p -> 2 <= host_bits p -> valid_addr a ->
  Assignable p a = true <-> pf_addr (Masked p) + 2 <= a < Last p.
Proof.
  intros Hp Hk Ha. pose proof (masked_bounds p Hp) as B. pose proof (Last_eq p Hp) as L.
  assert (4 <= 2 ^ host_bits p) by (apply (Z.pow_le_mono_r 2 2); lia).
  unfold Assignable. rewrite !andb_true_iff, !negb_true_iff, !Z.eqb_neq, Contains_spec by done.
  unfold Next. rewrite (proj2 (Z.eqb_neq (pf_addr (Masked p)) (2 ^ 32 - 1))) by lia.
  rewrite bool_decide_eq_false. split.
  - intros [[[H1 H2] H3] H4]. assert (a <> pf_addr (Masked p) + 1) by congruence. lia.
  - intros H1. split_and!; try lia. intros H2. assert (a = pf_addr (Masked p) + 1) by congruence. lia.
Qed.

Lemma filter_seqZ_mid P `{forall x, Decision (P x)} f n :
  (forall a, f <= a < f + n -> P a <-> f + 2 <= a < f + n - 1) -> 3 <= n ->
  filter P (seqZ f n) = seqZ (f + 2) (n - 3).
Proof.
  intros HP Hn. replace n with (2 + ((n - 3) + 1)) at 1 by lia.
  rewrite !seqZ_app by lia. rewrite !filter_app.
  assert (filter P (seqZ f 2) = []) as ->.
  { apply filter_none. intros x Hx%elem_of_seqZ Hf%HP; lia. }
  assert (filter P (seqZ (f + 2 + (n - 3)) 1) = []) as ->.
  { apply filter_none. intros x Hx%elem_of_seqZ Hf%HP; lia. }
  rewrite app_nil_r. cbn [app]. apply filter_all.
  intros x Hx%elem_of_seqZ. apply HP; lia.
Qed.

Lemma Parse_host_bits s p : Parse s = Ok p -> 3 <= host_bits p <= 32.
Proof. intros (_ & [_ Hb] & _ & H & _)%Parse_ok. unfold host_bits. lia. Qed.

Lemma Parse_assignable s p : Parse s = Ok p ->
  filter (fun a => Assignable p a = true) (block p)
    = seqZ (pf_addr (Masked p) + 2) (2 ^ host_bits p - 3).
Proof.
  intros Hs. pose proof (Parse_host_bits _ _ Hs).
  apply Parse_ok in Hs as (_ & Hp & _).
  pose proof (masked_bounds p Hp) as B. pose proof (Last_eq p Hp) as L.
  assert (8 <= 2 ^ host_bits p) by (apply (Z.pow_le_mono_r 2 3); lia).
  apply filter_seqZ_mid; [|lia]. intros a Ha.
  rewrite Assignable_spec by (done || unfold valid_addr; lia). lia.
Qed.

(** ** Lemmas: overlap *)

Lemma div_pow_split a k j : 0 <= k -> 0 <= j -> a / 2 ^ (k + j) = a / 2 ^ k / 2 ^ j.
Proof. intros. rewrite Z.pow_add_r, Z.div_div by lia. done. Qed.

(** Prefixes that share an address overlap. *)
Lemma shared_address_overlaps p q a :
  valid_prefix p -> valid_prefix q -> valid_addr a ->
  Contains p a = true -> Contains q a = true -> Overlaps p q = true.
Proof.
  intros Hp Hq Ha. unfold Contains, Overlaps.
  rewrite !Z.eqb_eq, !Z.shiftr_lxor, !Z.lxor_eq_0_iff. intros H1 H2.
  destruct (Z.eqb_spec (Z.min (pf_bits p) (pf_bits q)) 0); [done|].
  apply Z.eqb_eq. destruct Hp as [_ Hp], Hq as [_ Hq]. unfold host_bits in *.
  revert H1 H2. rewrite !Z.shiftr_div_pow2 by lia. intros H1 H2.
  set (m := Z.min (pf_bits p) (pf_bits q)) in *.
  replace (32 - m) with ((32 - pf_bits p) + (pf_bits p - m)) at 1 by lia.
  replace (32 - m) with ((32 - pf_bits q) + (pf_bits q - m)) by lia.
  rewrite !div_pow_split by lia. rewrite <-H1, <-H2.
  rewrite <-!div_pow_split by lia. f_equal. f_equal. lia.
Qed.

Lemma validate_go_ok prefixes pools :
  validate_go prefixes pools = Ok tt ->
  exists ps, Forall2 (fun c p => Parse c = Ok p) pools ps /\
    (forall p q, p ∈ ps -> q ∈ prefixes -> Overlaps p q = false) /\
    (forall i j p q, (i < j)%nat -> ps !! i = Some p -> ps !! j = Some q -> Overlaps q p = false).
Proof.
  revert prefixes. induction pools as [|c pools IH]; intros prefixes H; cbn in H.
  { exists []. split_and!; [constructor|intros ?? []%elem_of_nil|intros; discriminate]. }
  destruct (Parse c) as [p|] eqn:Ep; cbn in H; [|discriminate].
  destruct (existsb (Overlaps p) prefixes) eqn:Ex; [discriminate|].
  apply IH in H as (ps & H1 & H2 & H3). exists (p :: ps).
  assert (forall q, q ∈ prefixes -> Overlaps p q = false) as Hp.
  { intros q Hq%list_elem_of_In. destruct (Overlaps p q) eqn:E'; [|done].
    assert (existsb (Overlaps p) prefixes = true); [|congruence].
    apply existsb_exists. eauto. }
  split_and!.
  - by constructor.
  - intros p' q [->|Hp']%elem_of_cons Hq; [by apply Hp|]. apply H2; [done|].
    apply elem_of_app. by left.
  - intros [|i] [|j] p' q Hij; cbn; [lia| |lia|].
    + intros [= <-] Hq. apply H2; [by eapply list_elem_of_lookup_2|].
      apply elem_of_app. right. by apply list_elem_of_singleton.
    + intros. eapply H3; [|done..]. lia.
Qed.

(** ** Properties *)

(** A prefix printed by [Prefix.String] parses back. *)
Theorem ParsePrefix_prefix_text p :
  valid_prefix p -> ParsePrefix (prefix_text p) = Some p.
Proof.
  intros [Ha Hb]. unfold ParsePrefix, prefix_text.
  cbn [String.append]. rewrite str_cut_app by by apply addr_text_no_slash.
  rewrite ParseAddr_text by done. cbn [mbind option_bind].
  rewrite parse_field_dec by lia. by destruct p.
Qed.

Theorem ParsePrefix_prefix_text_witness :
  ParsePrefix (prefix_text (MkPrefix 168296448 24)) = Some (MkPrefix 168296448 24).
Proof. apply ParsePrefix_prefix_text. unfold valid_prefix, valid_addr. cbn. lia. Defined.

(** An accepted pool is canonical, has at least five device addresses, and
    contains private addresses only. *)
Theorem Parse_sound cidr p :
  Parse cidr = Ok p ->
  p = Masked p /\ 5 <= Capacity p /\
  forall a, valid_addr a -> Contains p a = true -> IsPrivate a = true.
Proof.
  intros Hs. pose proof (Parse_host_bits _ _ Hs) as Hk.
  apply Parse_ok in Hs as (_ & Hp & Hm & _ & H1 & H2). split; [done|]. split.
  - unfold Capacity, u64. rewrite Z.shiftl_1_l.
    assert (8 <= 2 ^ host_bits p <= 2 ^ 32)
      by (split; [apply (Z.pow_le_mono_r 2 3)|apply Z.pow_le_mono_r]; lia).
    rewrite Z.mod_small by lia. lia.
  - intros a Ha Hc. apply (private_block p); [done..|].
    rewrite Hm at 1. by apply Contains_spec.
Qed.

Theorem Parse_sound_witness :
  exists p, Parse "10.8.0.0/24" = Ok p /\ p = Masked p /\ 5 <= Capacity p /\
    forall a, valid_addr a -> Contains p a = true -> IsPrivate a = true.
Proof.
  eexists. split; [vm_compute; reflexivity|]. apply (Parse_sound "10.8.0.0/24").
  vm_compute. reflexivity.
Defined.

(** The capacity announced for a pool is the number of addresses that the
    allocation policy may hand out. *)
Theorem Capacity_counts_assignable cidr p :
  Parse cidr = Ok p ->
  Z.of_nat (length (filter (fun a => Assignable p a = true) (block p))) = Capacity p.
Proof.
  intros Hs. rewrite (Parse_assignable _ _ Hs), length_seqZ.
  pose proof (Parse_host_bits _ _ Hs) as Hk.
  assert (8 <= 2 ^ host_bits p <= 2 ^ 32)
    by (split; [apply (Z.pow_le_mono_r 2 3)|apply Z.pow_le_mono_r]; lia).
  unfold Capacity, u64. rewrite Z.shiftl_1_l, Z.mod_small by lia. lia.
Qed.

Theorem Capacity_counts_assignable_witness :
  exists p, Parse "10.8.0.0/24" = Ok p /\
    Z.of_nat (length (filter (fun a => Assignable p a = true) (block p))) = Capacity p.
Proof.
  eexists. split; [vm_compute; reflexivity|]. apply (Capacity_counts_assignable "10.8.0.0/24").
  vm_compute. reflexivity.
Defined.

(** The pools of a validated list are parsed one by one, are between one and
    sixteen, and no address lies in two of them. *)
Theorem Validate_disjoint pools :
  Validate pools = Ok tt ->
  1 <= Z.of_nat (length pools) <= MaxPools /\
  exists ps, Forall2 (fun c p => Parse c = Ok p) pools ps /\
    forall i j p q a, (i < j)%nat -> ps !! i = Some p -> ps !! j = Some q ->
      valid_addr a -> ~ (Contains p a = true /\ Contains q a = true).
Proof.
  unfold Validate. destruct (_ || _) eqn:Hn; [done|]. intros (ps & H1 & _ & H3)%validate_go_ok.
  rewrite orb_false_iff, !Z.ltb_ge in Hn. split; [lia|]. exists ps. split; [done|].
  intros i j p q a Hij Hi Hj Ha [Hp Hq].
  assert (forall k r, ps !! k = Some r -> valid_prefix r) as Hv.
  { intros k r Hk. eapply Forall2_lookup_r in H1 as (c & _ & Hc); [|done].
    by apply Parse_ok in Hc as (_ & ? & _). }
  assert (Overlaps q p = true); [|rewrite (H3 i j) in *; done].
  eapply shared_address_overlaps; eauto.
Qed.

Theorem Validate_disjoint_witness :
  Validate ["10.8.0.0/24"; "10.8.1.0/24"] = Ok tt /\
  1 <= 2 <= MaxPools.
Proof.
  split; [vm_compute; reflexivity|].
  exact (proj1 (Validate_disjoint ["10.8.0.0/24"; "10.8.1.0/24"] ltac:(vm_compute; reflexivity))).
Defined.
