(* ===== verification/NetText.v ===== *)
(** * Addresses, hostnames and endpoints as texts (internal/settings/defaults.go)

    The IPv6 half of [netip.ParseAddr], [net.ParseIP], [net.ParseCIDR] and
    [net.SplitHostPort] as the settings use them, the hostname check and
    [ValidEndpoint], which guards the Endpoint line of every client
    configuration. *)
From stdpp Require Import base tactics strings list.
From Stdlib Require Import ZArith Lia Ascii.
From Stdlib Require String.
From S2P Require Import Prelude GoTime Domain Ipam Awgparam GoText.

Open Scope Z_scope.

(** ** net/netip and net *)

Definition is_hex (c : ascii) : bool := is_digit c || in_range "a" "f" c || in_range "A" "F" c.

(** The leading hexadecimal digits, counted, and what follows them. *)
Fixpoint hex_run (s : string) : nat * string :=
  match s with
  | String c r => if is_hex c then let '(n, t) := hex_run r in (S n, t) else (0%nat, s)
  | EmptyString => (0%nat, "")
  end.

(** The end of the text: the ellipsis stands for at least one group, and only
    an ellipsis can stand for a missing one. *)
Definition finish (left : nat) (ellipsis : bool) : bool :=
  match left with O => negb ellipsis | _ => ellipsis end.

(** The groups of an IPv6 text, [left] of them still to be filled; an embedded
    IPv4 address fills two. *)
Fixpoint groups (left : nat) (ellipsis : bool) (s : string) : bool :=
  match left with
  | O => String.eqb s "" && negb ellipsis
  | S more =>
      let '(digits, rest) := hex_run s in
      if (digits =? 0)%nat || (4 <? digits)%nat then false
      else
        match rest with
        | EmptyString => finish more ellipsis
        | String "." _ =>
            if (negb ellipsis && negb (left =? 2)%nat) || (left <? 2)%nat then false
            else bool_decide (is_Some (ParseAddr s)) && finish (left - 2) ellipsis
        | String ":" EmptyString => false
        | String ":" (String ":" t) =>
            if ellipsis then false
            else if String.eqb t "" then finish more true else groups more true t
        | String ":" t => groups more ellipsis t
        | _ => false
        end
  end.

(** A parsed address; of an IPv6 address only the zone is kept, which is all
    the callers look at. *)
Inductive IP := V4 (a : Z) | V6 (zone : string).

(** The address without its zone: it may start with the ellipsis. *)
Definition ipv6_ok (a : string) : bool :=
  match strip_prefix "::" a with
  | Some r => String.eqb r "" || groups 8 true r
  | None => groups 8 false a
  end.

Definition parse_ipv6 (s : string) : option IP :=
  let '(a, zone, found) := str_cut "%" s in
  if found && String.eqb zone "" then None
  else if ipv6_ok a then Some (V6 zone) else None.

(** The family is chosen by the first of the three marks. *)
Fixpoint family (s : string) : option ascii :=
  match s with
  | EmptyString => None
  | String c r => if Ascii.eqb c "." || Ascii.eqb c ":" || Ascii.eqb c "%" then Some c else family r
  end.

(** [netip.ParseAddr]. *)
Definition parse_addr (s : string) : option IP :=
  match family s with
  | Some "."%char => V4 <$> ParseAddr s
  | Some ":"%char => parse_ipv6 s
  | _ => None
  end.

Definition Is6 (a : IP) : bool := match a with V6 _ => true | V4 _ => false end.
Definition zone_of (a : IP) : string := match a with V6 z => z | V4 _ => "" end.

(** [net.ParseIP(s) != nil]. *)
Definition ParseIP (s : string) : bool :=
  match parse_addr s with Some a => String.eqb (zone_of a) "" | None => false end.

(** [net.ParseCIDR(s)] succeeds: the mask may have leading zeros. *)
Definition ParseCIDR (s : string) : bool :=
  let '(addr, mask, found) := str_cut "/" s in
  found &&
  match parse_addr addr with
  | Some a =>
      String.eqb (zone_of a) "" && negb (String.eqb mask "") &&
      match undec_go mask 0 with Some n => n <=? (if Is6 a then 128 else 32) | None => false end
  | None => false
  end.

(** [net.SplitHostPort]. *)
Definition SplitHostPort (s : string) : option (string * string) :=
  match str_cut_last ":" s with
  | None => None
  | Some (before, port) =>
      match s with
      | String "[" _ =>
          let '(inner, after, found) := str_cut "]" s in
          if found && (String.length before =? String.length inner + 1)%nat
             && negb (has_char "[" (str_drop 1 s)) && negb (has_char "]" after)
          then Some (str_drop 1 inner, port) else None
      | _ =>
          if has_char ":" before || has_char "[" s || has_char "]" s then None
          else Some (before, port)
      end
  end.

(** ** internal/settings/defaults.go *)

Definition label_char (c : ascii) : bool :=
  in_range "a" "z" c || in_range "A" "Z" c || is_digit c || Ascii.eqb c "-".

(** One label: no hyphen at either end. *)
Definition valid_label (l : string) : bool :=
  negb (String.eqb l "") && (String.length l <=? 63)%nat && str_all label_char l
  && negb (has_prefix "-" l) && negb (has_suffix "-" l).

Definition validHostname (s : string) : bool :=
  if String.eqb s "" || (253 <? String.length s)%nat then false
  else forallb valid_label (str_split "." (trim_suffix "." s)).

(** The characters no endpoint may hold. *)
Definition control_chars : list ascii := [char_of 0; char_of 13; char_of 10; char_of 9].
Definition contains_any (l : list ascii) (s : string) : bool := existsb (fun c => has_char c s) l.

Definition valid_port (port : string) : result err unit :=
  if negb (str_all is_digit port) then Err (Plain "invalid port")
  else match parse_int64 port with
       | Some n => if (n <? 1) || (65535 <? n) then Err (Plain "port outside 1-65535") else Ok tt
       | None => Err (Plain "port outside 1-65535")
       end.

(** The host of an endpoint and its port, [""] when it has none. *)
Definition check_host (bracketed : bool) (host port : string) : result err unit :=
  _ ← match parse_addr host with
      | None => if validHostname host then Ok tt else Err (Plain "not an IP address or hostname")
      | Some a => if bracketed && negb (Is6 a) then Err (Plain "brackets for a non-IPv6 host") else Ok tt
      end;
  if String.eqb port "" then Ok tt else valid_port port.

Definition ValidEndpoint (s : string) : result err unit :=
  if String.eqb s "" then Ok tt
  else if negb (String.eqb (trim_space s) s) || contains_any control_chars s
  then Err (Plain "not a canonical endpoint")
  else
    let bracketed := has_prefix "[" s in
    if bracketed && has_suffix "]" s then
      match parse_addr (trim_suffix "]" (str_drop 1 s)) with
      | Some (V6 _) => Ok tt
      | _ => Err (Plain "not a bracketed IPv6 address")
      end
    else if bracketed || (str_count ":" s =? 1)%nat then
      match SplitHostPort s with
      | None => Err (Plain "not a valid host:port endpoint")
      | Some (host, port) =>
          if String.eqb host "" || String.eqb port "" then Err (Plain "not a valid host:port endpoint")
          else if bracketed && match parse_addr host with Some (V6 _) => false | _ => true end
          then Err (Plain "brackets for a non-IPv6 host")
          else check_host bracketed host port
      end
    else if has_char ":" s then
      match parse_addr s with Some _ => Ok tt | None => Err (Plain "not a valid IPv6 address") end
    else check_host false s "".

(** [ValidSubnet]: canonical, IPv4, and what [ipam.Parse] asks for. *)
Definition ValidSubnet (s : string) : result err unit :=
  match ParsePrefix s with
  | None => Err (Plain "not a valid CIDR")
  | Some p => if bool_decide (p = Masked p) then _ ← Parse s; Ok tt else Err (Plain "host bits set")
  end.

(** ** Lemmas: characters *)

Definition addr_char (c : ascii) : bool := is_hex c || Ascii.eqb c "." || Ascii.eqb c ":".
Definition endpoint_char (c : ascii) : bool :=
  label_char c || Ascii.eqb c "." || Ascii.eqb c ":" || Ascii.eqb c "[" || Ascii.eqb c "]".

(** A fact about every one of the 256 characters, by computation. *)
Ltac every_char c := destruct c as [[] [] [] [] [] [] [] []]; vm_compute; done.

Lemma digit_hex c : is_digit c = true -> is_hex c = true.
Proof. unfold is_hex. by intros ->. Qed.
Lemma hex_addr c : is_hex c = true -> addr_char c = true.
Proof. unfold addr_char. by intros ->. Qed.
Lemma addr_endpoint c : addr_char c = true -> endpoint_char c = true.
Proof. every_char c. Qed.
Lemma label_endpoint c : label_char c = true -> endpoint_char c = true.
Proof. unfold endpoint_char. by intros ->. Qed.

Lemma has_char_app c a b : has_char c (a +:+ b) = has_char c a || has_char c b.
Proof. unfold has_char. by rewrite str_all_app, negb_andb. Qed.

Lemma has_char_cons c d s : has_char c (String d s) = Ascii.eqb d c || has_char c s.
Proof. unfold has_char. cbn. by rewrite negb_andb, negb_involutive. Qed.

Lemma has_char_none (p : ascii -> bool) c s : p c = false -> str_all p s = true -> has_char c s = false.
Proof.
  intros Hp Hs. unfold has_char. apply negb_false_iff. eapply str_all_weaken; [|exact Hs].
  intros d Hd. destruct (Ascii.eqb_spec d c) as [->|]; [congruence|done].
Qed.

Lemma str_count_has c s : (str_count c s =? 0)%nat = negb (has_char c s).
Proof.
  induction s as [|d s IH]; [done|]. rewrite has_char_cons. cbn. rewrite (Ascii.eqb_sym c d).
  by destruct (Ascii.eqb d c).
Qed.

Lemma str_count_app' c a b : str_count c (a +:+ b) = (str_count c a + str_count c b)%nat.
Proof. induction a as [|d a IH]; cbn; [done|]. destruct (Ascii.eqb c d); lia. Qed.

Lemma str_cut_first sep s a b ok : str_cut sep s = (a, b, ok) -> has_char sep a = false.
Proof.
  revert a b ok. induction s as [|c s IH]; intros a b ok; cbn; [by intros [= <- <- <-]|].
  destruct (Ascii.eqb c sep) eqn:E; [by intros [= <- <- <-]|].
  destruct (str_cut sep s) as [[a' b'] ok'] eqn:E'. intros [= <- <- <-].
  rewrite has_char_cons, E. by eapply IH.
Qed.

Lemma str_cut_has sep s a b ok : str_cut sep s = (a, b, ok) -> ok = has_char sep s.
Proof.
  revert a b ok. induction s as [|c s IH]; intros a b ok; cbn; [by intros [= <- <- <-]|]. rewrite has_char_cons.
  destruct (Ascii.eqb c sep) eqn:E; [by intros [= <- <- <-]|].
  destruct (str_cut sep s) as [[a' b'] ok'] eqn:E'. intros [= <- <- <-]. by eapply IH.
Qed.

Lemma str_cut_last_none sep s : has_char sep s = false -> str_cut_last sep s = None.
Proof.
  induction s as [|c s IH]; [done|]. rewrite has_char_cons. intros [H1 H2]%orb_false_iff. cbn.
  by rewrite H1, IH.
Qed.

Lemma str_cut_last_here sep a b : has_char sep b = false -> str_cut_last sep (a +:+ String sep b) = Some (a, b).
Proof.
  intros Hb. induction a as [|c a IH]; cbn.
  - by rewrite str_cut_last_none, Ascii.eqb_refl by done.
  - by rewrite IH.
Qed.

Lemma app_inj_length (a b c d : string) : a +:+ b = c +:+ d -> String.length a = String.length c -> a = c /\ b = d.
Proof.
  revert c. induction a as [|x a IH]; intros [|y c]; cbn; try done. intros [= -> H] [= Hl].
  by destruct (IH c H Hl) as [-> ->].
Qed.

Lemma strip_prefix_app p s r : strip_prefix p s = Some r -> s = p +:+ r.
Proof.
  revert s. induction p as [|c p IH]; intros [|d s]; cbn; try done; try congruence.
  destruct (Ascii.eqb_spec c d) as [->|]; [|done]. intros H. by rewrite (IH s H).
Qed.

Lemma undec_digits s acc n : undec_go s acc = Some n -> str_all is_digit s = true.
Proof.
  revert acc. induction s as [|c s IH]; intros acc; cbn; [done|]. unfold is_digit at 1.
  destruct (digit_val c); [|done]. apply IH.
Qed.

Lemma parse_field_digits m s v : parse_field m s = Some v -> str_all is_digit s = true.
Proof.
  unfold parse_field. destruct s as [|c s]; [done|]. destruct (_ && _); [done|].
  destruct (undec_go (String c s) 0) eqn:E; [|done]. intros _. by eapply undec_digits.
Qed.

Lemma digits_dotted s : str_all is_digit s = true -> str_all (fun c => is_digit c || Ascii.eqb c ".") s = true.
Proof. apply str_all_weaken. by intros c ->. Qed.

(** ** Lemmas: parsed addresses *)

Lemma ParseAddr_dotted s a : ParseAddr s = Some a -> str_all (fun c => is_digit c || Ascii.eqb c ".") s = true.
Proof.
  unfold ParseAddr.
  destruct (str_cut "." s) as [[f0 r] [|]] eqn:E0; [|by destruct (str_cut "." r) as [[f1 r1] ok1]; destruct (str_cut "." r1) as [[f2 f3] ok2]].
  destruct (str_cut "." r) as [[f1 r1] [|]] eqn:E1; [|by destruct (str_cut "." r1) as [[f2 f3] ok2]].
  destruct (str_cut "." r1) as [[f2 f3] [|]] eqn:E2; [|done]. cbn [andb].
  apply str_cut_spec in E0 as ->, E1 as ->, E2 as ->.
  destruct (parse_field 255 f0) eqn:F0; [|done]. destruct (parse_field 255 f1) eqn:F1; [|done].
  destruct (parse_field 255 f2) eqn:F2; [|done]. destruct (parse_field 255 f3) eqn:F3; [|done]. intros _.
  apply parse_field_digits, digits_dotted in F0, F1, F2, F3.
  rewrite str_all_app, F0. cbn. rewrite str_all_app, F1. cbn. by rewrite str_all_app, F2.
Qed.

Lemma ParseAddr_chars s a : ParseAddr s = Some a -> str_all addr_char s = true.
Proof. intros H%ParseAddr_dotted. revert H. apply str_all_weaken. intros c. every_char c. Qed.

Lemma ParseAddr_no_colon s a : ParseAddr s = Some a -> has_char ":" s = false.
Proof. intros H%ParseAddr_dotted. by eapply has_char_none; [|exact H]. Qed.

Lemma hex_run_app s n r : hex_run s = (n, r) -> exists h, s = h +:+ r /\ str_all is_hex h = true.
Proof.
  revert n r. induction s as [|c s IH]; intros n r; cbn; [intros [= _ <-]; by exists ""|].
  destruct (is_hex c) eqn:Ec; [|intros [= _ <-]; by exists ""].
  destruct (hex_run s) as [m t]. intros [= _ ->]. destruct (IH m r eq_refl) as (h & -> & Hh).
  exists (String c h). split; [done|]. cbn. by rewrite Ec.
Qed.

Lemma groups_chars left e s : groups left e s = true -> str_all addr_char s = true.
Proof.
  revert e s. induction left as [|left IH]; intros e s; cbn [groups].
  - by intros [->%String.eqb_eq _]%andb_prop.
  - destruct (hex_run s) as [n r] eqn:Er. destruct (hex_run_app _ _ _ Er) as (h & Hs & Hh%(str_all_weaken _ _ _ hex_addr)).
    destruct (_ || _); [done|]. destruct r as [|c r].
    { intros _. by rewrite Hs, str_all_app, Hh. }
    destruct (Ascii.eqb_spec c ".") as [->|Hd].
    { destruct (_ || _); [done|]. intros [[a Ha]%bool_decide_eq_true _]%andb_prop. by eapply ParseAddr_chars. }
    destruct (Ascii.eqb_spec c ":") as [->|Hc].
    2: { destruct c as [[] [] [] [] [] [] [] []]; done. }
    intros H. rewrite Hs, str_all_app, Hh. cbn [andb]. change (str_all addr_char (String ":" r)) with (str_all addr_char r).
    destruct r as [|d r]; [done|].
    destruct (Ascii.eqb_spec d ":") as [->|Hd'].
    + destruct e; [done|]. change (str_all addr_char (String ":" r)) with (str_all addr_char r).
      destruct (String.eqb_spec r "") as [->|]; [done|]. by eapply IH.
    + apply (IH e). destruct d as [[] [] [] [] [] [] [] []]; done.
Qed.

Lemma ipv6_ok_chars s : ipv6_ok s = true -> str_all addr_char s = true.
Proof.
  unfold ipv6_ok. generalize 8%nat as n. intros n. destruct (strip_prefix "::" s) as [r|] eqn:Es.
  - rewrite (strip_prefix_app _ _ _ Es), str_all_app. intros [->%String.eqb_eq|H]%orb_prop; [done|].
    by rewrite (groups_chars _ _ _ H).
  - by intros H%groups_chars.
Qed.

Lemma parse_ipv6_chars s a : parse_ipv6 s = Some a -> has_char "%" s = false -> a = V6 "" /\ str_all addr_char s = true.
Proof.
  unfold parse_ipv6. destruct (str_cut "%" s) as [[x z] ok] eqn:Ec. intros H Hz.
  pose proof (str_cut_has _ _ _ _ _ Ec) as ->. rewrite Hz in *. cbn [andb] in H.
  pose proof (str_cut_spec _ _ _ _ _ Ec) as [Ex ->]. subst x.
  destruct (ipv6_ok s) eqn:Eg; [|done]. injection H as <-. split; [done|]. by apply ipv6_ok_chars.
Qed.

(** Without a zone, an address is made of digits, dots and colons. *)
Lemma parse_addr_chars s a : parse_addr s = Some a -> has_char "%" s = false ->
  zone_of a = "" /\ str_all addr_char s = true.
Proof.
  unfold parse_addr. destruct (family s) as [c|]; [|done].
  destruct (Ascii.eqb_spec c ".") as [->|].
  { destruct (ParseAddr s) eqn:Ea; [|done]. intros [= <-] _. split; [done|]. by eapply ParseAddr_chars. }
  destruct (Ascii.eqb_spec c ":") as [->|].
  { intros H Hz. by destruct (parse_ipv6_chars _ _ H Hz) as [-> ?]. }
  destruct c as [[] [] [] [] [] [] [] []]; done.
Qed.

Lemma hostname_labels s : forallb valid_label (str_split "." (trim_suffix "." s)) = true ->
  str_all (fun c => label_char c || Ascii.eqb c ".") s = true.
Proof.
  intros H. apply (trim_suffix_all _ "."); [done|]. apply (str_split_all _ "."); [done|].
  apply Forall_forall. intros l Hl%list_elem_of_In. rewrite forallb_forall in H. specialize (H l Hl).
  unfold valid_label in H. do 2 apply andb_prop in H as [H _]. apply andb_prop in H as [_ H]. revert H.
  apply str_all_weaken. by intros c ->.
Qed.

Lemma hostname_chars s : validHostname s = true -> str_all endpoint_char s = true /\ has_char ":" s = false /\ has_char "%" s = false.
Proof.
  unfold validHostname. destruct (_ || _); [done|]. intros Hs%hostname_labels.
  split_and!; [|eapply has_char_none; [|exact Hs]; done..].
  revert Hs. apply str_all_weaken. intros c. every_char c.
Qed.

(** ** The grammar of an endpoint *)

(** What [ValidEndpoint] promises: the forms a client configuration may name. *)
Definition ipv6 (a : string) : Prop := exists z, parse_addr a = Some (V6 z).
Definition plain_host (h : string) : Prop := (exists a, parse_addr h = Some (V4 a)) \/ validHostname h = true.
Definition port_text (p : string) : Prop := str_all is_digit p = true /\ exists n, parse_int64 p = Some n /\ 1 <= n <= 65535.

Inductive endpoint : string -> Prop :=
| ep_none : endpoint ""
| ep_host h : plain_host h -> endpoint h
| ep_host_port h p : plain_host h -> port_text p -> endpoint (h +:+ String ":" p)
| ep_ipv6 a : ipv6 a -> endpoint a
| ep_bracket a : ipv6 a -> endpoint (String "[" (a +:+ "]"))
| ep_bracket_port a p : ipv6 a -> port_text p -> endpoint (String "[" (a +:+ String "]" (String ":" p))).

Lemma parse_addr_family s a : parse_addr s = Some a ->
  match a with V4 _ => str_all addr_char s = true /\ has_char ":" s = false | V6 _ => has_char ":" s = true end.
Proof.
  assert (forall c, family s = Some c -> c = ":"%char -> has_char ":" s = true) as Hf.
  { intros c H ->. revert H. induction s as [|d s IH]; [done|]. rewrite has_char_cons. cbn [family].
    destruct (Ascii.eqb d ":") eqn:E; [done|]. rewrite orb_false_r. destruct (Ascii.eqb_spec d "."); [subst; done|].
    cbn [orb]. destruct (Ascii.eqb_spec d "%"); [subst; done|exact IH]. }
  unfold parse_addr. destruct (family s) as [c|]; [|done].
  destruct (Ascii.eqb_spec c ".") as [->|].
  { destruct (ParseAddr s) eqn:Ea; [|done]. intros [= <-]. split; [by eapply ParseAddr_chars|]. by eapply ParseAddr_no_colon. }
  destruct (Ascii.eqb_spec c ":") as [->|].
  { unfold parse_ipv6. destruct (str_cut "%" s) as [[x z] ok]. destruct (_ && _); [done|].
    destruct (ipv6_ok x); [|done]. intros [= <-]. by eapply Hf. }
  destruct c as [[] [] [] [] [] [] [] []]; done.
Qed.

(** An IPv6 text has two colons at least. *)
Lemma groups_colons left e s : groups left e s = true -> e = false -> (left <= str_count ":" s + 2 \/ 2 <= str_count ":" s)%nat.
Proof.
  revert e s. induction left as [|left IH]; intros e s; cbn [groups]; [lia|].
  destruct (hex_run s) as [n r] eqn:Er. destruct (hex_run_app _ _ _ Er) as (h & Hs & _).
  destruct (_ || _); [done|]. intros H ->. destruct r as [|c r].
  { destruct left; [lia|done]. }
  destruct (Ascii.eqb_spec c ".") as [->|Hd].
  { destruct (Nat.eqb_spec (S left) 2); [lia|done]. }
  destruct (Ascii.eqb_spec c ":") as [->|Hc].
  2: { destruct c as [[] [] [] [] [] [] [] []]; done. }
  rewrite Hs, str_count_app'. cbn [str_count]. change (Ascii.eqb ":" ":") with true. cbn [Ascii.eqb].
  destruct r as [|d r]; [done|]. destruct (Ascii.eqb_spec d ":") as [->|Hd'].
  - right. cbn [str_count]. change (Ascii.eqb ":" ":") with true. cbv iota. lia.
  - assert (groups left false (String d r) = true) as Hg by (destruct d as [[] [] [] [] [] [] [] []]; done).
    specialize (IH false _ Hg eq_refl). lia.
Qed.

Lemma ipv6_colons a : ipv6 a -> has_char "%" a = false -> (2 <= str_count ":" a)%nat.
Proof.
  intros [z Hz] Hp. assert (ipv6_ok a = true) as H.
  { unfold parse_addr in Hz. destruct (family a) as [c|]; [|done].
    destruct (Ascii.eqb_spec c ".") as [->|]; [by destruct (ParseAddr a)|].
    destruct (Ascii.eqb_spec c ":") as [->|]; [|by destruct c as [[] [] [] [] [] [] [] []]].
    unfold parse_ipv6 in Hz. destruct (str_cut "%" a) as [[x y] ok] eqn:Ec.
    pose proof (str_cut_has _ _ _ _ _ Ec) as ->. rewrite Hp in *.
    pose proof (str_cut_spec _ _ _ _ _ Ec) as [-> _]. cbn [andb] in Hz. by destruct (ipv6_ok x). }
  unfold ipv6_ok in H. destruct (strip_prefix "::" a) as [r|] eqn:Es.
  - rewrite (strip_prefix_app _ _ _ Es). cbn. lia.
  - destruct (groups_colons _ _ _ H eq_refl); lia.
Qed.

(** ** Lemmas: trimming *)

Lemma string_of_list_app l k :
  String.string_of_list_ascii (l ++ k) = String.string_of_list_ascii l +:+ String.string_of_list_ascii k.
Proof. induction l as [|c l IH]; [done|]. cbn. by rewrite IH. Qed.

Lemma str_rev_cons c s : str_rev (String c s) = str_rev s +:+ String c "".
Proof. unfold str_rev. cbn [String.list_ascii_of_string rev]. by rewrite string_of_list_app. Qed.

Lemma str_rev_rev s : str_rev (str_rev s) = s.
Proof.
  unfold str_rev. rewrite String.list_ascii_of_string_of_list_ascii, rev_involutive.
  apply String.string_of_list_ascii_of_string.
Qed.

Lemma str_all_rev p s : str_all p (str_rev s) = str_all p s.
Proof.
  induction s as [|c s IH]; [done|]. rewrite str_rev_cons, str_all_app, IH. cbn. by rewrite andb_true_r, andb_comm.
Qed.

(** No space rune starts, or ends, with a character of an endpoint. *)
Lemma trim_left_plain ps s fuel :
  (forall c r, endpoint_char c = true -> strip_any ps (String c r) = None) ->
  strip_any ps "" = None -> str_all endpoint_char s = true -> trim_left fuel ps s = s.
Proof.
  intros Hps Hnil Hs. destruct fuel as [|fuel]; [done|]. cbn. destruct s as [|c s]; [by rewrite Hnil|].
  apply andb_prop in Hs as [Hc _]. by rewrite Hps.
Qed.

Lemma trim_space_plain s : str_all endpoint_char s = true -> trim_space s = s.
Proof.
  intros Hs. unfold trim_space. cbv zeta. rewrite (trim_left_plain space_runes); [|..|done]; [|intros c r; every_char c|done].
  rewrite trim_left_plain; [apply str_rev_rev|intros c r; every_char c|done|by rewrite str_all_rev].
Qed.

Lemma no_control s : str_all endpoint_char s = true -> contains_any control_chars s = false.
Proof.
  intros Hs. unfold contains_any, control_chars. cbn [existsb].
  by rewrite !(has_char_none endpoint_char) by done.
Qed.

Lemma trim_suffix_last c a : trim_suffix c (a +:+ String c "") = a.
Proof.
  induction a as [|d a IH]; cbn [String.append trim_suffix]; [by rewrite Ascii.eqb_refl|].
  rewrite <-IH at 2. by destruct a.
Qed.

Lemma trim_suffix_other c a p : p <> "" -> has_char c p = false -> trim_suffix c (a +:+ p) = a +:+ p.
Proof.
  intros Hp Hc. induction a as [|d a IH]; cbn [String.append].
  - induction p as [|d p IHp]; [done|]. rewrite has_char_cons in Hc. apply orb_false_iff in Hc as [H1 H2].
    destruct p as [|e p]; cbn [trim_suffix]; [by rewrite H1|]. f_equal. by apply IHp.
  - rewrite <-IH at 2. destruct (a +:+ p) eqn:E; [|done]. destruct a; [by subst|done].
Qed.

Lemma trim_suffix_split c s : trim_suffix c s = s \/ s = trim_suffix c s +:+ String c "".
Proof.
  induction s as [|d [|e s] IH]; [by left|cbn; destruct (Ascii.eqb_spec d c) as [->|]; auto|].
  change (trim_suffix c (String d (String e s))) with (String d (trim_suffix c (String e s))).
  destruct IH as [->|IH]; [by left|]. right. by rewrite IH at 1.
Qed.

Lemma has_suffix_inv c s : has_suffix c s = true -> s = trim_suffix c s +:+ String c "".
Proof.
  unfold has_suffix. intros H%negb_true_iff%String.eqb_neq. by destruct (trim_suffix_split c s).
Qed.

Lemma has_suffix_last c a : has_suffix c (a +:+ String c "") = true.
Proof.
  unfold has_suffix. rewrite trim_suffix_last. apply negb_true_iff, String.eqb_neq. intros H.
  apply (f_equal String.length) in H. rewrite str_length_app in H. cbn in H. lia.
Qed.

Lemma has_suffix_other c a p : p <> "" -> has_char c p = false -> has_suffix c (a +:+ p) = false.
Proof. intros Hp Hc. unfold has_suffix. by rewrite trim_suffix_other, String.eqb_refl. Qed.

(** ** Lemmas: host and port *)

Lemma SplitHostPort_bracket h p : has_char "[" h = false -> has_char "]" h = false ->
  has_char ":" p = false -> has_char "[" p = false -> has_char "]" p = false ->
  SplitHostPort (String "[" (h +:+ String "]" (String ":" p))) = Some (h, p).
Proof.
  intros H1 H2 P1 P2 P3. unfold SplitHostPort.
  assert (String "[" (h +:+ String "]" (String ":" p)) = (String "[" h +:+ "]") +:+ String ":" p) as E
    by (cbn; by rewrite string_app_assoc).
  rewrite E at 1. rewrite str_cut_last_here by done.
  pose proof (str_cut_app "]" (String "[" h) (String ":" p)) as Hcut. cbn [String.append] in Hcut. rewrite Hcut.
  2: { apply negb_false_iff. change (has_char "]" (String "[" h) = false). by rewrite has_char_cons, H2. }
  rewrite str_length_app, Nat.eqb_refl. cbn [andb]. cbn [str_drop].
  by rewrite has_char_app, !has_char_cons, H1, P2, P3.
Qed.

Lemma SplitHostPort_plain h p : h <> "" -> has_char ":" h = false -> has_char "[" h = false -> has_char "]" h = false ->
  has_char ":" p = false -> has_char "[" p = false -> has_char "]" p = false ->
  SplitHostPort (h +:+ String ":" p) = Some (h, p).
Proof.
  intros H0 H1 H2 H3 P1 P2 P3. unfold SplitHostPort. rewrite str_cut_last_here by done.
  assert (has_char ":" h || has_char "[" (h +:+ String ":" p) || has_char "]" (h +:+ String ":" p) = false) as Hb.
  { by rewrite !has_char_app, !has_char_cons, H1, H2, H3, P2, P3. }
  destruct h as [|c h]; [done|]. cbn [String.append] in *. destruct (Ascii.eqb_spec c "[") as [->|Hc].
  - by rewrite has_char_cons in H2.
  - rewrite Hb. destruct c as [[] [] [] [] [] [] [] []]; done.
Qed.

Lemma has_prefix_bracket s : has_prefix "[" s = true <-> exists r, s = String "[" r.
Proof.
  unfold has_prefix. destruct s as [|c s]; cbn [strip_prefix]; [split; [done|by intros [? ?]]|].
  destruct (Ascii.eqb_spec "[" c) as [<-|Hc]; [split; [eauto|done]|]. split; [done|]. by intros [? [= ->]].
Qed.

Lemma SplitHostPort_inv s h p : SplitHostPort s = Some (h, p) ->
  has_char "]" p = false /\
  if has_prefix "[" s then s = String "[" (h +:+ String "]" (String ":" p)) else s = h +:+ String ":" p.
Proof.
  unfold SplitHostPort. destruct (str_cut_last ":" s) as [[before port]|] eqn:El; [|done].
  apply str_cut_last_app in El. destruct (has_prefix "[" s) eqn:Eb.
  - apply has_prefix_bracket in Eb as [r ->]. destruct (str_cut "]" (String "[" r)) as [[inner after] [|]] eqn:Ec; [|done].
    destruct (_ && _) eqn:Eg; [|done]. intros [= <- <-].
    apply andb_prop in Eg as [Eg Ha%negb_true_iff]. apply andb_prop in Eg as [Eg _]. apply andb_prop in Eg as [_ Hl%Nat.eqb_eq].
    apply str_cut_spec in Ec. destruct inner as [|c inner]; [done|]. injection Ec as <- Er.
    assert (String "[" inner +:+ "]" = before /\ after = String ":" port) as [_ ->].
    { apply app_inj_length; [|rewrite str_length_app; cbn in *; lia]. rewrite <-El, string_app_assoc. cbn. by rewrite Er. }
    split; [by rewrite has_char_cons in Ha|]. cbn. by rewrite Er.
  - assert (forall X : option (string * string), match s with String "[" _ => X | _ =>
        if has_char ":" before || has_char "[" s || has_char "]" s then None else Some (before, port) end = Some (h, p) ->
        has_char "]" s = false /\ before = h /\ port = p) as Hm.
    { intros X H. destruct s as [|c s]; [by destruct before|]. destruct (Ascii.eqb_spec c "[") as [->|Hc].
      - unfold has_prefix in Eb. done.
      - assert ((if has_char ":" before || has_char "[" (String c s) || has_char "]" (String c s) then None
          else Some (before, port)) = Some (h, p)) as H' by (destruct c as [[] [] [] [] [] [] [] []]; done).
        destruct (_ || _) eqn:Eg; [done|]. injection H' as <- <-. by apply orb_false_iff in Eg as [_ ?]. }
    intros H. apply Hm in H as (Hs & <- & <-). split; [|done].
    rewrite El, has_char_app, has_char_cons in Hs. by apply orb_false_iff in Hs as [_ ?].
Qed.

(** ** Endpoints *)

Definition zone_free (s : string) : Prop := has_char "%" s = false.

Lemma ipv6_chars a : ipv6 a -> zone_free a -> str_all addr_char a = true.
Proof. intros [z Hz] Hp. by destruct (parse_addr_chars _ _ Hz Hp). Qed.

Lemma plain_host_chars h : plain_host h -> str_all endpoint_char h = true /\ has_char ":" h = false /\
  has_char "[" h = false /\ has_char "]" h = false /\ h <> "".
Proof.
  intros [[a Ha]|Hh].
  - destruct (parse_addr_family _ _ Ha) as [H1 H2]. split_and!; [|done|by eapply has_char_none; [|exact H1]..|by intros ->].
    revert H1. apply str_all_weaken. exact addr_endpoint.
  - destruct (hostname_chars _ Hh) as (H1 & H2 & _). split_and!; [done|done|..|by intros ->].
    all: unfold validHostname in Hh; destruct (_ || _); [done|]; eapply (has_char_none (fun c => label_char c || Ascii.eqb c ".")); [done|].
    all: by apply hostname_labels.
Qed.

Lemma port_text_chars p : port_text p -> str_all is_digit p = true /\ has_char ":" p = false /\
  has_char "[" p = false /\ has_char "]" p = false /\ p <> "".
Proof. intros [H (n & Hn & _)]. split_and!; [done|by eapply has_char_none; [|exact H]..|by intros ->]. Qed.

Lemma endpoint_chars s : endpoint s -> zone_free s -> str_all endpoint_char s = true.
Proof.
  assert (forall a, ipv6 a -> zone_free a -> str_all endpoint_char a = true) as H6.
  { intros a Ha Hz. eapply str_all_weaken; [exact addr_endpoint|]. by apply ipv6_chars. }
  assert (forall p, port_text p -> str_all endpoint_char p = true) as Hd.
  { intros p [Hp _]. revert Hp. apply str_all_weaken. intros c. every_char c. }
  unfold zone_free. intros [|h Hh|h p Hh Hp|a Ha|a Ha|a p Ha Hp] Hz; [done|by apply plain_host_chars|..|by apply H6| |].
  - rewrite str_all_app. destruct (plain_host_chars _ Hh) as [-> _]. cbn. by apply Hd.
  - cbn [str_all]. rewrite has_char_cons, has_char_app in Hz. rewrite str_all_app, H6; [done|done|].
    by destruct (orb_false_elim _ _ Hz) as [_ [? _]%orb_false_elim].
  - cbn [str_all]. rewrite has_char_cons, has_char_app in Hz. rewrite str_all_app, H6; [|done|].
    + cbn. by apply Hd.
    + by destruct (orb_false_elim _ _ Hz) as [_ [? _]%orb_false_elim].
Qed.

Lemma valid_port_ok p : valid_port p = Ok tt <-> port_text p.
Proof.
  unfold valid_port, port_text. destruct (str_all is_digit p); cbn; [|split; [done|by intros [? _]]].
  destruct (parse_int64 p) as [n|]; [|split; [done|by intros (_ & n & ? & _)]].
  destruct (Z.ltb_spec n 1), (Z.ltb_spec 65535 n); cbn; split; try done; try (intros (_ & m & [= <-] & ?); lia).
  intros _. split; [done|]. exists n. split; [done|lia].
Qed.

Lemma check_host_ok h p : has_char ":" h = false ->
  (check_host false h p = Ok tt <-> plain_host h /\ (p = "" \/ port_text p)).
Proof.
  intros Hc. unfold check_host, plain_host.
  assert ((if String.eqb p "" then Ok tt else valid_port p) = Ok tt <-> (p = "" \/ port_text p)) as Hp.
  { destruct (String.eqb_spec p "") as [->|Hn]; [split; auto|]. rewrite valid_port_ok. split; [auto|by intros [?|?]]. }
  destruct (parse_addr h) as [[a|z]|] eqn:Ea; cbn [mbind result_bind rbind andb Is6 negb].
  - rewrite Hp. split; [|tauto]. intros H. split; [left; eauto|done].
  - apply parse_addr_family in Ea. congruence.
  - destruct (validHostname h) eqn:Eh; cbn [mbind result_bind rbind].
    + rewrite Hp. tauto.
    + split; [done|]. intros [[[a Ha]|?] _]; done.
Qed.

(** Bracketed, the host is an IPv6 address, whatever its zone. *)
Lemma check_host_bracketed h p : ipv6 h -> p <> "" -> (check_host true h p = Ok tt <-> port_text p).
Proof.
  intros [z Hz] Hp. unfold check_host. rewrite Hz. cbn [mbind result_bind rbind andb Is6 negb].
  destruct (String.eqb_spec p "") as [->|_]; [done|]. apply valid_port_ok.
Qed.

Lemma match_ipv6 {A} h (x y : A) : (match parse_addr h with Some (V6 _) => x | _ => y end) = x \/
  ~ ipv6 h /\ (match parse_addr h with Some (V6 _) => x | _ => y end) = y.
Proof.
  destruct (parse_addr h) as [[a|z]|] eqn:E; [right|by left|right]; (split; [intros [w Hw]; congruence|done]).
Qed.

(** What is accepted is in the grammar, with or without a zone. *)
Lemma endpoint_sound s : ValidEndpoint s = Ok tt -> endpoint s.
Proof.
  unfold ValidEndpoint. destruct (String.eqb_spec s "") as [->|_]; [constructor|].
  destruct (_ || contains_any _ _); [done|]. cbv zeta.
  destruct (has_prefix "[" s) eqn:Eb; cbn [andb orb].
  - destruct (has_suffix "]" s) eqn:Es.
    + apply has_prefix_bracket in Eb as [r ->]. apply has_suffix_inv in Es. cbn [str_drop].
      destruct (parse_addr (trim_suffix "]" r)) as [[a|z]|] eqn:Ea; [done| |done]. intros _.
      destruct r as [|c r]; [done|]. change (trim_suffix "]" (String "[" (String c r))) with (String "[" (trim_suffix "]" (String c r))) in Es.
      assert (String c r = trim_suffix "]" (String c r) +:+ "]") as -> by (remember (trim_suffix "]" (String c r)) as t; by injection Es).
      apply ep_bracket. by exists z.
    + destruct (SplitHostPort s) as [[h p]|] eqn:Esp; [|done]. destruct (_ || _) eqn:En; [done|].
      apply orb_false_iff in En as [_ Hp%String.eqb_neq].
      destruct (SplitHostPort_inv _ _ _ Esp) as [_ Hs]. rewrite Eb in Hs.
      destruct (match_ipv6 h false true) as [E6|[_ ->]]; [|done]. rewrite E6. intros H.
      assert (ipv6 h) as H6 by (destruct (parse_addr h) as [[a|z]|] eqn:Ea; [done|by exists z|done]).
      apply check_host_bracketed in H; [|done|done]. rewrite Hs. by apply ep_bracket_port.
  - destruct (str_count ":" s =? 1)%nat eqn:Ec.
    + destruct (SplitHostPort s) as [[h p]|] eqn:Esp; [|done]. destruct (_ || _) eqn:En; [done|].
      apply orb_false_iff in En as [_ Hp%String.eqb_neq].
      destruct (SplitHostPort_inv _ _ _ Esp) as [_ Hs]. rewrite Eb in Hs. rewrite Hs. rewrite Hs, str_count_app' in Ec. cbn in Ec.
      apply Nat.eqb_eq in Ec. intros H. apply check_host_ok in H as [Hh [?|Hpt]]; [done|by apply ep_host_port|].
      apply negb_true_iff. rewrite <-str_count_has. apply Nat.eqb_eq. lia.
    + destruct (has_char ":" s) eqn:Eh.
      * destruct (parse_addr s) as [[a|z]|] eqn:Ea; [|intros _; apply ep_ipv6; by exists z|done].
        apply parse_addr_family in Ea as [_ ?]. congruence.
      * intros [Hh _]%check_host_ok; [|done]. by apply ep_host.
Qed.

Lemma parse_ipv6_ok {A} h (x : A) y : ipv6 h -> (match parse_addr h with Some (V6 _) => x | _ => y end) = x.
Proof. by intros [z ->]. Qed.

Lemma has_prefix_plain s : has_char "[" s = false -> has_prefix "[" s = false.
Proof.
  intros H. apply not_true_is_false. intros [r ->]%has_prefix_bracket. by rewrite has_char_cons in H.
Qed.

Lemma endpoint_complete s : endpoint s -> zone_free s -> ValidEndpoint s = Ok tt.
Proof.
  intros He Hz. pose proof (endpoint_chars _ He Hz) as Hs. unfold ValidEndpoint.
  destruct (String.eqb_spec s "") as [->|Hne]; [done|].
  rewrite (trim_space_plain _ Hs), String.eqb_refl, (no_control _ Hs). cbn [negb orb]. cbv zeta.
  destruct He as [|h Hh|h p Hh Hp|a Ha|a Ha|a p Ha Hp]; [done|..].
  - destruct (plain_host_chars _ Hh) as (_ & H1 & H2 & H3 & H4). rewrite has_prefix_plain by done. cbn [andb orb].
    pose proof (str_count_has ":" h) as Hc. rewrite H1 in Hc. apply Nat.eqb_eq in Hc. rewrite Hc, H1. cbn [Nat.eqb].
    apply check_host_ok; auto.
  - destruct (plain_host_chars _ Hh) as (_ & H1 & H2 & H3 & H4). destruct (port_text_chars _ Hp) as (_ & P1 & P2 & P3 & P4).
    rewrite has_prefix_plain by (by rewrite has_char_app, has_char_cons, H2, P2). cbn [andb orb].
    pose proof (str_count_has ":" h) as Hc. rewrite H1 in Hc. apply Nat.eqb_eq in Hc.
    pose proof (str_count_has ":" p) as Hd. rewrite P1 in Hd. apply Nat.eqb_eq in Hd.
    rewrite str_count_app', Hc. cbn [str_count]. change (Ascii.eqb ":" ":") with true. rewrite Hd. cbn [Nat.eqb Nat.add].
    rewrite SplitHostPort_plain by done. rewrite (proj2 (String.eqb_neq h "")), (proj2 (String.eqb_neq p "")) by done.
    cbn [orb andb]. apply check_host_ok; auto.
  - pose proof (ipv6_chars _ Ha Hz) as Hc. rewrite has_prefix_plain by (by eapply has_char_none; [|exact Hc]). cbn [andb orb].
    pose proof (ipv6_colons _ Ha Hz) as H2. rewrite (proj2 (Nat.eqb_neq _ _)) by lia.
    destruct Ha as [z Ha]. by rewrite (parse_addr_family _ _ Ha), Ha.
  - assert (has_prefix "[" (String "[" (a +:+ "]")) = true) as -> by (apply has_prefix_bracket; eauto).
    assert (has_suffix "]" (String "[" (a +:+ "]")) = true) as -> by apply (has_suffix_last "]" (String "[" a)).
    cbn [andb str_drop]. rewrite trim_suffix_last. by apply parse_ipv6_ok.
  - destruct (port_text_chars _ Hp) as (_ & P1 & P2 & P3 & P4).
    assert (zone_free a) as Hza.
    { unfold zone_free in *. rewrite has_char_cons, has_char_app in Hz. by destruct (orb_false_elim _ _ Hz) as [_ [? _]%orb_false_elim]. }
    pose proof (ipv6_chars _ Ha Hza) as Hc.
    assert (has_prefix "[" (String "[" (a +:+ String "]" (String ":" p))) = true) as -> by (apply has_prefix_bracket; eauto).
    assert (has_suffix "]" (String "[" (a +:+ String "]" (String ":" p))) = false) as ->.
    { pose proof (has_suffix_other "]" (String "[" (a +:+ "]:")) p P4 P3) as H. cbn [String.append] in H. by rewrite string_app_assoc in H. }
    cbn [andb orb]. rewrite SplitHostPort_bracket; [|by eapply has_char_none; [|exact Hc]..|done|done|done].
    assert (a <> "") as Han by (intros ->; by destruct Ha).
    rewrite (proj2 (String.eqb_neq a "")), (proj2 (String.eqb_neq p "")) by done. cbn [orb].
    rewrite (parse_ipv6_ok _ _ _ Ha). by apply check_host_bracketed.
Qed.

(** C26. Without a zone, exactly the endpoints of the grammar are accepted. *)
Theorem ValidEndpoint_grammar s : has_char "%" s = false -> (ValidEndpoint s = Ok tt <-> endpoint s).
Proof. intros Hz. split; [apply endpoint_sound|]. intros He. by apply endpoint_complete. Qed.

Theorem ValidEndpoint_grammar_witness :
  has_char "%" "[fe80::1]:51820" = false /\ (ValidEndpoint "[fe80::1]:51820" = Ok tt <-> endpoint "[fe80::1]:51820").
Proof. split; [reflexivity|]. apply ValidEndpoint_grammar. reflexivity. Defined.

(** An accepted endpoint is one line of plain characters. *)
Theorem ValidEndpoint_charset s : ValidEndpoint s = Ok tt ->
  contains_any control_chars s = false /\ (has_char "%" s = false -> str_all endpoint_char s = true).
Proof.
  intros H. split.
  - revert H. unfold ValidEndpoint. destruct (String.eqb_spec s "") as [->|_]; [done|].
    destruct (contains_any control_chars s); [|done]. by rewrite orb_true_r.
  - intros Hz. apply endpoint_chars; [|done]. by apply endpoint_sound.
Qed.

Theorem ValidEndpoint_charset_witness : ValidEndpoint "vpn.example.com:443" = Ok tt /\
  contains_any control_chars "vpn.example.com:443" = false /\
  (has_char "%" "vpn.example.com:443" = false -> str_all endpoint_char "vpn.example.com:443" = true).
Proof. split; [reflexivity|]. apply ValidEndpoint_charset. reflexivity. Defined.

(** A zone may hold anything but the four control characters: a space, a path. *)
Theorem zone_accepts_anything : ValidEndpoint "fe80::1%a b/c" = Ok tt /\ ValidEndpoint "[fe80::1%x]:99999]" = Ok tt.
Proof. split; reflexivity. Qed.

(** A subnet is accepted exactly when it is a pool. *)
Lemma ValidSubnet_ok s : ValidSubnet s = Ok tt <-> is_ok (Parse s) = true.
Proof.
  unfold ValidSubnet, Parse. destruct (ParsePrefix s) as [p|]; [|done]. destruct (bool_decide (p = Masked p)); [|done].
  cbn [negb orb]. by destruct (_ || _).
Qed.
