(* ===== verification/NetAddr.v ===== *)
(** * IPv6 addresses as values (net/netip, package net)

    The 128 bits of an accepted IPv6 text, and the canonical text of an
    address: lower case, no leading zeros, the longest run of zero groups
    shortened. *)
From stdpp Require Import base tactics strings list.
From Stdlib Require Import ZArith Lia Ascii.
From Stdlib Require String.
From S2P Require Import Prelude GoText GoTime Domain Awgparam Ipam NetText.

Open Scope Z_scope.

Definition nibble (c : ascii) : Z :=
  if is_digit c then byte_of c - 48 else if in_range "a" "f" c then byte_of c - 87 else byte_of c - 55.

Fixpoint hex_num (s : string) (acc : Z) : Z :=
  match s with EmptyString => acc | String c s => hex_num s (acc * 16 + nibble c) end.

(** The 16-bit groups of the pieces between colons; an embedded IPv4 address
    fills two. *)
Fixpoint hextets (l : list string) : list Z :=
  match l with
  | [] => []
  | p :: l => match ParseAddr p with Some a => [a / 65536; a mod 65536] | None => [hex_num p 0] end ++ hextets l
  end.

Definition side (s : string) : list Z := if String.eqb s "" then [] else hextets (str_split ":" s).

(** The text around the first [::]. *)
Fixpoint cut_ellipsis (s : string) : option (string * string) :=
  match s with
  | EmptyString => None
  | String c r =>
      match strip_prefix "::" s with
      | Some rest => Some ("", rest)
      | None => match cut_ellipsis r with Some (a, b) => Some (String c a, b) | None => None end
      end
  end.

Definition ipv6_groups (s : string) : list Z :=
  match cut_ellipsis s with
  | None => side s
  | Some (a, b) => side a ++ List.repeat 0 (8 - length (side a) - length (side b)) ++ side b
  end.

Definition join_groups (l : list Z) : Z := List.fold_left (fun acc g => acc * 65536 + g) l 0.

(** The 16 bytes of an address: an IPv4 one is mapped. *)
Definition v4_mapped (a : Z) : Z := 65535 * 2 ^ 32 + a.
Definition as16 (addr : string) (a : IP) : Z := match a with V4 a => v4_mapped a | V6 _ => join_groups (ipv6_groups addr) end.

(** ** The canonical text of an IPv6 address ([netip.Addr.String]) *)

Definition hex_lower (n : Z) : ascii := char_of (if n <? 10 then 48 + n else 87 + n).

(** A group without leading zeros. *)
Definition group_text (g : Z) : string :=
  let nibbles := [g / 4096; g / 256 mod 16; g / 16 mod 16; g mod 16] in
  let shown := if g <? 16 then drop 3 nibbles else if g <? 256 then drop 2 nibbles
               else if g <? 4096 then drop 1 nibbles else nibbles in
  String.string_of_list_ascii (List.map hex_lower shown).

Fixpoint zero_run (l : list Z) : nat :=
  match l with g :: l => if g =? 0 then S (zero_run l) else O | [] => O end.

(** The first of the longest runs of at least two zero groups: its start and
    its length. *)
Fixpoint longest_run (i : nat) (l : list Z) (best : nat * nat) : nat * nat :=
  match l with
  | [] => best
  | _ :: rest =>
      let n := zero_run l in
      longest_run (S i) rest (if (2 <=? n)%nat && (best.2 <? n)%nat then (i, n) else best)
  end.

Definition addr6_text (l : list Z) : string :=
  let '(start, n) := longest_run 0 l (O, O) in
  let texts := List.map group_text l in
  if (n =? 0)%nat then str_join ":" texts
  else str_join ":" (take start texts) +:+ "::" +:+ str_join ":" (drop (start + n) texts).

(** [Is4In6]. *)
Definition Is4In6 (l : list Z) : bool := Z.shiftr (join_groups l) 32 =? 65535.

(** An IPv6 address of its own, without its zone: not a mapped IPv4 one. *)
Definition own_ipv6 (addr : string) : option (list Z) :=
  match parse_addr addr with
  | Some (V6 _) => let l := ipv6_groups (str_cut "%" addr).1.1 in if Is4In6 l then None else Some l
  | _ => None
  end.
