(* ===== verification/Webhook.v ===== *)
(** * The webhook outbox (internal/webhook)

    [RecordTx] writes the event row and one pending delivery per endpoint that
    is enabled, subscribed and entitled to see the event, in the transaction of
    the state change; it is the implementation of the services' recorder
    interface.  A delivery pass selects due rows, posts them and records each
    attempt with an exponential backoff up to a dead letter.

    The POST itself and the decryption of an endpoint's secret are parameters. *)
From stdpp Require Import base tactics strings gmap list fin_maps.
From Stdlib Require Import ZArith Lia.
From Stdlib Require String.
From S2P Require Import Prelude GoTime Domain Store.

Open Scope Z_scope.

(** ** The catalog *)

Definition EventUserCreated := "user.created".
Definition EventUserUpdated := "user.updated".
Definition EventUserEnabled := "user.enabled".
Definition EventUserDisabled := "user.disabled".
Definition EventUserExpired := "user.expired".
Definition EventUserTrafficExceeded := "user.traffic_exceeded".
Definition EventUserFirstConnected := "user.first_connected".
Definition EventDeviceCreated := "device.created".
Definition EventDeviceDeleted := "device.deleted".
Definition EventNodeStarted := "node.started".

Definition Catalog : list string :=
  [EventUserCreated; EventUserUpdated; EventUserEnabled; EventUserDisabled;
   EventUserExpired; EventUserTrafficExceeded; EventUserFirstConnected;
   EventDeviceCreated; EventDeviceDeleted; EventNodeStarted].

Definition ValidEvent (e : string) : bool := existsb (String.eqb e) Catalog.

Definition ValidateEvents (events : list string) : result err unit :=
  if forallb ValidEvent events then Ok tt else Err (E CodeInvalidRequest).

(** ** Recording an event *)

(** The owner of the event: the reseller of the persisted user it names. *)
Definition event_owner (event : string) (data : json_obj) (s : store) : option string :=
  if String.eqb event EventNodeStarted then None
  else match js_field "user_id" data with
       | Some (JsStr id) =>
           if String.eqb id "" then None
           else match users s !! id with Some u => u_ResellerID u | None => None end
       | _ => None
       end.

(** The tenancy clause that the queries share. *)
Definition visible (endpoint : Endpoint) (owner : option string) : bool :=
  match e_ResellerID endpoint with
  | None => match owner with None => true | Some _ => e_IncludeResellerEvents endpoint end
  | Some r => match owner with Some o => String.eqb r o | None => false end
  end.

Definition subscribed (endpoint : Endpoint) (event : string) : bool :=
  existsb (fun e => String.eqb e event) (e_Events endpoint).

(** The rows of [SELECT id, events FROM webhook_endpoints WHERE enabled ...]. *)
Definition fanout (owner : option string) (s : store) : list Endpoint :=
  filter (fun e => e_Enabled e && visible e owner) (map_to_list (webhook_endpoints s)).*2.

Section Recorder.
Context `{Entropy}.

Definition insert_delivery (eventID event : string) (data : json_obj) (now : Z)
    (e : Endpoint) : Tx unit :=
  if negb (subscribed e event) then tx_ret tt
  else
    id ← new_id;
    tx_modify (fun s => s <| webhook_deliveries ::= fun l => l ++
      [MkDelivery id (e_ID e) eventID event data DPending 0 (Some now) "" now now] |>).

Definition Recorder_RecordTx (event : string) (data : json_obj) : Tx unit :=
  _ ← tx_guard (negb (ValidEvent event)) (E CodeInvalidRequest);
  owner ← tx_gets (event_owner event data);
  eventID ← new_id;
  now ← now_;
  _ ← tx_modify (fun s => s <| webhook_events ::= fun l => l ++
        [MkEvent eventID event data now owner] |>);
  subs ← tx_gets (fanout owner);
  tx_iter (insert_delivery eventID event data now) subs.

Definition Emit (event : string) (data : json_obj) : store -> result err unit * store :=
  WithTx (Recorder_RecordTx event data).
End Recorder.

(** The services' recorder, implemented by this package. *)
#[export] Instance webhook_recorder `{Entropy} : EventRecorder := Some Recorder_RecordTx.

(** ** The delivery pass *)

Definition maxBatch : nat := 64.
Definition maxErrorLen : nat := 200.
Definition backoffBase : Z := 30 * second.
Definition backoffCap : Z := 6 * hour.

Fixpoint backoff_go (k : nat) (d : Z) : Z :=
  match k with
  | O => d
  | S k => let d := d * 2 in if backoffCap <=? d then backoffCap else backoff_go k d
  end.

(** The retry delay after the [n]th attempt: the loop runs [n - 1] times. *)
Definition backoff (n : Z) : Z := backoff_go (Z.to_nat (n - 1)) backoffBase.

Definition truncate_text (s : string) (n : nat) : string :=
  if (String.length s <=? n)%nat then s else String.substring 0 n s.

Record Report := MkReport {
  rp_Attempted : Z; rp_Delivered : Z; rp_Failed : Z; rp_Dead : Z
}.
#[export] Instance eta_Report : Eta Report := fun r =>
  MkReport (rp_Attempted r) (rp_Delivered r) (rp_Failed r) (rp_Dead r).

(** The rows joined by the due query: the endpoint is enabled, the event still
    exists and the endpoint may see it. *)
Definition delivery_due (now : Z) (s : store) (d : Delivery) : bool :=
  match dl_Status d with
  | DPending =>
      match webhook_endpoints s !! dl_EndpointID d,
            List.find (fun ev => String.eqb (ev_ID ev) (dl_EventID d)) (webhook_events s) with
      | Some e, Some ev =>
          e_Enabled e && visible e (ev_ResellerID ev) &&
          match dl_NextAttemptAt d with
          | None => true
          | Some t => text_le (rfc3339nano t) (rfc3339nano now)
          end
      | _, _ => false
      end
  | _ => false
  end.

(** [ORDER BY next_attempt_at]: NULL first, then by text. *)
Definition due_le (a b : Delivery) : bool :=
  match dl_NextAttemptAt a, dl_NextAttemptAt b with
  | None, _ => true
  | Some _, None => false
  | Some x, Some y => text_le (rfc3339nano x) (rfc3339nano y)
  end.

Fixpoint insert_by {A} (le : A -> A -> bool) (x : A) (l : list A) : list A :=
  match l with
  | [] => [x]
  | y :: l' => if le x y then x :: l else y :: insert_by le x l'
  end.
Fixpoint sort_by {A} (le : A -> A -> bool) (l : list A) : list A :=
  match l with [] => [] | x :: l => insert_by le x (sort_by le l) end.

Definition select_due (now : Z) (s : store) : list Delivery :=
  take maxBatch (sort_by due_le (filter (fun d => delivery_due now s d) (webhook_deliveries s))).

(** [webhooks.max_attempts], twelve unless a positive setting is stored. *)
Definition max_attempts (setting : option Z) : Z :=
  match setting with Some n => if 0 <? n then n else 12 | None => 12 end.

(** One recorded attempt: the row as selected, and what the POST returned. *)
Definition outcome : Type := Delivery * (bool * string).

Definition attempt_status (max : Z) (o : outcome) : DeliveryStatus :=
  if o.2.1 then DDelivered
  else if max <=? dl_Attempts o.1 + 1 then DDead else DPending.

Definition attempt_next (now : Z) (o : outcome) : Z :=
  if o.2.1 then now else time_add now (backoff (dl_Attempts o.1 + 1)).

Definition set_attempt (max now : Z) (o : outcome) (row : Delivery) : Delivery :=
  if String.eqb (dl_ID row) (dl_ID o.1) then
    row <| dl_Status := attempt_status max o |>
        <| dl_Attempts := dl_Attempts o.1 + 1 |>
        <| dl_NextAttemptAt := Some (attempt_next now o) |>
        <| dl_LastError := truncate_text o.2.2 maxErrorLen |>
        <| dl_UpdatedAt := now |>
  else row.

Definition count_attempt (max : Z) (r : Report) (o : outcome) : Report :=
  let r := r <| rp_Attempted ::= Z.succ |> in
  match attempt_status max o with
  | DDelivered => r <| rp_Delivered ::= Z.succ |>
  | DDead => r <| rp_Dead ::= Z.succ |>
  | DPending => r <| rp_Failed ::= Z.succ |>
  end.

(** The second transaction of a pass, on the store as it is by then. *)
Definition record_attempts (max now : Z) (os : list outcome) (s : store) : Report * store :=
  (fold_left (count_attempt max) os (MkReport 0 0 0 0),
   s <| webhook_deliveries ::= fun rows =>
          fold_left (fun rows o => List.map (set_attempt max now o) rows) os rows |>).

Section Pass.
Variable secret : string -> bool.              (* the endpoint's secret decrypts *)
Variable deliver : Delivery -> bool * string.  (* one POST: success, error text *)

Definition pass_outcomes (dues : list Delivery) : list outcome :=
  List.map (fun d => (d, deliver d)) (filter (fun d => secret (dl_EndpointID d)) dues).

Definition Pass (setting : option Z) (s : store) : Report * store :=
  let now := clock s in
  record_attempts (max_attempts setting) now (pass_outcomes (select_due now s)) s.
End Pass.

(** ** Redelivery *)

Definition redeliver (resellerID : option string) (globalOnly : bool)
    (endpointID deliveryID : string) : Tx unit :=
  now ← now_;
  s ← tx_gets id;
  let in_scope (e : Endpoint) :=
    match resellerID with
    | Some r => bool_decide (e_ResellerID e = Some r)
    | None => if globalOnly then bool_decide (e_ResellerID e = None) && negb (e_IncludeResellerEvents e)
              else true
    end in
  let hit d :=
    String.eqb (dl_ID d) deliveryID && String.eqb (dl_EndpointID d) endpointID &&
    match webhook_endpoints s !! dl_EndpointID d,
          List.find (fun ev => String.eqb (ev_ID ev) (dl_EventID d)) (webhook_events s) with
    | Some e, Some ev => in_scope e && visible e (ev_ResellerID ev)
    | _, _ => false
    end in
  _ ← tx_guard (negb (existsb hit (webhook_deliveries s))) (E CodeNotFound);
  tx_modify (fun s => s <| webhook_deliveries ::= List.map (fun d =>
    if hit d then d <| dl_Status := DPending |> <| dl_Attempts := 0 |>
                    <| dl_NextAttemptAt := Some now |> <| dl_LastError := "" |>
                    <| dl_UpdatedAt := now |>
    else d) |>).

(** ** Lemmas: the recorder *)

Section RecorderFacts.
Context `{Entropy}.

(** The rows one event adds, in the order of the fan-out. *)
Inductive added (eventID event : string) (data : json_obj) (now : Z) :
    list Endpoint -> list Delivery -> Prop :=
| added_nil : added eventID event data now [] []
| added_skip e es ds :
    subscribed e event = false -> added eventID event data now es ds ->
    added eventID event data now (e :: es) ds
| added_row e es ds id :
    subscribed e event = true -> added eventID event data now es ds ->
    added eventID event data now (e :: es)
      (MkDelivery id (e_ID e) eventID event data DPending 0 (Some now) "" now now :: ds).

Lemma insert_delivery_run eventID event data now e s : subscribed e event = true ->
  insert_delivery eventID event data now e s =
    Ok (tt, s <| entropy_pos := S (entropy_pos s) |>
              <| webhook_deliveries := webhook_deliveries s ++
                   [MkDelivery (NewID (clock s / 1000000) (rand (entropy_pos s))) (e_ID e)
                      eventID event data DPending 0 (Some now) "" now now] |>).
Proof. intros Hs. unfold insert_delivery, new_id. by rewrite Hs. Qed.

Lemma insert_delivery_skip eventID event data now e s : subscribed e event = false ->
  insert_delivery eventID event data now e s = Ok (tt, s).
Proof. intros Hs. unfold insert_delivery. by rewrite Hs. Qed.

Lemma insert_deliveries_run eventID event data now es s :
  exists ds n, added eventID event data now es ds /\
    tx_iter (insert_delivery eventID event data now) es s =
      Ok (tt, s <| webhook_deliveries := webhook_deliveries s ++ ds |>
                <| entropy_pos := n |>).
Proof.
  revert s. induction es as [|e es IH]; intros s.
  - exists [], (entropy_pos s). split; [constructor|]. cbn. rewrite app_nil_r. by destruct s.
  - cbn [tx_iter]. unfold tx_bind. destruct (subscribed e event) eqn:Es.
    + rewrite insert_delivery_run by done.
      match goal with |- context [tx_iter _ es ?s1] => destruct (IH s1) as (ds & n & Ha & ->) end.
      eexists (_ :: ds), n. split; [by apply added_row|]. cbn. by rewrite <-app_assoc.
    + rewrite insert_delivery_skip by done.
      destruct (IH s) as (ds & n & Ha & E). exists ds, n. split; [by constructor|exact E].
Qed.

Lemma RecordTx_run event data s : ValidEvent event = true ->
  exists ds n id,
    added id event data (clock s) (fanout (event_owner event data s) s) ds /\
    Recorder_RecordTx event data s =
      Ok (tt, s <| webhook_events := webhook_events s ++
                     [MkEvent id event data (clock s) (event_owner event data s)] |>
                <| webhook_deliveries := webhook_deliveries s ++ ds |>
                <| entropy_pos := n |>).
Proof.
  intros Hv. unfold Recorder_RecordTx. rewrite Hv.
  unfold new_id, now_. tx_run. cbn [negb].
  match goal with |- context [tx_iter (insert_delivery ?id _ _ ?now) ?es ?s1] =>
    destruct (insert_deliveries_run id event data now es s1) as (ds & n & Ha & ->) end.
  exists ds, n. eexists. split; [exact Ha|]. done.
Qed.

#[export] Instance webhook_recorder_frame : RecorderFrame webhook_recorder.
Proof.
  intros r event data s s' u [= <-] H1.
  destruct (ValidEvent event) eqn:Ev.
  - destruct (RecordTx_run event data s Ev) as (ds & n & id & _ & E). rewrite E in H1.
    injection H1 as _ <-. unfold outbox_only. eauto.
  - unfold Recorder_RecordTx in H1. rewrite Ev in H1. discriminate.
Qed.

Lemma added_rows eventID event data now es ds d :
  added eventID event data now es ds -> d ∈ ds ->
  exists e id, e ∈ es /\ subscribed e event = true /\
    d = MkDelivery id (e_ID e) eventID event data DPending 0 (Some now) "" now now.
Proof.
  induction 1 as [|e es ds Hs Ha IH|e es ds id Hs Ha IH].
  - intros []%elem_of_nil.
  - intros (e' & id & ? & ?)%IH. exists e', id. split; [by right|done].
  - intros [->|(e' & id' & ? & ?)%IH]%elem_of_cons.
    + exists e, id. split; [by left|done].
    + exists e', id'. split; [by right|done].
Qed.

Lemma added_endpoints eventID event data now es ds :
  added eventID event data now es ds ->
  dl_EndpointID <$> ds = e_ID <$> filter (fun e => subscribed e event) es.
Proof.
  induction 1 as [|e es ds Hs Ha IH|e es ds id Hs Ha IH]; [done| |].
  - rewrite filter_cons_False; [exact IH|]. rewrite Hs. auto.
  - rewrite filter_cons_True; [cbn; by f_equal|]. by rewrite Hs.
Qed.
End RecorderFacts.

(** ** Lemmas: backoff and attempts *)

Lemma backoff_go_eq k d : 0 < d < backoffCap ->
  backoff_go k d = Z.min backoffCap (d * 2 ^ Z.of_nat k).
Proof.
  revert d. induction k as [|k IH]; intros d Hd.
  - cbn [backoff_go]. rewrite Z.pow_0_r. lia.
  - cbn [backoff_go]. rewrite Nat2Z.inj_succ, Z.pow_succ_r by lia.
    pose proof (Z.pow_pos_nonneg 2 (Z.of_nat k) ltac:(lia) ltac:(lia)).
    destruct (Z.leb_spec backoffCap (d * 2)); [nia|]. rewrite IH by lia. f_equal. nia.
Qed.

Lemma count_attempt_total max os r :
  let r' := fold_left (count_attempt max) os r in
  rp_Attempted r' = rp_Attempted r + Z.of_nat (length os) /\
  rp_Delivered r' + rp_Failed r' + rp_Dead r' =
    rp_Delivered r + rp_Failed r + rp_Dead r + Z.of_nat (length os).
Proof.
  revert r. induction os as [|o os IH]; intros r; cbn zeta in *; [cbn; lia|].
  cbn [fold_left]. destruct (IH (count_attempt max r o)) as [-> ->].
  unfold count_attempt. destruct (attempt_status max o); cbn; lia.
Qed.

(** The row after [k] recorded attempts that all failed. *)
Fixpoint fail_times (max now : Z) (k : nat) (d : Delivery) : Delivery :=
  match k with
  | O => d
  | S k => let d := fail_times max now k d in set_attempt max now (d, (false, "")) d
  end.

Lemma fail_times_row max now k d : dl_Status d = DPending -> dl_Attempts d = 0 -> 0 < max ->
  dl_Attempts (fail_times max now k d) = Z.of_nat k /\
  dl_Status (fail_times max now k d) = (if max <=? Z.of_nat k then DDead else DPending) /\
  dl_ID (fail_times max now k d) = dl_ID d.
Proof.
  intros Hs Ha Hm. induction k as [|k (IH1 & IH2 & IH3)].
  - cbn. rewrite (proj2 (Z.leb_gt _ _)) by lia. done.
  - cbn [fail_times]. unfold set_attempt. cbn [fst snd]. rewrite String.eqb_refl. cbn.
    unfold attempt_status. cbn. rewrite IH1. split_and!; [lia| |done].
    by replace (Z.of_nat k + 1) with (Z.of_nat (S k)) by lia.
Qed.

(** ** Properties *)

(** The audience of an event, as the panel documents it. *)
Definition audience (event : string) (owner : option string) (e : Endpoint) : Prop :=
  e_Enabled e = true /\ event ∈ e_Events e /\
  match owner with
  | None => e_ResellerID e = None
  | Some o => e_ResellerID e = Some o \/ e_ResellerID e = None /\ e_IncludeResellerEvents e = true
  end.
#[export] Instance audience_dec event owner e : Decision (audience event owner e).
Proof. unfold audience. destruct owner; apply _. Defined.

Lemma subscribed_spec e event : subscribed e event = true <-> event ∈ e_Events e.
Proof.
  unfold subscribed. rewrite existsb_exists. split.
  - intros (x & Hx%list_elem_of_In & ->%String.eqb_eq). done.
  - intros Hx%list_elem_of_In. exists event. by rewrite String.eqb_refl.
Qed.

Lemma audience_spec event owner e :
  audience event owner e <->
  subscribed e event = true /\ Is_true (e_Enabled e && visible e owner).
Proof.
  unfold audience. rewrite subscribed_spec, Is_true_true, andb_true_iff. unfold visible.
  destruct owner as [o|], (e_ResellerID e) as [r|]; [rewrite String.eqb_eq|..];
    intuition (try congruence).
  all: try match goal with H : Some _ = Some _ |- _ => injection H as -> end; tauto.
Qed.

Lemma fanout_audience event owner s :
  filter (fun e => subscribed e event) (fanout owner s) =
  filter (audience event owner) (map_to_list (webhook_endpoints s)).*2.
Proof.
  unfold fanout. rewrite list_filter_filter. apply list_filter_iff. intros e.
  rewrite audience_spec, Is_true_true. tauto.
Qed.

Lemma event_owner_spec event data s r :
  event_owner event data s = Some r <-> event <> EventNodeStarted /\
    exists id u, id <> "" /\ js_field "user_id" data = Some (JsStr id) /\
                 users s !! id = Some u /\ u_ResellerID u = Some r.
Proof.
  unfold event_owner. destruct (String.eqb_spec event EventNodeStarted) as [->|Hn].
  { split; [done|]. intros [[] _]. done. }
  split.
  - destruct (js_field "user_id" data) as [[| | |uid]|]; try done.
    destruct (String.eqb_spec uid ""); [done|]. destruct (users s !! uid) as [u|] eqn:Eu; [|done].
    eauto 10.
  - intros (_ & id & u & Hid%String.eqb_neq & -> & Hu & Hr). by rewrite Hid, Hu.
Qed.

Section Properties.
Context `{Entropy}.

(** C18. Tenant isolation: one event adds exactly one pending delivery, due at
    once, to each endpoint of its audience, in table order, and nothing else
    changes. The audience of an event are the enabled endpoints that list it:
    of a reseller's event, that reseller's own and the node-wide ones the owner
    opted in; of any other event, the node-wide ones. An event is a reseller's
    only by the persisted row of the user it names, never by its payload. *)
Theorem RecordTx_fanout event data s : ValidEvent event = true ->
  exists s' ds ev,
    Recorder_RecordTx event data s = Ok (tt, s') /\ outbox_only s s' /\
    webhook_events s' = webhook_events s ++ [ev] /\
    webhook_deliveries s' = webhook_deliveries s ++ ds /\
    (dl_EndpointID <$> ds =
       e_ID <$> filter (audience event (ev_ResellerID ev)) (map_to_list (webhook_endpoints s)).*2) /\
    (forall d, d ∈ ds -> dl_Status d = DPending /\ dl_Attempts d = 0 /\
       dl_NextAttemptAt d = Some (clock s) /\ dl_EventID d = ev_ID ev /\ dl_EventType d = event) /\
    (forall r, ev_ResellerID ev = Some r <-> event <> EventNodeStarted /\
       exists id u, id <> "" /\ js_field "user_id" data = Some (JsStr id) /\
                    users s !! id = Some u /\ u_ResellerID u = Some r).
Proof.
  intros Hv. destruct (RecordTx_run event data s Hv) as (ds & n & id & Ha & E).
  eexists _, ds, _. split; [exact E|]. split; [unfold outbox_only; eauto|].
  cbn. split; [done|]. split; [done|]. split_and!.
  - rewrite (added_endpoints _ _ _ _ _ _ Ha). by rewrite fanout_audience.
  - intros d Hd. destruct (added_rows _ _ _ _ _ _ _ Ha Hd) as (e & did & He & Hsub & ->). done.
  - apply event_owner_spec.
Qed.
End Properties.

Definition w_hook (id : string) (r : option string) (incl : bool) : Endpoint :=
  MkEndpoint id r incl "https://hooks.example/" true ["user.updated"] 0.

Theorem RecordTx_fanout_witness :
  let m := list_to_map [("e1", w_hook "e1" None false); ("e2", w_hook "e2" None true);
                        ("e3", w_hook "e3" (Some "r1") false)] : gmap string Endpoint in
  let s := (empty_store 0) <| webhook_endpoints := m |> in
  exists s' ds, @Recorder_RecordTx (fun _ => []) "user.updated" [] s = Ok (tt, s') /\
    webhook_deliveries s' = ds /\ dl_EndpointID <$> ds = ["e1"; "e2"].
Proof.
  intros m s.
  destruct (@RecordTx_fanout (fun _ => []) "user.updated" [] s eq_refl)
    as (s' & ds & ev & H & _ & _ & Hd & He & _ & Hr).
  exists s', ds. split; [exact H|]. split; [exact Hd|]. rewrite He.
  destruct (ev_ResellerID ev) as [r|] eqn:Er.
  - destruct (proj1 (Hr r) eq_refl) as (_ & id & u & _ & Hf & _). discriminate Hf.
  - vm_compute. reflexivity.
Defined.

(** The retry delay doubles from thirty seconds at each attempt and is capped
    at six hours. *)
Theorem backoff_doubles n : 1 <= n ->
  backoff n = Z.min backoffCap (backoffBase * 2 ^ (n - 1)) /\
  backoffBase <= backoff n <= backoffCap /\ backoff n <= backoff (n + 1).
Proof.
  intros Hn.
  assert (forall m, 1 <= m -> backoff m = Z.min backoffCap (backoffBase * 2 ^ (m - 1))) as HB.
  { intros m Hm. unfold backoff.
    rewrite backoff_go_eq by (unfold backoffBase, backoffCap, hour, second; lia).
    by rewrite Z2Nat.id by lia. }
  rewrite (HB n), (HB (n + 1)) by lia. replace (n + 1 - 1) with (Z.succ (n - 1)) by lia.
  rewrite Z.pow_succ_r by lia.
  pose proof (Z.pow_pos_nonneg 2 (n - 1) ltac:(lia) ltac:(lia)).
  unfold backoffBase, backoffCap, hour, second. lia.
Qed.

Theorem backoff_doubles_witness : backoff 3 = 120 * second.
Proof. destruct (backoff_doubles 3) as [-> _]; [lia|reflexivity]. Defined.

(** A delivery whose attempts all fail is dead after exactly
    [webhooks.max_attempts] of them, and a dead or delivered row is not
    selected again. *)
Theorem failing_delivery_dies setting now s k d :
  dl_Status d = DPending -> dl_Attempts d = 0 ->
  let max := max_attempts setting in
  let d' := fail_times max now k d in
  (dl_Status d' = DDead <-> max <= Z.of_nat k) /\
  (max <= Z.of_nat k -> forall t, delivery_due t s d' = false) /\
  (forall t, delivery_due t s (set_attempt max now (d, (true, "")) d) = false).
Proof.
  intros Hs Ha max d'.
  assert (0 < max) as Hm by (subst max; unfold max_attempts; destruct setting; [case_match|]; lia).
  destruct (fail_times_row max now k d Hs Ha Hm) as (_ & H2 & _). fold d' in H2.
  split_and!.
  - rewrite H2. destruct (Z.leb_spec max (Z.of_nat k)); split; (done || lia).
  - intros Hk t. unfold delivery_due. by rewrite H2, (proj2 (Z.leb_le _ _)).
  - intros t. unfold delivery_due, set_attempt. cbn [fst]. by rewrite String.eqb_refl.
Qed.

Theorem failing_delivery_dies_witness :
  dl_Status (fail_times (max_attempts (Some 2)) 0 2
    (MkDelivery "d" "e" "v" "user.updated" [] DPending 0 None "" 0 0)) = DDead.
Proof.
  apply (failing_delivery_dies (Some 2) 0 (empty_store 0) 2); [reflexivity..|]. cbn. lia.
Defined.

(** A pass counts every attempt once: as delivered, failed or dead. *)
Theorem Pass_report secret deliver setting s :
  let rep := (Pass secret deliver setting s).1 in
  rp_Attempted rep = rp_Delivered rep + rp_Failed rep + rp_Dead rep /\
  0 <= rp_Attempted rep <= 64.
Proof.
  unfold Pass, record_attempts. cbn [fst].
  set (os := pass_outcomes _ _ _).
  destruct (count_attempt_total (max_attempts setting) os (MkReport 0 0 0 0)) as [-> ->].
  cbn [rp_Attempted rp_Delivered rp_Failed rp_Dead].
  assert (length os <= 64)%nat; [|lia]. subst os. unfold pass_outcomes. rewrite List.length_map.
  etransitivity; [apply length_filter|]. unfold select_due. rewrite length_take.
  apply Nat.le_min_l.
Qed.
