(* ===== verification/Users.v ===== *)
(** * Subscription owners (internal/user)

    Creation (single and bulk), the guarded lifecycle transitions, renewal,
    soft delete and restore, and permanent deletion.

    The update operations read the row first and save it in a later
    transaction, so each is modelled by its two phases, [X_read] on the store
    it reads and [X_commit] on the store it writes; [X] composes them with
    nothing in between. *)
From stdpp Require Import base tactics strings gmap list fin_maps sets.
From Stdlib Require Import ZArith Lia Ascii.
From Stdlib Require String.
From S2P Require Import Prelude GoTime Domain Store.

Open Scope Z_scope.

(** ** Requests *)

Record Input := MkInput {
  in_Username : string;
  in_ResellerID : option string;
  in_DisplayName : option string;
  in_Note : option string;
  in_Tags : option (list string);
  in_TrafficLimitBytes : OptInt64;
  in_SpeedLimitDownKbps : OptInt;
  in_SpeedLimitUpKbps : OptInt;
  in_DeviceLimit : OptInt;
  in_TemplateID : OptString;
  in_InterfaceID : OptString;
  in_StartPolicy : StartPolicy;
  in_DurationSeconds : option Z;
  in_ExpiresAt : option Z;
  in_Enabled : option bool;
  in_Metadata : json_obj
}.

#[export] Instance eta_Input : Eta Input := fun i =>
  MkInput (in_Username i) (in_ResellerID i) (in_DisplayName i) (in_Note i) (in_Tags i)
    (in_TrafficLimitBytes i) (in_SpeedLimitDownKbps i) (in_SpeedLimitUpKbps i)
    (in_DeviceLimit i) (in_TemplateID i) (in_InterfaceID i) (in_StartPolicy i)
    (in_DurationSeconds i) (in_ExpiresAt i) (in_Enabled i) (in_Metadata i).

(** The zero [Input] with a username. *)
Definition input (username : string) : Input :=
  MkInput username None None None None OptAbsent OptAbsent OptAbsent OptAbsent
    OptStrAbsent OptStrAbsent StartPolicyAbsent None None None [].

(** ** Validation *)

Definition username_char (c : ascii) : bool :=
  in_range "a" "z" c || in_range "A" "Z" c || in_range "0" "9" c
  || Ascii.eqb c "_" || Ascii.eqb c "-".

(** [^[a-zA-Z0-9_-]{3,32}$] and its prefix form without the length. *)
Definition usernameRe (s : string) : bool :=
  str_all username_char s && (3 <=? String.length s)%nat && (String.length s <=? 32)%nat.
Definition prefixRe (s : string) : bool := str_all username_char s.

Definition bad_limit (strict : bool) (o : OptInt64) : bool :=
  o_set o && negb (o_null o) && (if strict then o_value o <=? 0 else o_value o <? 0).

Definition validateLimits (i : Input) : result err unit :=
  if bad_limit false (in_TrafficLimitBytes i) then Err (E CodeInvalidRequest)
  else if existsb (bad_limit true)
            [in_SpeedLimitDownKbps i; in_SpeedLimitUpKbps i; in_DeviceLimit i]
  then Err (E CodeInvalidRequest)
  else if match in_DurationSeconds i with Some d => d <=? 0 | None => false end
  then Err (E CodeInvalidRequest)
  else if negb (bool_decide (in_StartPolicy i = StartPolicyAbsent))
          && negb (StartPolicy_Valid (in_StartPolicy i))
  then Err (E CodeInvalidRequest)
  else Ok tt.

(** ** Creation *)

(** On create, an absent limit and an explicit null are the same. *)
Definition create_limit (o : OptInt64) : option Z :=
  if o_set o && negb (o_null o) then Some (o_value o) else None.

Definition buildCreate (id : string) (now : Z) (i : Input) : User :=
  let policy := if bool_decide (in_StartPolicy i = StartPolicyAbsent) then StartImmediate
                else in_StartPolicy i in
  let '(status, activated, expires) :=
    if bool_decide (policy = StartFirstConnection)
    then (UserWaitingFirstConnection, None, in_ExpiresAt i)
    else match in_ExpiresAt i, in_DurationSeconds i with
         | Some e, _ => (UserActive, Some now, Some e)
         | None, Some d => (UserActive, Some now, Some (time_add now (seconds d)))
         | None, None => (UserActive, Some now, None)
         end in
  {| u_ID := id;
     u_ResellerID := in_ResellerID i;
     u_Username := in_Username i;
     u_DisplayName := default "" (in_DisplayName i);
     u_Note := default "" (in_Note i);
     u_Tags := default [] (in_Tags i);
     u_Status := status;
     u_DisableReason := None;
     u_TrafficLimitBytes := create_limit (in_TrafficLimitBytes i);
     u_TrafficUsedRX := 0;
     u_TrafficUsedTX := 0;
     u_SpeedLimitDownKbps := create_limit (in_SpeedLimitDownKbps i);
     u_SpeedLimitUpKbps := create_limit (in_SpeedLimitUpKbps i);
     u_DeviceLimit := Resolve (in_DeviceLimit i) None;
     u_TemplateID := resolveString (in_TemplateID i) None;
     u_InterfaceID := resolveString (in_InterfaceID i) None;
     u_StartPolicy := policy;
     u_DurationSeconds := in_DurationSeconds i;
     u_ActivatedAt := activated;
     u_ExpiresAt := expires;
     u_LastActivityAt := None;
     u_Enabled := true;
     u_Metadata := in_Metadata i;
     u_DeletedAt := None;
     u_CreatedAt := now;
     u_UpdatedAt := 0 |}.

(** The columns written from a [User]: empty texts become NULL. *)
Definition null_columns (u : User) : User :=
  u <| u_ResellerID ::= nullText |> <| u_TemplateID ::= nullText |>
    <| u_InterfaceID ::= nullText |>.

(** The row an insert leaves: the columns it names, the defaults of the rest. *)
Definition inserted (u : User) : User :=
  (null_columns u) <| u_UpdatedAt := u_CreatedAt u |>
                   <| u_LastActivityAt := None |> <| u_DeletedAt := None |>
                   <| u_TrafficUsedRX := 0 |> <| u_TrafficUsedTX := 0 |>.

Definition username_taken (name : string) (s : store) : bool :=
  existsb (fun u => String.eqb (u_Username u) name) (map_to_list (users s)).*2.

(** CHECK, then UNIQUE, then the foreign keys. *)
Definition insert_user (u : User) : Tx unit := fun s =>
  let row := inserted u in
  if negb (StartPolicy_Valid (u_StartPolicy row)) then Err (Plain "user: insert")
  else if bool_decide (is_Some (users s !! u_ID row)) || username_taken (u_Username row) s
  then Err (E CodeUsernameExists)
  else if negb (fk (resellers s) (u_ResellerID row) && fk (templates s) (u_TemplateID row)
                && fk (ifaces s) (u_InterfaceID row))
  then Err (Plain "user: insert")
  else Ok (tt, put_user row s).

Definition created_data (u : User) : json_obj :=
  [("user_id", JsStr (u_ID u)); ("username", JsStr (u_Username u));
   ("status", JsStr (status_text (u_Status u)))].
Definition user_data (u : User) : json_obj :=
  [("user_id", JsStr (u_ID u)); ("username", JsStr (u_Username u))].

Section Service.
Context `{Entropy} `{EventRecorder}.

Definition CreateTx (i : Input) : Tx User :=
  _ ← tx_guard (negb (usernameRe (in_Username i))) (E CodeInvalidRequest);
  _ ← tx_lift (validateLimits i);
  id ← new_id;
  now ← now_;
  let u := buildCreate id now i in
  _ ← insert_user u;
  _ ← record "user.created" (created_data u);
  tx_ret u.

Definition Create (i : Input) : store -> result err User * store := WithTx (CreateTx i).

(** ** Bulk creation *)

(** [fmt.Sprintf("%s%0*d", prefix, width, i)]. *)
Definition zero_pad (width : nat) (s : string) : string :=
  Nat.iter (width - String.length s) (String "0") s.
(** [strconv.Itoa]. *)
Definition itoa (n : Z) : string := if n <? 0 then String "-" (dec (- n)) else dec n.
Definition bulk_name (prefix : string) (width i : Z) : string :=
  prefix +:+ (if i <? 0 then String "-" (zero_pad (Z.to_nat (width - 1)) (dec (- i)))
              else zero_pad (Z.to_nat width) (dec i)).

Record BulkResult := MkBulk { bk_Users : list User; bk_Skipped : Z }.

(** [for i := startIndex; i <= last; i++]: the index wraps at 64 bits, so
    the loop runs out of any fuel when [last] is the largest [int]. *)
Definition out_of_fuel : err := Plain "bulk: loop does not end".

Definition bulk_user (id : string) (now : Z) (inp : Input) (name : string) : User :=
  (buildCreate id now inp) <| u_Username := name |>.

(** One turn: the user created, or none when the index is skipped. *)
Definition bulk_insert (u : User) : Tx (option User) := fun s =>
  if negb (usernameRe (u_Username u)) then Ok (None, s)
  else match insert_user u s with
       | Err e => if bool_decide (CodeOf e = CodeUsernameExists) then Ok (None, s) else Err e
       | Ok (_, s) => (_ ← record "user.created" (created_data u); tx_ret (Some u)) s
       end.

Definition bulk_step (prefix : string) (width : Z) (inp : Input) (i : Z) : Tx (option User) :=
  id ← new_id;
  now ← now_;
  bulk_insert (bulk_user id now inp (bulk_name prefix width i)).

Definition bulk_add (res : BulkResult) (o : option User) : BulkResult :=
  match o with
  | Some u => MkBulk (bk_Users res ++ [u]) (bk_Skipped res)
  | None => MkBulk (bk_Users res) (bk_Skipped res + 1)
  end.

Fixpoint bulk_loop (prefix : string) (width : Z) (inp : Input) (fuel : nat) (i last : Z)
    (res : BulkResult) : Tx BulkResult :=
  if negb (i <=? last) then tx_ret res else
  match fuel with
  | O => tx_fail out_of_fuel
  | S fuel =>
      o ← bulk_step prefix width inp i;
      bulk_loop prefix width inp fuel (i64 (i + 1)) last (bulk_add res o)
  end.

(** At most 500 turns, and one more test of the condition. *)
Definition bulk_fuel : nat := 500.

Definition CreateBulk (prefix : string) (count startIndex width : Z) (inp : Input)
    (s : store) : result err BulkResult * store :=
  let invalid := (Err (E CodeInvalidRequest), s) in
  if (count <? 1) || (500 <? count) then invalid
  else if startIndex <? 0 then invalid
  else
    let width := if width <? 1 then 3 else width in
    if 10 <? width then invalid
    else
      let prefix := trim_space prefix in
      if negb (prefixRe prefix) then invalid
      else
        let last := i64 (startIndex + count - 1) in
        let plen := Z.of_nat (String.length prefix) in
        if (32 <? plen + Z.of_nat (String.length (itoa last)) + 1) || (32 <? plen + width)
        then invalid
        else match validateLimits inp with
             | Err e => (Err e, s)
             | Ok _ => WithTx (bulk_loop prefix width inp bulk_fuel startIndex last
                                 (MkBulk [] 0)) s
             end.

(** ** Lookups *)

Definition getRaw (id : string) (s : store) : result err User :=
  match users s !! id with Some u => Ok u | None => Err (E CodeUserNotFound) end.

Definition Get (id : string) (s : store) : result err User :=
  u ← getRaw id s;
  match u_DeletedAt u with Some _ => Err (E CodeUserNotFound) | None => Ok u end.

Definition GetByUsername (username : string) (s : store) : result err User :=
  match List.find (fun u => String.eqb (u_Username u) username && bool_decide (u_DeletedAt u = None))
          (map_to_list (users s)).*2 with
  | Some u => Get (u_ID u) s
  | None => Err (E CodeUserNotFound)
  end.

(** The live users of each of the given plans. *)
Definition CountForPlans (planIDs : list string) (s : store) : gmap string Z :=
  fold_left (fun counts u =>
      match u_TemplateID u with
      | Some t => if bool_decide (u_DeletedAt u = None) && existsb (String.eqb t) planIDs
                  then <[t := default 0 (counts !! t) + 1]> counts else counts
      | None => counts
      end) (map_to_list (users s)).*2 ∅.

(** ** Saving *)

(** The [UPDATE users] of [save]: identity, owner, meters and creation time
    are the stored row's. *)
Definition saved_row (u row : User) (now : Z) : User :=
  (null_columns u) <| u_ID := u_ID row |> <| u_ResellerID := u_ResellerID row |>
    <| u_Username := u_Username row |>
    <| u_TrafficUsedRX := u_TrafficUsedRX row |> <| u_TrafficUsedTX := u_TrafficUsedTX row |>
    <| u_LastActivityAt := u_LastActivityAt row |> <| u_CreatedAt := u_CreatedAt row |>
    <| u_UpdatedAt := now |>.

Definition save (u : User) : Tx unit := fun s =>
  match users s !! u_ID u with
  | None => Ok (tt, s)
  | Some row =>
      let row' := saved_row u row (clock s) in
      if negb (StartPolicy_Valid (u_StartPolicy row') && fk (templates s) (u_TemplateID row')
               && fk (ifaces s) (u_InterfaceID row'))
      then Err (Plain "user: save")
      else Ok (tt, s <| users ::= <[u_ID u := row']> |>)
  end.

(** ** Update *)

Definition apply_update (u : User) (i : Input) : User :=
  u <| u_DisplayName ::= fun v => default v (in_DisplayName i) |>
    <| u_Note ::= fun v => default v (in_Note i) |>
    <| u_Tags ::= fun v => default v (in_Tags i) |>
    <| u_TrafficLimitBytes ::= Resolve (in_TrafficLimitBytes i) |>
    <| u_SpeedLimitDownKbps ::= Resolve (in_SpeedLimitDownKbps i) |>
    <| u_SpeedLimitUpKbps ::= Resolve (in_SpeedLimitUpKbps i) |>
    <| u_DeviceLimit ::= Resolve (in_DeviceLimit i) |>
    <| u_TemplateID ::= resolveString (in_TemplateID i) |>
    <| u_InterfaceID ::= resolveString (in_InterfaceID i) |>
    <| u_DurationSeconds ::= fun v => match in_DurationSeconds i with Some d => Some d | None => v end |>
    <| u_Enabled ::= fun v => default v (in_Enabled i) |>.

(** The user to save, and whether the stored one was enabled. *)
Definition Update_read (id : string) (i : Input) (s : store) : result err (User * bool) :=
  u ← Get id s;
  let u' := apply_update u i in
  _ ← validateLimits i;
  Ok (u', u_Enabled u).

Definition Update_commit (u : User) (wasEnabled : bool) : Tx User :=
  _ ← save u;
  _ ← tx_when (negb (Bool.eqb wasEnabled (u_Enabled u)))
        (record (if u_Enabled u then "user.enabled" else "user.disabled") (user_data u));
  _ ← record "user.updated" (user_data u);
  tx_ret u.

Definition Update (id : string) (i : Input) (s : store) : result err User * store :=
  match Update_read id i s with
  | Err e => (Err e, s)
  | Ok (u, was) => WithTx (Update_commit u was) s
  end.

(** ** Status transitions *)

Definition needsReason (status : UserStatus) : bool :=
  match status with UserDisabled | UserSuspended => true | _ => false end.

Definition SetStatus_read (id : string) (status : UserStatus) (reason : DisableReason)
    (s : store) : result err User :=
  u ← Get id s;
  if negb (UserStatus_Valid status) then Err (E CodeInvalidRequest)
  else if needsReason status && negb (DisableReason_Valid reason) then Err (E CodeInvalidRequest)
  else
    let u := u <| u_Status := status |>
               <| u_DisableReason := if needsReason status then Some reason else None |> in
    let u := match u_Status u with
             | UserDisabled | UserSuspended | UserExpired | UserTrafficExceeded =>
                 u <| u_Enabled := false |>
             | UserActive | UserWaitingFirstConnection => u <| u_Enabled := true |>
             | UserStatusOther _ => u
             end in
    if bool_decide (status = UserActive) && bool_decide (u_ActivatedAt u = None)
       && bool_decide (u_StartPolicy u = StartFirstConnection)
    then Ok (u <| u_Status := UserWaitingFirstConnection |>)
    else Ok u.

Definition status_event (status : UserStatus) : option string :=
  match status with
  | UserActive => Some "user.enabled"
  | UserDisabled | UserSuspended => Some "user.disabled"
  | _ => None
  end.

Definition SetStatus_commit (u : User) : Tx User :=
  _ ← save u;
  _ ← match status_event (u_Status u) with
      | Some ev => record ev (user_data u ++
          match u_DisableReason u with
          | Some r => [("reason", JsStr (reason_text r))] | None => [] end)
      | None => tx_ret tt
      end;
  tx_ret u.

Definition SetStatus (id : string) (status : UserStatus) (reason : DisableReason)
    (s : store) : result err User * store :=
  match SetStatus_read id status reason s with
  | Err e => (Err e, s)
  | Ok u => WithTx (SetStatus_commit u) s
  end.

Definition SetEnabledStatus (id : string) (enable : bool) (reason : DisableReason)
    (s : store) : result err User * store :=
  if enable then SetStatus id UserActive (DisableReasonOther "") s
  else SetStatus id UserDisabled
         (if DisableReason_Valid reason then reason else DisableManual) s.

(** ** Renewal *)

Definition Renew_read (id : string) (mode : string) (duration exact : option Z)
    (s : store) : result err User :=
  u ← Get id s;
  let now := clock s in
  if match duration with Some d => d <=? 0 | None => false end then Err (E CodeInvalidRequest)
  else
    let dur := match duration with Some d => Some d | None => u_DurationSeconds u end in
    expires ←
      (if String.eqb mode "from_expiration" then
         match dur with
         | None => Err (E CodeInvalidRequest)
         | Some d =>
             let base := match u_ExpiresAt u with
                         | Some e => if now <? e then e else now
                         | None => now end in
             Ok (time_add base (seconds d))
         end
       else if String.eqb mode "from_now" then
         match dur with
         | None => Err (E CodeInvalidRequest)
         | Some d => Ok (time_add now (seconds d))
         end
       else if String.eqb mode "exact" then
         match exact with None => Err (E CodeInvalidRequest) | Some e => Ok e end
       else Err (E CodeInvalidRequest));
    let u := u <| u_ExpiresAt := Some expires |> in
    if bool_decide (u_Status u = UserExpired)
    then Ok (u <| u_Status := UserActive |> <| u_DisableReason := None |>)
    else Ok u.

Definition Renew_commit (u : User) : Tx User :=
  _ ← save u; _ ← record "user.updated" (user_data u); tx_ret u.

Definition Renew (id mode : string) (duration exact : option Z) (s : store)
    : result err User * store :=
  match Renew_read id mode duration exact s with
  | Err e => (Err e, s)
  | Ok u => WithTx (Renew_commit u) s
  end.

(** ** Soft delete and restore *)

Definition SoftDelete_read (id : string) (s : store) : result err User :=
  u ← Get id s;
  Ok (u <| u_DeletedAt := Some (clock s) |> <| u_Enabled := false |>).

Definition SoftDelete_commit (u : User) : Tx unit :=
  _ ← save u; record "user.updated" (user_data u ++ [("deleted", JsBool true)]).

Definition SoftDelete (id : string) (s : store) : result err unit * store :=
  match SoftDelete_read id s with
  | Err e => (Err e, s)
  | Ok u => WithTx (SoftDelete_commit u) s
  end.

Definition Restore_read (id : string) (s : store) : result err User :=
  u ← getRaw id s;
  match u_DeletedAt u with
  | None => Err (E CodeInvalidRequest)
  | Some _ => Ok (u <| u_DeletedAt := None |> <| u_Status := UserActive |>
                    <| u_DisableReason := None |> <| u_Enabled := true |>)
  end.

Definition Restore_commit (u : User) : Tx User :=
  _ ← save u; _ ← record "user.updated" (user_data u ++ [("deleted", JsBool false)]); tx_ret u.

Definition Restore (id : string) (s : store) : result err User * store :=
  match Restore_read id s with
  | Err e => (Err e, s)
  | Ok u => WithTx (Restore_commit u) s
  end.

(** ** Permanent deletion *)

(** [DELETE FROM users] with the cascades of the modelled tables. *)
Definition cascade_user (id : string) (s : store) : store :=
  let gone d := bool_decide (d ∈ d_ID <$> user_devices id s) in
  s <| users ::= delete id |>
    <| devices ::= filter (fun '(_, d) => d_UserID d <> id) |>
    <| traffic_samples ::= filter (fun '(k, _) => gone k.1 = false) |>
    <| traffic_rollups ::= filter (fun '(k, _) => gone k.1.1 = false) |>
    <| next_plan_queue ::= delete id |>
    <| next_plan_activations ::= filter (fun a => a_UserID a <> id) |>
    <| sub_links ::= delete id |>.

Definition retire_user_keys (id : string) (s : store) : store :=
  s <| retired_peer_keys ::= fun r =>
         list_to_set ((fun d => (d_InterfaceID d, d_PublicKey d)) <$> user_devices id s) ∪ r |>.

Definition DeleteTx (id : string) : Tx unit := fun s =>
  match users s !! id with
  | None => Err (E CodeUserNotFound)
  | Some u =>
      (_ ← tx_modify (retire_user_keys id);
       _ ← record "user.updated" (user_data u ++ [("deleted", JsBool true); ("permanent", JsBool true)]);
       tx_modify (cascade_user id)) s
  end.

Definition Delete (id : string) : store -> result err unit * store := WithTx (DeleteTx id).

End Service.

(** ** The users table's invariant *)

(** Rows are filed under their own id, usernames are well formed and never
    shared (soft-deleted rows included), and the policy is a known one. *)
Definition row_ok (k : string) (u : User) : Prop :=
  u_ID u = k /\ usernameRe (u_Username u) = true /\ StartPolicy_Valid (u_StartPolicy u) = true.

Definition users_wf (s : store) : Prop :=
  map_Forall row_ok (users s) /\
  forall k1 k2 u1 u2, users s !! k1 = Some u1 -> users s !! k2 = Some u2 ->
    u_Username u1 = u_Username u2 -> k1 = k2.

(** ** Lemmas *)

Lemma users_wf_put s u : users_wf s -> row_ok (u_ID u) u ->
  (forall k u', users s !! k = Some u' -> u_Username u' = u_Username u -> k = u_ID u) ->
  users_wf (put_user u s).
Proof.
  intros [Hrow Huniq] Hu Hname. split; cbn.
  - by apply map_Forall_insert_2.
  - intros k1 k2 u1 u2 H1 H2 E.
    apply lookup_insert_Some in H1 as [[<- <-]|[? H1]];
      apply lookup_insert_Some in H2 as [[<- <-]|[? H2]]; [done| | |by eauto].
    + symmetry. by eapply Hname.
    + by eapply Hname.
Qed.

Lemma users_wf_users s s' : users s' = users s -> users_wf s -> users_wf s'.
Proof. unfold users_wf. by intros ->. Qed.

Lemma insert_user_ok u s s' x : insert_user u s = Ok (x, s') ->
  s' = put_user (inserted u) s /\ StartPolicy_Valid (u_StartPolicy u) = true /\
  users s !! u_ID u = None /\ username_taken (u_Username u) s = false.
Proof.
  unfold insert_user. cbn zeta.
  destruct (StartPolicy_Valid _) eqn:E1; cbn [negb]; [|done].
  destruct (_ || _) eqn:E2; [done|]. apply orb_false_iff in E2 as [E2 E3].
  destruct (negb _); [done|]. intros [= <- <-]. split_and!; try done.
  apply bool_decide_eq_false in E2. by apply eq_None_not_Some.
Qed.

Lemma insert_user_wf u s s' x : users_wf s -> usernameRe (u_Username u) = true ->
  insert_user u s = Ok (x, s') -> users_wf s'.
Proof.
  intros Hwf Hre (-> & Hp & Hid & Ht)%insert_user_ok. apply users_wf_put; [done|done|].
  intros k u' Hk E. unfold username_taken in Ht.
  apply existsb_values_false with (k := k) (v := u') in Ht; [|done].
  by apply String.eqb_neq in Ht.
Qed.

Lemma save_ok u s s' x : save u s = Ok (x, s') ->
  s' = s <| users ::= fun m => match m !! u_ID u with
                               | Some row => <[u_ID u := saved_row u row (clock s)]> m
                               | None => m end |> /\
  (forall row, users s !! u_ID u = Some row -> StartPolicy_Valid (u_StartPolicy u) = true).
Proof.
  unfold save. destruct (users s !! u_ID u) as [row|] eqn:E.
  - destruct (StartPolicy_Valid _) eqn:E1; cbn [negb andb]; [|done].
    destruct (negb _); [done|]. intros [= _ <-]. cbn. by rewrite E.
  - intros [= _ <-]. cbn. rewrite E. split; [by destruct s|congruence].
Qed.

Lemma save_wf u s s' x : users_wf s -> save u s = Ok (x, s') -> users_wf s'.
Proof.
  intros Hwf [-> Hp]%save_ok. destruct (users s !! u_ID u) as [row|] eqn:E.
  - specialize (Hp _ eq_refl). cbn. rewrite E.
    destruct (proj1 Hwf _ _ E) as (Hid & Hre & _).
    eapply users_wf_users, (users_wf_put s (saved_row u row (clock s))); cbn.
    + by rewrite Hid.
    + done.
    + split_and!; cbn; done.
    + intros k u' Hk E'. rewrite Hid. by eapply (proj2 Hwf).
  - eapply users_wf_users; [|done]. cbn. by rewrite E.
Qed.

Lemma bulk_user_name id now inp name : u_Username (bulk_user id now inp name) = name.
Proof. reflexivity. Qed.

Section Facts.
Context `{Entropy} `{R : EventRecorder, !RecorderFrame R}.

Lemma record_users event data s s' x : record event data s = Ok (x, s') -> users s' = users s.
Proof. by intros (-> & _)%record_frame%outbox_only_tables. Qed.

Lemma record_wf event data s s' x :
  users_wf s -> record event data s = Ok (x, s') -> users_wf s'.
Proof. intros Hwf Hr%record_users. by eapply users_wf_users. Qed.

Lemma tx_when_record_wf b event data s s' x :
  users_wf s -> tx_when b (record event data) s = Ok (x, s') -> users_wf s'.
Proof. intros Hwf. destruct b; [by apply record_wf|]. by intros [= _ <-]. Qed.

Lemma CreateTx_inv i s s' u : CreateTx i s = Ok (u, s') ->
  usernameRe (in_Username i) = true /\ validateLimits i = Ok tt /\
  exists s1 s2, new_id s = Ok (u_ID u, s1) /\ u = buildCreate (u_ID u) (clock s) i /\
    insert_user u s1 = Ok (tt, s2) /\ outbox_only s2 s'.
Proof.
  unfold CreateTx, now_. intros Hc.
  apply tx_bind_ok in Hc as (? & ? & [Hg ->]%tx_guard_ok & Hc). apply negb_false_iff in Hg.
  apply tx_bind_ok in Hc as (? & s0 & Hv & Hc). unfold tx_lift in Hv.
  destruct (validateLimits i) as [[]|] eqn:E; [|done]. apply Ok_pair_inj in Hv as [_ <-].
  apply tx_bind_ok in Hc as (id & s1 & Hid & Hc). pose proof (new_id_frame _ _ _ Hid) as (_ & Hk & _).
  apply tx_bind_ok in Hc as (now & ? & [<- <-]%Ok_pair_inj & Hc).
  apply tx_bind_ok in Hc as ([] & s2 & Hi & Hc).
  apply tx_bind_ok in Hc as (? & s3 & Hr%record_frame & [<- <-]%Ok_pair_inj).
  rewrite Hk in *. split_and!; [done..|]. exists s1, s2.
  assert (u_ID (buildCreate id (clock s) i) = id) as -> by (unfold buildCreate; by repeat case_match).
  done.
Qed.

Lemma CreateTx_wf i s s' u : users_wf s -> CreateTx i s = Ok (u, s') -> users_wf s'.
Proof.
  intros Hwf (Hre & _ & s1 & s2 & (Hu & _)%new_id_frame & E & Hi & (Ho & _)%outbox_only_tables)%CreateTx_inv.
  eapply users_wf_users; [exact Ho|]. eapply insert_user_wf; [| |exact Hi].
  - by eapply users_wf_users.
  - rewrite E. unfold buildCreate. by repeat case_match.
Qed.

(** What one turn does, read off its success. *)
Lemma bulk_insert_inv u s s' o : bulk_insert u s = Ok (o, s') ->
  match o with
  | None => s' = s
  | Some u' => u' = u /\ usernameRe (u_Username u) = true /\
      exists s2, insert_user u s = Ok (tt, s2) /\ outbox_only s2 s'
  end.
Proof.
  unfold bulk_insert.
  destruct (usernameRe (u_Username u)) eqn:Hre; cbn [negb]; [|by intros [<- <-]%Ok_pair_inj].
  destruct (insert_user u s) as [[[] s2]|e] eqn:Hins.
  - intros (? & ? & Hr%record_frame & [<- <-]%Ok_pair_inj)%tx_bind_ok. eauto 8.
  - destruct (bool_decide _); [|done]. by intros [<- <-]%Ok_pair_inj.
Qed.

Lemma bulk_step_inv prefix width inp i s s' o : bulk_step prefix width inp i s = Ok (o, s') ->
  exists s1 u, outbox_only s s1 /\ u_Username u = bulk_name prefix width i /\
    bulk_insert u s1 = Ok (o, s').
Proof.
  unfold bulk_step, now_. intros Hs.
  apply tx_bind_ok in Hs as (id & s1 & Hid%new_id_outbox & Hs).
  apply tx_bind_ok in Hs as (now & ? & [<- <-]%Ok_pair_inj & Hs).
  eexists s1, _. split_and!; [done| |exact Hs]. apply bulk_user_name.
Qed.

Lemma bulk_step_wf prefix width inp i s s' o :
  users_wf s -> bulk_step prefix width inp i s = Ok (o, s') -> users_wf s'.
Proof.
  intros Hwf (s1 & u & Ho%outbox_only_tables & _ & Hs%bulk_insert_inv)%bulk_step_inv.
  eapply users_wf_users in Hwf; [|apply Ho]. destruct o as [u'|]; [|by subst].
  destruct Hs as (_ & Hre & s2 & Hi & Ho2%outbox_only_tables).
  eapply users_wf_users; [apply Ho2|]. by eapply insert_user_wf.
Qed.

Lemma bulk_loop_wf prefix width inp last fuel i res s res' s' :
  users_wf s -> bulk_loop prefix width inp fuel i last res s = Ok (res', s') -> users_wf s'.
Proof.
  revert i res s. induction fuel as [|fuel IH]; intros i res s Hwf Hl; cbn [bulk_loop] in Hl;
    (destruct (i <=? last); cbn [negb] in Hl; [|by apply Ok_pair_inj in Hl as [_ <-]]); [done|].
  apply tx_bind_ok in Hl as (o & s1 & Hs & Hl). eapply IH; [|done]. by eapply bulk_step_wf.
Qed.

(** What a bulk creation has done when it reaches a turn: the rows of [s0] are
    still there, and the users reported so far are rows under names that [s0]
    did not have. *)
Definition bulk_name_of (prefix : string) (width first i : Z) (u : User) : Prop :=
  exists j, first <= j < i /\ u_Username u = bulk_name prefix width j.

Record bulk_inv (prefix : string) (width first : Z) (s0 : store) (i : Z)
    (res : BulkResult) (s : store) : Prop := {
  bi_kept : users s0 ⊆ users s;
  bi_count : Z.of_nat (length (bk_Users res)) + bk_Skipped res = i - first;
  bi_names : NoDup (u_Username <$> bk_Users res);
  bi_rows : Forall (fun u => users s !! u_ID u = Some (inserted u) /\
      usernameRe (u_Username u) = true /\ username_taken (u_Username u) s0 = false /\
      bulk_name_of prefix width first i u) (bk_Users res)
}.

Lemma username_taken_mono n s s' : users s ⊆ users s' ->
  username_taken n s' = false -> username_taken n s = false.
Proof.
  unfold username_taken. rewrite !existsb_values_false. intros Hs Hn k u Hk.
  eapply Hn, lookup_weaken; eauto.
Qed.

Lemma username_taken_row n s k u : username_taken n s = false ->
  users s !! k = Some u -> u_Username u <> n.
Proof. unfold username_taken. rewrite existsb_values_false. intros Hn Hk%Hn. by apply String.eqb_neq. Qed.

Lemma bulk_inv_step prefix width inp first s0 i res s s' o : first <= i ->
  bulk_inv prefix width first s0 i res s -> bulk_step prefix width inp i s = Ok (o, s') ->
  bulk_inv prefix width first s0 (i + 1) (bulk_add res o) s'.
Proof.
  intros Hi [Hk Hc Hn Hr] (s1 & u & (Ho & _)%outbox_only_tables & Hu & Hs%bulk_insert_inv)%bulk_step_inv.
  assert (forall u, bulk_name_of prefix width first i u -> bulk_name_of prefix width first (i + 1) u)
    as Hmono by (intros ? (j & ? & ?); exists j; split; [lia|done]).
  rewrite <-Ho in Hk, Hr. clear Ho s. destruct o as [u'|]; cbn [bulk_add].
  2: { subst s'. split; cbn; [done|lia|done|].
       eapply Forall_impl; [exact Hr|]. cbn. intros v (? & ? & ? & ?). auto. }
  destruct Hs as (-> & Hre & s2 & (-> & _ & Hid & Ht)%insert_user_ok & (Ho & _)%outbox_only_tables).
  split; cbn.
  - rewrite Ho. cbn. etrans; [exact Hk|by apply insert_subseteq].
  - rewrite length_app. cbn. lia.
  - rewrite fmap_app. apply NoDup_app. split_and!; [done| |apply NoDup_singleton].
    intros n (v & -> & Hv)%list_elem_of_fmap E%list_elem_of_singleton.
    rewrite Forall_forall in Hr. destruct (Hr _ Hv) as (Hrow & _).
    by apply (username_taken_row _ _ _ _ Ht) in Hrow.
  - rewrite Ho. cbn. apply Forall_app. split.
    + eapply Forall_impl; [exact Hr|]. cbn. intros v (Hrow & ? & ? & ?).
      split_and!; [|by auto..]. rewrite lookup_insert_ne; [done|]. intros E. congruence.
    + apply Forall_singleton. split_and!; [by rewrite lookup_insert_eq|done| |].
      * by eapply username_taken_mono.
      * exists i. split; [lia|done].
Qed.

Lemma bulk_loop_spec prefix width inp first last s0 fuel i res s res' s' :
  first <= i -> i <= last + 1 -> last < max_int64 -> - 2 ^ 63 <= i ->
  bulk_inv prefix width first s0 i res s ->
  bulk_loop prefix width inp fuel i last res s = Ok (res', s') ->
  bulk_inv prefix width first s0 (last + 1) res' s'.
Proof.
  revert i res s. induction fuel as [|fuel IH]; intros i res s Hf Hi Hl Hm Hinv Hrun;
    cbn [bulk_loop] in Hrun; (destruct (Z.leb_spec i last) as [Hle|Hgt]; cbn [negb] in Hrun;
      [|apply Ok_pair_inj in Hrun as [<- <-]; by replace (last + 1) with i by lia]); [done|].
  apply tx_bind_ok in Hrun as (o & s1 & Hs & Hrun).
  rewrite i64_id in Hrun by (unfold is_i64, max_int64 in *; lia).
  eapply IH; [..|exact Hrun]; [lia..|]. eapply bulk_inv_step; eauto.
Qed.

Lemma insert_user_fuel u s : insert_user u s <> Err out_of_fuel.
Proof. unfold insert_user. cbv zeta. by repeat case_match. Qed.

Lemma bulk_insert_fuel u s :
  (forall event data s, record event data s <> Err out_of_fuel) ->
  bulk_insert u s <> Err out_of_fuel.
Proof.
  intros Hrec. unfold bulk_insert. destruct (negb _); [done|].
  pose proof (insert_user_fuel u s) as Hi.
  destruct (insert_user u s) as [[[] s2]|e].
  - pose proof (Hrec "user.created" (created_data u) s2) as Hr.
    unfold mbind, tx_mbind, tx_bind. destruct (record _ _ _) as [[]|]; [done|congruence].
  - destruct (bool_decide _); congruence.
Qed.

Lemma bulk_step_fuel prefix width inp i s :
  (forall event data s, record event data s <> Err out_of_fuel) ->
  bulk_step prefix width inp i s <> Err out_of_fuel.
Proof. intros Hrec. exact (bulk_insert_fuel _ _ Hrec). Qed.

Lemma bulk_loop_fuel prefix width inp last fuel i res s :
  (forall event data s, record event data s <> Err out_of_fuel) ->
  last < max_int64 -> - 2 ^ 63 <= i -> last - i < Z.of_nat fuel ->
  bulk_loop prefix width inp fuel i last res s <> Err out_of_fuel.
Proof.
  intros Hrec. revert i res s. induction fuel as [|fuel IH]; intros i res s Hl Hm Hf; cbn [bulk_loop];
    (destruct (Z.leb_spec i last) as [Hle|Hgt]; cbn [negb]; [|done]); [lia|].
  unfold mbind, tx_mbind, tx_bind. pose proof (bulk_step_fuel prefix width inp i s Hrec) as Hs.
  destruct (bulk_step _ _ _ _ _) as [[o s1]|e]; [|congruence].
  rewrite i64_id by (unfold is_i64, max_int64 in *; lia). apply IH; lia.
Qed.

(** *** Reads and saves *)

Lemma Get_ok id s u : Get id s = Ok u -> users s !! id = Some u /\ u_DeletedAt u = None.
Proof.
  unfold Get, getRaw. destruct (users s !! id) as [u'|]; cbn; [|done].
  destruct (u_DeletedAt u') eqn:E; [done|]. by intros [= ->].
Qed.

(** The row that a save of [u] leaves, when its id is a row's. *)
Lemma save_row u row s s' x : users s !! u_ID u = Some row -> save u s = Ok (x, s') ->
  users s' = <[u_ID u := saved_row u row (clock s)]> (users s).
Proof. intros Hr [-> _]%save_ok. cbn. by rewrite Hr. Qed.

Lemma save_then_record u row event data s s' x :
  users s !! u_ID u = Some row -> (save u ≫= fun _ => record event data) s = Ok (x, s') ->
  users s' = <[u_ID u := saved_row u row (clock s)]> (users s).
Proof.
  intros Hr (? & s1 & Hs & Hrec%record_users)%tx_bind_ok. rewrite Hrec. by eapply save_row.
Qed.

Lemma SetStatus_commit_row u row s s' x :
  users s !! u_ID u = Some row -> SetStatus_commit u s = Ok (x, s') ->
  x = u /\ users s' = <[u_ID u := saved_row u row (clock s)]> (users s).
Proof.
  unfold SetStatus_commit. intros Hr (? & s1 & Hs & Hc)%tx_bind_ok.
  apply tx_bind_ok in Hc as (? & s2 & Hw & [<- <-]%Ok_pair_inj). split; [done|].
  eapply save_row in Hs; [|done]. rewrite <-Hs.
  destruct (status_event _); [by eapply record_users|by apply Ok_pair_inj in Hw as [_ <-]].
Qed.

Lemma Renew_commit_row u row s s' x :
  users s !! u_ID u = Some row -> Renew_commit u s = Ok (x, s') ->
  x = u /\ users s' = <[u_ID u := saved_row u row (clock s)]> (users s).
Proof.
  unfold Renew_commit. intros Hr (? & s1 & Hs & Hc)%tx_bind_ok.
  apply tx_bind_ok in Hc as (? & s2 & Hw%record_users & [<- <-]%Ok_pair_inj). split; [done|].
  rewrite Hw. by eapply save_row.
Qed.

Lemma Restore_commit_row u row s s' x :
  users s !! u_ID u = Some row -> Restore_commit u s = Ok (x, s') ->
  x = u /\ users s' = <[u_ID u := saved_row u row (clock s)]> (users s).
Proof.
  unfold Restore_commit. intros Hr (? & s1 & Hs & Hc)%tx_bind_ok.
  apply tx_bind_ok in Hc as (? & s2 & Hw%record_users & [<- <-]%Ok_pair_inj). split; [done|].
  rewrite Hw. by eapply save_row.
Qed.

(** What the lifecycle endpoints promise about the account they leave. *)
Definition lifecycle_ok (u : User) : Prop :=
  u_Enabled u = PeerWanted (u_Status u) /\
  (is_Some (u_DisableReason u) <-> u_Status u = UserDisabled \/ u_Status u = UserSuspended) /\
  (forall r, u_DisableReason u = Some r -> DisableReason_Valid r = true) /\
  (u_Status u = UserActive -> u_StartPolicy u = StartFirstConnection -> is_Some (u_ActivatedAt u)).

Lemma SetStatus_read_ok id st reason s u : SetStatus_read id st reason s = Ok u ->
  exists row, users s !! id = Some row /\ u_ID u = u_ID row /\ lifecycle_ok u /\
    (u_Status u = st \/ st = UserActive /\ u_Status u = UserWaitingFirstConnection).
Proof.
  unfold SetStatus_read. intros Hread.
  destruct (Get id s) as [row|] eqn:Hget; cbn in Hread; [|done].
  apply Get_ok in Hget as [Hrow Hdel]. exists row. split; [done|].
  destruct st; cbn in Hread; try done;
    try (destruct (DisableReason_Valid reason) eqn:Er; cbn in Hread; [|done]);
    try (destruct (bool_decide (u_ActivatedAt row = None)) eqn:Ea);
    try (destruct (bool_decide (u_StartPolicy row = StartFirstConnection)) eqn:Ep);
    cbn in Hread; apply Ok_inj in Hread as <-; unfold lifecycle_ok; cbn;
    try apply bool_decide_eq_false in Ea; try apply bool_decide_eq_false in Ep;
    split_and!; try by intuition (congruence || eauto).
  intros _ _. by apply not_eq_None_Some.
Qed.

Lemma save_frame u s s' x : save u s = Ok (x, s') -> devices s' = devices s /\ clock s' = clock s.
Proof. by intros [-> _]%save_ok. Qed.

Lemma SoftDelete_commit_frame u s s' x : SoftDelete_commit u s = Ok (x, s') ->
  devices s' = devices s /\ clock s' = clock s.
Proof.
  intros (? & s1 & [Hd Hk]%save_frame & Hr%record_frame%outbox_only_tables)%tx_bind_ok.
  destruct Hr as (_ & -> & _ & _ & _ & _ & -> & _). done.
Qed.

Lemma Restore_commit_frame u s s' x : Restore_commit u s = Ok (x, s') -> devices s' = devices s.
Proof.
  unfold Restore_commit. intros (? & s1 & [Hd Hk]%save_frame & Hc)%tx_bind_ok.
  apply tx_bind_ok in Hc as (? & s2 & Hr%record_frame%outbox_only_tables & [_ <-]%Ok_pair_inj).
  by destruct Hr as (_ & -> & _).
Qed.

(** *** Commits of a user read earlier *)

Lemma Update_commit_wf u was s s' x : users_wf s -> Update_commit u was s = Ok (x, s') -> users_wf s'.
Proof.
  unfold Update_commit. intros Hwf (? & s1 & Hs & Hc)%tx_bind_ok.
  apply tx_bind_ok in Hc as (? & s2 & Hw & Hc).
  apply tx_bind_ok in Hc as (? & s3 & Hr & [_ <-]%Ok_pair_inj).
  eapply record_wf; [|exact Hr]. eapply tx_when_record_wf; [|exact Hw]. by eapply save_wf.
Qed.

Lemma SetStatus_commit_wf u s s' x : users_wf s -> SetStatus_commit u s = Ok (x, s') -> users_wf s'.
Proof.
  unfold SetStatus_commit. intros Hwf (? & s1 & Hs & Hc)%tx_bind_ok.
  apply tx_bind_ok in Hc as (? & s2 & Hw & [_ <-]%Ok_pair_inj).
  eapply save_wf in Hwf; [|exact Hs].
  destruct (status_event _); [by eapply record_wf|by apply Ok_pair_inj in Hw as [_ <-]].
Qed.

(** [save], then the [user.updated] event: the tail of the other operations. *)
Lemma save_record_wf u data s s' x :
  users_wf s -> (save u ≫= fun _ => record "user.updated" data) s = Ok (x, s') -> users_wf s'.
Proof.
  intros Hwf (? & s1 & Hs & Hr)%tx_bind_ok. eapply record_wf; [|exact Hr]. by eapply save_wf.
Qed.

Lemma Renew_commit_wf u s s' x : users_wf s -> Renew_commit u s = Ok (x, s') -> users_wf s'.
Proof.
  unfold Renew_commit. intros Hwf (? & s1 & Hs & Hc)%tx_bind_ok.
  apply tx_bind_ok in Hc as (? & s2 & Hr & [_ <-]%Ok_pair_inj).
  eapply record_wf; [|exact Hr]. by eapply save_wf.
Qed.

Lemma Restore_commit_wf u s s' x : users_wf s -> Restore_commit u s = Ok (x, s') -> users_wf s'.
Proof.
  unfold Restore_commit. intros Hwf (? & s1 & Hs & Hc)%tx_bind_ok.
  apply tx_bind_ok in Hc as (? & s2 & Hr & [_ <-]%Ok_pair_inj).
  eapply record_wf; [|exact Hr]. by eapply save_wf.
Qed.

Lemma users_wf_delete id s : users_wf s -> users_wf (cascade_user id s).
Proof.
  intros [Hrow Huniq]. split; cbn.
  - by apply map_Forall_delete.
  - intros k1 k2 u1 u2 [_ H1]%lookup_delete_Some [_ H2]%lookup_delete_Some. eauto.
Qed.

Lemma DeleteTx_inv id s s' x : DeleteTx id s = Ok (x, s') ->
  exists s1, is_Some (users s !! id) /\ outbox_only (retire_user_keys id s) s1 /\
    s' = cascade_user id s1.
Proof.
  unfold DeleteTx. destruct (users s !! id) as [u|] eqn:E; [|done].
  intros (? & s1 & [_ <-]%Ok_pair_inj & Hc)%tx_bind_ok.
  apply tx_bind_ok in Hc as (? & s2 & Hr%record_frame & [_ <-]%Ok_pair_inj). eauto.
Qed.

Lemma DeleteTx_wf id s s' x : users_wf s -> DeleteTx id s = Ok (x, s') -> users_wf s'.
Proof.
  intros Hwf (s1 & _ & Ho%outbox_only_tables & ->)%DeleteTx_inv. apply users_wf_delete.
  eapply users_wf_users; [apply Ho|]. done.
Qed.

(** *** The operations as a step relation

    A commit may follow its read after any number of other steps, so the
    relation has the commits as steps of their own, with whatever user value
    the read produced. [step_other] stands for everything that leaves the
    users table alone, the passage of time included. *)
Inductive user_step : store -> store -> Prop :=
| step_create i s x s' : CreateTx i s = Ok (x, s') -> user_step s s'
| step_bulk prefix width inp i last s x s' :
    bulk_loop prefix width inp bulk_fuel i last (MkBulk [] 0) s = Ok (x, s') -> user_step s s'
| step_update u was s x s' : Update_commit u was s = Ok (x, s') -> user_step s s'
| step_set_status u s x s' : SetStatus_commit u s = Ok (x, s') -> user_step s s'
| step_renew u s x s' : Renew_commit u s = Ok (x, s') -> user_step s s'
| step_soft_delete u s x s' : SoftDelete_commit u s = Ok (x, s') -> user_step s s'
| step_restore u s x s' : Restore_commit u s = Ok (x, s') -> user_step s s'
| step_delete id s x s' : DeleteTx id s = Ok (x, s') -> user_step s s'
| step_other s s' : users s' = users s -> user_step s s'.
End Facts.

(** ** Properties *)

Section Properties.
Context `{Entropy} `{R : EventRecorder, !RecorderFrame R}.

(** C13. No interleaving of the account operations, stale commits included, files
    a row under a foreign id, stores a malformed username or start policy, or
    gives two accounts (soft-deleted ones included) the same username. *)
Theorem users_wf_invariant s s' : users_wf s -> rtc user_step s s' -> users_wf s'.
Proof.
  intros Hwf Hr. induction Hr as [|s1 s2 s3 Hs _ IH]; [done|]. apply IH. clear IH.
  destruct Hs as [???? Hs|???????? Hs|????? Hs|???? Hs|???? Hs|???? Hs|???? Hs|???? Hs|?? Hs].
  - by eapply CreateTx_wf.
  - by eapply bulk_loop_wf.
  - by eapply Update_commit_wf.
  - by eapply SetStatus_commit_wf.
  - by eapply Renew_commit_wf.
  - unfold SoftDelete_commit in Hs. by eapply save_record_wf.
  - by eapply Restore_commit_wf.
  - by eapply DeleteTx_wf.
  - by eapply users_wf_users.
Qed.

(** A bulk creation that returns reports every index exactly once, created or
    skipped; the created users have distinct, well-formed names that no row of
    the node had, each one is a row of the users table, and no row that was
    there has changed. *)
Theorem CreateBulk_spec prefix count start width inp s res :
  start + count <= max_int64 ->
  (CreateBulk prefix count start width inp s).1 = Ok res ->
  let s' := (CreateBulk prefix count start width inp s).2 in
  let w := if width <? 1 then 3 else width in
  Z.of_nat (length (bk_Users res)) + bk_Skipped res = count /\
  NoDup (u_Username <$> bk_Users res) /\
  Forall (fun u => users s' !! u_ID u = Some (inserted u) /\
    usernameRe (u_Username u) = true /\ username_taken (u_Username u) s = false /\
    bulk_name_of (trim_space prefix) w start (start + count) u) (bk_Users res) /\
  users s ⊆ users s'.
Proof.
  intros Hlast. unfold CreateBulk. cbv zeta.
  destruct (_ || _) eqn:E1; [done|]. apply orb_false_iff in E1 as [Ec1%Z.ltb_ge Ec2%Z.ltb_ge].
  destruct (start <? 0) eqn:Es; [done|]. apply Z.ltb_ge in Es.
  set (w := if width <? 1 then 3 else width).
  destruct (10 <? w); [done|]. destruct (negb _); [done|].
  rewrite (i64_id (start + count - 1)) by (unfold is_i64, max_int64 in *; lia).
  destruct (_ || _); [done|]. destruct (validateLimits inp); [|done].
  intros Hok%WithTx_ok. eapply (bulk_loop_spec _ _ _ start _ s) in Hok; [| | | | |].
  - destruct Hok as [Hk Hn Hd Hr]. replace (start + count - 1 + 1) with (start + count) in Hr by lia.
    split_and!; [lia|done|exact Hr|done].
  - done.
  - lia.
  - lia.
  - lia.
  - split; cbn; [done|lia|constructor|constructor].
Qed.

(** C33. A bulk creation whose last index is below the largest [int] ends: its
    fuel is enough, whatever rows the table holds. *)
Theorem CreateBulk_ends prefix count start width inp s :
  (forall event data s, record event data s <> Err out_of_fuel) ->
  start + count <= max_int64 ->
  (CreateBulk prefix count start width inp s).1 <> Err out_of_fuel.
Proof.
  intros Hrec Hlast. unfold CreateBulk. cbv zeta.
  destruct (_ || _) eqn:E1; [done|]. apply orb_false_iff in E1 as [Ec1%Z.ltb_ge Ec2%Z.ltb_ge].
  destruct (start <? 0) eqn:Es; [done|]. apply Z.ltb_ge in Es.
  destruct (10 <? _); [done|]. destruct (negb _); [done|].
  rewrite (i64_id (start + count - 1)) by (unfold is_i64, max_int64 in *; lia).
  destruct (_ || _); [done|]. destruct (validateLimits inp) as [|e] eqn:Ev.
  - unfold WithTx. pose proof (bulk_loop_fuel (trim_space prefix) (if width <? 1 then 3 else width)
      inp (start + count - 1) bulk_fuel start (MkBulk [] 0) s Hrec) as Hf.
    assert (Z.of_nat bulk_fuel = 500) as Ef by done.
    destruct (bulk_loop _ _ _ _ _ _ _ _) as [[]|e]; [done|].
    cbn. intros [= ->]. apply Hf; [lia..|done].
  - cbn. intros [= ->]. revert Ev. unfold validateLimits. by repeat case_match.
Qed.

(** When the last index is the largest [int], the loop's condition never
    turns false: whatever the fuel, the bulk creation does not return. *)
Theorem bulk_loop_never_ends prefix width inp fuel i res s res' s' :
  is_i64 i -> bulk_loop prefix width inp fuel i max_int64 res s <> Ok (res', s').
Proof.
  revert i res s. induction fuel as [|fuel IH]; intros i res s Hi; cbn [bulk_loop];
    rewrite (proj2 (Z.leb_le i max_int64)) by (unfold is_i64, max_int64 in *; lia); cbn [negb]; [done|].
  intros (o & s1 & _ & Hl)%tx_bind_ok. revert Hl. apply IH, i64_range.
Qed.

(** After any successful status change, whatever the account was before: it is
    enabled exactly when its status wants live peers, it carries a (known)
    reason exactly when it is disabled or suspended, and it is not active
    before its first connection; the stored row is the account returned with
    the meters and identity of the row it replaces. *)
Theorem SetStatus_consistent id st reason s u s' : users_wf s ->
  SetStatus id st reason s = (Ok u, s') ->
  lifecycle_ok u /\
  (u_Status u = st \/ st = UserActive /\ u_Status u = UserWaitingFirstConnection) /\
  exists row, users s !! id = Some row /\
    users s' = <[id := saved_row u row (clock s)]> (users s).
Proof.
  intros [Hwf _]. unfold SetStatus. destruct (SetStatus_read id st reason s) as [v|] eqn:Hread; [|done].
  intros Hc%WithTx_run. apply SetStatus_read_ok in Hread as (row & Hrow & Hv & Hlc & Hst).
  destruct (Hwf _ _ Hrow) as (Hid & _). rewrite Hid in Hv. rewrite <-Hv in Hrow.
  eapply SetStatus_commit_row in Hc as [-> Hu]; [|exact Hrow]. rewrite Hv in *. eauto.
Qed.

(** A renewal from the current expiration, for a duration that fits a
    [time.Duration], moves the expiry to the later of now and the old expiry
    plus the duration, so strictly past both; it reactivates an expired
    account and leaves every other status, and the meters, as they were. *)
Theorem Renew_extends id d s u s' : users_wf s -> 0 < d <= 9223372036 ->
  Renew id "from_expiration" (Some d) None s = (Ok u, s') ->
  exists row e, users s !! id = Some row /\
    e = Z.max (clock s) (default (clock s) (u_ExpiresAt row)) + d * second /\
    clock s < e /\ (forall e0, u_ExpiresAt row = Some e0 -> e0 < e) /\
    users s' = <[id := saved_row u row (clock s)]> (users s) /\
    u = row <| u_ExpiresAt := Some e |>
            <| u_Status := if bool_decide (u_Status row = UserExpired) then UserActive
                           else u_Status row |>
            <| u_DisableReason := if bool_decide (u_Status row = UserExpired) then None
                                  else u_DisableReason row |>.
Proof.
  intros [Hwf _] Hd. unfold Renew. destruct (Renew_read _ _ _ _ s) as [v|] eqn:Hread; [|done].
  intros Hc%WithTx_run. unfold Renew_read in Hread.
  destruct (Get id s) as [row|] eqn:Hget; cbn in Hread; [|done].
  apply Get_ok in Hget as [Hrow Hdel]. destruct (Hwf _ _ Hrow) as (Hid & _).
  rewrite (proj2 (Z.leb_gt d 0)) in Hread by lia. cbn in Hread.
  set (e := time_add _ _) in Hread. exists row, e.
  assert (e = Z.max (clock s) (default (clock s) (u_ExpiresAt row)) + d * second) as He.
  { unfold e, time_add, seconds. rewrite i64_id by (unfold is_i64, second; lia). f_equal.
    destruct (u_ExpiresAt row) as [e0|]; cbn; [|lia].
    destruct (Z.ltb_spec (clock s) e0); lia. }
  clearbody e.
  assert (v = row <| u_ExpiresAt := Some e |>
            <| u_Status := if bool_decide (u_Status row = UserExpired) then UserActive
                           else u_Status row |>
            <| u_DisableReason := if bool_decide (u_Status row = UserExpired) then None
                                  else u_DisableReason row |>) as Hv.
  { destruct (bool_decide _); apply Ok_inj in Hread as <-; by destruct row. }
  eapply (Renew_commit_row v row) in Hc as [-> Hu]; [|subst v; cbn; by rewrite Hid].
  assert (u_ID v = id) as Hvid by (by subst v). rewrite Hvid in Hu. unfold second in *.
  split_and!; [done|done|lia| |done|done]. intros e0 E. rewrite E in He. cbn in He. lia.
Qed.

(** A duration the validation accepts but a [time.Duration] cannot hold wraps:
    the account is created active and already past its expiry. *)
Theorem long_duration_expires_at_once id now i d :
  in_StartPolicy i = StartImmediate -> in_ExpiresAt i = None ->
  in_DurationSeconds i = Some d -> 9223372036 < d < 18446744073 ->
  bad_limit false (in_TrafficLimitBytes i) = false ->
  existsb (bad_limit true) [in_SpeedLimitDownKbps i; in_SpeedLimitUpKbps i; in_DeviceLimit i] = false ->
  validateLimits i = Ok tt /\
  u_Status (buildCreate id now i) = UserActive /\
  exists e, u_ExpiresAt (buildCreate id now i) = Some e /\ e < now.
Proof.
  intros Hp He Hd Hrange Hb1 Hb2. split_and!.
  - unfold validateLimits. rewrite Hb1, Hb2, Hd, Hp.
    by rewrite (proj2 (Z.leb_gt d 0)) by lia.
  - unfold buildCreate. by rewrite Hp, He, Hd.
  - unfold buildCreate. rewrite Hp, He, Hd. cbn. eexists. split; [done|].
    unfold time_add, seconds, i64, second. dlia.
Qed.

(** Restoring a soft-deleted account brings back the row as it was, meters,
    limits, expiry and devices included, except that it is active and enabled
    with no reason, whatever its status was; an account still waiting for its
    first connection thus becomes active with no activation instant. *)
Theorem Restore_after_SoftDelete id s x s1 u s2 : users_wf s ->
  SoftDelete id s = (Ok x, s1) -> Restore id s1 = (Ok u, s2) ->
  exists row, users s !! id = Some row /\ devices s2 = devices s /\
    users s2 !! id = Some ((null_columns row) <| u_ResellerID := u_ResellerID row |>
       <| u_Status := UserActive |> <| u_DisableReason := None |> <| u_Enabled := true |>
       <| u_UpdatedAt := clock s |>).
Proof.
  intros [Hwf _]. unfold SoftDelete, SoftDelete_read.
  destruct (Get id s) as [row|] eqn:Hget; cbn; [|done].
  apply Get_ok in Hget as [Hrow Hdel]. destruct (Hwf _ _ Hrow) as (Hid & _).
  intros Hc%WithTx_run. pose proof (SoftDelete_commit_frame _ _ _ _ Hc) as [Hd1 Hk1].
  eapply save_then_record in Hc; [|cbn; rewrite Hid; exact Hrow].
  cbn in Hc. rewrite Hid in Hc. unfold Restore, Restore_read, getRaw.
  rewrite Hc, lookup_insert_eq. cbn. intros Hc2%WithTx_run.
  pose proof (Restore_commit_frame _ _ _ _ Hc2) as Hd2.
  eapply Restore_commit_row in Hc2 as [_ Hu]; [|cbn; rewrite Hc, Hid; apply lookup_insert_eq].
  exists row. split_and!; [done|congruence|].
  rewrite Hu. cbn. rewrite Hid, lookup_insert_eq. f_equal. rewrite Hk1, <-Hdel.
  unfold saved_row, null_columns. cbn. rewrite !nullText_idem, <-Hid. by destruct row.
Qed.

(** Permanent deletion removes the account and exactly its devices; the key
    of each of them, on its interface, is retired, and no key already retired
    comes back; the samples, queued successor and subscription link of the account go
    with it. *)
Theorem Delete_spec id s x s' : Delete id s = (Ok x, s') ->
  is_Some (users s !! id) /\ users s' = delete id (users s) /\
  (forall k d, devices s' !! k = Some d <-> devices s !! k = Some d /\ d_UserID d <> id) /\
  (forall k d, devices s !! k = Some d -> d_UserID d = id ->
     (d_InterfaceID d, d_PublicKey d) ∈ retired_peer_keys s') /\
  retired_peer_keys s ⊆ retired_peer_keys s' /\
  (forall k d t, devices s !! k = Some d -> d_UserID d = id ->
     traffic_samples s' !! (d_ID d, t) = None) /\
  next_plan_queue s' !! id = None /\ sub_links s' !! id = None.
Proof.
  intros Hc%WithTx_run. apply DeleteTx_inv in Hc as (s1 & Hsome & Ho & ->).
  apply outbox_only_tables in Ho as (Hu & Hd & _ & _ & Hr & Hq & _ & Ht & _).
  cbn in *. rewrite Hu, Hd, Hr, Hq, Ht. split_and!; [done|done| | |apply union_subseteq_r| | |].
  - intros k d. rewrite map_lookup_filter_Some. done.
  - intros k d Hk Hid. apply elem_of_union_l, elem_of_list_to_set, list_elem_of_fmap.
    exists d. split; [done|]. by apply elem_of_user_devices; eauto.
  - intros k d t Hk Hid. apply map_lookup_filter_None. right. intros v _ Hf.
    apply bool_decide_eq_false in Hf. apply Hf, list_elem_of_fmap. exists d. split; [done|].
    assert (user_devices id s1 = user_devices id s) as -> by (unfold user_devices; by rewrite Hd).
    apply elem_of_user_devices. eauto.
  - apply lookup_delete_eq.
  - apply lookup_delete_eq.
Qed.
End Properties.

(** ** Witnesses *)

Section Witnesses.
#[local] Existing Instance counting_entropy.
#[local] Instance no_recorder : EventRecorder := None.

Definition w_start : store := empty_store (1700000000 * second).
Definition w_input : Input := (input "alice") <| in_TrafficLimitBytes := OptVal 1000 |>.
Definition w_alice : store := (Create w_input w_start).2.
Definition w_alice_id : string := NewID 1700000000000 (rand 0%nat).

Lemma users_wf_empty now : users_wf (empty_store now).
Proof. split; [apply map_Forall_empty|]. intros k1 k2 u1 u2 H1. cbn in H1. by rewrite lookup_empty in H1. Qed.

Lemma w_alice_wf : users_wf w_alice.
Proof.
  eapply (CreateTx_wf w_input); [apply (users_wf_empty (1700000000 * second))|].
  vm_compute. reflexivity.
Qed.

Theorem users_wf_invariant_witness : users_wf w_alice.
Proof.
  apply (users_wf_invariant w_start w_alice (users_wf_empty _)).
  eapply rtc_once, (step_create w_input). vm_compute. reflexivity.
Defined.

Theorem CreateBulk_spec_witness :
  exists res, (CreateBulk "gs-" 3 9 0 (input "") w_alice).1 = Ok res /\
    Z.of_nat (length (bk_Users res)) + bk_Skipped res = 3.
Proof.
  destruct (CreateBulk "gs-" 3 9 0 (input "") w_alice).1 as [res|] eqn:E;
    [|vm_compute in E; discriminate].
  destruct (CreateBulk_spec "gs-" 3 9 0 (input "") w_alice res ltac:(done) E) as [Hc _]. eauto.
Defined.

Theorem CreateBulk_ends_witness :
  (CreateBulk "gs-" 3 9 0 (input "") w_alice).1 <> Err out_of_fuel.
Proof. apply CreateBulk_ends; [done|done]. Defined.

Theorem bulk_loop_never_ends_witness :
  bulk_loop "gs" 3 (input "") 400 max_int64 max_int64 (MkBulk [] 0) w_start
    <> Ok (MkBulk [] 0, w_start).
Proof. apply bulk_loop_never_ends. unfold is_i64. done. Defined.

Theorem SetStatus_consistent_witness :
  exists u s', SetStatus w_alice_id UserSuspended DisableAdminAction w_alice = (Ok u, s') /\
    lifecycle_ok u.
Proof.
  destruct (SetStatus w_alice_id UserSuspended DisableAdminAction w_alice) as [[u|] s'] eqn:E;
    [|vm_compute in E; discriminate].
  destruct (SetStatus_consistent _ _ _ _ u s' w_alice_wf E) as [Hl _]. eauto.
Defined.

Theorem Renew_extends_witness :
  exists u s' row e, Renew w_alice_id "from_expiration" (Some 60) None w_alice = (Ok u, s') /\
    users w_alice !! w_alice_id = Some row /\ u_ExpiresAt u = Some e /\ clock w_alice < e.
Proof.
  destruct (Renew w_alice_id "from_expiration" (Some 60) None w_alice) as [[u|] s'] eqn:E.
  - destruct (Renew_extends w_alice_id 60 w_alice u s' w_alice_wf ltac:(lia) E)
      as (row & e & Hrow & He & Hlt & _ & _ & Hu).
    exists u, s', row, e. split_and!; [reflexivity|exact Hrow|by rewrite Hu|exact Hlt].
  - exfalso. vm_compute in E. discriminate.
Defined.

Theorem long_duration_witness :
  exists e, u_ExpiresAt (buildCreate "id" 0 ((input "alice")
     <| in_StartPolicy := StartImmediate |> <| in_DurationSeconds := Some 9300000000 |>)) = Some e
     /\ e < 0.
Proof. by apply (long_duration_expires_at_once _ _ _ 9300000000). Defined.

Theorem Restore_after_SoftDelete_witness :
  exists row, users w_alice !! w_alice_id = Some row.
Proof.
  destruct (SoftDelete w_alice_id w_alice) as [[x|] s1] eqn:E1; [|vm_compute in E1; discriminate].
  destruct (Restore w_alice_id s1) as [[u|] s2] eqn:E2.
  - destruct (Restore_after_SoftDelete w_alice_id w_alice x s1 u s2 w_alice_wf E1 E2) as (row & Hr & _).
    by exists row.
  - exfalso. revert E2. replace s1 with (SoftDelete w_alice_id w_alice).2 by (by rewrite E1).
    vm_compute. discriminate.
Defined.

Theorem Delete_spec_witness : users (Delete w_alice_id w_alice).2 = ∅.
Proof.
  destruct (Delete w_alice_id w_alice) as [[x|] s'] eqn:E; [|vm_compute in E; discriminate].
  destruct (Delete_spec w_alice_id w_alice x s' E) as (_ & Hu & _). cbn [snd].
  rewrite Hu. vm_compute. reflexivity.
Defined.
End Witnesses.
