(* ===== verification/Crypto.v ===== *)
(** * Standard cryptography (crypto/sha256, crypto/ecdh)

    SHA-256 of a byte string, executable and checked against the published
    test vectors; the interface of the X25519 key pairs; the random source. *)
From stdpp Require Import base tactics strings list.
From Stdlib Require Import ZArith Lia Ascii.
From Stdlib Require String.
From S2P Require Import Prelude.

Open Scope Z_scope.

(** ** SHA-256 (FIPS 180-4) *)

(** The first primes: the constants are 32 bits of the fractions of their
    square and cube roots. *)
Definition is_prime (n : Z) : bool :=
  forallb (fun k => negb (n mod k =? 0)) (List.map Z.of_nat (seq 2 (Z.to_nat (Z.sqrt n) - 1))).
Definition primes : list Z := take 64 (List.filter is_prime (List.map Z.of_nat (seq 2 320))).

(** The cube root of [n] below [2 ^ bits], one bit at a time. *)
Fixpoint cube_root (bits : nat) (n root : Z) : Z :=
  match bits with
  | O => root
  | S bits =>
      let r := root + Z.shiftl 1 (Z.of_nat bits) in
      cube_root bits n (if r * r * r <=? n then r else root)
  end.

Definition sha_init : list Z := Eval vm_compute in
  List.map (fun p => u32 (Z.sqrt (Z.shiftl p 64))) (take 8 primes).
Definition sha_constants : list Z := Eval vm_compute in
  List.map (fun p => u32 (cube_root 36 (Z.shiftl p 96) 0)) primes.

Definition rotr (n x : Z) : Z := Z.lor (Z.shiftr x n) (u32 (Z.shiftl x (32 - n))).
Definition xor3 (a b c : Z) : Z := Z.lxor a (Z.lxor b c).

(** The big-endian bytes of [n], [len] of them. *)
Fixpoint be_bytes (len : nat) (n : Z) : list Z :=
  match len with O => [] | S len => be_bytes len (n / 256) ++ [n mod 256] end.

Fixpoint be_words (l : list Z) : list Z :=
  match l with
  | a :: b :: c :: d :: l => ((a * 256 + b) * 256 + c) * 256 + d :: be_words l
  | _ => []
  end.

Definition sha_pad (l : list Z) : list Z :=
  let n := Z.of_nat (length l) in
  l ++ [128] ++ List.repeat 0 (Z.to_nat ((55 - n) mod 64)) ++ be_bytes 8 (u64 (8 * n)).

(** The message schedule, latest word first. *)
Fixpoint sha_extend (rounds : nat) (w : list Z) : list Z :=
  match rounds with
  | O => w
  | S rounds =>
      let at_ i := nth i w 0 in
      let s0 := xor3 (rotr 7 (at_ 14%nat)) (rotr 18 (at_ 14%nat)) (Z.shiftr (at_ 14%nat) 3) in
      let s1 := xor3 (rotr 17 (at_ 1%nat)) (rotr 19 (at_ 1%nat)) (Z.shiftr (at_ 1%nat) 10) in
      sha_extend rounds (u32 (at_ 15%nat + s0 + at_ 6%nat + s1) :: w)
  end.

Definition sha_round (h : list Z) (kw : Z * Z) : list Z :=
  match h with
  | [a; b; c; d; e; f; g; i] =>
      let s1 := xor3 (rotr 6 e) (rotr 11 e) (rotr 25 e) in
      let ch := Z.lxor (Z.land e f) (Z.land (Z.lxor e 0xffffffff) g) in
      let t1 := i + s1 + ch + kw.1 + kw.2 in
      let s0 := xor3 (rotr 2 a) (rotr 13 a) (rotr 22 a) in
      let maj := xor3 (Z.land a b) (Z.land a c) (Z.land b c) in
      [u32 (t1 + s0 + maj); a; b; c; u32 (d + t1); e; f; g]
  | _ => h
  end.

Definition sha_block (h block : list Z) : list Z :=
  let w := rev (sha_extend 48 (rev (be_words block))) in
  zip_with (fun x y => u32 (x + y)) h (foldl sha_round h (zip sha_constants w)).

Fixpoint sha_blocks (n : nat) (h l : list Z) : list Z :=
  match n with
  | O => h
  | S n => sha_blocks n (sha_block h (take 64 l)) (drop 64 l)
  end.

(** [sha256.Sum256] *)
Definition Sum256 (data : string) : list Z :=
  let l := sha_pad (bytes_of data) in
  List.concat (List.map (be_bytes 4) (sha_blocks (length l / 64) sha_init l)).

(** [hex.EncodeToString] *)
Definition hex_digit (n : Z) : ascii := char_of (if n <? 10 then 48 + n else 87 + n).
Definition hex (l : list Z) : string :=
  String.string_of_list_ascii (List.concat (List.map (fun b => [hex_digit (b / 16); hex_digit (b mod 16)]) l)).

(** ** X25519

    The public key bytes of a private key ([crypto/ecdh]): a parameter, of
    which the services use that both are 32 bytes. *)

Class X25519 := public_of : list Z -> list Z.
Class X25519Laws (X : X25519) : Prop := {
  public_length k : length k = 32%nat -> length (public_of k) = 32%nat;
  public_range k : Forall (fun b => 0 <= b < 256) (public_of k)
}.

(** [crypto/rand]: the bytes of each draw. *)
Class Random := random : nat -> nat -> string.          (* draw, length *)
Class RandomLength (R : Random) : Prop :=
  random_length draw len : String.length (random draw len) = len.

(** ** Lemmas *)

Lemma length_be_bytes len n : length (be_bytes len n) = len.
Proof. revert n. induction len as [|len IH]; intros n; cbn; [done|]. rewrite length_app, IH. cbn. lia. Qed.

(** ** Test vectors *)

Example sha256_empty :
  hex (Sum256 "") = "e3b0c44298fc1c149afbf4c8996fb92427ae41e4649b934ca495991b7852b855".
Proof. vm_compute. reflexivity. Qed.

Example sha256_two_blocks :
  hex (Sum256 "abcdbcdecdefdefgefghfghighijhijkijkljklmklmnlmnomnopnopq")
  = "248d6a61d20638b8e5c026930c3e6039a33ce45964ff2167f6ecedd419db06c1".
Proof. vm_compute. reflexivity. Qed.
