(* ===== verification/Tunnel.v ===== *)
(** * Key texts (internal/tunnel/keys.go)

    WireGuard keys travel as padded standard base64 of 32 bytes.  The decoder
    is [base64.StdEncoding]'s: line breaks are skipped anywhere, padding is
    required, and the unused bits of the last character are not checked. *)
From stdpp Require Import base tactics strings list.
From Stdlib Require Import ZArith Lia Ascii.
From Stdlib Require String.
From S2P Require Import Prelude GoTime Domain Crypto.

Open Scope Z_scope.

Definition b64_val (c : ascii) : option Z :=
  let n := Z.of_nat (nat_of_ascii c) in
  if in_range "A" "Z" c then Some (n - 65)
  else if in_range "a" "z" c then Some (n - 71)
  else if in_range "0" "9" c then Some (n + 4)
  else if Ascii.eqb c "+" then Some 62
  else if Ascii.eqb c "/" then Some 63
  else None.

Definition b64_char (v : Z) : ascii :=
  ascii_of_nat (Z.to_nat (if v <? 26 then v + 65 else if v <? 52 then v + 71
    else if v <? 62 then v - 4 else if v =? 62 then 43 else 47)).

Definition line_break (c : ascii) : bool := Ascii.eqb c "010" || Ascii.eqb c "013".

Fixpoint skip_breaks (s : string) : string :=
  match s with
  | EmptyString => EmptyString
  | String c s => if line_break c then skip_breaks s else String c (skip_breaks s)
  end.

Fixpoint b64_quads (s : string) : option (list Z) :=
  match s with
  | EmptyString => Some []
  | String a (String b (String c (String d rest))) =>
      x ← b64_val a; y ← b64_val b;
      if Ascii.eqb c "=" then
        if Ascii.eqb d "=" && String.eqb rest "" then Some [x * 4 + y / 16] else None
      else
        z ← b64_val c;
        if Ascii.eqb d "=" then
          if String.eqb rest "" then Some [x * 4 + y / 16; y mod 16 * 16 + z / 4] else None
        else
          w ← b64_val d; bs ← b64_quads rest;
          Some (x * 4 + y / 16 :: y mod 16 * 16 + z / 4 :: z mod 4 * 64 + w :: bs)
  | _ => None
  end.

Definition DecodeString (s : string) : option (list Z) := b64_quads (skip_breaks s).

Fixpoint EncodeToString (bs : list Z) : string :=
  match bs with
  | [] => ""
  | [x] => String (b64_char (x / 4)) (String (b64_char (x mod 4 * 16)) "==")
  | [x; y] => String (b64_char (x / 4)) (String (b64_char (x mod 4 * 16 + y / 16))
                (String (b64_char (y mod 16 * 4)) "="))
  | x :: y :: z :: bs =>
      String (b64_char (x / 4)) (String (b64_char (x mod 4 * 16 + y / 16))
        (String (b64_char (y mod 16 * 4 + z / 64)) (String (b64_char (z mod 64))
          (EncodeToString bs))))
  end.

(** Base64 form and 32-byte length. *)
Definition ValidatePublicKey (b64 : string) : result err unit :=
  match DecodeString b64 with
  | None => Err (Plain "public key is not valid base64")
  | Some raw => if (length raw =? 32)%nat then Ok tt
                else Err (Plain "public key must decode to 32 bytes")
  end.

Definition ValidatePrivateKey (b64 : string) : result err unit :=
  match DecodeString b64 with
  | None => Err (Plain "private key is not valid base64")
  | Some raw => if (length raw =? 32)%nat then Ok tt
                else Err (Plain "private key must decode to 32 bytes")
  end.

(** The canonical form of a stored key: the decoder alone accepts others. *)
Definition ValidateEncodedKey (value : string) : result err unit :=
  match DecodeString value with
  | Some raw =>
      if (length raw =? 32)%nat && String.eqb (EncodeToString raw) value then Ok tt
      else Err (Plain "key must use canonical 32-byte base64 encoding")
  | None => Err (Plain "key must use canonical 32-byte base64 encoding")
  end.

Section Keys.
Context `{X : X25519}.

Record KeyPair := MkKeyPair { kp_Private : string; kp_Public : string }.

(** The pair of the 32 bytes drawn from the random source. *)
Definition GenerateKeyPair (raw : string) : KeyPair :=
  MkKeyPair (EncodeToString (bytes_of raw)) (EncodeToString (public_of (bytes_of raw))).

Definition GeneratePresharedKey (raw : string) : string := EncodeToString (bytes_of raw).

Definition PublicKeyFromPrivate (b64 : string) : result err string :=
  match DecodeString b64 with
  | Some raw => if (length raw =? 32)%nat then Ok (EncodeToString (public_of raw))
                else Err (Plain "private key must be 32 base64 bytes")
  | None => Err (Plain "private key must be 32 base64 bytes")
  end.

Definition ValidateKeyPair (private public : string) : result err unit :=
  _ ← ValidateEncodedKey private;
  match PublicKeyFromPrivate private with
  | Ok derived => if String.eqb derived public then Ok tt else Err (Plain "stored key pair does not match")
  | Err _ => Err (Plain "stored key pair does not match")
  end.
End Keys.

(** ** Lemmas *)

Lemma b64_val_char v : 0 <= v < 64 ->
  b64_val (b64_char v) = Some v /\ line_break (b64_char v) = false /\ Ascii.eqb (b64_char v) "=" = false.
Proof.
  intros Hv.
  assert (forallb (fun k => bool_decide (b64_val (b64_char k) = Some k)
      && negb (line_break (b64_char k)) && negb (Ascii.eqb (b64_char k) "="))
      (List.map Z.of_nat (List.seq 0 64)) = true) as Hall by (vm_compute; reflexivity).
  rewrite forallb_forall in Hall. specialize (Hall v).
  assert (In v (List.map Z.of_nat (List.seq 0 64))) as Hin.
  { apply in_map_iff. exists (Z.to_nat v). rewrite in_seq. lia. }
  apply Hall in Hin. apply andb_true_iff in Hin as [[H1 H2]%andb_true_iff H3].
  apply bool_decide_eq_true in H1. apply negb_true_iff in H2, H3. done.
Qed.

Lemma skip_b64 v s : 0 <= v < 64 -> skip_breaks (String (b64_char v) s) = String (b64_char v) (skip_breaks s).
Proof. intros Hv. cbn. by rewrite (proj1 (proj2 (b64_val_char v Hv))). Qed.

Definition byte_range (b : Z) : Prop := 0 <= b < 256.

Lemma list_ind3 {A} (P : list A -> Prop) :
  P [] -> (forall x, P [x]) -> (forall x y, P [x; y]) ->
  (forall x y z l, P l -> P (x :: y :: z :: l)) -> forall l, P l.
Proof.
  intros H0 H1 H2 H3. fix IH 1. intros [|x [|y [|z l]]]; [exact H0|apply H1|apply H2|apply H3, IH].
Qed.

Lemma b64_val_char_some v : 0 <= v < 64 -> b64_val (b64_char v) = Some v.
Proof. apply b64_val_char. Qed.
Lemma b64_char_not_pad v : 0 <= v < 64 -> Ascii.eqb (b64_char v) "=" = false.
Proof. apply b64_val_char. Qed.

(** The characters of an encoded group: their values are six-bit numbers, and
    the bytes are recovered from them. *)
Lemma sextets x y z : byte_range x -> byte_range y -> byte_range z ->
  (0 <= x / 4 < 64 /\ 0 <= x mod 4 * 16 < 64 /\ 0 <= x mod 4 * 16 + y / 16 < 64 /\
   0 <= y mod 16 * 4 < 64 /\ 0 <= y mod 16 * 4 + z / 64 < 64 /\ 0 <= z mod 64 < 64) /\
  x / 4 * 4 + x mod 4 * 16 / 16 = x /\ x / 4 * 4 + (x mod 4 * 16 + y / 16) / 16 = x /\
  (x mod 4 * 16 + y / 16) mod 16 * 16 + y mod 16 * 4 / 4 = y /\
  (x mod 4 * 16 + y / 16) mod 16 * 16 + (y mod 16 * 4 + z / 64) / 4 = y /\
  (y mod 16 * 4 + z / 64) mod 4 * 64 + z mod 64 = z.
Proof.
  unfold byte_range. intros Hx Hy Hz.
  assert (exists a b, x = a * 4 + b /\ x / 4 = a /\ x mod 4 = b /\ 0 <= a < 64 /\ 0 <= b < 4)
    as (a & b & Ex & -> & -> & ? & ?) by (exists (x / 4), (x mod 4); dlia).
  assert (exists c d, y = c * 16 + d /\ y / 16 = c /\ y mod 16 = d /\ 0 <= c < 16 /\ 0 <= d < 16)
    as (c & d & Ey & -> & -> & ? & ?) by (exists (y / 16), (y mod 16); dlia).
  assert (exists e f, z = e * 64 + f /\ z / 64 = e /\ z mod 64 = f /\ 0 <= e < 4 /\ 0 <= f < 64)
    as (e & f & Ez & -> & -> & ? & ?) by (exists (z / 64), (z mod 64); dlia).
  assert ((b * 16 + c) / 16 = b) as -> by dlia. assert ((b * 16 + c) mod 16 = c) as -> by dlia.
  assert ((d * 4 + e) / 4 = d) as -> by dlia. assert ((d * 4 + e) mod 4 = e) as -> by dlia.
  rewrite !Z.div_mul by lia. lia.
Qed.

(** Steps over encoded characters; the bounds of their values are in context. *)
Ltac b64_step :=
  first [rewrite skip_b64 by assumption | rewrite b64_val_char_some by assumption
        | rewrite b64_char_not_pad by assumption].
Ltac b64_run := repeat (repeat b64_step;
  progress cbn -[b64_val b64_char Z.add Z.mul Z.div Z.modulo skip_breaks]); repeat b64_step;
  cbn -[b64_val b64_char Z.add Z.mul Z.div Z.modulo skip_breaks].

Lemma Decode_Encode bs : Forall byte_range bs -> DecodeString (EncodeToString bs) = Some bs.
Proof.
  assert (byte_range 0) as H0 by (unfold byte_range; lia).
  unfold DecodeString. induction bs as [|x|x y|x y z bs IH] using list_ind3; intros Hr.
  - done.
  - apply Forall_cons in Hr as [Hx _]. cbn [EncodeToString].
    destruct (sextets x 0 0) as ((? & ? & ? & ? & ? & ?) & E & _); [done..|].
    b64_run. change (skip_breaks "==") with "=="; cbn -[Z.add Z.mul Z.div Z.modulo b64_val b64_char].
    b64_run. by rewrite E.
  - apply Forall_cons in Hr as [Hx [Hy _]%Forall_cons]. cbn [EncodeToString].
    destruct (sextets x y 0) as ((? & ? & ? & ? & ? & ?) & _ & E1 & E2 & _); [done..|].
    b64_run. change (skip_breaks "=") with "="; cbn -[Z.add Z.mul Z.div Z.modulo b64_val b64_char].
    b64_run. by rewrite E1, E2.
  - apply Forall_cons in Hr as [Hx [Hy [Hz Hr]%Forall_cons]%Forall_cons]. cbn [EncodeToString].
    destruct (sextets x y z) as ((? & ? & ? & ? & ? & ?) & _ & E1 & _ & E2 & E3); [done..|].
    b64_run. rewrite IH by done. cbn -[Z.add Z.mul Z.div Z.modulo]. by rewrite E1, E2, E3.
Qed.

Lemma Encode_bytes raw : DecodeString (EncodeToString (bytes_of raw)) = Some (bytes_of raw).
Proof. apply Decode_Encode, bytes_of_range. Qed.

Lemma GenerateKeyPair_public `{X : X25519, !X25519Laws X} raw : String.length raw = 32%nat ->
  ValidatePublicKey (kp_Public (GenerateKeyPair raw)) = Ok tt.
Proof.
  intros Hl. unfold ValidatePublicKey. cbn [kp_Public GenerateKeyPair]. rewrite Decode_Encode by apply public_range.
  rewrite public_length; [done|]. by rewrite length_bytes_of.
Qed.

(** ** Properties *)

(** Every generated pair passes the validation of stored pairs, and a private
    key has exactly one public key that does. *)
Theorem generated_pair_validates `{X : X25519} raw public : String.length raw = 32%nat ->
  let kp := GenerateKeyPair raw in
  ValidateKeyPair (kp_Private kp) public = Ok tt <-> public = kp_Public kp.
Proof.
  intros Hl kp. unfold ValidateKeyPair, ValidateEncodedKey, PublicKeyFromPrivate. cbn [kp kp_Private kp_Public GenerateKeyPair].
  rewrite Encode_bytes, length_bytes_of, Hl, String.eqb_refl. cbn [Nat.eqb andb mbind result_bind rbind].
  destruct (String.eqb_spec (EncodeToString (public_of (bytes_of raw))) public); split; congruence.
Qed.

Theorem generated_pair_validates_witness :
  let _ : X25519 := fun k => k in
  let raw := text_of (List.repeat 7 32) in
  ValidateKeyPair (EncodeToString (List.repeat 7 32)) (EncodeToString (List.repeat 7 32)) = Ok tt.
Proof. intros X raw. apply (generated_pair_validates raw); reflexivity. Defined.
