(* ===== verification/Profile.v ===== *)
(** * Obfuscation profiles (internal/iface, internal/tunnel)

    The parameter set of an interface, the constraints every set must meet
    before it reaches a backend, the server's generator of profiles with the
    narrower policies its output must match, and the columns a profile is
    stored in. *)
From stdpp Require Import base tactics strings list.
From Stdlib Require Import ZArith Lia Ascii.
From Stdlib Require String.
From S2P Require Import Prelude GoTime Domain Awgparam JsonText Store Crypto Tunnel.

Open Scope Z_scope.

#[export] Instance Range_eq_dec : EqDecision Range.
Proof. solve_decision. Defined.

(** [tunnel.Obfuscation]; [iface.Obfuscation] has the same fields. *)
Record Obfuscation := MkObf {
  ob_Enabled : bool;
  ob_Jc : Z; ob_Jmin : Z; ob_Jmax : Z;
  ob_S1 : Z; ob_S2 : Z;
  ob_H1 : Range; ob_H2 : Range; ob_H3 : Range; ob_H4 : Range;
  ob_I1 : string; ob_I2 : string; ob_I3 : string; ob_I4 : string; ob_I5 : string;
  ob_S3 : Z; ob_S4 : Z;
  ob_HeaderProtectionKey : string;
  ob_ContentPaddingAddition : Range;
  ob_RekeyAfterTime : Range;
  ob_RekeyTimeout : Range;
  ob_RejectAfterTime : Range;
  ob_KeepaliveTimeout : Range;
  ob_MaxHandshakeAttempts : Range;
  ob_RandomTrailers : bool;
  ob_DisableCookies : bool
}.

#[export] Instance eta_Obfuscation : Eta Obfuscation := fun o =>
  MkObf (ob_Enabled o) (ob_Jc o) (ob_Jmin o) (ob_Jmax o) (ob_S1 o) (ob_S2 o)
    (ob_H1 o) (ob_H2 o) (ob_H3 o) (ob_H4 o) (ob_I1 o) (ob_I2 o) (ob_I3 o) (ob_I4 o) (ob_I5 o)
    (ob_S3 o) (ob_S4 o) (ob_HeaderProtectionKey o) (ob_ContentPaddingAddition o)
    (ob_RekeyAfterTime o) (ob_RekeyTimeout o) (ob_RejectAfterTime o) (ob_KeepaliveTimeout o)
    (ob_MaxHandshakeAttempts o) (ob_RandomTrailers o) (ob_DisableCookies o).

#[export] Instance Obfuscation_eq_dec : EqDecision Obfuscation.
Proof. solve_decision. Defined.

Definition no_obf : Obfuscation :=
  MkObf false 0 0 0 0 0 zero_range zero_range zero_range zero_range "" "" "" "" "" 0 0 ""
    zero_range zero_range zero_range zero_range zero_range zero_range false false.

Definition headers (o : Obfuscation) : list Range := [ob_H1 o; ob_H2 o; ob_H3 o; ob_H4 o].
Definition signatures (o : Obfuscation) : list string := [ob_I1 o; ob_I2 o; ob_I3 o; ob_I4 o; ob_I5 o].
Definition timers (o : Obfuscation) : list Range :=
  [ob_ContentPaddingAddition o; ob_RekeyAfterTime o; ob_RekeyTimeout o; ob_RejectAfterTime o;
   ob_KeepaliveTimeout o; ob_MaxHandshakeAttempts o].

(** [o.Tunnel()]. *)
Definition Tunnel (o : Obfuscation) : Obfuscation :=
  MkObf (ob_Enabled o) (ob_Jc o) (ob_Jmin o) (ob_Jmax o) (ob_S1 o) (ob_S2 o)
    (ob_H1 o) (ob_H2 o) (ob_H3 o) (ob_H4 o) (ob_I1 o) (ob_I2 o) (ob_I3 o) (ob_I4 o) (ob_I5 o)
    (ob_S3 o) (ob_S4 o) (ob_HeaderProtectionKey o) (ob_ContentPaddingAddition o)
    (ob_RekeyAfterTime o) (ob_RekeyTimeout o) (ob_RejectAfterTime o) (ob_KeepaliveTimeout o)
    (ob_MaxHandshakeAttempts o) (ob_RandomTrailers o) (ob_DisableCookies o).

(** ** What a runtime cannot tell from plain WireGuard (tunnel.go) *)

Definition stockHeaders : list Range := [Scalar 1; Scalar 2; Scalar 3; Scalar 4].

Definition StockHeaders (o : Obfuscation) : bool :=
  bool_decide (headers o = [zero_range; zero_range; zero_range; zero_range])
  || bool_decide (headers o = stockHeaders).

Definition PlainEquivalent (o : Obfuscation) : bool :=
  let silent := ob_Jc o =? 0 in     (* the sizes only matter while junk is sent *)
  let rest :=
    MkObf false (ob_Jc o) (if silent then 0 else ob_Jmin o) (if silent then 0 else ob_Jmax o)
      (ob_S1 o) (ob_S2 o) zero_range zero_range zero_range zero_range
      (ob_I1 o) (ob_I2 o) (ob_I3 o) (ob_I4 o) (ob_I5 o) (ob_S3 o) (ob_S4 o)
      (ob_HeaderProtectionKey o) (ob_ContentPaddingAddition o) (ob_RekeyAfterTime o)
      (ob_RekeyTimeout o) (ob_RejectAfterTime o) (ob_KeepaliveTimeout o)
      (ob_MaxHandshakeAttempts o) (ob_RandomTrailers o) (ob_DisableCookies o) in
  bool_decide (rest = no_obf) && StockHeaders o.

(** ** The constraints of the runtime (iface.go) *)

Definition JcMax : Z := 128.
Definition JmaxMax : Z := 1280.
Definition S1Max : Z := 1132.
Definition S2Max : Z := 1188.
Definition MinUsefulPoolBits : Z := 29.

(** [unicode.IsControl] of some rune of a valid text: the C0 block, DEL, and
    the C1 block, whose runes are encoded as 194 and a byte below 160. *)
Fixpoint has_control (fuel : nat) (s : string) : bool :=
  match fuel, s with
  | S fuel, String c rest =>
      let b := byte_of c in
      (b <? 32) || (b =? 127)
      || ((b =? 194) && match rest with String d _ => (128 <=? byte_of d) && (byte_of d <? 160) | _ => false end)
      || has_control fuel (str_drop (Nat.max 1 (utf8_len s)) s)
  | _, _ => false
  end.

Definition config_text_ok (value : string) : bool :=
  String.eqb value ""
  || (String.eqb (trim_space value) value && valid_utf8 (String.length value) value
      && negb (has_control (String.length value) value)).

Definition constraint : err := E CodeParamConstraint.

Definition ValidateConfigText (o : Obfuscation) : result err unit :=
  if forallb config_text_ok (signatures o) then Ok tt else Err constraint.

(** Every header is set, and no two overlap. *)
Fixpoint headers_ok (hs : list Range) : result err unit :=
  match hs with
  | [] => Ok tt
  | h :: hs =>
      if IsZero h then Err constraint
      else if existsb (Overlaps h) hs then Err constraint
      else headers_ok hs
  end.

Definition outside (lo hi v : Z) : bool := (v <? lo) || (hi <? v).

(** The fields of a disabled profile are all unset. *)
Definition has_parameters (o : Obfuscation) : bool :=
  negb (ob_Jc o =? 0) || negb (ob_Jmin o =? 0) || negb (ob_Jmax o =? 0)
  || negb (ob_S1 o =? 0) || negb (ob_S2 o =? 0)
  || negb (forallb IsZero (headers o))
  || negb (forallb (String.eqb "") (signatures o))
  || negb (ob_S3 o =? 0) || negb (ob_S4 o =? 0) || negb (String.eqb (ob_HeaderProtectionKey o) "")
  || negb (forallb IsZero (timers o))
  || ob_RandomTrailers o || ob_DisableCookies o.

Definition protection_key_ok (o : Obfuscation) : bool :=
  if String.eqb (ob_HeaderProtectionKey o) "" then true
  else is_ok (ValidateEncodedKey (ob_HeaderProtectionKey o))
       && negb ((ob_S1 o <? 12) || (ob_S2 o <? 12) || (ob_S3 o <? 12) || (ob_S4 o <? 12)).

Definition ValidateObfuscation (o : Obfuscation) : result err unit :=
  if negb (ob_Enabled o) then
    if has_parameters o then Err constraint else Ok tt
  else if outside 0 65535 (ob_S3 o) || outside 0 65535 (ob_S4 o) then Err constraint
  else if negb (protection_key_ok o) then Err constraint
  else if outside 1 JcMax (ob_Jc o) then Err constraint
  else if (ob_Jmin o <? 0) || (ob_Jmax o <? 0) then Err constraint
  else if ob_Jmax o <=? ob_Jmin o then Err constraint
  else if JmaxMax <? ob_Jmax o then Err constraint
  else if outside 0 S1Max (ob_S1 o) then Err constraint
  else if outside 0 S2Max (ob_S2 o) then Err constraint
  else if ob_S1 o + 56 =? ob_S2 o then Err constraint
  else _ ← ValidateConfigText o; headers_ok (headers o).

Definition ValidatePortRange (min max : Z) : result err unit :=
  if outside 1024 65535 min || outside 1024 65535 max then Err (E CodeSettingInvalid)
  else if max <? min then Err (E CodeSettingInvalid)
  else Ok tt.

(** ** Generation policies (profile.go) *)

Inductive ProfilePolicy :=
| ProfilePlain | ProfileRecommended | ProfilePerformance | ProfileBalanced | ProfileResilient
| ProfileSuggested | ProfileRandomized | ProfileCustom | ProfileOther (raw : string).

#[export] Instance ProfilePolicy_eq_dec : EqDecision ProfilePolicy.
Proof. solve_decision. Defined.

Definition policy_text (p : ProfilePolicy) : string :=
  match p with
  | ProfilePlain => "plain" | ProfileRecommended => "recommended"
  | ProfilePerformance => "performance" | ProfileBalanced => "balanced"
  | ProfileResilient => "resilient" | ProfileSuggested => "suggested"
  | ProfileRandomized => "randomized" | ProfileCustom => "custom" | ProfileOther raw => raw
  end.

(** [ProfilePolicy(text)]. *)
Definition policy_of (text : string) : ProfilePolicy :=
  if String.eqb text "plain" then ProfilePlain
  else if String.eqb text "recommended" then ProfileRecommended
  else if String.eqb text "performance" then ProfilePerformance
  else if String.eqb text "balanced" then ProfileBalanced
  else if String.eqb text "resilient" then ProfileResilient
  else if String.eqb text "suggested" then ProfileSuggested
  else if String.eqb text "randomized" then ProfileRandomized
  else if String.eqb text "custom" then ProfileCustom
  else ProfileOther text.

Definition IsGeneratedProfilePolicy (p : ProfilePolicy) : bool :=
  match p with
  | ProfileRecommended | ProfilePerformance | ProfileBalanced | ProfileResilient
  | ProfileSuggested | ProfileRandomized => true
  | _ => false
  end.

(** The policies of the pickers (presets.go). *)
Definition Presets : list ProfilePolicy :=
  [ProfilePlain; ProfileRecommended; ProfilePerformance; ProfileBalanced; ProfileResilient;
   ProfileSuggested; ProfileRandomized].

Definition SuggestedMTU : Z := 1280.

Definition generatedHeaderBands : list (Z * Z) :=
  [(5, 536870911); (536870912, 1073741823); (1073741824, 1610612735); (1610612736, 2147483647)].

Definition randomizedHeaderMaxSpan : Z := 100000000.

(** The fixed values of a policy. *)
Record operationalProfileValues := MkOperational {
  opv_jc : Z; opv_jmin : Z; opv_jmax : Z;
  opv_s1 : Z; opv_s2 : Z; opv_s3 : Z; opv_s4 : Z;
  opv_padding : Z * Z; opv_rekeyAfter : Z * Z; opv_rekeyTimeout : Z * Z;
  opv_rejectAfter : Z * Z; opv_keepalive : Z * Z; opv_maxHandshake : Z * Z;
  opv_headerRangeMaxSpan : Z
}.

Definition performance_values : operationalProfileValues :=
  MkOperational 4 10 40 18 31 16 20 (10, 35) (110, 130) (4, 7) (170, 200) (8, 15) (12, 18) 0.
Definition balanced_values : operationalProfileValues :=
  MkOperational 6 20 80 32 64 24 32 (10, 70) (100, 125) (3, 7) (165, 210) (6, 15) (15, 22) 25000000.
Definition resilient_values : operationalProfileValues :=
  MkOperational 12 40 180 96 180 48 64 (30, 180) (90, 120) (3, 7) (180, 260) (5, 15) (20, 32)
    randomizedHeaderMaxSpan.

(** ** Validation against a policy *)

Definition band_ok (ranged : bool) (span : Z) (hb : Range * (Z * Z)) : bool :=
  let '(h, (lo, hi)) := hb in
  negb ((low h <? lo) || (hi <? high h))
  && (if ranged then negb ((high h <=? low h) || (span <? high h - low h)) else low h =? high h).

Definition generatedHeadersMatch (o : Obfuscation) (ranges : bool) (maxSpan : Z) : bool :=
  forallb (band_ok ranges maxSpan) (zip (headers o) generatedHeaderBands).

Definition hasAdvancedGeneratedFields (o : Obfuscation) : bool :=
  negb (forallb (String.eqb "") (signatures o)) || negb (forallb IsZero (timers o))
  || ob_RandomTrailers o || ob_DisableCookies o.

Definition validGeneratedRangeShape (value : Range) (lowMin lowMax spanMin spanMax : Z) : bool :=
  if IsZero value || (high value <=? low value) then false
  else negb (outside lowMin lowMax (low value)) && negb (outside spanMin spanMax (high value - low value)).

Definition exactRanges (o : Obfuscation) (texts : list string) : bool :=
  bool_decide (List.map range_text (timers o) = texts).

Definition numbers (o : Obfuscation) : list Z :=
  [ob_Jc o; ob_Jmin o; ob_Jmax o; ob_S1 o; ob_S2 o; ob_S3 o; ob_S4 o].

Definition validateOperationalGeneratedProfile (p : ProfilePolicy) (o : Obfuscation) : result err unit :=
  if negb (forallb (String.eqb "") (signatures o)) || negb (ob_RandomTrailers o)
     || negb (ob_DisableCookies o) || String.eqb (ob_HeaderProtectionKey o) ""
     || existsb IsZero (timers o)
  then Err constraint
  else
    let matches (nums : list Z) (texts : list string) (hs : bool) :=
      if negb (bool_decide (numbers o = nums)) || negb (exactRanges o texts) || negb hs
      then Err constraint else Ok tt in
    match p with
    | ProfilePerformance =>
        matches [4; 10; 40; 18; 31; 16; 20]
          ["10-35"; "110-130"; "4-7"; "170-200"; "8-15"; "12-18"] (generatedHeadersMatch o false 0)
    | ProfileBalanced =>
        matches [6; 20; 80; 32; 64; 24; 32]
          ["10-70"; "100-125"; "3-7"; "165-210"; "6-15"; "15-22"] (generatedHeadersMatch o true 25000000)
    | ProfileResilient =>
        matches [12; 40; 180; 96; 180; 48; 64]
          ["30-180"; "90-120"; "3-7"; "180-260"; "5-15"; "20-32"]
          (generatedHeadersMatch o true randomizedHeaderMaxSpan)
    | ProfileSuggested =>
        matches [5; 10; 50; 21; 28; 53; 12]
          ["10-100"; "100-120"; "3-7"; "150-180"; "5-15"; "15-20"] (bool_decide (headers o = stockHeaders))
    | _ => Err constraint
    end.

Definition ValidateGeneratedProfile (p : ProfilePolicy) (o : Obfuscation) : result err unit :=
  _ ← ValidateObfuscation o;
  match p with
  | ProfilePlain => if bool_decide (o = no_obf) then Ok tt else Err constraint
  | ProfileRecommended =>
      if negb (bool_decide ([ob_Jc o; ob_Jmin o; ob_Jmax o; ob_S1 o; ob_S2 o] = [4; 40; 70; 15; 64]))
      then Err constraint
      else if negb (ob_S3 o =? 0) || negb (ob_S4 o =? 0) || negb (String.eqb (ob_HeaderProtectionKey o) "")
              || hasAdvancedGeneratedFields o then Err constraint
      else if forallb (band_ok false 0) (zip (headers o) generatedHeaderBands) then Ok tt
      else Err constraint
  | ProfilePerformance | ProfileBalanced | ProfileResilient | ProfileSuggested =>
      validateOperationalGeneratedProfile p o
  | ProfileRandomized =>
      if outside 4 12 (ob_Jc o) || outside 20 60 (ob_Jmin o) || outside 80 240 (ob_Jmax o)
      then Err constraint
      else if outside 12 256 (ob_S1 o) || outside 12 256 (ob_S2 o) || outside 12 64 (ob_S3 o)
              || outside 12 64 (ob_S4 o) || String.eqb (ob_HeaderProtectionKey o) ""
      then Err constraint
      else if negb (generatedHeadersMatch o true randomizedHeaderMaxSpan) then Err constraint
      else if negb (forallb (String.eqb "") (signatures o)) || negb (ob_RandomTrailers o)
              || negb (ob_DisableCookies o)
      then Err constraint
      else
        let rejectLowMin := high (ob_RekeyAfterTime o) + 20 in
        if negb (validGeneratedRangeShape (ob_ContentPaddingAddition o) 10 30 10 60)
           || negb (validGeneratedRangeShape (ob_RekeyAfterTime o) 90 120 10 20)
           || negb (validGeneratedRangeShape (ob_RekeyTimeout o) 3 7 1 5)
           || negb (validGeneratedRangeShape (ob_RejectAfterTime o) rejectLowMin (rejectLowMin + 30) 20 60)
           || negb (validGeneratedRangeShape (ob_KeepaliveTimeout o) 5 12 2 8)
           || negb (validGeneratedRangeShape (ob_MaxHandshakeAttempts o) 15 25 5 20)
        then Err constraint else Ok tt
  | ProfileCustom | ProfileOther _ => Err constraint
  end.

(** ** The generator (profile.go)

    Entropy is a stream of draws: [rand.Int] below a bound, and the bytes of a
    full read; a draw that fails ends the generation. *)

Class ProfileEntropy := {
  rand_int : nat -> Z -> option Z;             (* draw, exclusive bound *)
  read_full : nat -> nat -> option string      (* draw, length *)
}.

Class ProfileEntropyLaws (P : ProfileEntropy) : Prop := {
  rand_int_range n max v : 0 < max -> rand_int n max = Some v -> 0 <= v < max;
  read_full_length n len s : read_full n len = Some s -> String.length s = len
}.

Definition gen (A : Type) : Type := tx nat err A.

Definition ErrEntropy : err := Plain "entropy".

Section Generator.
Context `{P : ProfileEntropy}.

Definition draw_int (max : Z) : gen Z := fun n =>
  match rand_int n max with Some v => Ok (v, S n) | None => Err ErrEntropy end.

Definition draw_bytes (len : nat) : gen string := fun n =>
  match read_full n len with Some s => Ok (s, S n) | None => Err ErrEntropy end.

Definition intInclusive (minimum maximum : Z) : gen Z :=
  v ← draw_int (maximum - minimum + 1); mret (minimum + v).

Definition intInclusiveExcept (minimum maximum excluded : Z) : gen Z :=
  if (excluded <? minimum) || (maximum <? excluded) then intInclusive minimum maximum
  else if maximum <=? minimum then tx_fail (Plain "cannot exclude the only value in an integer range")
  else value ← intInclusive minimum (maximum - 1);
       mret (if excluded <=? value then value + 1 else value).

Definition uint32Inclusive (minimum maximum : Z) : gen Z :=
  v ← draw_int (u32 (maximum - minimum) + 1); mret (u32 (minimum + u32 v)).

Definition u16 (z : Z) : Z := z mod 2 ^ 16.

Definition u16Range (lowMin lowMax spanMin spanMax : Z) : gen Range :=
  lo ← intInclusive lowMin lowMax;
  span ← intInclusive spanMin spanMax;
  tx_lift (NewRange (u16 lo) (u16 (lo + span))).

Definition setHeaderProtectionKey (o : Obfuscation) : gen Obfuscation :=
  key ← draw_bytes 32; mret (o <| ob_HeaderProtectionKey := EncodeToString (bytes_of key) |>).

(** A scalar of the band, or a range of it no wider than [span]. *)
Definition draw_header (span : Z) (band : Z * Z) : gen Range :=
  if span =? 0 then v ← uint32Inclusive band.1 band.2; mret (Scalar v)
  else lo ← uint32Inclusive band.1 (u32 (band.2 - span));
       w ← uint32Inclusive 1 span;
       tx_lift (NewRange lo (u32 (lo + w))).

Fixpoint draw_headers (span : Z) (bands : list (Z * Z)) : gen (list Range) :=
  match bands with
  | [] => mret []
  | b :: bands => h ← draw_header span b; hs ← draw_headers span bands; mret (h :: hs)
  end.

Definition set_headers (hs : list Range) (o : Obfuscation) : Obfuscation :=
  let at_ i := nth i hs zero_range in
  o <| ob_H1 := at_ 0%nat |> <| ob_H2 := at_ 1%nat |> <| ob_H3 := at_ 2%nat |> <| ob_H4 := at_ 3%nat |>.

(** The six constant timer ranges; Go visits them in some order. *)
Definition set_timers (bounds : list (Z * Z)) (o : Obfuscation) : result err Obfuscation :=
  let at_ i := NewRange (nth i bounds (0, 0)).1 (nth i bounds (0, 0)).2 in
  padding ← at_ 0%nat; rekeyAfter ← at_ 1%nat; rekeyTimeout ← at_ 2%nat;
  rejectAfter ← at_ 3%nat; keepalive ← at_ 4%nat; handshake ← at_ 5%nat;
  Ok (o <| ob_ContentPaddingAddition := padding |> <| ob_RekeyAfterTime := rekeyAfter |>
        <| ob_RekeyTimeout := rekeyTimeout |> <| ob_RejectAfterTime := rejectAfter |>
        <| ob_KeepaliveTimeout := keepalive |> <| ob_MaxHandshakeAttempts := handshake |>).

Definition base_profile (jc jmin jmax s1 s2 s3 s4 : Z) (flags : bool) : Obfuscation :=
  no_obf <| ob_Enabled := true |> <| ob_Jc := jc |> <| ob_Jmin := jmin |> <| ob_Jmax := jmax |>
         <| ob_S1 := s1 |> <| ob_S2 := s2 |> <| ob_S3 := s3 |> <| ob_S4 := s4 |>
         <| ob_RandomTrailers := flags |> <| ob_DisableCookies := flags |>.

Definition operational (v : operationalProfileValues) : gen Obfuscation :=
  hs ← draw_headers (opv_headerRangeMaxSpan v) generatedHeaderBands;
  o ← tx_lift (set_timers [opv_padding v; opv_rekeyAfter v; opv_rekeyTimeout v; opv_rejectAfter v;
                           opv_keepalive v; opv_maxHandshake v]
                 (set_headers hs (base_profile (opv_jc v) (opv_jmin v) (opv_jmax v) (opv_s1 v)
                    (opv_s2 v) (opv_s3 v) (opv_s4 v) true)));
  setHeaderProtectionKey o.

Definition suggested : gen Obfuscation :=
  o ← tx_lift (set_timers [(10, 100); (100, 120); (3, 7); (150, 180); (5, 15); (15, 20)]
                 (set_headers stockHeaders (base_profile 5 10 50 21 28 53 12 true)));
  setHeaderProtectionKey o.

Definition recommended : gen Obfuscation :=
  hs ← draw_headers 0 generatedHeaderBands;
  mret (set_headers hs (base_profile 4 40 70 15 64 0 0 false)).

Definition randomized : gen Obfuscation :=
  jc ← intInclusive 4 12;
  jmin ← intInclusive 20 60;
  jmax ← intInclusive 80 240;
  s1 ← intInclusive 12 256;
  s2 ← intInclusiveExcept 12 256 (s1 + 56);
  s3 ← intInclusive 12 64;
  s4 ← intInclusive 12 64;
  hs ← draw_headers randomizedHeaderMaxSpan generatedHeaderBands;
  o ← setHeaderProtectionKey (set_headers hs (base_profile jc jmin jmax s1 s2 s3 s4 true));
  padding ← u16Range 10 30 10 60;
  rekeyAfter ← u16Range 90 120 10 20;
  rekeyTimeout ← u16Range 3 7 1 5;
  let rejectLowMin := high rekeyAfter + 20 in
  rejectAfter ← u16Range rejectLowMin (rejectLowMin + 30) 20 60;
  keepalive ← u16Range 5 12 2 8;
  handshake ← u16Range 15 25 5 20;
  mret (o <| ob_ContentPaddingAddition := padding |> <| ob_RekeyAfterTime := rekeyAfter |>
          <| ob_RekeyTimeout := rekeyTimeout |> <| ob_RejectAfterTime := rejectAfter |>
          <| ob_KeepaliveTimeout := keepalive |> <| ob_MaxHandshakeAttempts := handshake |>).

Definition validatedGenerated (p : ProfilePolicy) (o : Obfuscation) : gen Obfuscation :=
  _ ← tx_lift (ValidateGeneratedProfile p o); mret o.

Definition Generate (p : ProfilePolicy) : gen Obfuscation :=
  match p with
  | ProfilePlain => mret no_obf
  | ProfileRecommended => o ← recommended; validatedGenerated p o
  | ProfilePerformance => o ← operational performance_values; validatedGenerated p o
  | ProfileBalanced => o ← operational balanced_values; validatedGenerated p o
  | ProfileResilient => o ← operational resilient_values; validatedGenerated p o
  | ProfileSuggested => o ← suggested; validatedGenerated p o
  | ProfileRandomized => o ← randomized; validatedGenerated p o
  | ProfileCustom | ProfileOther _ => tx_fail constraint
  end.
End Generator.

(** ** Storage (the profile columns of [tunnel_interfaces]) *)

Definition nullInt (v : Z) (set : bool) : option Z := if set then Some v else None.
Definition nullU32 (v : Range) (set : bool) : option Z := if set then Some (low v) else None.
Definition text_or_null (s : string) : option string := if String.eqb s "" then None else Some s.
Definition boolInt (b : bool) : Z := if b then 1 else 0.

(** The values bound to the profile columns by the insert and the update. *)
Definition obf_columns (o : Obfuscation) : ObfColumns :=
  let set := ob_Enabled o in
  MkObfColumns (nullInt (ob_Jc o) set) (nullInt (ob_Jmin o) set) (nullInt (ob_Jmax o) set)
    (nullInt (ob_S1 o) set) (nullInt (ob_S2 o) set)
    (nullU32 (ob_H1 o) set) (nullU32 (ob_H2 o) set) (nullU32 (ob_H3 o) set) (nullU32 (ob_H4 o) set)
    (Value (ob_H1 o)) (Value (ob_H2 o)) (Value (ob_H3 o)) (Value (ob_H4 o))
    (text_or_null (ob_I1 o)) (text_or_null (ob_I2 o)) (text_or_null (ob_I3 o))
    (text_or_null (ob_I4 o)) (text_or_null (ob_I5 o))
    (ob_S3 o) (ob_S4 o) (ob_HeaderProtectionKey o)
    (Value (ob_ContentPaddingAddition o)) (Value (ob_RekeyAfterTime o)) (Value (ob_RekeyTimeout o))
    (Value (ob_RejectAfterTime o)) (Value (ob_KeepaliveTimeout o)) (Value (ob_MaxHandshakeAttempts o))
    (boolInt (ob_RandomTrailers o)) (boolInt (ob_DisableCookies o)).

(** The profile of a scanned row. *)
Definition scan_obf (c : ObfColumns) : result err Obfuscation :=
  h1 ← scanU32 (oc_h1_range c); h2 ← scanU32 (oc_h2_range c);
  h3 ← scanU32 (oc_h3_range c); h4 ← scanU32 (oc_h4_range c);
  padding ← scanU16 (oc_padding c); rekeyAfter ← scanU16 (oc_rekey_after c);
  rekeyTimeout ← scanU16 (oc_rekey_timeout c); rejectAfter ← scanU16 (oc_reject_after c);
  keepalive ← scanU16 (oc_keepalive c); handshake ← scanU16 (oc_handshake c);
  let int v := default 0 v in
  let text v := default "" v in
  Ok (MkObf (bool_decide (is_Some (oc_jc c))) (int (oc_jc c)) (int (oc_jmin c)) (int (oc_jmax c))
        (int (oc_s1 c)) (int (oc_s2 c)) h1 h2 h3 h4
        (text (oc_i1 c)) (text (oc_i2 c)) (text (oc_i3 c)) (text (oc_i4 c)) (text (oc_i5 c))
        (oc_s3 c) (oc_s4 c) (oc_hpk c) padding rekeyAfter rekeyTimeout rejectAfter keepalive handshake
        (oc_trailers c =? 1) (oc_cookies c =? 1)).

(** ** Lemmas: validation *)

(** The parameters are within the widths of their types. *)
Definition profile_wf (o : Obfuscation) : Prop :=
  Forall (range_ok 32) (headers o) /\ Forall (range_ok 16) (timers o).

Lemma outside_spec lo hi v : outside lo hi v = false <-> lo <= v <= hi.
Proof. unfold outside. rewrite orb_false_iff, !Z.ltb_ge. lia. Qed.

Lemma ValidateObfuscation_intro o : ob_Enabled o = true ->
  0 <= ob_S3 o <= 65535 -> 0 <= ob_S4 o <= 65535 -> protection_key_ok o = true ->
  1 <= ob_Jc o <= 128 -> 0 <= ob_Jmin o < ob_Jmax o -> ob_Jmax o <= 1280 ->
  0 <= ob_S1 o <= 1132 -> 0 <= ob_S2 o <= 1188 -> ob_S1 o + 56 <> ob_S2 o ->
  ValidateConfigText o = Ok tt -> headers_ok (headers o) = Ok tt ->
  ValidateObfuscation o = Ok tt.
Proof.
  intros H1 H2 H3 H4 H5 H6 H7 H8 H9 H10 H11 H12. unfold ValidateObfuscation, JcMax, JmaxMax, S1Max, S2Max.
  rewrite H1, H4, !(proj2 (outside_spec _ _ _)), !(proj2 (Z.ltb_ge _ _)), (proj2 (Z.leb_gt _ _)),
    (proj2 (Z.eqb_neq _ _)), H11 by lia. cbn. exact H12.
Qed.

(** What a valid profile satisfies: the unset one, or the constraints. *)
Lemma ValidateObfuscation_inv o : ValidateObfuscation o = Ok tt ->
  if ob_Enabled o then 1 <= ob_Jc o /\ headers_ok (headers o) = Ok tt else o = no_obf.
Proof.
  unfold ValidateObfuscation. destruct (ob_Enabled o) eqn:Ee; cbn [negb].
  - repeat match goal with |- (if ?b then _ else _) = _ -> _ => destruct b eqn:?; [discriminate|] end.
    intros H. destruct (ValidateConfigText o) as [[]|]; [|discriminate]. split; [|done].
    match goal with H : outside 1 _ _ = false |- _ => apply outside_spec in H; lia end.
  - destruct (has_parameters o) eqn:Hp; [discriminate|]. intros _. unfold has_parameters in Hp.
    repeat match goal with
    | H : _ || _ = false |- _ => apply orb_false_iff in H as [H ?]
    | H : negb _ = false |- _ => apply negb_false_iff in H
    | H : (_ =? _) = true |- _ => apply Z.eqb_eq in H
    | H : String.eqb _ _ = true |- _ => apply String.eqb_eq in H
    | H : forallb _ _ = true |- _ => cbn [forallb headers signatures timers] in H
    | H : _ && _ = true |- _ => apply andb_prop in H as [H ?]
    | H : IsZero _ = true |- _ => unfold IsZero in H
    end.
    destruct o as [en ? ? ? ? ? [] [] [] [] ? ? ? ? ? ? ? ? [] [] [] [] [] [] ? ?].
    cbn in *. subst. reflexivity.
Qed.

Lemma key_text_ok key : String.length key = 32%nat ->
  ValidateEncodedKey (EncodeToString (bytes_of key)) = Ok tt.
Proof.
  intros Hl. unfold ValidateEncodedKey.
  by rewrite Encode_bytes, length_bytes_of, Hl, String.eqb_refl.
Qed.

Lemma key_text_some key : String.length key = 32%nat ->
  String.eqb (EncodeToString (bytes_of key)) "" = false.
Proof.
  intros Hl. apply String.eqb_neq. intros E. pose proof (Encode_bytes key) as H. rewrite E in H.
  injection H as H. apply (f_equal length) in H. rewrite length_bytes_of, Hl in H. discriminate.
Qed.

(** Ranges inside the generator's bands are set and disjoint. *)
Definition in_band (h : Range) (band : Z * Z) : Prop := band.1 <= low h <= high h /\ high h <= band.2.

Lemma bands_ok h1 h2 h3 h4 : Forall2 in_band [h1; h2; h3; h4] generatedHeaderBands ->
  headers_ok [h1; h2; h3; h4] = Ok tt /\ Forall (range_ok 32) [h1; h2; h3; h4].
Proof.
  unfold generatedHeaderBands, in_band. intros H.
  repeat match goal with H : Forall2 _ _ (_ :: _) |- _ => apply Forall2_cons in H as [? H] end.
  cbn [fst snd] in *. split.
  - unfold headers_ok, IsZero. cbn [existsb]. unfold Overlaps.
    repeat match goal with |- context [?a =? ?b] => rewrite (proj2 (Z.eqb_neq a b)) by lia; cbn [andb] end.
    repeat match goal with
    | |- context [(?a <=? ?b)] => first [rewrite (proj2 (Z.leb_gt a b)) by lia | rewrite (proj2 (Z.leb_le a b)) by lia];
        cbn [andb orb]
    end. reflexivity.
  - unfold range_ok. repeat constructor; lia.
Qed.

(** ** Lemmas: the generator *)

Section Facts.
Context `{P : ProfileEntropy, !ProfileEntropyLaws P}.

(** Every outcome of a generation step: a result in [Q], or failed entropy. *)
Definition gens {A} (Q : A -> Prop) (m : gen A) : Prop := forall n,
  match m n with Ok (a, _) => Q a | Err e => e = ErrEntropy end.

Lemma gens_bind {A B} (Q : A -> Prop) (R : B -> Prop) (m : gen A) (f : A -> gen B) :
  gens Q m -> (forall a, Q a -> gens R (f a)) -> gens R (m ≫= f).
Proof.
  intros Hm Hf n. specialize (Hm n). unfold mbind, tx_mbind, tx_bind.
  destruct (m n) as [[a n1]|e]; [by apply Hf|done].
Qed.

Lemma gens_ret {A} (Q : A -> Prop) a : Q a -> gens Q (mret a).
Proof. intros H n. exact H. Qed.

Lemma gens_lift {A} (Q : A -> Prop) r a : r = Ok a -> Q a -> gens Q (tx_lift r).
Proof. intros -> H n. exact H. Qed.

Lemma gens_weaken {A} (Q R : A -> Prop) (m : gen A) : gens Q m -> (forall a, Q a -> R a) -> gens R m.
Proof. intros Hm HQ n. specialize (Hm n). destruct (m n) as [[a ?]|]; auto. Qed.

Lemma intInclusive_gens lo hi : lo <= hi -> gens (fun v => lo <= v <= hi) (intInclusive lo hi).
Proof.
  intros H. unfold intInclusive. eapply gens_bind with (Q := fun v => 0 <= v < hi - lo + 1).
  - intros n. unfold draw_int. destruct (rand_int _ _) eqn:E; [|done].
    eapply rand_int_range; [|done]. lia.
  - intros v Hv. apply gens_ret. lia.
Qed.

Lemma intInclusiveExcept_gens lo hi x : lo < hi ->
  gens (fun v => lo <= v <= hi /\ v <> x) (intInclusiveExcept lo hi x).
Proof.
  intros H. unfold intInclusiveExcept. destruct ((x <? lo) || (hi <? x)) eqn:E.
  - apply orb_true_iff in E. rewrite !Z.ltb_lt in E.
    eapply gens_weaken; [apply intInclusive_gens; lia|]. cbn beta. intros v Hv. lia.
  - apply orb_false_iff in E. rewrite !Z.ltb_ge in E. rewrite (proj2 (Z.leb_gt _ _)) by lia.
    eapply gens_bind; [apply intInclusive_gens; lia|]. cbn beta. intros v Hv. apply gens_ret.
    destruct (Z.leb_spec x v); lia.
Qed.

Lemma uint32Inclusive_gens lo hi : 0 <= lo <= hi -> hi < 2 ^ 32 ->
  gens (fun v => lo <= v <= hi) (uint32Inclusive lo hi).
Proof.
  intros H Hh. unfold uint32Inclusive, u32. rewrite (Z.mod_small (hi - lo)) by lia.
  eapply gens_bind with (Q := fun v => 0 <= v < hi - lo + 1).
  - intros n. unfold draw_int. destruct (rand_int _ _) eqn:E; [|done].
    eapply rand_int_range; [|done]. lia.
  - intros v Hv. apply gens_ret. cbn beta in Hv. rewrite (Z.mod_small v), Z.mod_small by lia. lia.
Qed.

Lemma NewRange_ok lo hi : lo <= hi -> NewRange lo hi = Ok (MkRange lo hi).
Proof. intros H. unfold NewRange. by rewrite (proj2 (Z.ltb_ge _ _)) by lia. Qed.

(** The shape the policies demand of a generated timer. *)
Definition shape (lowMin lowMax spanMin spanMax : Z) (r : Range) : Prop :=
  lowMin <= low r <= lowMax /\ spanMin <= high r - low r <= spanMax.

Lemma shape_ok a b c d r : shape a b c d r -> 0 < a -> 0 < c ->
  validGeneratedRangeShape r a b c d = true.
Proof.
  unfold shape, validGeneratedRangeShape, IsZero. intros H Ha Hc.
  rewrite (proj2 (Z.eqb_neq (low r) 0)), (proj2 (Z.leb_gt _ _)), !(proj2 (outside_spec _ _ _)) by lia. done.
Qed.

Lemma u16Range_gens a b c d : 0 <= a <= b -> 0 <= c <= d -> b + d < 2 ^ 16 ->
  gens (fun r => shape a b c d r /\ range_ok 16 r) (u16Range a b c d).
Proof.
  intros H1 H2 H3. unfold u16Range.
  eapply gens_bind; [apply intInclusive_gens; lia|]. cbn beta. intros lo Hlo.
  eapply gens_bind; [apply intInclusive_gens; lia|]. cbn beta. intros w Hw.
  unfold u16. rewrite !Z.mod_small by lia. eapply gens_lift; [apply NewRange_ok; lia|].
  unfold shape, range_ok. cbn [low high]. lia.
Qed.

(** A header of a band: a scalar when [span] is 0, else a range no wider. *)
Definition header_drawn (span : Z) (h : Range) (band : Z * Z) : Prop :=
  in_band h band /\ if span =? 0 then low h = high h else 1 <= high h - low h <= span.

Lemma draw_header_gens span band : 0 <= span -> 0 <= band.1 -> band.1 + span <= band.2 -> band.2 < 2 ^ 32 ->
  gens (fun h => header_drawn span h band) (draw_header span band).
Proof.
  intros H0 H1 H2 H3. unfold draw_header, header_drawn, in_band. destruct (Z.eqb_spec span 0) as [->|Hs].
  - eapply gens_bind; [apply uint32Inclusive_gens; lia|]. cbn beta. intros v Hv. apply gens_ret. cbn. lia.
  - unfold u32. rewrite (Z.mod_small (band.2 - span)) by lia.
    eapply gens_bind; [apply uint32Inclusive_gens; lia|]. cbn beta. intros lo Hlo.
    eapply gens_bind; [apply uint32Inclusive_gens; lia|]. cbn beta. intros w Hw.
    rewrite Z.mod_small by lia. eapply gens_lift; [apply NewRange_ok; lia|]. cbn. lia.
Qed.

Lemma draw_headers_gens span bands : 0 <= span ->
  Forall (fun b => 0 <= b.1 /\ b.1 + span <= b.2 /\ b.2 < 2 ^ 32) bands ->
  gens (fun hs => Forall2 (header_drawn span) hs bands) (draw_headers span bands).
Proof.
  intros H0. induction 1 as [|b bands (H1 & H2 & H3) _ IH]; cbn [draw_headers].
  - by apply gens_ret.
  - eapply gens_bind; [by apply draw_header_gens|]. cbn beta. intros h Hh.
    eapply gens_bind; [exact IH|]. cbn beta. intros hs Hhs. apply gens_ret. by constructor.
Qed.

Lemma generated_headers_gens span : 0 <= span <= 100000000 ->
  gens (fun hs => exists h1 h2 h3 h4, hs = [h1; h2; h3; h4] /\ Forall2 in_band hs generatedHeaderBands /\
          forallb (band_ok (negb (span =? 0)) span) (zip hs generatedHeaderBands) = true)
    (draw_headers span generatedHeaderBands).
Proof.
  intros Hs. eapply gens_weaken; [apply draw_headers_gens; [lia|repeat constructor; cbn; lia]|].
  cbn beta. intros hs H. unfold generatedHeaderBands in H.
  repeat match goal with H : Forall2 _ _ (_ :: _) |- _ => apply Forall2_cons_inv_r in H as (? & ? & ? & H & ->) end.
  apply Forall2_nil_inv_r in H as ->.
  eexists _, _, _, _. split; [reflexivity|]. unfold header_drawn, in_band in *. cbn [fst snd] in *. split.
  - repeat constructor; cbn; lia.
  - cbn -[Z.ltb Z.leb Z.sub Z.eqb]. destruct (span =? 0); cbn [negb];
      repeat match goal with |- context [?a <? ?b] => rewrite (proj2 (Z.ltb_ge a b)) by lia end;
      repeat match goal with |- context [?a <=? ?b] => rewrite (proj2 (Z.leb_gt a b)) by lia end;
      repeat match goal with |- context [?a =? ?b] => rewrite (proj2 (Z.eqb_eq a b)) by lia end; done.
Qed.

Lemma protection_key_gens o Q : (forall key, String.length key = 32%nat ->
    Q (o <| ob_HeaderProtectionKey := EncodeToString (bytes_of key) |>)) ->
  gens Q (setHeaderProtectionKey o).
Proof.
  intros HQ. unfold setHeaderProtectionKey. eapply gens_bind with (Q := fun k => String.length k = 32%nat).
  - intros n. unfold draw_bytes. destruct (read_full n 32) eqn:E; [|done]. by eapply read_full_length.
  - intros key Hk. by apply gens_ret, HQ.
Qed.


Lemma protection_key_drawn o : gens (fun o' => exists key, String.length key = 32%nat /\
    o' = o <| ob_HeaderProtectionKey := EncodeToString (bytes_of key) |>) (setHeaderProtectionKey o).
Proof. apply protection_key_gens. eauto. Qed.

(** What every run of a policy's generator returns. *)
Definition policy_ok (p : ProfilePolicy) (o : Obfuscation) : Prop :=
  ValidateGeneratedProfile p o = Ok tt /\ profile_wf o.

Lemma validated_gens p (m : gen Obfuscation) : gens (policy_ok p) m ->
  gens (policy_ok p) (o ← m; validatedGenerated p o).
Proof.
  intros Hm. eapply gens_bind; [exact Hm|]. intros o Ho. unfold validatedGenerated.
  eapply gens_bind with (Q := fun _ => True); [by eapply gens_lift; [apply Ho|]|].
  intros _ _. by apply gens_ret.
Qed.

Lemma policy_ok_intro p o : ValidateObfuscation o = Ok tt -> profile_wf o ->
  (ValidateObfuscation o = Ok tt -> ValidateGeneratedProfile p o = Ok tt) -> policy_ok p o.
Proof. intros H1 H2 H3. split; auto. Qed.

(** Evaluates the fields that were set, leaving the drawn values. *)
Ltac known_fields :=
  cbv [headers signatures timers numbers set_headers base_profile no_obf] in *;
  cbn [ob_Enabled ob_Jc ob_Jmin ob_Jmax ob_S1 ob_S2 ob_S3 ob_S4 ob_HeaderProtectionKey upd_field
       ob_H1 ob_H2 ob_H3 ob_H4 ob_I1 ob_I2 ob_I3 ob_I4 ob_I5
       ob_ContentPaddingAddition ob_RekeyAfterTime ob_RekeyTimeout ob_RejectAfterTime
       ob_KeepaliveTimeout ob_MaxHandshakeAttempts ob_RandomTrailers ob_DisableCookies nth] in *.

(** A drawn key and numbers inside the limits make a valid profile. *)
Lemma drawn_valid o key : ob_Enabled o = true -> String.length key = 32%nat ->
  12 <= ob_S3 o <= 65535 -> 12 <= ob_S4 o <= 65535 ->
  1 <= ob_Jc o <= 128 -> 0 <= ob_Jmin o < ob_Jmax o -> ob_Jmax o <= 1280 ->
  12 <= ob_S1 o <= 1132 -> 12 <= ob_S2 o <= 1188 -> ob_S1 o + 56 <> ob_S2 o ->
  signatures o = [""; ""; ""; ""; ""] -> headers_ok (headers o) = Ok tt ->
  ValidateObfuscation (o <| ob_HeaderProtectionKey := EncodeToString (bytes_of key) |>) = Ok tt.
Proof.
  intros He Hk H1 H2 H3 H4 H5 H6 H7 H8 Hs Hh.
  apply ValidateObfuscation_intro; cbn [ob_Enabled ob_S3 ob_S4 ob_Jc ob_Jmin ob_Jmax ob_S1 ob_S2 upd_field];
    try done; try lia.
  - unfold protection_key_ok. cbn [ob_HeaderProtectionKey ob_S1 ob_S2 ob_S3 ob_S4 upd_field].
    rewrite key_text_some, key_text_ok, !(proj2 (Z.ltb_ge _ _)) by (done || lia). done.
  - unfold ValidateConfigText. change (signatures _) with (signatures o). by rewrite Hs.
Qed.

Lemma operational_gens p v : (p, v) ∈ [(ProfilePerformance, performance_values);
    (ProfileBalanced, balanced_values); (ProfileResilient, resilient_values)] ->
  gens (policy_ok p) (operational v).
Proof.
  intros Hin. unfold operational.
  assert (0 <= opv_headerRangeMaxSpan v <= 100000000) as Hspan.
  { repeat (apply elem_of_cons in Hin as [[= -> ->]|Hin]; [vm_compute; split; discriminate|]). by apply elem_of_nil in Hin. }
  eapply gens_bind; [by apply generated_headers_gens|].
  cbn beta. intros hs (h1 & h2 & h3 & h4 & -> & Hb & Hz).
  apply bands_ok in Hb as [Hok Hwf].
  repeat (apply elem_of_cons in Hin as [[= -> ->]|Hin]);
    [..|by apply elem_of_nil in Hin];
  (eapply gens_bind; [eapply gens_lift; [reflexivity|];
     match goal with |- ?Q ?o => instantiate (1 := fun x => x = o); reflexivity end|]);
  cbn beta; intros o ->; apply protection_key_gens; intros key Hk;
  (apply policy_ok_intro; [apply drawn_valid; known_fields; try done; lia
    | split; [exact Hwf|known_fields; by repeat (apply Forall_cons; split; [vm_compute; intuition discriminate|])]
    | intros Hv; unfold ValidateGeneratedProfile; rewrite Hv; cbn [mbind result_bind rbind];
      unfold validateOperationalGeneratedProfile, generatedHeadersMatch; known_fields;
      rewrite key_text_some by done;
      match goal with |- context [forallb (band_ok ?b ?w) ?l] =>
        replace (forallb (band_ok b w) l) with true by (symmetry; exact Hz) end;
      reflexivity]).
Qed.

Lemma suggested_gens : gens (policy_ok ProfileSuggested) suggested.
Proof.
  unfold suggested. eapply gens_bind with (Q := fun x => x = _).
  { eapply gens_lift; reflexivity. }
  intros o ->. apply protection_key_gens. intros key Hk.
  apply policy_ok_intro.
  - apply drawn_valid; known_fields; try done; lia.
  - split; known_fields; by repeat (apply Forall_cons; split; [vm_compute; intuition discriminate|]).
  - intros Hv. unfold ValidateGeneratedProfile. rewrite Hv. cbn [mbind result_bind rbind].
    unfold validateOperationalGeneratedProfile. known_fields. rewrite key_text_some by done. reflexivity.
Qed.

Lemma recommended_gens : gens (policy_ok ProfileRecommended) recommended.
Proof.
  unfold recommended. eapply gens_bind; [apply generated_headers_gens; lia|].
  cbn beta. intros hs (h1 & h2 & h3 & h4 & -> & Hb & Hz). apply bands_ok in Hb as [Hok Hwf].
  apply gens_ret, policy_ok_intro.
  - apply ValidateObfuscation_intro; known_fields; try done; lia.
  - split; [exact Hwf|]. known_fields. by repeat (apply Forall_cons; split; [vm_compute; intuition discriminate|]).
  - intros Hv. unfold ValidateGeneratedProfile. rewrite Hv. cbn [mbind result_bind rbind].
    known_fields. change (negb (0 =? 0)) with false in Hz. rewrite Hz. reflexivity.
Qed.

Lemma randomized_gens : gens (policy_ok ProfileRandomized) randomized.
Proof.
  unfold randomized.
  eapply gens_bind; [apply intInclusive_gens; lia|]. cbn beta. intros jc Hjc.
  eapply gens_bind; [apply intInclusive_gens; lia|]. cbn beta. intros jmin Hjmin.
  eapply gens_bind; [apply intInclusive_gens; lia|]. cbn beta. intros jmax Hjmax.
  eapply gens_bind; [apply intInclusive_gens; lia|]. cbn beta. intros s1 Hs1.
  eapply gens_bind; [apply intInclusiveExcept_gens; lia|]. cbn beta. intros s2 [Hs2 Hne].
  eapply gens_bind; [apply intInclusive_gens; lia|]. cbn beta. intros s3 Hs3.
  eapply gens_bind; [apply intInclusive_gens; lia|]. cbn beta. intros s4 Hs4.
  eapply gens_bind; [apply generated_headers_gens; unfold randomizedHeaderMaxSpan; lia|].
  cbn beta. intros hs (h1 & h2 & h3 & h4 & -> & Hb & Hz). apply bands_ok in Hb as [Hok Hwf].
  eapply gens_bind; [apply protection_key_drawn|]. cbn beta. intros o (key & Hk & ->).
  eapply gens_bind; [apply u16Range_gens; lia|]. cbn beta. intros padding [Hp1 Hp2].
  eapply gens_bind; [apply u16Range_gens; lia|]. cbn beta. intros after [Ha1 Ha2].
  eapply gens_bind; [apply u16Range_gens; lia|]. cbn beta. intros timeout [Ht1 Ht2].
  assert (110 <= high after + 20 <= 160) as Hhigh by (unfold shape in Ha1; lia).
  cbv zeta. set (lowest := high after + 20) in *.
  eapply gens_bind; [apply u16Range_gens; lia|]. cbn beta. intros reject [Hr1 Hr2].
  eapply gens_bind; [apply u16Range_gens; lia|]. cbn beta. intros keep [Hk1 Hk2].
  eapply gens_bind; [apply u16Range_gens; lia|]. cbn beta. intros shake [Hh1 Hh2].
  apply gens_ret, policy_ok_intro.
  - match goal with |- ValidateObfuscation ?o = _ =>
      change o with (o <| ob_HeaderProtectionKey := EncodeToString (bytes_of key) |>) end.
    apply drawn_valid; known_fields; try done; lia.
  - split; [exact Hwf|]. known_fields. by repeat (apply Forall_cons; split; [done|]).
  - intros Hv. unfold ValidateGeneratedProfile. rewrite Hv. cbn [mbind result_bind rbind].
    unfold generatedHeadersMatch. known_fields. fold lowest.
    rewrite !(proj2 (outside_spec _ _ _)) by lia. rewrite key_text_some by done.
    match goal with |- context [forallb (band_ok ?b ?w) ?l] =>
      replace (forallb (band_ok b w) l) with true by (symmetry; exact Hz) end.
    rewrite !shape_ok by (done || lia). reflexivity.
Qed.

(** ** Properties *)

(** C23. The server's generator never produces a profile its own validation
    refuses: whatever the entropy, a generating policy either fails because
    the entropy source did, or returns a complete profile that meets the
    runtime's constraints and the policy, with every value within its width. *)
Theorem Generate_never_rejected p n : IsGeneratedProfilePolicy p = true ->
  match Generate p n with
  | Ok (o, _) => ValidateObfuscation o = Ok tt /\ ValidateGeneratedProfile p o = Ok tt /\ profile_wf o
  | Err e => e = ErrEntropy
  end.
Proof.
  intros Hp. assert (gens (policy_ok p) (Generate p)) as H.
  { destruct p; try discriminate; apply validated_gens;
      first [apply recommended_gens | apply suggested_gens | apply randomized_gens
            | apply operational_gens; repeat first [apply list_elem_of_here | apply list_elem_of_further]]. }
  specialize (H n). destruct (Generate p n) as [[o m]|]; [|done]. destruct H as [Hg Hwf].
  split_and!; try done. unfold ValidateGeneratedProfile in Hg.
  by destruct (ValidateObfuscation o) as [[]|].
Qed.
End Facts.

Lemma scanU32_Value r : range_ok 32 r -> scanU32 (Value r) = Ok r.
Proof. exact (decode_encode (Codec := column_codec 32) r). Qed.
Lemma scanU16_Value r : range_ok 16 r -> scanU16 (Value r) = Ok r.
Proof. exact (decode_encode (Codec := column_codec 16) r). Qed.

Lemma text_or_null_default s : default "" (text_or_null s) = s.
Proof. unfold text_or_null. by destruct (String.eqb_spec s "") as [->|]. Qed.

Lemma boolInt_eqb b : (boolInt b =? 1) = b.
Proof. by destruct b. Qed.

(** A profile that passed validation comes back from its columns as it was
    stored: an unset header reads back as zero, an empty signature as empty,
    and the profile is enabled exactly when its first column is not NULL. *)
Theorem stored_profile_round_trip o : ValidateObfuscation o = Ok tt -> profile_wf o ->
  scan_obf (obf_columns o) = Ok o.
Proof.
  intros Hv [Hh Ht]. apply ValidateObfuscation_inv in Hv.
  destruct (ob_Enabled o) eqn:He; [|by subst o].
  unfold headers in Hh. unfold timers in Ht.
  repeat match goal with H : Forall _ (_ :: _) |- _ => apply Forall_cons in H as [? H] end.
  unfold scan_obf, obf_columns.
  cbn [oc_h1_range oc_h2_range oc_h3_range oc_h4_range oc_padding oc_rekey_after oc_rekey_timeout
       oc_reject_after oc_keepalive oc_handshake oc_jc oc_jmin oc_jmax oc_s1 oc_s2 oc_i1 oc_i2 oc_i3
       oc_i4 oc_i5 oc_s3 oc_s4 oc_hpk oc_trailers oc_cookies].
  rewrite !scanU32_Value, !scanU16_Value by done. cbn [mbind result_bind rbind].
  rewrite He, !text_or_null_default, !boolInt_eqb. cbn.
  by destruct o; cbn in *; subst.
Qed.

(** A runtime shows a set that changes nothing on the wire as plain: no valid
    enabled profile is one of those, so the comparison of a dump with the
    applied profile does not depend on it. *)
Theorem valid_profile_observable o : ValidateObfuscation o = Ok tt ->
  PlainEquivalent o = negb (ob_Enabled o).
Proof.
  intros Hv. apply ValidateObfuscation_inv in Hv.
  destruct (ob_Enabled o); [|subst; reflexivity]. destruct Hv as [Hj _].
  unfold PlainEquivalent. cbv zeta. rewrite bool_decide_eq_false_2; [done|]. intros E. apply (f_equal ob_Jc) in E. change (ob_Jc o = 0) in E. lia.
Qed.

(** ** Witnesses *)

(** Entropy whose draws are all zero. *)
Definition zero_entropy : ProfileEntropy := {|
  rand_int := fun _ _ => Some 0;
  read_full := fun _ len => Some (text_of (List.repeat 0 len))
|}.

Lemma zero_entropy_laws : ProfileEntropyLaws zero_entropy.
Proof.
  split.
  - intros n max v Hm [= <-]. lia.
  - intros n len s [= <-]. by rewrite length_text_of, repeat_length.
Qed.

(** The balanced profile of that entropy. *)
Definition w_profile : Obfuscation := Eval vm_compute in
  match Generate (P := zero_entropy) ProfileBalanced 0%nat with Ok (o, _) => o | Err _ => no_obf end.

Theorem Generate_never_rejected_witness :
  ValidateGeneratedProfile ProfileBalanced w_profile = Ok tt.
Proof.
  exact (proj1 (proj2 (@Generate_never_rejected zero_entropy zero_entropy_laws ProfileBalanced 0%nat eq_refl))).
Defined.

Lemma w_profile_wf : profile_wf w_profile.
Proof. split; repeat (apply Forall_cons; split; [vm_compute; intuition discriminate|]); constructor. Qed.

Theorem stored_profile_round_trip_witness : scan_obf (obf_columns w_profile) = Ok w_profile.
Proof. apply stored_profile_round_trip; [vm_compute; reflexivity | exact w_profile_wf]. Defined.

Theorem valid_profile_observable_witness : PlainEquivalent w_profile = false.
Proof. apply (valid_profile_observable w_profile). vm_compute. reflexivity. Defined.
