(* ===== verification/Backend.v ===== *)
(** * The tunnel backend (internal/tunnel, internal/tunnel/fake)

    The seam between the services and the tunnel engine: what a backend is
    told, what it shows, the operations, the contract the services rely on,
    and the in-memory implementation, which honours it.

    A backend is a state [R] that its operations change even when they fail;
    the contract speaks of the links it holds, its abstract view. *)
From stdpp Require Import base tactics strings gmap list fin_maps sorting.
From Stdlib Require Import ZArith Lia Ascii.
From Stdlib Require String.
From S2P Require Import Prelude GoTime Domain Awgparam Profile.

Open Scope Z_scope.

(** ** What is exchanged (tunnel.go) *)

Inductive tunnel_error := ErrInterfaceNotFound | TunnelFailed (msg : string).

#[export] Instance tunnel_error_eq_dec : EqDecision tunnel_error.
Proof. solve_decision. Defined.

Record InterfaceSpec := MkSpec {
  is_Name : string;
  is_BackendMode : string;
  is_PrivateKey : string;
  is_ListenPort : Z;
  is_Fwmark : string;
  is_MTU : Z;
  is_Address : string;
  is_Addresses : list string;
  is_Obfuscation : Obfuscation
}.

#[export] Instance eta_InterfaceSpec : Eta InterfaceSpec := fun s =>
  MkSpec (is_Name s) (is_BackendMode s) (is_PrivateKey s) (is_ListenPort s) (is_Fwmark s)
    (is_MTU s) (is_Address s) (is_Addresses s) (is_Obfuscation s).

Record PeerConfig := MkPeerConfig {
  pc_PublicKey : string;
  pc_PresharedKey : string;
  pc_AllowedIPs : list string;
  pc_Endpoint : string;
  pc_PersistentKeepalive : Range
}.

Record InterfaceConfig := MkConfig {
  ic_PrivateKey : string;
  ic_ListenPort : Z;
  ic_Fwmark : string;
  ic_Obfuscation : Obfuscation;
  ic_Peers : list PeerConfig
}.

Definition no_config : InterfaceConfig := MkConfig "" 0 "" no_obf [].

(** The zero handshake time is [None]. *)
Record PeerState := MkPeer {
  ps_PublicKey : string;
  ps_PresharedKeySet : bool;
  ps_Endpoint : string;
  ps_AllowedIPs : list string;
  ps_LastHandshake : option Z;
  ps_RXBytes : Z;
  ps_TXBytes : Z;
  ps_PersistentKeepalive : Range
}.

#[export] Instance eta_PeerState : Eta PeerState := fun p =>
  MkPeer (ps_PublicKey p) (ps_PresharedKeySet p) (ps_Endpoint p) (ps_AllowedIPs p)
    (ps_LastHandshake p) (ps_RXBytes p) (ps_TXBytes p) (ps_PersistentKeepalive p).

Record InterfaceState := MkState {
  st_Name : string;
  st_BackendMode : string;
  st_PublicKey : string;
  st_ListenPort : Z;
  st_Fwmark : Z;
  st_Obfuscation : Obfuscation;
  st_Peers : list PeerState
}.

Definition no_state : InterfaceState := MkState "" "" "" 0 0 no_obf [].

(** ** The operations *)

Class Backend (R : Type) := {
  ListInterfaces : act R tunnel_error (list string);
  CreateInterface : InterfaceSpec -> act R tunnel_error unit;
  RemoveInterface : string -> act R tunnel_error unit;
  ApplyInterfaceConfig : string -> InterfaceConfig -> act R tunnel_error unit;
  SyncPeers : string -> list PeerConfig -> act R tunnel_error unit;
  Dump : string -> act R tunnel_error InterfaceState;
  EnsureAddresses : option (string -> list string -> act R tunnel_error unit)
}.

(** ** The contract *)

(** The peer a configuration asks for, nothing of it observed yet. *)
Definition peerState (p : PeerConfig) : PeerState :=
  MkPeer (pc_PublicKey p) (negb (String.eqb (pc_PresharedKey p) "")) (pc_Endpoint p)
    (pc_AllowedIPs p) None 0 0 (pc_PersistentKeepalive p).

(** The counters and the handshake of a peer survive its reconfiguration. *)
Definition keep_runtime (old new : PeerState) : PeerState :=
  new <| ps_LastHandshake := ps_LastHandshake old |> <| ps_RXBytes := ps_RXBytes old |>
      <| ps_TXBytes := ps_TXBytes old |>.

(** [setconf]: the peer set is replaced. *)
Definition set_peers (old : gmap string PeerState) (cfg : list PeerConfig) : gmap string PeerState :=
  fold_left (fun peers p =>
    <[pc_PublicKey p := match old !! pc_PublicKey p with
                        | Some o => keep_runtime o (peerState p)
                        | None => peerState p
                        end]> peers) cfg ∅.

Definition containsPeer (peers : list PeerConfig) (key : string) : bool :=
  existsb (fun p => String.eqb (pc_PublicKey p) key) peers.

(** A listed peer is updated or added; an omitted preshared key is kept. *)
Definition upsert_peer (peers : gmap string PeerState) (p : PeerConfig) : gmap string PeerState :=
  <[pc_PublicKey p :=
      match peers !! pc_PublicKey p with
      | Some old =>
          let st := if String.eqb (pc_PresharedKey p) ""
                    then (peerState p) <| ps_PresharedKeySet := ps_PresharedKeySet old |>
                    else peerState p in
          keep_runtime old st
      | None => peerState p
      end]> peers.

(** [syncconf]: unlisted peers go, listed ones are updated or added. *)
Definition sync_peers (old : gmap string PeerState) (cfg : list PeerConfig) : gmap string PeerState :=
  fold_left upsert_peer cfg (filter (fun '(k, _) => containsPeer cfg k = true) old).

Record Link := MkLink {
  ln_Mode : string;                 (* "" when the backend cannot tell *)
  ln_ListenPort : Z;
  ln_Obfuscation : Obfuscation;
  ln_Peers : gmap string PeerState
}.

#[export] Instance eta_Link : Eta Link := fun l =>
  MkLink (ln_Mode l) (ln_ListenPort l) (ln_Obfuscation l) (ln_Peers l).

(** The links of a backend, and the states its laws speak of. *)
Class BackendView (R : Type) := {
  links : R -> gmap string Link;
  sound : R -> Prop
}.

(** A dump shows the link: each peer once, under its own key. *)
Definition shows (st : InterfaceState) (l : Link) : Prop :=
  st_BackendMode st = ln_Mode l /\ st_ListenPort st = ln_ListenPort l /\
  st_Obfuscation st = ln_Obfuscation l /\
  st_Peers st ≡ₚ (map_to_list (ln_Peers l)).*2 /\
  map_Forall (fun k p => ps_PublicKey p = k) (ln_Peers l).

(** A step on one interface leaves every other link alone, whatever its outcome. *)
Definition only {R} `{BackendView R} (name : string) (r r' : R) : Prop :=
  sound r' /\ delete name (links r') = delete name (links r).

Class BackendLaws (R : Type) `{Backend R, BackendView R} : Prop := {
  list_law r res r' : sound r -> ListInterfaces r = (res, r') ->
    sound r' /\ links r' = links r /\
    (forall names, res = Ok names -> forall n, n ∈ names <-> is_Some (links r !! n));
  dump_law name r res r' : sound r -> Dump name r = (res, r') ->
    sound r' /\ links r' = links r /\
    match res with
    | Ok st => exists l, links r !! name = Some l /\ shows st l
    | Err ErrInterfaceNotFound => links r !! name = None
    | Err _ => True
    end;
  create_law spec r res r' : sound r -> CreateInterface spec r = (res, r') ->
    only (is_Name spec) r r' /\
    (res = Ok tt -> exists mode, (mode = "" \/ mode = is_BackendMode spec) /\
       links r' !! is_Name spec = Some (MkLink mode (is_ListenPort spec) (is_Obfuscation spec) ∅));
  remove_law name r res r' : sound r -> RemoveInterface name r = (res, r') ->
    only name r r' /\
    match res with
    | Ok _ | Err ErrInterfaceNotFound => links r' !! name = None
    | Err _ => True
    end;
  apply_law name cfg r res r' : sound r -> ApplyInterfaceConfig name cfg r = (res, r') ->
    only name r r' /\
    (res = Ok tt -> exists l, links r !! name = Some l /\ links r' !! name =
       Some (MkLink (ln_Mode l) (if ic_ListenPort cfg =? 0 then ln_ListenPort l else ic_ListenPort cfg)
               (ic_Obfuscation cfg) (set_peers (ln_Peers l) (ic_Peers cfg))));
  sync_law name cfg r res r' : sound r -> SyncPeers name cfg r = (res, r') ->
    only name r r' /\
    (res = Ok tt -> exists l, links r !! name = Some l /\
       links r' !! name = Some (l <| ln_Peers := sync_peers (ln_Peers l) cfg |>));
  addresses_law ensure name addrs r res r' : EnsureAddresses = Some ensure -> sound r ->
    ensure name addrs r = (res, r') ->
    sound r' /\ links r' = links r
}.

(** ** The in-memory implementation (tunnel/fake/fake.go) *)

Inductive OpKind := OpCreate | OpRemove | OpApply | OpSync.

#[export] Instance OpKind_eq_dec : EqDecision OpKind.
Proof. solve_decision. Defined.

Record Op := MkOp { op_Kind : OpKind; op_Which : string; op_At : Z }.

Record fakeInterface := MkFake {
  fi_spec : InterfaceSpec;
  fi_cfg : InterfaceConfig;
  fi_publicKey : string;
  fi_peers : gmap string PeerState;
  fi_fwmark : Z
}.

#[export] Instance eta_fakeInterface : Eta fakeInterface := fun i =>
  MkFake (fi_spec i) (fi_cfg i) (fi_publicKey i) (fi_peers i) (fi_fwmark i).

(** [FailOn] is a function of the operation kind; the clock is [fk_now]. *)
Record fake := MkFakeBackend {
  fk_interfaces : gmap string fakeInterface;
  fk_ops : list Op;
  fk_FailOn : OpKind -> option tunnel_error;
  fk_now : Z
}.

#[export] Instance eta_fake : Eta fake := fun b =>
  MkFakeBackend (fk_interfaces b) (fk_ops b) (fk_FailOn b) (fk_now b).

Definition New (now : Z) : fake := MkFakeBackend ∅ [] (fun _ => None) now.

(** The injected failure of an operation kind fires once. *)
Definition fail (op : OpKind) : act fake tunnel_error unit := fun b =>
  match fk_FailOn b op with
  | Some e => (Err e, b <| fk_FailOn := fun k => if decide (k = op) then None else fk_FailOn b k |>)
  | None => (Ok tt, b)
  end.

Definition record_op (kind : OpKind) (which : string) : act fake tunnel_error unit :=
  act_modify (fun b => b <| fk_ops ::= fun l => l ++ [MkOp kind which (fk_now b)] |>).

Definition fake_interface (name : string) : act fake tunnel_error fakeInterface := fun b =>
  match fk_interfaces b !! name with Some i => (Ok i, b) | None => (Err ErrInterfaceNotFound, b) end.

Definition put_interface (name : string) (i : fakeInterface) : act fake tunnel_error unit :=
  act_modify (fun b => b <| fk_interfaces ::= <[name := i]> |>).

(** [sort.Strings]. *)
Definition text_le (a b : string) : Prop := String.leb a b = true.
#[export] Instance text_le_dec a b : Decision (text_le a b) := decide (String.leb a b = true).

Definition sorted_names (l : list string) : list string := merge_sort text_le l.

Definition fake_ListInterfaces : act fake tunnel_error (list string) :=
  act_gets (fun b => sorted_names (map_to_list (fk_interfaces b)).*1).

Definition fake_CreateInterface (spec : InterfaceSpec) : act fake tunnel_error unit :=
  _ ← fail OpCreate;
  existing ← act_gets (fun b => fk_interfaces b !! is_Name spec);
  match existing with
  | Some _ => act_fail (TunnelFailed "fake: interface already exists")
  | None =>
      _ ← record_op OpCreate (is_Name spec);
      put_interface (is_Name spec) (MkFake spec no_config "" ∅ 0)
  end.

Definition fake_EnsureAddresses (name : string) (addresses : list string) : act fake tunnel_error unit :=
  i ← fake_interface name;
  put_interface name (i <| fi_spec ::= fun s => s <| is_Addresses := addresses |> |>).

Definition fake_RemoveInterface (name : string) : act fake tunnel_error unit :=
  _ ← fail OpRemove;
  _ ← fake_interface name;
  _ ← record_op OpRemove name;
  act_modify (fun b => b <| fk_interfaces ::= delete name |>).

(** [strconv.ParseUint(s, 0, 32)]: the base is read off the prefix, and
    underscores may separate digits as in Go source. *)
Definition digit_of (c : ascii) : option Z :=
  let b := byte_of c in
  if in_range "0" "9" c then Some (b - 48)
  else if in_range "a" "z" c then Some (b - 87)
  else if in_range "A" "Z" c then Some (b - 55)
  else None.

Fixpoint base_digits (base : Z) (s : string) (acc : Z) : option Z :=
  match s with
  | EmptyString => Some acc
  | String c s =>
      if Ascii.eqb c "_" then base_digits base s acc
      else match digit_of c with
           | Some d => if base <=? d then None else base_digits base s (acc * base + d)
           | None => None
           end
  end.

(** Each underscore stands between digits or after the base prefix; [prev] is
    whether what precedes may be followed by one. *)
Fixpoint underscores_ok (prev : bool) (s : string) : bool :=
  match s with
  | EmptyString => true
  | String c rest =>
      if Ascii.eqb c "_"
      then prev && match rest with String d _ => negb (Ascii.eqb d "_") | EmptyString => false end
           && underscores_ok false rest
      else underscores_ok true rest
  end.

Definition base_prefix (s : string) : Z * string * bool :=
  match s with
  | String "0" (String c (String d rest)) =>
      if Ascii.eqb c "b" || Ascii.eqb c "B" then (2, String d rest, true)
      else if Ascii.eqb c "o" || Ascii.eqb c "O" then (8, String d rest, true)
      else if Ascii.eqb c "x" || Ascii.eqb c "X" then (16, String d rest, true)
      else (8, String c (String d rest), true)
  | String "0" rest => (8, rest, true)
  | _ => (10, s, false)
  end.

Definition parse_mark (s : string) : option Z :=
  if String.eqb s "" then None
  else
    let '(base, digits, prefixed) := base_prefix s in
    match base_digits base digits 0 with
    | Some n => if (n <? 2 ^ 32) && underscores_ok prefixed digits then Some n else None
    | None => None
    end.

Definition fake_ApplyInterfaceConfig (name : string) (cfg : InterfaceConfig) : act fake tunnel_error unit :=
  _ ← fail OpApply;
  i ← fake_interface name;
  _ ← record_op OpApply name;
  let port := if ic_ListenPort cfg =? 0 then is_ListenPort (fi_spec i) else ic_ListenPort cfg in
  let mark := if String.eqb (ic_Fwmark cfg) "" then 0 else default 0 (parse_mark (ic_Fwmark cfg)) in
  put_interface name
    (MkFake ((fi_spec i) <| is_ListenPort := port |> <| is_Obfuscation := ic_Obfuscation cfg |>) cfg
       (fi_publicKey i) (set_peers (fi_peers i) (ic_Peers cfg)) mark).

Definition fake_SyncPeers (name : string) (peers : list PeerConfig) : act fake tunnel_error unit :=
  _ ← fail OpSync;
  i ← fake_interface name;
  _ ← record_op OpSync name;
  put_interface name (i <| fi_peers := sync_peers (fi_peers i) peers |>).

Definition fake_Dump (name : string) : act fake tunnel_error InterfaceState :=
  i ← fake_interface name;
  mret (MkState name "" (fi_publicKey i) (is_ListenPort (fi_spec i)) (fi_fwmark i)
          (is_Obfuscation (fi_spec i)) (map_to_list (fi_peers i)).*2).

(** Test hooks: observed traffic, and drift from outside. *)
Definition SetPeerActivity (name publicKey : string) (handshake : option Z) (rx tx : Z)
    : act fake tunnel_error unit :=
  i ← fake_interface name;
  match fi_peers i !! publicKey with
  | None => act_fail (TunnelFailed "fake: peer not on interface")
  | Some st =>
      put_interface name (i <| fi_peers ::= <[publicKey :=
        st <| ps_LastHandshake := handshake |> <| ps_RXBytes := rx |> <| ps_TXBytes := tx |>]> |>)
  end.

Definition SetPublicKey (name publicKey : string) : act fake tunnel_error unit :=
  i ← fake_interface name; put_interface name (i <| fi_publicKey := publicKey |>).

Definition SetObfuscation (name : string) (o : Obfuscation) : act fake tunnel_error unit :=
  i ← fake_interface name; put_interface name (i <| fi_spec ::= fun s => s <| is_Obfuscation := o |> |>).

#[export] Instance fake_backend : Backend fake := {
  ListInterfaces := fake_ListInterfaces;
  CreateInterface := fake_CreateInterface;
  RemoveInterface := fake_RemoveInterface;
  ApplyInterfaceConfig := fake_ApplyInterfaceConfig;
  SyncPeers := fake_SyncPeers;
  Dump := fake_Dump;
  EnsureAddresses := Some fake_EnsureAddresses
}.

Definition fake_link (i : fakeInterface) : Link :=
  MkLink "" (is_ListenPort (fi_spec i)) (is_Obfuscation (fi_spec i)) (fi_peers i).

(** Injected failures do not pretend that an interface is missing, and every
    peer is stored under its own key. *)
Definition fake_sound (b : fake) : Prop :=
  (forall k, fk_FailOn b k <> Some ErrInterfaceNotFound) /\
  map_Forall (fun _ i => map_Forall (fun k p => ps_PublicKey p = k) (fi_peers i)) (fk_interfaces b).

#[export] Instance fake_view : BackendView fake := {
  links := fun b => fake_link <$> fk_interfaces b;
  sound := fake_sound
}.

(** ** Lemmas: peer sets *)

Lemma containsPeer_spec peers key : containsPeer peers key = true <-> key ∈ pc_PublicKey <$> peers.
Proof.
  unfold containsPeer. rewrite existsb_exists, list_elem_of_fmap. split.
  - intros (p & Hp%list_elem_of_In & E%String.eqb_eq). eauto.
  - intros (p & -> & Hp%list_elem_of_In). exists p. by rewrite String.eqb_refl.
Qed.

Lemma upsert_own_key p peers k st : upsert_peer peers p !! k = Some st ->
  (k = pc_PublicKey p /\ ps_PublicKey st = k) \/ peers !! k = Some st.
Proof.
  unfold upsert_peer. destruct (decide (k = pc_PublicKey p)) as [->|Hk].
  - rewrite lookup_insert_eq. intros [= <-]. left. split; [done|].
    destruct (peers !! _); [|done]. by destruct (String.eqb _ _).
  - rewrite lookup_insert_ne by done. auto.
Qed.

Lemma upserts_own_key cfg peers : map_Forall (fun k p => ps_PublicKey p = k) peers ->
  map_Forall (fun k p => ps_PublicKey p = k) (fold_left upsert_peer cfg peers).
Proof.
  revert peers. induction cfg as [|p cfg IH]; intros peers H; cbn; [done|]. apply IH.
  intros k st [[_ E]|E]%upsert_own_key; [done|]. by apply H.
Qed.

Lemma sync_own_key cfg old : map_Forall (fun k p => ps_PublicKey p = k) old ->
  map_Forall (fun k p => ps_PublicKey p = k) (sync_peers old cfg).
Proof.
  intros H. apply upserts_own_key. intros k p [E _]%map_lookup_filter_Some. by apply H.
Qed.

Lemma set_peers_own_key cfg old : map_Forall (fun k p => ps_PublicKey p = k) (set_peers old cfg).
Proof.
  unfold set_peers. assert (map_Forall (fun k p => ps_PublicKey p = k) (∅ : gmap string PeerState)) as H
    by apply map_Forall_empty.
  revert H. generalize (∅ : gmap string PeerState) as peers. induction cfg as [|p cfg IH]; intros peers H; cbn; [done|].
  apply IH. intros k st E. destruct (decide (k = pc_PublicKey p)) as [->|Hk].
  - rewrite lookup_insert_eq in E. injection E as <-. by destruct (old !! _).
  - rewrite lookup_insert_ne in E by done. by apply H.
Qed.

(** The peers after [syncconf] are those listed. *)
Lemma dom_sync_peers old cfg k : is_Some (sync_peers old cfg !! k) <-> k ∈ pc_PublicKey <$> cfg.
Proof.
  unfold sync_peers.
  assert (forall l (m : gmap string PeerState), is_Some (fold_left upsert_peer l m !! k) <->
    k ∈ pc_PublicKey <$> l \/ is_Some (m !! k)) as Hf.
  { induction l as [|p l IH]; intros m; cbn [fold_left fmap list_fmap].
    - rewrite elem_of_nil. tauto.
    - rewrite IH, elem_of_cons. unfold upsert_peer. destruct (decide (k = pc_PublicKey p)) as [->|Hk].
      + rewrite lookup_insert_eq. split; [auto|]. intros _. right. eauto.
      + rewrite lookup_insert_ne by done. tauto. }
  rewrite Hf. split; [|auto]. intros [H|[st [_ H]%map_lookup_filter_Some]]; [done|]. by apply containsPeer_spec.
Qed.

(** With distinct keys each listed peer is upserted once, into the old set. *)
Lemma sync_peers_lookup old cfg p : NoDup (pc_PublicKey <$> cfg) -> p ∈ cfg ->
  sync_peers old cfg !! pc_PublicKey p = upsert_peer old p !! pc_PublicKey p.
Proof.
  intros Hnd Hp. unfold sync_peers.
  assert (forall l (m : gmap string PeerState), NoDup (pc_PublicKey <$> l) ->
    (forall q, q ∈ l -> m !! pc_PublicKey q = old !! pc_PublicKey q) -> p ∈ l ->
    fold_left upsert_peer l m !! pc_PublicKey p = upsert_peer old p !! pc_PublicKey p) as Hf.
  2:{ apply Hf; [done| |done]. intros q Hq. apply option_eq. intros st. rewrite map_lookup_filter_Some.
      split; [tauto|]. intros E. split; [done|]. apply containsPeer_spec, list_elem_of_fmap. eauto. }
  clear cfg Hnd Hp. induction l as [|q l IH]; intros m Hnd Hm Hp; [by apply elem_of_nil in Hp|].
  cbn [fmap list_fmap] in Hnd. apply NoDup_cons in Hnd as [Hq Hnd]. cbn [fold_left].
  apply elem_of_cons in Hp as [->|Hp].
  - assert (forall l (m : gmap string PeerState), pc_PublicKey q ∉ pc_PublicKey <$> l ->
      fold_left upsert_peer l m !! pc_PublicKey q = m !! pc_PublicKey q) as Hskip.
    { clear. induction l as [|x l IH]; intros m H; cbn in *; [done|].
      apply not_elem_of_cons in H as [Hx Hl]. rewrite IH by done. unfold upsert_peer.
      by rewrite lookup_insert_ne. }
    rewrite Hskip by done. unfold upsert_peer. rewrite !lookup_insert_eq, Hm; [done|apply list_elem_of_here].
  - apply IH; [done| |done]. intros x Hx. unfold upsert_peer. rewrite lookup_insert_ne.
    + apply Hm. by apply list_elem_of_further.
    + intros E. apply Hq. rewrite E. apply list_elem_of_fmap. eauto.
Qed.

(** ** The in-memory backend honours the contract *)

Lemma fake_link_lookup b name :
  links b !! name = fake_link <$> fk_interfaces b !! name.
Proof. cbn. apply lookup_fmap. Qed.

Lemma delete_insert_links name i (m : gmap string fakeInterface) :
  delete name (fake_link <$> <[name := i]> m) = delete name (fake_link <$> m).
Proof. by rewrite fmap_insert, delete_insert_eq. Qed.

Lemma fake_sound_put b name i : fake_sound b -> map_Forall (fun k p => ps_PublicKey p = k) (fi_peers i) ->
  fake_sound (b <| fk_interfaces ::= <[name := i]> |>).
Proof.
  intros [Hf Hp] Hi. split; [done|]. cbn. intros n j Hj.
  destruct (decide (n = name)) as [->|Hn].
  - rewrite lookup_insert_eq in Hj. by injection Hj as <-.
  - rewrite lookup_insert_ne in Hj by done. by apply (Hp n).
Qed.

(** The injection step: it fails without being a missing interface, or does nothing. *)
Lemma fail_law op b : fake_sound b ->
  (exists e b', fail op b = (Err e, b') /\ e <> ErrInterfaceNotFound /\ fake_sound b' /\
     fk_interfaces b' = fk_interfaces b) \/ fail op b = (Ok tt, b).
Proof.
  intros [Hf Hp]. unfold fail. destruct (fk_FailOn b op) as [e|] eqn:E; [left|by right].
  eexists _, _. split; [reflexivity|]. split; [intros ->; by apply (Hf op)|]. split; [|done].
  split; [|done]. intros k. cbn. case_decide; [done|apply Hf].
Qed.


(** A failed or skipped step: nothing but the pending failures changed. *)
Lemma same_interfaces name b b' : fake_sound b' -> fk_interfaces b' = fk_interfaces b ->
  only name b b' /\ links b' = links b.
Proof. intros Hs E. unfold only. cbn. by rewrite E. Qed.

Lemma put_only name i b b' : fake_sound b -> map_Forall (fun k p => ps_PublicKey p = k) (fi_peers i) ->
  fk_interfaces b' = <[name := i]> (fk_interfaces b) -> fk_FailOn b' = fk_FailOn b ->
  only name b b' /\ links b' !! name = Some (fake_link i).
Proof.
  intros Hs Hi E Ef. unfold only. cbn [links sound fake_view]. rewrite E, delete_insert_links, lookup_fmap, lookup_insert_eq.
  split_and!; try done. destruct (fake_sound_put b name i Hs Hi) as [_ H]. split.
  - rewrite Ef. apply Hs.
  - by rewrite E.
Qed.

(** Runs the injected failure of an operation. *)
Ltac injected Hs op b :=
  let Hf := fresh "Hf" in
  destruct (fail_law op b Hs) as [(? & ? & Hf & ? & ? & ?)|Hf]; rewrite Hf in *.

Ltac run_fake := cbv [mbind act_mbind act_bind mret act_mret act_ret act_gets act_modify act_fail record_op
  put_interface fake_interface].

(** The goal's step stored the interface [i], whose peers satisfy [H]. *)
Ltac stored Hs i H :=
  match goal with |- only ?name ?b ?b' /\ _ =>
    let Ho := fresh "Ho" in
    destruct (put_only name i b b' Hs H eq_refl eq_refl) as [Ho ?]; split; [exact Ho|]
  end.

Lemma fake_create_law spec b res b' : fake_sound b -> fake_CreateInterface spec b = (res, b') ->
  only (is_Name spec) b b' /\
  (res = Ok tt -> exists mode, (mode = "" \/ mode = is_BackendMode spec) /\
     links b' !! is_Name spec = Some (MkLink mode (is_ListenPort spec) (is_Obfuscation spec) ∅)).
Proof.
  intros Hs. unfold fake_CreateInterface. run_fake. injected Hs OpCreate b.
  - intros [= <- <-]. split; [by apply same_interfaces|done].
  - destruct (fk_interfaces b !! is_Name spec) eqn:E; intros [= <- <-].
    + split; [by apply same_interfaces|done].
    + stored Hs (MkFake spec no_config "" ∅ 0) (map_Forall_empty (M := gmap string) (fun k p => ps_PublicKey p = k)). eauto.
Qed.

Lemma fake_remove_law name b res b' : fake_sound b -> fake_RemoveInterface name b = (res, b') ->
  only name b b' /\
  match res with Ok _ | Err ErrInterfaceNotFound => links b' !! name = None | Err _ => True end.
Proof.
  intros Hs. unfold fake_RemoveInterface. run_fake. injected Hs OpRemove b.
  - intros [= <- <-]. split; [by apply same_interfaces|]. by destruct x.
  - destruct (fk_interfaces b !! name) eqn:E; intros [= <- <-].
    + unfold only. cbn. rewrite fmap_delete, delete_delete_eq. split_and!; try done.
      * destruct Hs as [Hf' Hp]. split; [done|]. by apply map_Forall_delete.
      * apply lookup_delete_eq.
    + split; [by apply same_interfaces|]. cbn. by rewrite lookup_fmap, E.
Qed.

Lemma fake_apply_law name cfg b res b' : fake_sound b -> fake_ApplyInterfaceConfig name cfg b = (res, b') ->
  only name b b' /\
  (res = Ok tt -> exists l, links b !! name = Some l /\ links b' !! name =
     Some (MkLink (ln_Mode l) (if ic_ListenPort cfg =? 0 then ln_ListenPort l else ic_ListenPort cfg)
             (ic_Obfuscation cfg) (set_peers (ln_Peers l) (ic_Peers cfg)))).
Proof.
  intros Hs. unfold fake_ApplyInterfaceConfig. run_fake. injected Hs OpApply b.
  - intros [= <- <-]. split; [by apply same_interfaces|done].
  - destruct (fk_interfaces b !! name) as [i|] eqn:E; intros [= <- <-].
    + match goal with |- context [insert name ?j] =>
        stored Hs j (set_peers_own_key (ic_Peers cfg) (fi_peers i)) end.
      intros _. exists (fake_link i). by rewrite fake_link_lookup, E.
    + split; [by apply same_interfaces|done].
Qed.

Lemma fake_sync_law name cfg b res b' : fake_sound b -> fake_SyncPeers name cfg b = (res, b') ->
  only name b b' /\
  (res = Ok tt -> exists l, links b !! name = Some l /\
     links b' !! name = Some (l <| ln_Peers := sync_peers (ln_Peers l) cfg |>)).
Proof.
  intros Hs. unfold fake_SyncPeers. run_fake. injected Hs OpSync b.
  - intros [= <- <-]. split; [by apply same_interfaces|done].
  - destruct (fk_interfaces b !! name) as [i|] eqn:E; intros [= <- <-].
    + match goal with |- context [insert name ?j] =>
        stored Hs j (sync_own_key cfg _ (proj2 Hs name i E)) end.
      intros _. exists (fake_link i). by rewrite fake_link_lookup, E.
    + split; [by apply same_interfaces|done].
Qed.

#[export] Instance fake_laws : BackendLaws fake.
Proof.
  split.
  - intros b res b' Hs. cbn [ListInterfaces fake_backend]. unfold fake_ListInterfaces, act_gets.
    intros [= <- <-]. split_and!; try done. intros names [= <-] n.
    unfold sorted_names. rewrite merge_sort_Permutation, list_elem_of_fmap, fake_link_lookup, fmap_is_Some. split.
    + intros ([k i] & -> & Hki%elem_of_map_to_list). cbn. rewrite Hki. eauto.
    + intros [i Hi]. exists (n, i). split; [done|]. by apply elem_of_map_to_list.
  - intros name b res b' Hs. cbn [Dump fake_backend]. unfold fake_Dump. run_fake.
    destruct (fk_interfaces b !! name) as [i|] eqn:E; intros [= <- <-]; split_and!; try done.
    + exists (fake_link i). rewrite fake_link_lookup, E. split; [done|]. unfold shows. split_and!; try done.
      destruct Hs as [_ Hp]. exact (Hp name i E).
    + by rewrite fake_link_lookup, E.
  - exact fake_create_law.
  - exact fake_remove_law.
  - exact fake_apply_law.
  - exact fake_sync_law.
  - intros ensure name addrs b res b' [= <-] Hs. unfold fake_EnsureAddresses. run_fake.
    destruct (fk_interfaces b !! name) as [i|] eqn:E; intros [= <- <-]; [|done]. split.
    + apply fake_sound_put; [done|]. destruct Hs as [_ Hp]. exact (Hp name i E).
    + cbn. rewrite fmap_insert. apply insert_id. rewrite lookup_fmap, E. done.
Qed.
