(* ===== verification/Secrets.v ===== *)
(** * Secrets at rest (internal/secrets)

    The envelopes of the master key, the key ring with its rotation window,
    and the rotation of the key over every encrypted column of the node.

    AES-GCM is Go's standard library: the class [AEAD] with its documented
    laws. Key files change by an atomic rename and a page of rows by one
    transaction; an operation therefore passes through a list of durable
    states, and a crash leaves the node in one of them. *)
From stdpp Require Import base tactics strings gmap list fin_maps sorting.
From Stdlib Require Import ZArith Lia Ascii.
From Stdlib Require String.
From S2P Require Import Prelude GoTime Domain Crypto Tunnel.

Open Scope Z_scope.

(** ** The cipher *)

Class AEAD := {
  NonceSize : nat;
  Overhead : nat;
  Seal : string -> string -> string -> string;          (* key, nonce, plaintext *)
  Open : string -> string -> string -> option string    (* key, nonce, ciphertext *)
}.

Class AEADLaws (A : AEAD) : Prop := {
  open_seal key nonce p : String.length nonce = NonceSize ->
    Open key nonce (Seal key nonce p) = Some p;
  seal_length key nonce p : String.length nonce = NonceSize ->
    String.length (Seal key nonce p) = (String.length p + Overhead)%nat;
  open_length key nonce c p : Open key nonce c = Some p ->
    String.length c = (String.length p + Overhead)%nat
}.

Section Secrets.
Context `{A : AEAD, R : Random}.

Definition ErrTampered : err := Plain "secrets: authentication failed".
Definition ErrStoredEnvelope : err := Plain "secrets: invalid stored envelope".

Definition envelopeVersion : ascii := char_of 1.

Record Cipher := MkCipher { c_key : string }.

Definition NewCipher (key : string) : result err Cipher :=
  if (String.length key =? 32)%nat then Ok (MkCipher key) else Err (Plain "secrets: key must be 32 bytes").

(** [Encrypt], with the nonce it drew. *)
Definition seal_with (nonce : string) (c : Cipher) (plaintext : string) : string :=
  String envelopeVersion (nonce +:+ Seal (c_key c) nonce plaintext).

Definition Decrypt (c : Cipher) (data : string) : result err string :=
  match data with
  | String version rest =>
      if negb (Ascii.eqb version envelopeVersion) then Err ErrTampered
      else if (String.length data <? 1 + NonceSize + Overhead)%nat then Err ErrTampered
      else match Open (c_key c) (str_take NonceSize rest) (str_drop NonceSize rest) with
           | Some pt => Ok pt
           | None => Err ErrTampered
           end
  | EmptyString => Err ErrTampered
  end.

Definition text_prefix : string := "enc:".
Definition envelope_text (b : string) : string := text_prefix +:+ EncodeToString (bytes_of b).

Definition seal_string (nonce : string) (c : Cipher) (plaintext : string) : string :=
  envelope_text (seal_with nonce c plaintext).

Definition IsEncryptedText (s : string) : bool :=
  (4 <? String.length s)%nat && String.eqb (str_take 4 s) text_prefix.

Definition DecryptString (c : Cipher) (s : string) : result err string :=
  if negb (IsEncryptedText s) then Err ErrTampered
  else match DecodeString (str_drop 4 s) with
       | None => Err ErrTampered
       | Some raw => Decrypt c (text_of raw)
       end.

(** ** The key ring *)

Record KeyRing := MkRing { kr_current : Cipher; kr_prev : option Cipher }.

Definition ring_Decrypt (k : KeyRing) (data : string) : result err string :=
  match Decrypt (kr_current k) data, kr_prev k with
  | Ok pt, _ => Ok pt
  | Err _, Some prev => Decrypt prev data
  | Err e, None => Err e
  end.

Definition ring_DecryptString (k : KeyRing) (s : string) : result err string :=
  match DecryptString (kr_current k) s, kr_prev k with
  | Ok pt, _ => Ok pt
  | Err _, Some prev => DecryptString prev s
  | Err e, None => Err e
  end.

(** ** The node's secrets on disk *)

(** A path of the key directory: nothing, a regular file, or something else. *)
Inductive kfile := FAbsent | FOther | FData (data : string).

(** The cells of an encrypted column, by the row's id; [None] is NULL. *)
Record node := MkNode {
  n_current : kfile;
  n_prev : kfile;
  n_columns : gmap (string * string) (gmap string (option string));
  n_draws : nat
}.

#[export] Instance eta_node : Eta node := fun n =>
  MkNode (n_current n) (n_prev n) (n_columns n) (n_draws n).

(** An operation on the node: the durable states it passes through, and its
    outcome. *)
Definition dur (X : Type) : Type := node -> list node * result err (X * node).

Definition dur_ret {X} (x : X) : dur X := fun n => ([], Ok (x, n)).
Definition dur_bind {X Y} (f : X -> dur Y) (m : dur X) : dur Y := fun n =>
  match m n with
  | (t, Ok (x, n')) => let '(t', r) := f x n' in (t ++ t', r)
  | (t, Err e) => (t, Err e)
  end.
#[export] Instance dur_mret : MRet dur := @dur_ret.
#[export] Instance dur_mbind : MBind dur := @dur_bind.

Definition dur_lift {X} (r : result err X) : dur X := fun n =>
  ([], match r with Ok x => Ok (x, n) | Err e => Err e end).
Definition dur_gets {X} (f : node -> X) : dur X := fun n => ([], Ok (f n, n)).
Definition dur_write (f : node -> node) : dur unit := fun n => ([f n], Ok (tt, f n)).
Definition draw (len : nat) : dur string := fun n =>
  ([], Ok (random (n_draws n) len, n <| n_draws := S (n_draws n) |>)).

Fixpoint dur_iter {X} (f : X -> dur unit) (l : list X) : dur unit :=
  match l with [] => dur_ret tt | x :: l => dur_bind (fun _ => dur_iter f l) (f x) end.

Definition Encrypt (c : Cipher) (plaintext : string) : dur string :=
  nonce ← draw NonceSize; dur_ret (seal_with nonce c plaintext).

(** [readKeyFile]: at most 33 bytes of a regular file. *)
Definition readKeyFile (f : kfile) : result err (option string) :=
  match f with
  | FAbsent => Ok None
  | FOther => Err (Plain "secrets: key is not a regular file")
  | FData d => Ok (Some (str_take 33 d))
  end.

Definition absent (f : kfile) : bool := match f with FAbsent => true | _ => false end.

Definition probe : string := "wg-guard-keyring-probe".

Definition selfTest (k : KeyRing) : dur unit :=
  ct ← Encrypt (kr_current k) probe;
  dur_lift match ring_Decrypt k ct with
           | Ok pt => if String.eqb pt probe then Ok tt else Err (Plain "secrets: keyring self-test failed")
           | Err _ => Err (Plain "secrets: keyring self-test failed")
           end.

(** The retained predecessor, when its file exists. *)
Definition prev_cipher (f : kfile) : result err (option Cipher) :=
  p ← readKeyFile f;
  match p with
  | None => Ok None
  | Some d => c ← NewCipher d; Ok (Some c)
  end.

Definition loadKeyRing (create : bool) : dur KeyRing :=
  n ← dur_gets id;
  data ← dur_lift (readKeyFile (n_current n));
  match data with
  | None =>
      if negb (absent (n_prev n)) then dur_lift (Err (Plain "secrets: current key is missing"))
      else if negb create then dur_lift (Err (Plain "secrets: original master key required"))
      else
        key ← draw 32;
        _ ← dur_write (fun n => n <| n_current := FData key |>);
        c ← dur_lift (NewCipher key);
        dur_ret (MkRing c None)
  | Some d =>
      cur ← dur_lift (NewCipher d);
      prev ← dur_lift (prev_cipher (n_prev n));
      _ ← selfTest (MkRing cur prev);
      dur_ret (MkRing cur prev)
  end.

(** ** The encrypted columns *)

Record storedField := MkField {
  sf_table : string;
  sf_column : string;
  sf_since : string;
  sf_keys : option (list string);        (* the predicate [key IN (...)] *)
  sf_text : bool;
  sf_optional : bool
}.

Definition secretSettingKeys : list string := ["backup.password"; "backup.telegram_token"].

Definition nodeFields : list storedField := [
  MkField "tunnel_interfaces" "private_key_encrypted" "" None false false;
  MkField "devices" "private_key_encrypted" "" None false false;
  MkField "devices" "preshared_key_encrypted" "" None false true;
  MkField "sub_links" "token_encrypted" "0004_sub_links.sql" None false false;
  MkField "webhook_endpoints" "secret_encrypted" "" None true false;
  MkField "egress_outbounds" "secret_encrypted" "0017_egress_routing.sql" None false true;
  MkField "settings" "value" "" (Some secretSettingKeys) true false].

Definition MaxStoredEnvelopeBytes : nat := Z.to_nat 8192.

Definition col (f : storedField) : string * string := (sf_table f, sf_column f).

Definition column (f : storedField) (n : node) : gmap string (option string) :=
  default ∅ (n_columns n !! col f).

Definition chosen (f : storedField) (id : string) : bool :=
  match sf_keys f with None => true | Some keys => existsb (String.eqb id) keys end.

(** The rows a statement over the field selects, by a condition on the id. *)
Definition selected (p : string -> bool) (f : storedField) (n : node) : list (string * option string) :=
  map_to_list (filter (fun r => chosen f r.1 && p r.1 = true) (column f n)).

Definition rows : storedField -> node -> list (string * option string) := selected (fun _ => true).

(** The id as the statement returns it. *)
Definition bad_id (id : string) : bool := String.eqb id "" || (128 <? String.length id)%nat.

Definition decode (f : storedField) (v : option string) : result err (option string) :=
  let size := match v with Some e => String.length e | None => 0%nat end in
  if sf_optional f && (size =? 0)%nat then Ok None
  else match v with
  | None => Err ErrStoredEnvelope
  | Some encoded =>
      if (size =? 0)%nat || (MaxStoredEnvelopeBytes <? size)%nat then Err ErrStoredEnvelope
      else if negb (sf_text f) then Ok (Some encoded)
      else if negb (String.eqb (str_take 4 encoded) text_prefix) then Err ErrStoredEnvelope
      else match DecodeString (str_drop 4 encoded) with
           | None => Err ErrStoredEnvelope
           | Some raw => Ok (Some (text_of raw))
           end
  end.

(** SQLite's row order without ORDER BY. *)
Class ScanOrder := {
  scan : list (string * option string) -> list (string * option string);
  scan_perm l : scan l ≡ₚ l
}.
Context `{ScanOrder}.

Definition row_size (r : string * option string) : nat :=
  match r.2 with Some e => String.length e | None => 0%nat end.

(** The rows visited of one field: with [sample] one value at most, of an
    optional field a nonempty one. *)
Definition visited (f : storedField) (sample : bool) (n : node) : list (string * option string) :=
  if sample then
    take 1 (scan (filter (fun r => sf_optional f = false \/ (0 < row_size r)%nat) (rows f n)))
  else scan (rows f n).

Section Walk.
Context {X : Type} (visit : X -> string -> result err X).

Fixpoint walk_rows (f : storedField) (l : list (string * option string)) (x : X) : result err X :=
  match l with
  | [] => Ok x
  | (id, v) :: l =>
      if bad_id id then Err ErrStoredEnvelope
      else
        e ← decode f v;
        x ← match e with Some env => visit x env | None => Ok x end;
        walk_rows f l x
  end.

Fixpoint walk_fields (schema : string) (sample : bool) (n : node) (fs : list storedField) (x : X)
    : result err X :=
  match fs with
  | [] => Ok x
  | f :: fs =>
      x ← (if negb (String.eqb schema "") && String.ltb schema (sf_since f) then Ok x
           else walk_rows f (visited f sample n) x);
      walk_fields schema sample n fs x
  end.

Definition WalkStoredSecrets (schema : string) (sample : bool) (n : node) (x : X) : result err X :=
  walk_fields schema sample n nodeFields x.
End Walk.

(** Startup: a key is created only when the node holds no encrypted value, and
    the samples must open. *)
Definition LoadNodeKeyRing : dur KeyRing :=
  n ← dur_gets id;
  samples ← dur_lift (WalkStoredSecrets (fun acc e => Ok (acc ++ [e])) "" true n []);
  ring ← loadKeyRing (length samples =? 0)%nat;
  _ ← dur_iter (fun item => dur_lift (match ring_Decrypt ring item with
        | Ok _ => Ok tt
        | Err _ => Err (Plain "secrets: master key does not decrypt existing node data") end)) samples;
  dur_ret ring.

(** ** Rotation *)

Definition id_le (a b : string * option string) : Prop := String.leb a.1 b.1 = true.
#[export] Instance id_le_dec a b : Decision (id_le a b).
Proof. unfold id_le. apply _. Defined.

Definition later (after id : string) : bool := String.ltb after id || String.eqb after "".

Definition page (f : storedField) (after : string) (n : node) : list (string * option string) :=
  take 128 (merge_sort id_le (selected (later after) f n)).

Definition rotateStoredValue (f : storedField) (v : option string) (from to : Cipher)
    : dur (option string) :=
  e ← dur_lift (decode f v);
  match e with
  | None => dur_ret None
  | Some envelope =>
      if is_ok (Decrypt to envelope) then dur_ret None
      else match Decrypt from envelope with
      | Err _ => dur_lift (Err ErrTampered)
      | Ok plaintext =>
          sealed ← Encrypt to plaintext;
          dur_ret (Some (if sf_text f then envelope_text sealed else sealed))
      end
  end.

(** The updates of one page, in its order. *)
Fixpoint page_updates (f : storedField) (from to : Cipher) (l : list (string * option string))
    : dur (list (string * string)) :=
  match l with
  | [] => dur_ret []
  | (id, v) :: l =>
      if bad_id id then dur_lift (Err ErrStoredEnvelope)
      else
        value ← rotateStoredValue f v from to;
        updates ← page_updates f from to l;
        dur_ret (match value with Some v => (id, v) :: updates | None => updates end)
  end.

Definition write_cells (f : storedField) (updates : list (string * string)) (n : node) : node :=
  n <| n_columns ::= alter (fun c => foldl (fun c u => alter (fun _ => Some u.2) u.1 c) c updates) (col f) |>.

Definition last_id (l : list (string * option string)) : string :=
  match last l with Some r => r.1 | None => "" end.

Fixpoint rotate_pages (fuel : nat) (f : storedField) (from to : Cipher) (after : string) : dur unit :=
  match fuel with
  | O => dur_lift (Err (Plain "rotate: out of fuel"))
  | S fuel =>
      l ← dur_gets (page f after);
      updates ← page_updates f from to l;
      _ ← match updates with [] => dur_ret tt | _ => dur_write (write_cells f updates) end;
      if (length l <? 128)%nat then dur_ret tt else rotate_pages fuel f from to (last_id l)
  end.

(** The pages of a field: one for each 128 rows, and one that ends the loop. *)
Definition rotateField (f : storedField) (from to : Cipher) : dur unit :=
  n ← dur_gets id;
  rotate_pages (S (length (rows f n))) f from to "".

Definition ReencryptSecrets (from to : Cipher) : dur unit :=
  _ ← dur_iter (fun f => rotateField f from to) nodeFields;
  n ← dur_gets id;
  dur_lift (WalkStoredSecrets (fun _ e => _ ← Decrypt to e; Ok tt) "" false n tt).

Definition Rotate : dur KeyRing :=
  n ← dur_gets id;
  data ← dur_lift (readKeyFile (n_current n));
  match data with
  | None => dur_lift (Err (Plain "secrets: rotate: read current key"))
  | Some oldData =>
      oldCipher ← dur_lift (NewCipher oldData);
      previous ← dur_lift (readKeyFile (n_prev n));
      pair ← match previous with
             | Some p => prev ← dur_lift (NewCipher p); dur_ret (prev, oldCipher)
             | None =>
                 newKey ← draw 32;
                 newCipher ← dur_lift (NewCipher newKey);
                 _ ← dur_write (fun n => n <| n_prev := FData oldData |>);
                 _ ← dur_write (fun n => n <| n_current := FData newKey |>);
                 dur_ret (oldCipher, newCipher)
             end;
      _ ← ReencryptSecrets pair.1 pair.2;
      _ ← dur_write (fun n => n <| n_prev := FAbsent |>);
      dur_ret (MkRing pair.2 None)
  end.

End Secrets.


(** ** Lemmas: envelopes *)

Section Facts.
Context `{A : AEAD, !AEADLaws A, R : Random, !RandomLength R, O : ScanOrder}.

Lemma length_str_take n s : (n <= String.length s)%nat -> String.length (str_take n s) = n.
Proof.
  revert s. induction n as [|n IH]; intros [|c s]; cbn; intros; [done..|lia|].
  rewrite IH; [done|]. cbn in *. lia.
Qed.

Lemma length_str_drop n s : String.length (str_drop n s) = (String.length s - n)%nat.
Proof. revert s. induction n as [|n IH]; intros [|c s]; cbn; auto. Qed.

Lemma Decrypt_seal c nonce p : String.length nonce = NonceSize ->
  Decrypt c (seal_with nonce c p) = Ok p.
Proof.
  intros Hn. unfold seal_with, Decrypt. rewrite Ascii.eqb_refl. cbn [negb].
  pose proof (seal_length (c_key c) nonce p Hn).
  destruct (Nat.ltb_spec (String.length (String envelopeVersion (nonce +:+ Seal (c_key c) nonce p)))
              (1 + NonceSize + Overhead)) as [Hl|_].
  - cbn [String.length] in Hl. rewrite str_length_app in Hl. lia.
  - rewrite <- Hn at 1 2. rewrite str_take_app, str_drop_app. by rewrite open_seal.
Qed.

Lemma length_seal c nonce p : String.length nonce = NonceSize ->
  String.length (seal_with nonce c p) = (1 + NonceSize + String.length p + Overhead)%nat.
Proof.
  intros Hn. unfold seal_with. cbn [String.length]. rewrite str_length_app, seal_length by done. lia.
Qed.

Lemma Decrypt_length c env p : Decrypt c env = Ok p ->
  String.length env = (1 + NonceSize + String.length p + Overhead)%nat.
Proof.
  destruct env as [|v rest]; [done|]. unfold Decrypt. destruct (negb _); [done|].
  destruct (Nat.ltb_spec (String.length (String v rest)) (1 + NonceSize + Overhead)) as [|Hl]; [done|].
  destruct (Open _ _ _) as [q|] eqn:Ho; [|done]. intros [= ->]. apply open_length in Ho.
  rewrite length_str_drop in Ho. cbn [String.length] in *. lia.
Qed.

(** A group of three bytes, or what is left of one, takes four characters. *)
Lemma length_Encode l : Z.of_nat (String.length (EncodeToString l)) = 4 * ((Z.of_nat (length l) + 2) / 3).
Proof.
  induction l as [|x|x y|x y z l IH] using list_ind3; [done..|].
  cbn [EncodeToString String.length length]. rewrite !Nat2Z.inj_succ, IH.
  replace (Z.succ (Z.succ (Z.succ (Z.of_nat (length l)))) + 2) with (1 * 3 + (Z.of_nat (length l) + 2)) by lia.
  rewrite Z.div_add_l by lia. lia.
Qed.

Lemma length_quads n s l : (String.length s <= n)%nat -> b64_quads s = Some l ->
  4 * ((Z.of_nat (length l) + 2) / 3) <= Z.of_nat (String.length s).
Proof.
  revert s l. induction n as [|n IH]; intros s l Hn Hs.
  { destruct s; [|cbn in Hn; lia]. injection Hs as <-. done. }
  destruct s as [|a [|b [|c [|d rest]]]]; [by injection Hs as <-|done..|]. revert Hs.
  cbn -[b64_val Z.mul Z.div].
  destruct (b64_val a) as [x|]; [|done]; destruct (b64_val b) as [y|]; cbn [mbind option_bind]; [|done].
  destruct (Ascii.eqb c "=").
  { destruct (Ascii.eqb d "=" && _); [|done]. intros [= <-]. cbn [length String.length]. dlia. }
  destruct (b64_val c) as [z|]; cbn [mbind option_bind]; [|done]. destruct (Ascii.eqb d "=").
  { destruct (String.eqb rest ""); [|done]. intros [= <-]. cbn [length String.length]. dlia. }
  destruct (b64_val d) as [w|]; cbn [mbind option_bind]; [|done].
  destruct (b64_quads rest) as [bs|] eqn:Hb; cbn [mbind option_bind]; [|done]. intros [= <-].
  apply IH in Hb; [|cbn in Hn; lia]. cbn [length String.length].
  replace (Z.of_nat (S (S (S (length bs)))) + 2) with (1 * 3 + (Z.of_nat (length bs) + 2)) by lia.
  rewrite Z.div_add_l by lia. lia.
Qed.

Lemma skip_breaks_length s : (String.length (skip_breaks s) <= String.length s)%nat.
Proof. induction s as [|c s IH]; cbn; [done|]. destruct (line_break c); cbn; lia. Qed.

Lemma Decode_text b : DecodeString (EncodeToString (bytes_of b)) = Some (bytes_of b).
Proof. apply Decode_Encode. apply bytes_of_range. Qed.

(** A value resealed at the length it had fits the column it came from. *)
Lemma decode_resealed f v env sealed : decode f v = Ok (Some env) ->
  String.length sealed = String.length env ->
  decode f (Some (if sf_text f then envelope_text sealed else sealed)) = Ok (Some sealed).
Proof.
  unfold decode. intros Hd Hl. destruct v as [v|]; [|by destruct (_ && _) in Hd].
  destruct (sf_optional f && (String.length v =? 0)%nat) eqn:Ho; [done|].
  destruct (Nat.eqb_spec (String.length v) 0) as [|Hv]; [done|]. cbn [orb] in Hd.
  destruct (Nat.ltb_spec MaxStoredEnvelopeBytes (String.length v)) as [|Hm]; [done|].
  destruct (sf_text f) eqn:Ht; cbn [negb] in *.
  - destruct (String.eqb_spec (str_take 4 v) text_prefix) as [Hp|]; [|done].
    destruct (DecodeString (str_drop 4 v)) as [raw|] eqn:Hr; [|done]. injection Hd as <-.
    assert (Z.of_nat (String.length (EncodeToString (bytes_of sealed)))
            <= Z.of_nat (String.length (str_drop 4 v))) as Hle.
    { rewrite length_Encode, length_bytes_of, Hl, length_text_of.
      apply (length_quads _ _ _ (le_n _)) in Hr. pose proof (skip_breaks_length (str_drop 4 v)). lia. }
    rewrite length_str_drop in Hle.
    assert (String.length (envelope_text sealed) = (4 + String.length (EncodeToString (bytes_of sealed)))%nat)
      as Hs by done.
    destruct (Nat.eqb_spec (String.length (envelope_text sealed)) 0) as [|_]; [lia|].
    rewrite andb_false_r. destruct (Nat.ltb_spec MaxStoredEnvelopeBytes (String.length (envelope_text sealed))).
    + assert (4 <= String.length v)%nat; [|lia].
      destruct v as [|? [|? [|? [|? v]]]]; cbn in *; try done; lia.
    + change (str_take 4 (envelope_text sealed)) with text_prefix. rewrite String.eqb_refl. cbn [orb negb].
      change (str_drop 4 (envelope_text sealed)) with (EncodeToString (bytes_of sealed)).
      by rewrite Decode_text, text_of_bytes.
  - injection Hd as <-. rewrite Hl.
    destruct (Nat.eqb_spec (String.length v) 0) as [|_]; [lia|]. rewrite andb_false_r.
    destruct (Nat.ltb_spec MaxStoredEnvelopeBytes (String.length v)); [lia|done].
Qed.

(** ** Lemmas: what the rotation preserves *)

Definition ring_of (n : node) : option KeyRing :=
  match readKeyFile (n_current n) with
  | Ok (Some d) =>
      match NewCipher d, prev_cipher (n_prev n) with Ok c, Ok p => Some (MkRing c p) | _, _ => None end
  | _ => None
  end.

(** The plaintexts of the node: one for each cell that holds an envelope. *)
Definition plaintexts : Type := string * string -> string -> string.

Definition cell_opens (P : plaintexts) (k : KeyRing) (f : storedField) (id : string) (v : option string) : Prop :=
  exists e, decode f v = Ok e /\ forall env, e = Some env -> ring_Decrypt k env = Ok (P (col f) id).

(** The cell needs the key [c] only. *)
Definition cell_done (c : Cipher) (f : storedField) (v : option string) : Prop :=
  exists e, decode f v = Ok e /\ forall env, e = Some env -> is_ok (Decrypt c env) = true.

(** Every secret of the node opens, to its plaintext, under the key files. *)
Definition opens (P : plaintexts) (k : KeyRing) (n : node) : Prop :=
  ring_of n = Some k /\
  forall f id v, f ∈ nodeFields -> (id, v) ∈ rows f n -> bad_id id = false /\ cell_opens P k f id v.

Definition readable (P : plaintexts) (n : node) : Prop := exists k, opens P k n.

(** The operation succeeds, through durable states that satisfy [I]. *)
Definition runs {X} (I : node -> Prop) (Q : X -> node -> Prop) (m : dur X) (n : node) : Prop :=
  Forall I (m n).1 /\ exists x n', (m n).2 = Ok (x, n') /\ Q x n'.

Lemma runs_bind {X Y} I Q (f : X -> dur Y) (m : dur X) n :
  runs I (fun x n' => runs I Q (f x) n') m n -> runs I Q (x ← m; f x) n.
Proof.
  intros (Ht & x & n1 & Hm & Ht' & y & n2 & Hf & HQ). unfold runs, mbind, dur_mbind, dur_bind.
  destruct (m n) as [t r]. cbn in Hm, Ht. subst r. destruct (f x n1) as [t' r']. cbn in Hf, Ht'. subst r'.
  split; [by apply Forall_app|eauto].
Qed.

Lemma runs_ret {X} I (Q : X -> node -> Prop) x n : Q x n -> runs I Q (dur_ret x) n.
Proof. intros HQ. split; [constructor|by exists x, n]. Qed.

Lemma runs_lift {X} I (Q : X -> node -> Prop) (r : result err X) x n :
  r = Ok x -> Q x n -> runs I Q (dur_lift r) n.
Proof. intros -> HQ. split; [constructor|by exists x, n]. Qed.

Lemma runs_gets {X} I (Q : X -> node -> Prop) f n : Q (f n) n -> runs I Q (dur_gets f) n.
Proof. intros HQ. split; [constructor|by exists (f n), n]. Qed.

Lemma runs_write I (Q : unit -> node -> Prop) f n : I (f n) -> Q tt (f n) -> runs I Q (dur_write f) n.
Proof. intros HI HQ. split; [by repeat constructor|by exists tt, (f n)]. Qed.

Lemma runs_mono {X} (I : node -> Prop) (Q Q' : X -> node -> Prop) m n :
  runs I Q m n -> (forall x n', Q x n' -> Q' x n') -> runs I Q' m n.
Proof. intros (Ht & x & n' & Hm & HQ) Himp. split; [done|]. exists x, n'. auto. Qed.

Lemma runs_iter {X} I (J : node -> Prop) (f : X -> dur unit) l n :
  J n -> (forall x n, x ∈ l -> J n -> runs I (fun _ => J) (f x) n) -> runs I (fun _ => J) (dur_iter f l) n.
Proof.
  revert n. induction l as [|x l IH]; intros n HJ Hf; cbn [dur_iter]; [by apply runs_ret|].
  apply (runs_bind I _ (fun _ => dur_iter f l)).
  apply (runs_mono _ _ _ _ _ (Hf x n (list_elem_of_here x l) HJ)). intros _ n' HJ'.
  apply IH; [done|]. intros y n'' Hy. apply Hf. by apply list_elem_of_further.
Qed.

(** Two nodes that differ in the draws only. *)
Definition same_disk (n n' : node) : Prop :=
  n_current n' = n_current n /\ n_prev n' = n_prev n /\ n_columns n' = n_columns n.

#[local] Instance same_disk_refl : Reflexive same_disk.
Proof. by intros n. Qed.
#[local] Instance same_disk_trans : Transitive same_disk.
Proof. intros n1 n2 n3 (?&?&?) (?&?&?). repeat split; congruence. Qed.

Lemma selected_same p f n n' : n_columns n' = n_columns n -> selected p f n' = selected p f n.
Proof. intros E. unfold selected, column. by rewrite E. Qed.

Lemma page_same f after n n' : n_columns n' = n_columns n -> page f after n' = page f after n.
Proof. intros E. unfold page. by rewrite (selected_same _ f n n'). Qed.

Lemma opens_same P k n n' : same_disk n n' -> opens P k n -> opens P k n'.
Proof.
  intros (E1 & E2 & E3) [Hr Hc]. split.
  - unfold ring_of in *. by rewrite E1, E2.
  - intros f id v Hf. unfold rows. rewrite (selected_same _ _ n n') by done. by apply Hc.
Qed.

Lemma elem_of_selected p f n id v :
  (id, v) ∈ selected p f n <-> column f n !! id = Some v /\ chosen f id = true /\ p id = true.
Proof.
  unfold selected. rewrite elem_of_map_to_list, map_lookup_filter_Some. cbn.
  rewrite andb_true_iff. tauto.
Qed.

Lemma Encrypt_runs I c p n :
  runs I (fun sealed n' => same_disk n n' /\ Decrypt c sealed = Ok p /\
            String.length sealed = (1 + NonceSize + String.length p + Overhead)%nat) (Encrypt c p) n.
Proof.
  unfold Encrypt. apply runs_bind. split; [constructor|]. do 2 eexists. split; [done|].
  apply runs_ret. split_and!; [done| |].
  - apply Decrypt_seal, random_length.
  - apply length_seal, random_length.
Qed.

(** The rotation window from [from] to [to]. *)
Definition window (from to : Cipher) : KeyRing := MkRing to (Some from).

Lemma rotateStoredValue_runs I P from to f id v n : cell_opens P (window from to) f id v ->
  runs I (fun w n' => same_disk n n' /\
            match w with
            | None => cell_done to f v
            | Some w => cell_opens P (window from to) f id (Some w) /\ cell_done to f (Some w)
            end) (rotateStoredValue f v from to) n.
Proof.
  intros (e & Hd & Hp). unfold rotateStoredValue. apply runs_bind, (runs_lift _ _ _ e); [done|].
  destruct e as [env|]; [|by apply runs_ret; split; [done|exists None]].
  specialize (Hp env eq_refl). unfold ring_Decrypt in Hp. cbn in Hp.
  destruct (Decrypt to env) as [q|] eqn:Hto; cbn [is_ok].
  { apply runs_ret. split; [done|]. exists (Some env). split; [done|]. intros ? [= <-]. by rewrite Hto. }
  rewrite Hp. apply runs_bind. eapply runs_mono; [apply Encrypt_runs|].
  intros sealed n' (Hs & Hopen & Hlen). apply runs_ret. split; [done|].
  assert (decode f (Some (if sf_text f then envelope_text sealed else sealed)) = Ok (Some sealed)) as Hd'.
  { apply (decode_resealed f v env); [done|]. rewrite Hlen. symmetry. by apply Decrypt_length in Hp. }
  split; exists (Some sealed); (split; [done|]); intros ? [= <-].
  - unfold ring_Decrypt. cbn. by rewrite Hopen.
  - by rewrite Hopen.
Qed.

(** The update written for a cell opens, and needs the new key only; a cell
    without an update needed it already. *)
Definition good_update (P : plaintexts) (from to : Cipher) (f : storedField) (u : string * string) : Prop :=
  cell_opens P (window from to) f u.1 (Some u.2) /\ cell_done to f (Some u.2).

Lemma page_updates_runs I P from to f l n : NoDup l.*1 ->
  (forall id v, (id, v) ∈ l -> bad_id id = false /\ cell_opens P (window from to) f id v) ->
  runs I (fun us n' => same_disk n n' /\ Forall (good_update P from to f) us /\
            NoDup us.*1 /\ us.*1 ⊆ l.*1 /\
            forall id v, (id, v) ∈ l -> id ∈ us.*1 \/ cell_done to f v)
    (page_updates f from to l) n.
Proof.
  revert n. induction l as [|[id v] l IH]; intros n Hnd Hl; cbn [page_updates].
  { apply runs_ret. split_and!; [done|constructor|constructor|done|]. by intros ? ? ?%elem_of_nil. }
  apply NoDup_cons in Hnd as [Hid Hnd].
  destruct (Hl id v) as [-> Hc]; [apply list_elem_of_here|].
  apply runs_bind. eapply runs_mono; [by apply (rotateStoredValue_runs _ P _ _ _ id)|].
  intros w n1 [Hs1 Hw]. apply runs_bind. eapply runs_mono.
  { apply IH; [done|]. intros. apply Hl. by apply list_elem_of_further. }
  intros us n2 (Hs2 & Hus & Hndu & Hsub & Hdone). apply runs_ret.
  split; [by transitivity n1|]. destruct w as [w|].
  - split_and!; [by constructor| | |]; cbn [fmap list_fmap fst].
    + constructor; [intros Hin; by apply Hid, Hsub|done].
    + by apply list_subseteq_skip.
    + intros id' v' [[= -> ->]|Hin]%elem_of_cons; [left; apply list_elem_of_here|].
      destruct (Hdone _ _ Hin); [left; by apply list_elem_of_further|by right].
  - split_and!; [done|done|cbn [fmap list_fmap fst]; by apply list_subseteq_cons|].
    intros id' v' [[= -> ->]|Hin]%elem_of_cons; [by right|by apply Hdone].
Qed.

(** Writing the updates of a page: each cell keeps its value or has its
    update. *)
Lemma write_lookup (us : list (string * string)) (c : gmap string (option string)) id : NoDup us.*1 ->
  (forall v, (id, v) ∈ us -> is_Some (c !! id) ->
     foldl (fun c u => alter (fun _ => Some u.2) u.1 c) c us !! id = Some (Some v)) /\
  (id ∉ us.*1 -> foldl (fun c u => alter (fun _ => Some u.2) u.1 c) c us !! id = c !! id).
Proof.
  revert c. induction us as [|[k w] us IH]; intros c Hnd; cbn [foldl fst snd].
  { split; [|done]. by intros ? ?%elem_of_nil. }
  apply NoDup_cons in Hnd as [Hk Hnd]. destruct (IH (alter (fun _ => Some w) k c) Hnd) as [IH1 IH2].
  split.
  - intros v [[= -> ->]|Hin]%elem_of_cons Hc.
    + rewrite IH2 by done. rewrite lookup_alter_eq. by destruct Hc as [? ->].
    + apply IH1; [done|]. rewrite lookup_alter_is_Some. done.
  - intros Hn. cbn in Hn. rewrite not_elem_of_cons in Hn. destruct Hn as [Hne Hn].
    rewrite IH2 by done. by rewrite lookup_alter_ne by congruence.
Qed.

Lemma nodeFields_cols : NoDup (col <$> nodeFields).
Proof. refine (bool_decide_unpack (NoDup (col <$> nodeFields)) _). vm_compute. exact I. Qed.

Lemma col_inj f g : f ∈ nodeFields -> g ∈ nodeFields -> col f = col g -> f = g.
Proof.
  intros [i Hi]%list_elem_of_lookup [j Hj]%list_elem_of_lookup E.
  assert (i = j) as ->; [|congruence].
  apply (NoDup_lookup _ _ _ (col f) nodeFields_cols); rewrite list_lookup_fmap; [by rewrite Hi|by rewrite Hj, E].
Qed.

Lemma alter_nothing {V} (g : V -> V) (k : string) : alter g k (∅ : gmap string V) = ∅.
Proof. apply map_eq. intros i. rewrite lookup_alter. by case_decide. Qed.

Lemma column_write f g us n : column g (write_cells f us n) =
  if decide (col f = col g) then foldl (fun c u => alter (fun _ => Some u.2) u.1 c) (column g n) us
  else column g n.
Proof.
  unfold column, write_cells, upd_field. cbn -[alter foldl]. case_decide as E.
  - rewrite <- E. rewrite lookup_alter_eq. destruct (n_columns n !! col f); cbn [default option_fmap option_map fmap]; [done|].
    induction us as [|u us IH]; cbn [foldl]; [done|]. by rewrite alter_nothing.
  - by rewrite lookup_alter_ne.
Qed.

Lemma length_selected p f n :
  length (selected p f n) = size (filter (fun id => chosen f id && p id = true) (dom (column f n))).
Proof. unfold selected. by rewrite length_map_to_list, <- size_dom, filter_dom_L. Qed.

Lemma selected_NoDup p f n : NoDup (selected p f n).*1.
Proof. apply NoDup_fst_map_to_list. Qed.

#[local] Instance id_le_trans : Transitive id_le.
Proof. intros a b c. apply str_leb_trans. Qed.
#[local] Instance id_le_total : Total id_le.
Proof. intros a b. apply String.leb_total. Qed.

Lemma page_perm f after n :
  exists rest, selected (later after) f n ≡ₚ page f after n ++ rest /\
    (length (page f after n) < 128 -> rest = [])%nat /\
    forall r r', r ∈ page f after n -> r' ∈ rest -> id_le r r'.
Proof.
  unfold page. set (l := merge_sort id_le (selected (later after) f n)).
  exists (drop 128 l). split_and!.
  - rewrite take_drop. symmetry. apply merge_sort_Permutation.
  - rewrite length_take. intros Hl. apply drop_ge. lia.
  - assert (StronglySorted id_le l) as Hs by apply (StronglySorted_merge_sort _ _).
    rewrite <- (take_drop 128 l) in Hs. intros r r' Hr Hr'.
    exact (StronglySorted_app_1_elem_of _ _ _ _ _ Hs Hr Hr').
Qed.

Lemma page_rows f after n id v : (id, v) ∈ page f after n ->
  column f n !! id = Some v /\ chosen f id = true /\ later after id = true.
Proof.
  intros Hin. destruct (page_perm f after n) as (rest & Hp & _).
  apply elem_of_selected. rewrite Hp. apply elem_of_app. by left.
Qed.

Lemma page_NoDup f after n : NoDup (page f after n).*1.
Proof.
  destruct (page_perm f after n) as (rest & Hp & _). pose proof (selected_NoDup (later after) f n) as Hn.
  rewrite Hp, fmap_app in Hn. by apply NoDup_app in Hn as [Hn _].
Qed.

(** The rows of [f] whose turn is over need the new key only. *)
Definition done_upto (to : Cipher) (f : storedField) (after : string) (n : node) : Prop :=
  forall id v, (id, v) ∈ rows f n -> later after id = false -> cell_done to f v.

Definition field_done (to : Cipher) (f : storedField) (n : node) : Prop :=
  forall id v, (id, v) ∈ rows f n -> cell_done to f v.

Lemma elem_of_rows f n id v : (id, v) ∈ rows f n <-> column f n !! id = Some v /\ chosen f id = true.
Proof. unfold rows. rewrite elem_of_selected. tauto. Qed.

Section Write.
Variables (P : plaintexts) (from to : Cipher) (f : storedField) (us : list (string * string)) (n : node).
Hypothesis (Hf : f ∈ nodeFields) (Hnd : NoDup us.*1) (Hus : Forall (good_update P from to f) us).
Hypothesis Hin : forall id, id ∈ us.*1 -> is_Some (column f n !! id).

Lemma written_row g id v : g ∈ nodeFields -> (id, v) ∈ rows g (write_cells f us n) ->
  (g = f /\ exists w, (id, w) ∈ us /\ v = Some w) \/
  ((id, v) ∈ rows g n /\ (g = f -> id ∉ us.*1)).
Proof.
  intros Hg [Hl Hc]%elem_of_rows. rewrite column_write in Hl. case_decide as E.
  - apply col_inj in E as <-; [|done|done].
    destruct (write_lookup us (column f n) id Hnd) as [W1 W2].
    destruct (decide (id ∈ us.*1)) as [Hi|Hi].
    + left. split; [done|]. pose proof (Hin _ Hi) as Hs.
      apply list_elem_of_fmap in Hi as ([id' w] & -> & Hw). exists w. split; [done|].
      cbn [fst] in *. rewrite (W1 w Hw Hs) in Hl. congruence.
    + right. split; [|done]. apply elem_of_rows. by rewrite <- W2.
  - right. split; [by apply elem_of_rows|]. by intros ->.
Qed.

Lemma good_update_of id w : (id, w) ∈ us -> good_update P from to f (id, w).
Proof. intros Hi. rewrite Forall_forall in Hus. by apply Hus. Qed.

Lemma write_opens : opens P (window from to) n -> opens P (window from to) (write_cells f us n).
Proof.
  intros [Hr Hc]. split; [done|]. intros g id v Hg Hrow.
  destruct (written_row g id v Hg Hrow) as [(-> & w & Hw & ->)|[Hold _]]; [|by apply Hc].
  split; [|by apply (good_update_of id w)].
  destruct (Hin id) as [v Hv]; [by apply (list_elem_of_fmap_2 fst _ (id, w))|].
  apply (Hc f id v Hg). apply elem_of_rows. apply elem_of_rows in Hrow as [_ ?]. done.
Qed.

Lemma write_field_done g : g ∈ nodeFields -> field_done to g n -> field_done to g (write_cells f us n).
Proof.
  intros Hg Hd id v Hrow.
  destruct (written_row g id v Hg Hrow) as [(-> & w & Hw & ->)|[Hold _]]; [|by apply (Hd id)].
  by apply (good_update_of id w).
Qed.

Lemma write_dom : dom (column f (write_cells f us n)) = dom (column f n).
Proof.
  rewrite column_write, decide_True by done. clear. generalize (column f n) as c.
  induction us as [|u l IH]; intros c; cbn [foldl]; [done|]. by rewrite IH, dom_alter_L.
Qed.
End Write.

(** What one page does, whether or not it had anything to write. *)
Definition page_written (P : plaintexts) (from to : Cipher) (f : storedField)
    (us : list (string * string)) (n n' : node) : Prop :=
  opens P (window from to) n' /\
  (forall g, g ∈ nodeFields -> field_done to g n -> field_done to g n') /\
  dom (column f n') = dom (column f n) /\
  forall id v, (id, v) ∈ rows f n' -> cell_done to f v \/ ((id, v) ∈ rows f n /\ id ∉ us.*1).

Lemma page_write_runs P from to f after n us n1 : f ∈ nodeFields ->
  opens P (window from to) n -> same_disk n n1 -> Forall (good_update P from to f) us ->
  NoDup us.*1 -> us.*1 ⊆ (page f after n).*1 ->
  runs (readable P) (fun _ => page_written P from to f us n)
    (match us with [] => dur_ret tt | _ => dur_write (write_cells f us) end) n1.
Proof.
  intros Hf Ho Hs Hus Hnd Hsub. pose proof (opens_same _ _ _ _ Hs Ho) as Ho1. destruct Hs as (_ & _ & E).
  destruct us as [|u us'] eqn:Eus.
  - apply runs_ret. split_and!; [done| | |].
    + intros g Hg Hd id v. unfold rows. rewrite (selected_same _ _ n n1) by done. apply Hd.
    + unfold column. by rewrite E.
    + intros id v. unfold rows. rewrite (selected_same _ _ n n1) by done. intros Hr. right.
      split; [done|]. apply not_elem_of_nil.
  - rewrite <- Eus in *.
    assert (forall id, id ∈ us.*1 -> is_Some (column f n1 !! id)) as Hin.
    { intros id Hi. apply Hsub in Hi. apply list_elem_of_fmap in Hi as ([id' v] & -> & Hp).
      apply page_rows in Hp as [Hp _]. unfold column in *. rewrite E. cbn. eauto. }
    apply runs_write.
    + exists (window from to). by apply write_opens.
    + split_and!; [by apply write_opens| | |].
      * intros g Hg Hd. apply (write_field_done P from to f us n1); [done..|].
        intros id v. unfold rows. rewrite (selected_same _ _ n n1) by done. apply Hd.
      * rewrite write_dom by done. unfold column. by rewrite E.
      * intros id v Hr. destruct (written_row f us n1 Hf Hnd Hin f id v Hf Hr) as [(_ & w & Hw & ->)|[Hold Hni]].
        { left. by apply (good_update_of P from to f us Hus id w). }
        right. split; [|by apply Hni]. unfold rows in *. by rewrite (selected_same _ _ n n1) in Hold.
Qed.

Lemma page_progress P from to f after us n n' : page_written P from to f us n n' ->
  done_upto to f after n ->
  (forall id v, (id, v) ∈ page f after n -> id ∈ us.*1 \/ cell_done to f v) ->
  (length (page f after n) < 128 -> field_done to f n')%nat /\
  (forall id v, last (page f after n) = Some (id, v) -> id <> "" -> done_upto to f id n').
Proof.
  intros (_ & _ & _ & Hw) Hup Hpage. destruct (page_perm f after n) as (rest & Hperm & Hrest & Hord).
  assert (forall id v, (id, v) ∈ rows f n -> id ∉ us.*1 -> cell_done to f v \/ (id, v) ∈ rest) as Hrow.
  { intros id v Hr Hni. destruct (later after id) eqn:Hl; [|left; by apply (Hup id)].
    assert ((id, v) ∈ page f after n ++ rest) as [Hi|Hi]%elem_of_app.
    { rewrite <- Hperm. apply elem_of_selected. by apply elem_of_rows in Hr as [? ?]. }
    - left. by destruct (Hpage _ _ Hi).
    - by right. }
  split.
  - intros Hlt id v Hr. destruct (Hw _ _ Hr) as [?|[Hold Hni]]; [done|].
    destruct (Hrow _ _ Hold Hni) as [?|Hin]; [done|]. rewrite Hrest in Hin by done. by apply elem_of_nil in Hin.
  - intros k w Hlast Hk id v Hr Hlate. destruct (Hw _ _ Hr) as [?|[Hold Hni]]; [done|].
    destruct (Hrow _ _ Hold Hni) as [?|Hin]; [done|]. exfalso. apply last_Some_elem_of in Hlast.
    pose proof (Hord _ _ Hlast Hin) as Hle. unfold id_le in Hle. cbn in Hle.
    unfold later in Hlate. rewrite str_ltb_leb in Hlate. apply orb_false_iff in Hlate as [Hge _].
    apply negb_false_iff in Hge. assert (k = id) as -> by (by apply String.leb_antisym).
    pose proof (selected_NoDup (later after) f n) as Hnd. rewrite Hperm, fmap_app in Hnd.
    apply NoDup_app in Hnd as (_ & Hdis & _).
    apply (Hdis id); [by apply (list_elem_of_fmap_2 fst _ (id, w))|by apply (list_elem_of_fmap_2 fst _ (id, v))].
Qed.

(** The ids after the last one of a full page are fewer. *)
Lemma page_shrinks f after n n' id v : last (page f after n) = Some (id, v) -> id <> "" ->
  dom (column f n') = dom (column f n) ->
  (length (selected (later id) f n') < length (selected (later after) f n))%nat.
Proof.
  intros Hlast Hid Hdom. apply last_Some_elem_of, page_rows in Hlast as (Hl & Hc & Hlate).
  rewrite !length_selected, Hdom. apply subset_size, strict_spec_alt. split.
  - intros k. rewrite !elem_of_filter, !andb_true_iff. intros [[Hk Hlt] Hin]. split_and!; [done| |done].
    unfold later in *. destruct (String.eqb_spec after "") as [->|]; [apply orb_true_r|]. rewrite orb_false_r in *.
    destruct (String.eqb_spec id "") as [|_]; [done|]. rewrite orb_false_r in Hlt.
    rewrite str_ltb_leb in *. apply negb_true_iff in Hlt, Hlate. apply negb_true_iff.
    destruct (String.leb k after) eqn:E; [|done].
    destruct (String.leb_total id k) as [Hik|]; [|congruence].
    by rewrite (str_leb_trans id k after Hik E) in Hlate.
  - intros E. assert (id ∈ filter (fun k => chosen f k && later after k = true) (dom (column f n))) as Hin.
    { apply elem_of_filter. rewrite Hc, Hlate. split; [done|]. apply elem_of_dom. eauto. }
    rewrite <- E in Hin. apply elem_of_filter in Hin as [[_ Hlt]%andb_true_iff _].
    unfold later in Hlt. rewrite str_ltb_leb, str_leb_refl in Hlt. destruct (String.eqb_spec id ""); done.
Qed.

Definition keeps_done (to : Cipher) (n n' : node) : Prop :=
  forall g, g ∈ nodeFields -> field_done to g n -> field_done to g n'.

Lemma last_id_some l (r : string * option string) : last l = Some r -> last_id l = r.1.
Proof. unfold last_id. by intros ->. Qed.

Lemma rotate_pages_runs P from to f : f ∈ nodeFields -> forall fuel after n,
  opens P (window from to) n -> done_upto to f after n ->
  (length (selected (later after) f n) < fuel)%nat ->
  runs (readable P) (fun _ n' => opens P (window from to) n' /\ field_done to f n' /\ keeps_done to n n')
    (rotate_pages fuel f from to after) n.
Proof.
  intros Hf. induction fuel as [|fuel IH]; intros after n Ho Hup Hfuel; [lia|]. cbn [rotate_pages].
  assert (forall id v, (id, v) ∈ page f after n -> bad_id id = false /\ cell_opens P (window from to) f id v) as Hcells.
  { intros id v (? & ? & _)%page_rows. apply (proj2 Ho f id v Hf). by apply elem_of_rows. }
  apply runs_bind, runs_gets, runs_bind. eapply runs_mono.
  { apply (page_updates_runs _ P); [apply page_NoDup|apply Hcells]. }
  intros us n1 (Hs & Hus & Hnd & Hsub & Hdone). apply runs_bind.
  eapply runs_mono; [by apply (page_write_runs P from to f after n us n1)|].
  intros x n2 Hw. cbn beta in Hw. destruct (page_progress _ _ _ _ _ _ _ _ Hw Hup Hdone) as [Hshort Hfull].
  pose proof Hw as (Ho2 & Hkeep & Hdom & _).
  destruct (Nat.ltb_spec (length (page f after n)) 128) as [Hlt|Hge].
  { apply runs_ret. split_and!; [done|by apply Hshort|done]. }
  destruct (last (page f after n)) as [[id v]|] eqn:Hlast.
  2: { apply last_None in Hlast. rewrite Hlast in Hge. cbn in Hge. lia. }
  rewrite (last_id_some _ _ Hlast). cbn [fst].
  assert (id <> "") as Hid.
  { pose proof (last_Some_elem_of _ _ Hlast) as [Hb _]%Hcells. intros E. by rewrite E in Hb. }
  eapply runs_mono; [apply IH; [done|by apply (Hfull id v)|]|].
  - pose proof (page_shrinks f after n n2 id v Hlast Hid Hdom). lia.
  - intros _ n3 (Ho3 & Hd3 & Hk3). split_and!; [done..|]. intros g Hg Hd. apply Hk3, Hkeep; done.
Qed.

Lemma rotateField_runs P from to f n : f ∈ nodeFields -> opens P (window from to) n ->
  runs (readable P) (fun _ n' => opens P (window from to) n' /\ field_done to f n' /\ keeps_done to n n')
    (rotateField f from to) n.
Proof.
  intros Hf Ho. unfold rotateField. apply runs_bind, runs_gets. apply rotate_pages_runs; [done|done| |].
  - intros id v _. unfold later. by rewrite orb_true_r.
  - unfold id. assert (selected (later "") f n = rows f n) as ->; [|lia].
    unfold rows, selected. f_equal. apply map_filter_ext. intros i x _. unfold later. cbn.
    by rewrite orb_true_r.
Qed.

Lemma fields_runs P from to l n : l ⊆ nodeFields -> opens P (window from to) n ->
  runs (readable P) (fun _ n' => opens P (window from to) n' /\ keeps_done to n n' /\
                                   Forall (fun f => field_done to f n') l)
    (dur_iter (fun f => rotateField f from to) l) n.
Proof.
  revert n. induction l as [|f l IH]; intros n Hsub Ho; cbn [dur_iter].
  { apply runs_ret. split; [done|]. split; [by intros g|constructor]. }
  apply (runs_bind _ _ (fun _ => dur_iter _ l)).
  assert (f ∈ nodeFields) as Hf by (apply Hsub, list_elem_of_here).
  eapply runs_mono; [by apply rotateField_runs|]. intros _ n1 (Ho1 & Hd1 & Hk1).
  eapply runs_mono; [apply IH; [|done]|].
  { intros g Hg. apply Hsub. by apply list_elem_of_further. }
  intros _ n2 (Ho2 & Hk2 & Hd2). split_and!; [done| |].
  - intros g Hg Hd. apply Hk2, Hk1; done.
  - constructor; [by apply Hk2|done].
Qed.

(** The verification walk accepts what has been done. *)
Lemma walk_rows_done to f l : (forall id v, (id, v) ∈ l -> bad_id id = false /\ cell_done to f v) ->
  walk_rows (fun _ e => _ ← Decrypt to e; Ok tt) f l tt = Ok tt.
Proof.
  induction l as [|[id v] l IH]; intros Hl; cbn [walk_rows]; [done|].
  destruct (Hl id v) as (-> & e & -> & He); [apply list_elem_of_here|].
  assert (match e with Some env => _ ← Decrypt to env; Ok tt | None => Ok tt end = Ok tt) as Hv.
  { destruct e as [env|]; [|done]. specialize (He env eq_refl). by destruct (Decrypt to env). }
  cbn [mbind result_bind rbind]. rewrite Hv. cbn. apply IH.
  intros. apply Hl. by apply list_elem_of_further.
Qed.

Lemma walk_fields_done P from to n l : l ⊆ nodeFields -> opens P (window from to) n ->
  Forall (fun f => field_done to f n) l ->
  walk_fields (fun _ e => _ ← Decrypt to e; Ok tt) "" false n l tt = Ok tt.
Proof.
  induction l as [|f l IH]; intros Hsub Ho Hd; cbn [walk_fields]; [done|].
  apply Forall_cons in Hd as [Hf Hd]. cbn [String.eqb negb andb mbind result_bind rbind].
  assert (walk_rows (fun _ e => _ ← Decrypt to e; Ok tt) f (visited f false n) tt = Ok tt) as ->.
  { apply walk_rows_done. intros id v Hin. unfold visited in Hin. rewrite scan_perm in Hin.
    split; [|by apply (Hf id)]. apply (proj2 Ho f id v); [apply Hsub, list_elem_of_here|done]. }
  apply IH; [|done..]. intros g Hg. apply Hsub. by apply list_elem_of_further.
Qed.

Lemma Reencrypt_runs P from to n : opens P (window from to) n ->
  runs (readable P) (fun _ n' => opens P (window from to) n' /\ Forall (fun f => field_done to f n') nodeFields)
    (ReencryptSecrets from to) n.
Proof.
  intros Ho. unfold ReencryptSecrets. apply runs_bind.
  eapply runs_mono; [by apply (fields_runs P)|]. intros _ n1 (Ho1 & _ & Hd1).
  apply runs_bind, runs_gets. apply (runs_lift _ _ _ tt); [|done].
  by apply (walk_fields_done P from).
Qed.

Lemma str_take_all m s : (String.length s <= m)%nat -> str_take m s = s.
Proof. revert s. induction m as [|m IH]; intros [|c s]; cbn; intros Hl; [done|lia|done|]. rewrite IH; [done|lia]. Qed.

Lemma readKeyFile_key d : String.length d = 32%nat -> readKeyFile (FData d) = Ok (Some d).
Proof. intros Hd. unfold readKeyFile. by rewrite str_take_all by lia. Qed.

Lemma str_take_short m s : (String.length (str_take m s) < m)%nat -> str_take m s = s.
Proof.
  intros Hl. destruct (decide (m <= String.length s)%nat) as [Hs|]; [|apply str_take_all; lia].
  rewrite length_str_take in Hl by done. lia.
Qed.

Lemma readKeyFile_inv f d : readKeyFile f = Ok (Some d) -> String.length d = 32%nat -> f = FData d.
Proof.
  destruct f as [| |s]; [done..|]. unfold readKeyFile. pose proof (str_take_short 33 s) as Hs. revert Hs.
  generalize (str_take 33 s). intros u Hs [= ->] Hl. by rewrite Hs by lia.
Qed.

Lemma NewCipher_key d : String.length d = 32%nat -> NewCipher d = Ok (MkCipher d).
Proof. intros Hd. unfold NewCipher. by rewrite Hd. Qed.

Lemma NewCipher_ok d c : NewCipher d = Ok c -> String.length d = 32%nat /\ c = MkCipher d.
Proof. unfold NewCipher. destruct (Nat.eqb_spec (String.length d) 32); [|done]. by intros [= <-]. Qed.

Lemma ring_of_inv n k : ring_of n = Some k ->
  readKeyFile (n_current n) = Ok (Some (c_key (kr_current k))) /\
  String.length (c_key (kr_current k)) = 32%nat /\
  readKeyFile (n_prev n) = Ok (c_key <$> kr_prev k) /\
  (forall c, kr_prev k = Some c -> String.length (c_key c) = 32%nat).
Proof.
  unfold ring_of, prev_cipher. destruct (readKeyFile (n_current n)) as [[d|]|]; [|done..].
  destruct (NewCipher d) as [c|] eqn:Hc; [|done]. apply NewCipher_ok in Hc as [Hd ->].
  destruct (readKeyFile (n_prev n)) as [[p|]|] eqn:Hp; cbn [mbind result_bind rbind]; [| |done].
  - destruct (NewCipher p) as [q|] eqn:Hq; cbn; [|done]. apply NewCipher_ok in Hq as [Hl ->].
    intros [= <-]. cbn. split_and!; [done..|]. by intros ? [= <-].
  - intros [= <-]. by split_and!.
Qed.

Lemma ring_of_files n cur prev : String.length cur = 32%nat -> String.length prev = 32%nat ->
  n_current n = FData cur ->
  (n_prev n = FData prev -> ring_of n = Some (window (MkCipher prev) (MkCipher cur))) /\
  (n_prev n = FAbsent -> ring_of n = Some (MkRing (MkCipher cur) None)).
Proof.
  intros Hc Hp E. unfold ring_of, prev_cipher. rewrite E, readKeyFile_key, NewCipher_key by done.
  split; intros ->; [|done]. rewrite readKeyFile_key by done. cbn [mbind result_bind rbind].
  by rewrite NewCipher_key by done.
Qed.

(** Opening under another ring, envelope by envelope. *)
Lemma opens_transfer P k k' n n' : opens P k n -> n_columns n' = n_columns n -> ring_of n' = Some k' ->
  (forall f id v env, f ∈ nodeFields -> (id, v) ∈ rows f n -> decode f v = Ok (Some env) ->
     ring_Decrypt k env = Ok (P (col f) id) -> ring_Decrypt k' env = Ok (P (col f) id)) ->
  opens P k' n'.
Proof.
  intros [_ Hc] E Hr Himp. split; [done|]. intros f id v Hf Hrow.
  unfold rows in Hrow. rewrite (selected_same _ f n n') in Hrow by done.
  destruct (Hc f id v Hf Hrow) as (Hb & e & Hd & He). split; [done|]. exists e. split; [done|].
  intros env ->. apply (Himp f id v); auto.
Qed.

(** The key a rotation draws opens none of the envelopes it finds. *)
Definition fresh_key (n : node) (key : string) : Prop :=
  forall f id v env, f ∈ nodeFields -> (id, v) ∈ rows f n -> decode f v = Ok (Some env) ->
    is_ok (Decrypt (MkCipher key) env) = false.

Lemma finish_runs P from to n : opens P (window from to) n ->
  runs (readable P) (fun k n' => k = MkRing to None /\ opens P k n')
    (_ ← ReencryptSecrets from to; _ ← dur_write (fun n => n <| n_prev := FAbsent |>);
     dur_ret (MkRing to None)) n.
Proof.
  intros Ho. apply runs_bind. eapply runs_mono; [by apply (Reencrypt_runs P)|].
  intros _ n1 [Ho1 Hd]. rewrite Forall_forall in Hd.
  assert (opens P (MkRing to None) (n1 <| n_prev := FAbsent |>)) as Ho2.
  { destruct (ring_of_inv _ _ (proj1 Ho1)) as (Hcur & Hl & _ & _). cbn in Hcur, Hl.
    apply (opens_transfer P (window from to) _ n1); [done|done| |].
    - destruct to as [to]. apply (ring_of_files _ to to); [done..| |done]. by apply readKeyFile_inv.
    - intros f id v env Hf Hr He Hw. destruct (Hd f Hf id v Hr) as (e & He' & Hok).
      rewrite He in He'. injection He' as <-. specialize (Hok env eq_refl).
      unfold ring_Decrypt in *. cbn in *. by destruct (Decrypt to env). }
  apply runs_bind, runs_write; [by exists (MkRing to None)|]. by apply runs_ret.
Qed.

Lemma Rotate_runs P n k0 : opens P k0 n ->
  (n_prev n = FAbsent -> fresh_key n (random (n_draws n) 32)) ->
  runs (readable P)
    (fun k n' => kr_prev k = None /\ opens P k n' /\
       kr_current k = if absent (n_prev n) then MkCipher (random (n_draws n) 32) else kr_current k0) Rotate n.
Proof.
  intros Ho Hfresh. destruct (ring_of_inv _ _ (proj1 Ho)) as (Hcur & Hl & Hprev & Hlp).
  unfold Rotate. apply runs_bind, runs_gets. unfold id.
  apply runs_bind, (runs_lift _ _ _ (Some (c_key (kr_current k0)))); [done|].
  apply runs_bind, (runs_lift _ _ _ (MkCipher (c_key (kr_current k0)))); [by apply NewCipher_key|].
  apply runs_bind, (runs_lift _ _ _ (c_key <$> kr_prev k0)); [done|]. apply runs_bind.
  destruct k0 as [[cur] [[prev]|]]; cbn -[random runs] in *.
  - apply runs_bind, (runs_lift _ _ _ (MkCipher prev)); [by apply NewCipher_key, (Hlp (MkCipher prev))|].
    apply runs_ret. cbn [fst snd]. eapply runs_mono; [by apply finish_runs|].
    intros k n' [-> Ho']. split_and!; [done|done|]. by destruct (n_prev n).
  - assert (n_prev n = FAbsent) as Habs by (by destruct (n_prev n)).
    specialize (Hfresh Habs). set (key := random (n_draws n) 32) in *.
    assert (String.length key = 32%nat) as Hkey by apply random_length.
    apply runs_bind. split; [constructor|]. do 2 eexists. split; [done|].
    apply runs_bind, (runs_lift _ _ _ (MkCipher key)); [by apply NewCipher_key|].
    set (n0 := n <| n_draws := S (n_draws n) |>).
    assert (opens P (window (MkCipher cur) (MkCipher cur)) (n0 <| n_prev := FData cur |>)) as Ho1.
    { eapply (opens_transfer P _ _ n); [done|done| |].
      - apply (ring_of_files _ cur cur); [done..| |done]. by apply readKeyFile_inv.
      - intros f id v env _ _ _. unfold ring_Decrypt. cbn. by destruct (Decrypt _ env). }
    assert (opens P (window (MkCipher cur) (MkCipher key))
              (n0 <| n_prev := FData cur |> <| n_current := FData key |>)) as Ho2.
    { eapply (opens_transfer P _ _ n _ Ho); [done| |].
      - by apply (ring_of_files _ key cur).
      - intros f id v env Hf Hr He. unfold ring_Decrypt. cbn.
        specialize (Hfresh f id v env Hf Hr He). destruct (Decrypt (MkCipher key) env); [done|].
        by destruct (Decrypt (MkCipher cur) env). }
    apply runs_bind, runs_write; [by eexists|]. apply runs_bind, runs_write; [by eexists|].
    apply runs_ret. cbn [fst snd]. eapply runs_mono; [by apply finish_runs|].
    intros k n' [-> Ho']. split_and!; [done|done|]. by rewrite Habs.
Qed.

(** The first durable state of a rotation that opens a window: the former key
    is published, and is still the current one. *)
Lemma Rotate_first P n k : opens P k n -> n_prev n = FAbsent ->
  exists rest, (Rotate n).1 =
    (n <| n_draws := S (n_draws n) |> <| n_prev := FData (c_key (kr_current k)) |>) :: rest.
Proof.
  intros [Hr _] Habs. destruct (ring_of_inv _ _ Hr) as (Hcur & Hl & Hprev & _).
  unfold Rotate, mbind, dur_mbind, dur_bind, dur_gets, dur_lift, draw, dur_write, dur_ret, id.
  rewrite Hcur, NewCipher_key by done. rewrite Habs. cbn [readKeyFile].
  rewrite NewCipher_key by apply random_length.
  destruct (ReencryptSecrets _ _ _) as [t [[x n']|e]]; cbn; eauto.
Qed.

(** Starting up: the rows sampled carry an envelope, or do not decode. *)
Lemma sample_decodes f n id v e : (id, v) ∈ visited f true n -> decode f v = Ok e -> e <> None.
Proof.
  unfold visited. intros Hin Hd ->. apply elem_of_take in Hin as (i & Hi & _).
  apply list_elem_of_lookup_2 in Hi. rewrite scan_perm in Hi. apply list_elem_of_filter in Hi as [Hs _].
  unfold decode in Hd. unfold row_size in Hs. cbn in Hs. destruct v as [v|].
  - destruct (sf_optional f) eqn:Ho.
    + destruct Hs as [|Hs]; [done|]. destruct (Nat.eqb_spec (String.length v) 0); [lia|]. cbn [andb orb] in Hd.
      destruct (_ <? _)%nat; [done|]. destruct (negb _); [done|]. destruct (negb _); [done|].
      by destruct (DecodeString _).
    + cbn [andb] in Hd. destruct (_ || _); [done|]. destruct (negb _); [done|]. destruct (negb _); [done|].
      by destruct (DecodeString _).
  - destruct (sf_optional f) eqn:Ho; [|done]. destruct Hs; [done|lia].
Qed.

Definition collect (acc : list string) (e : string) : result err (list string) := Ok (acc ++ [e]).

Lemma walk_collect_grows f l acc acc' : walk_rows collect f l acc = Ok acc' -> (length acc <= length acc')%nat.
Proof.
  revert acc. induction l as [|[id v] l IH]; intros acc; cbn [walk_rows]; [by intros [= ->]|].
  destruct (bad_id id); [done|]. destruct (decode f v) as [[e|]|]; cbn; [|by apply IH|done].
  intros Hw%IH. rewrite length_app in Hw. cbn in Hw. lia.
Qed.

Lemma fields_collect_grows n fs acc acc' : walk_fields collect "" true n fs acc = Ok acc' ->
  (length acc <= length acc')%nat.
Proof.
  revert acc. induction fs as [|f fs IH]; intros acc; cbn [walk_fields]; [by intros [= ->]|].
  cbn [String.eqb negb andb mbind result_bind rbind].
  destruct (walk_rows collect f (visited f true n) acc) as [acc1|] eqn:E; cbn; [|done].
  apply walk_collect_grows in E. intros Hw%IH. lia.
Qed.

(** A field with a value is sampled, and the sample counts. *)
Lemma visited_sample f n id v : (id, v) ∈ rows f n -> sf_optional f = false \/ (0 < row_size (id, v))%nat ->
  exists r, visited f true n = [r].
Proof.
  intros Hin Hs. unfold visited. set (l := filter _ (rows f n)).
  assert ((id, v) ∈ l) as Hl by (by apply list_elem_of_filter).
  rewrite <- (scan_perm l) in Hl. destruct (scan l) as [|r l']; [by apply elem_of_nil in Hl|by exists r].
Qed.

Lemma samples_nonempty n f id v fs acc acc' : f ∈ fs -> (id, v) ∈ rows f n ->
  sf_optional f = false \/ (0 < row_size (id, v))%nat ->
  walk_fields collect "" true n fs acc = Ok acc' -> (0 < length acc')%nat.
Proof.
  intros Hf Hr Hs. revert acc. induction fs as [|g fs IH]; intros acc; [by apply elem_of_nil in Hf|].
  cbn [walk_fields String.eqb negb andb mbind result_bind rbind]. apply elem_of_cons in Hf as [<-|Hf].
  - destruct (visited_sample f n id v Hr Hs) as [[id' v'] Hv]. rewrite Hv. cbn [walk_rows].
    destruct (bad_id id'); [done|]. destruct (decode f v') as [e|] eqn:Hd; cbn; [|done].
    assert (e <> None) as He.
    { apply (sample_decodes f n id' v'); [|done]. rewrite Hv. apply list_elem_of_here. }
    destruct e as [e|]; [|done]. cbn. intros Hw%fields_collect_grows. rewrite length_app in Hw. cbn in Hw. lia.
  - destruct (walk_rows collect g _ acc) as [acc1|]; cbn; [|done]. apply IH; done.
Qed.

(** ** Properties *)


(** C35. A rotation interrupted between its two key writes is completed by the next
    one without any new key: it reports success, and the master key is the
    one the node had before. *)
Theorem resumed_rotation_keeps_key P n k : opens P k n -> n_prev n = FAbsent ->
  exists n1 k' n', head (Rotate n).1 = Some n1 /\ (Rotate n1).2 = Ok (k', n') /\
    kr_current k' = kr_current k /\ kr_prev k' = None.
Proof.
  intros Ho Habs. destruct (Rotate_first P n k Ho Habs) as [rest ->]. cbn [head].
  set (n1 := n <| n_draws := _ |> <| n_prev := _ |>).
  destruct (ring_of_inv _ _ (proj1 Ho)) as (Hcur & Hl & Hprev & _).
  assert (opens P (window (kr_current k) (kr_current k)) n1) as Ho1.
  { eapply (opens_transfer P _ _ n _ Ho); [done| |].
    - destruct (kr_current k) as [cur]. apply (ring_of_files _ cur cur); [done..| |done].
      by apply readKeyFile_inv.
    - intros f id v env _ _ _. unfold ring_Decrypt. cbn. rewrite Habs in Hprev. injection Hprev as Hp.
      destruct (kr_prev k); [done|]. by destruct (Decrypt _ env). }
  destruct (Rotate_runs P n1 _ Ho1) as (_ & k' & n' & Hrun & Hp & _ & Hk); [done|].
  exists n1, k', n'. by split_and!.
Qed.

(** Startup never makes a new key over existing data: with an encrypted value
    in the node and no key file, it fails and writes nothing. *)
Theorem startup_needs_original_key n f i v : f ∈ nodeFields -> (i, v) ∈ rows f n ->
  sf_optional f = false \/ (0 < row_size (i, v))%nat -> n_current n = FAbsent ->
  exists e, LoadNodeKeyRing n = ([], Err e).
Proof.
  intros Hf Hr Hs Habs.
  unfold LoadNodeKeyRing, loadKeyRing, mbind, dur_mbind, dur_bind, dur_gets, dur_lift, id.
  destruct (WalkStoredSecrets collect "" true n []) as [samples|e] eqn:Hw; unfold collect in Hw; rewrite Hw; [|by eexists].
  apply (samples_nonempty n f i v) in Hw; [|done..]. rewrite Habs. cbn [readKeyFile].
  destruct (absent (n_prev n)); cbn [negb]; [|by eexists].
  destruct (Nat.eqb_spec (length samples) 0); [lia|]. by eexists.
Qed.
End Facts.

(** ** A concrete node *)

Section Check.
Context `{A : AEAD, R : Random, O : ScanOrder}.

Definition cell_check (P : plaintexts) (k : KeyRing) (f : storedField) (r : string * option string) : bool :=
  negb (bad_id r.1) &&
  match decode f r.2 with
  | Ok None => true
  | Ok (Some env) => match ring_Decrypt k env with Ok p => String.eqb p (P (col f) r.1) | Err _ => false end
  | Err _ => false
  end.

Lemma opens_check P k n : ring_of n = Some k ->
  forallb (fun f => forallb (cell_check P k f) (rows f n)) nodeFields = true -> opens P k n.
Proof.
  intros Hr Hc. split; [done|]. intros f id v Hf Hin. rewrite forallb_forall in Hc.
  specialize (Hc f (proj1 (list_elem_of_In _ _) Hf)). rewrite forallb_forall in Hc.
  specialize (Hc (id, v) (proj1 (list_elem_of_In _ _) Hin)). unfold cell_check in Hc. cbn [fst snd] in Hc.
  apply andb_true_iff in Hc as [Hb Hc]. split; [by apply negb_true_iff|].
  destruct (decode f v) as [[env|]|] eqn:Hd; [|by exists None|done]. exists (Some env). split; [done|].
  intros ? [= <-]. destruct (ring_Decrypt k env) as [p|]; [|done]. by apply String.eqb_eq in Hc as ->.
Qed.

Definition fresh_check (key : string) (f : storedField) (r : string * option string) : bool :=
  match decode f r.2 with Ok (Some env) => negb (is_ok (Decrypt (MkCipher key) env)) | _ => true end.

Lemma fresh_key_check n key :
  forallb (fun f => forallb (fresh_check key f) (rows f n)) nodeFields = true -> fresh_key n key.
Proof.
  intros Hc f id v env Hf Hin Hd. rewrite forallb_forall in Hc.
  specialize (Hc f (proj1 (list_elem_of_In _ _) Hf)). rewrite forallb_forall in Hc.
  specialize (Hc (id, v) (proj1 (list_elem_of_In _ _) Hin)). unfold fresh_check in Hc. cbn [snd] in Hc.
  rewrite Hd in Hc. by apply negb_true_iff.
Qed.
End Check.

(** A cipher whose tag is the first half of the key. *)
Definition tag (key : string) : string := str_take 16 (key +:+ "0000000000000000").
#[export] Instance tag_cipher : AEAD := {|
  NonceSize := 12; Overhead := 16;
  Seal key _ p := tag key +:+ p;
  Open key _ c := if String.eqb (str_take 16 c) (tag key) then Some (str_drop 16 c) else None |}.

Lemma length_tag key : String.length (tag key) = 16%nat.
Proof. unfold tag. apply length_str_take. rewrite str_length_app. cbn. lia. Qed.

#[export] Instance tag_cipher_laws : AEADLaws tag_cipher.
Proof.
  split; cbn [NonceSize Overhead Seal Open tag_cipher].
  - intros key nonce p _.
    pose proof (str_take_app (tag key) p) as Ht. pose proof (str_drop_app (tag key) p) as Hd.
    rewrite length_tag in Ht, Hd. by rewrite Ht, Hd, String.eqb_refl.
  - intros key nonce p _. rewrite str_length_app, length_tag. lia.
  - intros key nonce c p. destruct (String.eqb_spec (str_take 16 c) (tag key)) as [E|]; [|done].
    intros Hp. assert (p = str_drop 16 c) as -> by congruence.
    rewrite length_str_drop. pose proof (length_tag key) as Hl. rewrite <- E in Hl.
    destruct (decide (16 <= String.length c)%nat); [lia|].
    rewrite str_take_all in Hl by lia. lia.
Qed.

Fixpoint str_repeat (len : nat) (c : ascii) : string :=
  match len with O => "" | S len => String c (str_repeat len c) end.
#[export] Instance counting_random : Random := fun draw len => str_repeat len (ascii_of_nat (65 + draw)).
#[export] Instance counting_random_length : RandomLength counting_random.
Proof.
  intros draw len. unfold random, counting_random. generalize (ascii_of_nat (65 + draw)) as c.
  intros c. induction len as [|len IH]; [done|]. cbn. by rewrite IH.
Qed.

#[export] Instance rowid_order : ScanOrder := {| scan l := l; scan_perm l := Permutation_refl l |}.

Definition w_master : string := str_repeat 32 "k".
Definition w_seal (p : string) : string := seal_with (str_repeat 12 "n") (MkCipher w_master) p.
Definition w_node : node := MkNode (FData w_master) FAbsent
  {[ ("devices", "private_key_encrypted") :=
       {[ "dev1" := Some (w_seal "dev1"); "dev2" := Some (w_seal "dev2") ]};
     ("devices", "preshared_key_encrypted") := {[ "dev1" := Some (w_seal "dev1"); "dev2" := None ]};
     ("settings", "value") :=
       {[ "backup.password" := Some (envelope_text (w_seal "backup.password")); "theme" := Some "dark" ]} ]} 0.
Definition w_plaintexts : plaintexts := fun _ id => id.
Definition w_ring : KeyRing := MkRing (MkCipher w_master) None.

Lemma w_node_opens : opens w_plaintexts w_ring w_node.
Proof. apply opens_check; vm_compute; reflexivity. Qed.

Lemma w_node_fresh : fresh_key w_node (random (n_draws w_node) 32).
Proof. apply fresh_key_check. vm_compute. reflexivity. Qed.


Theorem resumed_rotation_keeps_key_witness :
  exists n1 k' n', head (Rotate w_node).1 = Some n1 /\ (Rotate n1).2 = Ok (k', n') /\
    kr_current k' = MkCipher w_master /\ kr_prev k' = None.
Proof. exact (resumed_rotation_keeps_key w_plaintexts w_node w_ring w_node_opens eq_refl). Defined.

Theorem startup_needs_original_key_witness :
  exists e, LoadNodeKeyRing (w_node <| n_current := FAbsent |>) = ([], Err e).
Proof.
  apply (startup_needs_original_key _ (MkField "devices" "private_key_encrypted" "" None false false)
           "dev1" (Some (w_seal "dev1"))); [|by apply elem_of_rows|by left|done].
  apply list_elem_of_further, list_elem_of_here.
Defined.
 
