(* ===== verification/Sealing.v ===== *)
(** * Random bytes and sealed columns

    Draws from the random source inside a transaction, and the encryption of a
    column under the current key of the ring. *)
From stdpp Require Import base tactics strings gmap.
From Stdlib Require Import ZArith Lia Ascii.
From Stdlib Require String.
From S2P Require Import Prelude Domain Store Crypto Tunnel Secrets.

Open Scope Z_scope.

(** [base64.RawURLEncoding.EncodeToString] *)
Definition url_char (c : ascii) : ascii :=
  if Ascii.eqb c "+" then "-" else if Ascii.eqb c "/" then "_" else c.
Fixpoint raw_url (s : string) : string :=
  match s with
  | EmptyString => EmptyString
  | String c s => if Ascii.eqb c "=" then raw_url s else String (url_char c) (raw_url s)
  end.

(** [base64.RawStdEncoding]: the padding is left out, and put back to decode. *)
Fixpoint raw_std (s : string) : string :=
  match s with
  | EmptyString => EmptyString
  | String c s => if Ascii.eqb c "=" then raw_std s else String c (raw_std s)
  end.

Definition pad_of (s : string) : string :=
  match (String.length s mod 4)%nat with 2%nat => "==" | 3%nat => "=" | _ => "" end.

(** Line breaks are skipped; a padding character is not of this alphabet. *)
Definition decode_raw_std (s : string) : option (list Z) :=
  let s := skip_breaks s in
  if negb (str_all (fun c => negb (Ascii.eqb c "=")) s) then None else DecodeString (s +:+ pad_of s).

Section Sealing.
Context `{A : AEAD, R : Random}.

Definition draw_tx (len : nat) : Tx string := fun s =>
  Ok (random (entropy_pos s) len, s <| entropy_pos ::= S |>).

Definition ring_Encrypt (ring : KeyRing) (plaintext : string) : Tx string :=
  nonce ← draw_tx NonceSize; tx_ret (seal_with nonce (kr_current ring) plaintext).

(** [domain.NewRandomToken]. *)
Definition NewRandomToken (len : nat) : Tx string :=
  buf ← draw_tx len; tx_ret (raw_url (EncodeToString (bytes_of buf))).
End Sealing.

Lemma draw_tx_outbox `{Random} len s x s' : draw_tx len s = Ok (x, s') -> outbox_only s s'.
Proof.
  intros [= _ <-]. exists (webhook_events s), (webhook_deliveries s), (S (entropy_pos s)). by destruct s.
Qed.

Lemma ring_Encrypt_ok `{AEAD, Random} ring p s x s' : ring_Encrypt ring p s = Ok (x, s') ->
  x = seal_with (random (entropy_pos s) NonceSize) (kr_current ring) p /\ outbox_only s s'.
Proof.
  intros H'. apply tx_bind_ok in H' as (n & s1 & Hd & [= <- <-]). split; [|by eapply draw_tx_outbox].
  by injection Hd as <- _.
Qed.

(** ** Lemmas: unpadded base64 *)

Lemma url_char_b64 v s : 0 <= v < 64 -> raw_url (String (b64_char v) s) = String (url_char (b64_char v)) (raw_url s).
Proof. intros Hv. cbn. by rewrite (proj2 (proj2 (b64_val_char v Hv))). Qed.

Lemma length_raw_url l : Forall byte_range l ->
  Z.of_nat (String.length (raw_url (EncodeToString l))) = (4 * Z.of_nat (length l) + 2) / 3.
Proof.
  assert (byte_range 0) as H0 by (unfold byte_range; lia).
  induction l as [|x|x y|x y z l IH] using list_ind3; intros Hr.
  - done.
  - apply Forall_cons in Hr as [Hx _]. cbn [EncodeToString].
    destruct (sextets x 0 0) as ((? & ? & ? & ? & ? & ?) & _); [done..|].
    by rewrite !url_char_b64 by done.
  - apply Forall_cons in Hr as [Hx [Hy _]%Forall_cons]. cbn [EncodeToString].
    destruct (sextets x y 0) as ((? & ? & ? & ? & ? & ?) & _); [done..|].
    by rewrite !url_char_b64 by done.
  - apply Forall_cons in Hr as [Hx [Hy [Hz Hr]%Forall_cons]%Forall_cons]. cbn [EncodeToString].
    destruct (sextets x y z) as ((? & ? & ? & ? & ? & ?) & _); [done..|].
    rewrite !url_char_b64 by done. cbn [String.length length]. rewrite !Nat2Z.inj_succ, IH by done.
    replace (4 * Z.succ (Z.succ (Z.succ (Z.of_nat (length l)))) + 2)
      with (4 * 3 + (4 * Z.of_nat (length l) + 2)) by lia.
    rewrite Z.div_add_l by lia. lia.
Qed.
