(* ===== verification/Auth.v ===== *)
(** * Permissions and passwords (internal/auth/scopes.go, password.go)

    The scope registry and what a grant list allows, the closed list of grants
    a reseller may hold, the roles, and the argon2id hashes of passwords in the
    PHC format. The key derivation itself is an interface. *)
From stdpp Require Import base tactics strings gmap list sorting.
From Stdlib Require Import ZArith Lia Ascii.
From Stdlib Require String.
From S2P Require Import Prelude GoText GoTime Domain Awgparam JsonText Store Ipam NetText Crypto Tunnel Secrets Sealing.

Open Scope Z_scope.

(** ** Suffixes and sorted texts *)

Definition strip_suffix (suf s : string) : option string :=
  str_rev <$> strip_prefix (str_rev suf) (str_rev s).

Definition str_le (a b : string) : Prop := String.leb a b = true.
#[export] Instance str_le_dec a b : Decision (str_le a b).
Proof. unfold str_le. apply _. Defined.
Definition sort_strings : list string -> list string := merge_sort str_le.

Definition member (x : string) (l : list string) : bool := existsb (String.eqb x) l.

(** ** The registry (scopes.go) *)

Definition apiScopes : list string := [
  "users.read"; "users.create"; "users.update"; "users.delete"; "users.bulk"; "devices.read"; "devices.write";
  "configs.read"; "traffic.read"; "traffic.update"; "templates.read"; "templates.write"; "stats.read"; "node.read";
  "node.settings"; "webhooks.read"; "webhooks.write"; "interfaces.read"; "interfaces.write"; "purchases.create";
  "operations.read"; "subscriptions.read"; "subscriptions.rotate"; "next_plans.read"; "next_plans.write"].

Definition panelOnlyScopes : list string := [
  "audit.view"; "api_tokens.manage"; "admins.manage"; "server.view"; "server.manage"; "backup.manage";
  "update.manage"; "update.read"; "cleanup.manage"].

Definition scopes : list string := apiScopes ++ panelOnlyScopes.

Definition resellerGrantable : list string := [
  "users.read"; "users.create"; "users.update"; "users.delete"; "users.bulk"; "devices.read"; "devices.write";
  "configs.read"; "traffic.read"; "traffic.update"; "templates.read"; "interfaces.read"; "stats.read";
  "webhooks.read"; "webhooks.write"; "api_tokens.manage"; "purchases.create"; "operations.read";
  "subscriptions.read"; "subscriptions.rotate"; "next_plans.read"; "next_plans.write"].

Definition ResellerGrantable (scope : string) : bool := member scope resellerGrantable.
Definition ValidResellerGrants (l : list string) : bool := forallb ResellerGrantable l.
Definition ResellerScopes : list string := sort_strings resellerGrantable.
Definition AllScopes : list string := sort_strings scopes.
Definition APIScopes : list string := filter (fun s => member s apiScopes = true) AllScopes.

Definition familyExists (family : string) : bool := existsb (has_prefix (family +:+ ".")) scopes.

(** One grant: a registered scope or a family wildcard. *)
Definition valid_grant (g : string) : bool :=
  if String.eqb g "*" then false
  else match strip_suffix ".*" g with
       | Some family => familyExists family
       | None => member g scopes
       end.

Definition ValidateScopes (granted : list string) : result err unit :=
  if forallb valid_grant granted then Ok tt else Err (Plain "unknown scope").

(** One grant satisfies a requirement. *)
Definition grant_covers (required g : string) : bool :=
  String.eqb g required
  || match strip_suffix ".*" g with Some family => has_prefix (family +:+ ".") required | None => false end.

Definition Allows (granted : list string) (required : string) : bool :=
  member required scopes && existsb (grant_covers required) granted.

(** ** Roles *)

(** The column is a text; any other text is not a role. *)
Definition RoleOwner : string := "owner".
Definition RoleAdmin : string := "admin".
Definition role_Valid (r : string) : bool := String.eqb r RoleOwner || String.eqb r RoleAdmin.

Definition Authorized (role : string) (permissions : list string) (required : string) : bool :=
  if String.eqb role RoleOwner then true else Allows permissions required.

(** A grants column: [json.Unmarshal] into a [[]string]. *)
Definition decode_grants (raw : string) : option (list string) := default [] <$> unmarshal_list raw.

(** ** Passwords (password.go) *)

(** [argon2.IDKey]: password, salt, time, memory, threads, length. *)
Class Argon2 := IDKey : string -> list Z -> Z -> Z -> Z -> nat -> list Z.
Class Argon2Laws (K : Argon2) : Prop := {
  idkey_length p salt t m th n : length (IDKey p salt t m th n) = n;
  idkey_bytes p salt t m th n : Forall byte_range (IDKey p salt t m th n)
}.

Definition argonMemory : Z := 19 * 1024.
Definition argonTime : Z := 2.
Definition argonThreads : Z := 1.
Definition argonKeyLen : nat := 32.
Definition argonSaltLen : nat := 16.
Definition MinPasswordLength : nat := 10.

Definition ValidatePassword (password : string) : result err unit :=
  if (String.length password <? MinPasswordLength)%nat then Err (E CodeInvalidRequest) else Ok tt.

Section Passwords.
Context `{R : Random, K : Argon2}.

Definition phc_text (salt key : list Z) : string :=
  "$argon2id$v=" +:+ dec 19 +:+ "$m=" +:+ dec argonMemory +:+ ",t=" +:+ dec argonTime +:+ ",p=" +:+ dec argonThreads
  +:+ "$" +:+ raw_std (EncodeToString salt) +:+ "$" +:+ raw_std (EncodeToString key).

Definition HashPassword (password : string) : Tx string :=
  _ ← tx_lift (ValidatePassword password);
  salt ← draw_tx argonSaltLen;
  tx_ret (phc_text (bytes_of salt) (IDKey password (bytes_of salt) argonTime argonMemory argonThreads argonKeyLen)).

(** [fmt.Sscanf]: a literal, then an unsigned number after optional spaces; a
    line break is no space. *)
Definition scan_spaces : list string := filter (fun p => p <> bytes [10%nat]) space_runes.

Fixpoint digit_run (s : string) : string * string :=
  match s with
  | String c r => if is_digit c then let '(d, t) := digit_run r in (String c d, t) else ("", s)
  | EmptyString => ("", "")
  end.

Definition scan_number (bits : Z) (lit s : string) : option (Z * string) :=
  r ← strip_prefix lit s;
  let '(d, t) := digit_run (trim_left (String.length r) scan_spaces r) in
  n ← parse_uint bits d; Some (n, t).

(** A signed number: one optional sign before the digits. *)
Definition scan_int (lit s : string) : option (Z * string) :=
  r ← strip_prefix lit s;
  let r := trim_left (String.length r) scan_spaces r in
  let '(sign, r) := match r with
                    | String "-" r => ("-", r)
                    | String "+" r => ("", r)
                    | _ => ("", r)
                    end in
  let '(d, t) := digit_run r in
  n ← parse_int64 (sign +:+ d); Some (n, t).

Definition VerifyPassword (password phc : string) : result err bool :=
  match str_split "$" phc with
  | [p0; p1; p2; p3; p4; p5] =>
      if negb (String.eqb p0 "" && String.eqb p1 "argon2id") then Err (Plain "auth: malformed hash")
      else
        match scan_int "v=" p2 with
        | None => Err (Plain "auth: bad version")
        | Some _ =>
            match ('(m, r) ← scan_number 32 "m=" p3; '(t, r) ← scan_number 32 ",t=" r;
                   '(p, _) ← scan_number 8 ",p=" r; Some (m, t, p)) with
            | None => Err (Plain "auth: bad parameters")
            | Some (m, t, p) =>
                match decode_raw_std p4, decode_raw_std p5 with
                | None, _ => Err (Plain "auth: bad salt")
                | _, None => Err (Plain "auth: bad hash")
                | Some salt, Some want => Ok (bool_decide (IDKey password salt t m p (length want) = want))
                end
            end
        end
  | _ => Err (Plain "auth: malformed hash")
  end.
End Passwords.

(** ** Lemmas: texts *)

Lemma strip_prefix_self p r : strip_prefix p (p +:+ r) = Some r.
Proof. induction p as [|c p IH]; cbn; [done|]. by rewrite Ascii.eqb_refl. Qed.

Lemma strip_prefix_iff p s r : strip_prefix p s = Some r <-> s = p +:+ r.
Proof. split; [apply strip_prefix_app|]. intros ->. apply strip_prefix_self. Qed.

Lemma str_rev_app a b : str_rev (a +:+ b) = str_rev b +:+ str_rev a.
Proof.
  induction a as [|c a IH]; cbn [String.append]; [by rewrite str_app_nil|].
  by rewrite !str_rev_cons, IH, string_app_assoc.
Qed.

Lemma strip_suffix_iff suf s r : strip_suffix suf s = Some r <-> s = r +:+ suf.
Proof.
  unfold strip_suffix. split.
  - intros (x & Hx%strip_prefix_iff & ->)%fmap_Some. rewrite <-(str_rev_rev s), Hx.
    change (str_rev suf +:+ x) with (str_rev suf +:+ x). by rewrite str_rev_app, str_rev_rev.
  - intros ->. rewrite str_rev_app, strip_prefix_self. cbn. by rewrite str_rev_rev.
Qed.

Lemma member_iff x l : member x l = true <-> x ∈ l.
Proof.
  unfold member. rewrite existsb_exists. split.
  - intros (y & Hy & ->%String.eqb_eq). by apply list_elem_of_In.
  - intros H. exists x. split; [by apply list_elem_of_In|apply String.eqb_refl].
Qed.

Lemma sort_strings_elem x l : x ∈ sort_strings l <-> x ∈ l.
Proof. unfold sort_strings. by rewrite merge_sort_Permutation. Qed.

(** ** Lemmas: the registry *)

(** Every scope is of the API or of the panel and of one of them only, none is
    registered twice, and a reseller's grants are registered. *)
Lemma scopes_partition : NoDup scopes /\ (forall s, s ∈ resellerGrantable -> s ∈ scopes) /\
  (forall s, s ∈ apiScopes -> s ∉ panelOnlyScopes) /\ length AllScopes = 34%nat.
Proof.
  assert (bool_decide (NoDup scopes) && forallb (fun s => member s scopes) resellerGrantable
    && forallb (fun s => negb (member s panelOnlyScopes)) apiScopes && (length AllScopes =? 34)%nat = true) as H
    by (vm_compute; reflexivity).
  apply andb_prop in H as [H H4%Nat.eqb_eq]. apply andb_prop in H as [H H3]. apply andb_prop in H as [H1%bool_decide_eq_true H2].
  rewrite forallb_forall in H2, H3. split_and!; [done|..|done].
  - intros s Hs%list_elem_of_In. by apply member_iff, H2.
  - intros s Hs%list_elem_of_In Hp%member_iff. specialize (H3 s Hs). by rewrite Hp in H3.
Qed.

Lemma AllScopes_elem s : s ∈ AllScopes <-> s ∈ scopes.
Proof. apply sort_strings_elem. Qed.

Lemma ResellerGrantable_scope s : ResellerGrantable s = true -> s ∈ scopes.
Proof. intros H%member_iff. by apply scopes_partition. Qed.

(** A grant list allows a registered scope it names or whose family it holds. *)
Lemma Allows_iff granted required : Allows granted required = true <->
  required ∈ scopes /\ (required ∈ granted \/ exists family rest, family +:+ ".*" ∈ granted /\ required = family +:+ "." +:+ rest).
Proof.
  unfold Allows. rewrite andb_true_iff, member_iff, existsb_exists. apply and_iff_compat_l. split.
  - intros (g & Hg%list_elem_of_In & Hc). unfold grant_covers in Hc. apply orb_prop in Hc as [->%String.eqb_eq|Hc]; [by left|].
    destruct (strip_suffix ".*" g) as [family|] eqn:Es; [|done]. apply strip_suffix_iff in Es as ->. right.
    unfold has_prefix in Hc. destruct (strip_prefix (family +:+ ".") required) as [rest|] eqn:Ep; [|done].
    apply strip_prefix_iff in Ep as ->. exists family, rest. by rewrite string_app_assoc.
  - intros [Hr|(family & rest & Hf & ->)].
    + exists required. split; [by apply list_elem_of_In|]. unfold grant_covers. by rewrite String.eqb_refl.
    + exists (family +:+ ".*"). split; [by apply list_elem_of_In|]. unfold grant_covers.
      assert (strip_suffix ".*" (family +:+ ".*") = Some family) as -> by by apply strip_suffix_iff.
      unfold has_prefix. rewrite <-string_app_assoc, strip_prefix_self. apply orb_true_r.
Qed.

Lemma Allows_scope granted required : Allows granted required = true -> required ∈ scopes.
Proof. intros H. by apply Allows_iff in H as [? _]. Qed.

(** A list of registered scopes allows exactly its members. *)
Lemma Allows_plain granted required : (forall g, g ∈ granted -> g ∈ scopes) ->
  Allows granted required = true <-> required ∈ granted.
Proof.
  intros Hg. rewrite Allows_iff. split; [|intros H; split; [by apply Hg|by left]].
  intros [_ [H|(family & rest & Hf & _)]]; [done|]. exfalso. apply Hg in Hf.
  assert (forallb (fun s => match strip_suffix ".*" s with Some _ => false | None => true end) scopes = true) as Hn
    by (vm_compute; reflexivity).
  rewrite forallb_forall in Hn. apply list_elem_of_In in Hf. specialize (Hn _ Hf).
  by rewrite (proj2 (strip_suffix_iff ".*" (family +:+ ".*") family) eq_refl) in Hn.
Qed.

(** ** Lemmas: grants as texts *)

Definition seven_bit (c : ascii) : bool := byte_of c <? 128.

Lemma seven_bit_utf8 s : str_all seven_bit s = true -> utf8 s.
Proof.
  unfold utf8. induction s as [|c s IH]; [done|]. cbn [str_all]. intros [Hc Hs]%andb_prop.
  cbn [String.length valid_utf8]. assert (utf8_len (String c s) = 1%nat) as ->; [|exact (IH Hs)].
  unfold utf8_len. unfold seven_bit in Hc. by rewrite Hc.
Qed.

Lemma scopes_seven_bit s : s ∈ scopes -> str_all seven_bit s = true.
Proof.
  assert (forallb (str_all seven_bit) scopes = true) as H by (vm_compute; reflexivity).
  rewrite forallb_forall in H. intros Hs. by apply H, list_elem_of_In.
Qed.

Lemma valid_grant_utf8 g : valid_grant g = true -> utf8 g.
Proof.
  unfold valid_grant. destruct (String.eqb g "*"); [done|].
  destruct (strip_suffix ".*" g) as [family|] eqn:Es; intros H; apply seven_bit_utf8.
  - apply strip_suffix_iff in Es as ->. unfold familyExists in H. apply existsb_exists in H as (s & Hs%list_elem_of_In & Hp).
    apply scopes_seven_bit in Hs. unfold has_prefix in Hp.
    destruct (strip_prefix (family +:+ ".") s) as [r|] eqn:E; [|done]. apply strip_prefix_iff in E as ->.
    rewrite !str_all_app in Hs. rewrite str_all_app. apply andb_prop in Hs as [Hs _]. apply andb_prop in Hs as [-> _]. done.
  - apply scopes_seven_bit. by apply member_iff.
Qed.

Lemma decode_marshal_grants l : ValidateScopes l = Ok tt -> decode_grants (marshal_list (Some l)) = Some l.
Proof.
  unfold ValidateScopes, decode_grants. destruct (forallb valid_grant l) eqn:E; [|done]. intros _.
  rewrite unmarshal_marshal_list; [done|]. intros l' [= <-]. apply Forall_forall. intros g Hg.
  rewrite forallb_forall in E. by apply valid_grant_utf8, E, list_elem_of_In.
Qed.

Lemma reseller_grants_valid l : ValidResellerGrants l = true -> ValidateScopes l = Ok tt.
Proof.
  unfold ValidResellerGrants, ValidateScopes. intros H. enough (forallb valid_grant l = true) as -> by done.
  rewrite forallb_forall in H |- *. intros g Hg. specialize (H g Hg). apply member_iff in H.
  assert (forallb valid_grant resellerGrantable = true) as Hv by (vm_compute; reflexivity).
  rewrite forallb_forall in Hv. by apply Hv, list_elem_of_In.
Qed.

(** ** Lemmas: password hashes *)

Lemma raw_std_b64 v s : 0 <= v < 64 -> raw_std (String (b64_char v) s) = String (b64_char v) (raw_std s).
Proof. intros Hv. cbn. by rewrite (proj2 (proj2 (b64_val_char v Hv))). Qed.

(** Dropping the padding and putting it back gives the padded text. *)
Lemma raw_std_pad l : Forall byte_range l ->
  raw_std (EncodeToString l) +:+ pad_of (raw_std (EncodeToString l)) = EncodeToString l /\
  (String.length (EncodeToString l) mod 4 = 0)%nat.
Proof.
  assert (byte_range 0) as H0 by (unfold byte_range; lia).
  induction l as [|x|x y|x y z l IH] using list_ind3; intros Hr.
  - done.
  - apply Forall_cons in Hr as [Hx _]. cbn [EncodeToString].
    destruct (sextets x 0 0) as ((? & ? & ? & ? & ? & ?) & _); [done..|]. by rewrite !raw_std_b64 by done.
  - apply Forall_cons in Hr as [Hx [Hy _]%Forall_cons]. cbn [EncodeToString].
    destruct (sextets x y 0) as ((? & ? & ? & ? & ? & ?) & _); [done..|]. by rewrite !raw_std_b64 by done.
  - apply Forall_cons in Hr as [Hx [Hy [Hz Hr]%Forall_cons]%Forall_cons]. cbn [EncodeToString].
    destruct (sextets x y z) as ((? & ? & ? & ? & ? & ?) & _); [done..|]. destruct (IH Hr) as [E1 E2].
    rewrite !raw_std_b64 by done. unfold pad_of in *. cbn [String.length].
    replace (S (S (S (S (String.length (raw_std (EncodeToString l)))))) mod 4)%nat with (String.length (raw_std (EncodeToString l)) mod 4)%nat.
    + split; [cbn [String.append]; by rewrite E1|].
      replace (S (S (S (S (String.length (EncodeToString l))))))%nat with (String.length (EncodeToString l) + 1 * 4)%nat by lia.
      by rewrite Nat.Div0.mod_add.
    + replace (S (S (S (S (String.length (raw_std (EncodeToString l)))))))%nat with (String.length (raw_std (EncodeToString l)) + 1 * 4)%nat by lia.
      by rewrite Nat.Div0.mod_add.
Qed.

Definition b64_alpha (c : ascii) : bool := match b64_val c with Some _ => true | None => false end.

Lemma raw_std_alphabet l : Forall byte_range l -> str_all b64_alpha (raw_std (EncodeToString l)) = true.
Proof.
  assert (byte_range 0) as H0 by (unfold byte_range; lia).
  assert (forall v s, 0 <= v < 64 -> str_all b64_alpha (String (b64_char v) s) = str_all b64_alpha s) as Hs
    by (intros v s Hv; cbn [str_all]; unfold b64_alpha at 1; by rewrite (proj1 (b64_val_char v Hv))).
  induction l as [|x|x y|x y z l IH] using list_ind3; intros Hr.
  - done.
  - apply Forall_cons in Hr as [Hx _]. cbn [EncodeToString].
    destruct (sextets x 0 0) as ((? & ? & ? & ? & ? & ?) & _); [done..|]. by rewrite !raw_std_b64, !Hs by done.
  - apply Forall_cons in Hr as [Hx [Hy _]%Forall_cons]. cbn [EncodeToString].
    destruct (sextets x y 0) as ((? & ? & ? & ? & ? & ?) & _); [done..|]. by rewrite !raw_std_b64, !Hs by done.
  - apply Forall_cons in Hr as [Hx [Hy [Hz Hr]%Forall_cons]%Forall_cons]. cbn [EncodeToString].
    destruct (sextets x y z) as ((? & ? & ? & ? & ? & ?) & _); [done..|]. by rewrite !raw_std_b64, !Hs, IH by done.
Qed.

Lemma b64_alpha_plain c : b64_alpha c = true -> line_break c = false /\ Ascii.eqb c "=" = false /\ Ascii.eqb c "$" = false.
Proof. every_char c; done. Qed.

Lemma skip_alpha s : str_all b64_alpha s = true -> skip_breaks s = s.
Proof.
  induction s as [|c s IH]; [done|]. cbn [str_all]. intros [Hc Hs]%andb_prop. cbn [skip_breaks].
  destruct (b64_alpha_plain c Hc) as (-> & _). by rewrite IH.
Qed.

Lemma alpha_without s c : (forall x, b64_alpha x = true -> Ascii.eqb x c = false) -> str_all b64_alpha s = true ->
  str_all (fun x => negb (Ascii.eqb x c)) s = true.
Proof. intros H. apply str_all_weaken. intros x Hx. by rewrite H. Qed.

Lemma decode_raw_std_encode l : Forall byte_range l -> decode_raw_std (raw_std (EncodeToString l)) = Some l.
Proof.
  intros Hl. pose proof (raw_std_alphabet l Hl) as Ha. unfold decode_raw_std. cbv zeta.
  rewrite skip_alpha, alpha_without by (try done; intros x Hx; by apply b64_alpha_plain). cbn [negb].
  rewrite (proj1 (raw_std_pad l Hl)). by apply Decode_Encode.
Qed.

(** Splitting at a separator the first part does not hold. *)
Lemma str_split_head sep a r : str_all (fun x => negb (Ascii.eqb x sep)) a = true ->
  str_split sep (a +:+ String sep r) = a :: str_split sep r.
Proof.
  induction a as [|c a IH]; cbn [str_all String.append str_split]; [by rewrite Ascii.eqb_refl|].
  intros [Hc%negb_true_iff Ha]%andb_prop. by rewrite Hc, IH.
Qed.

Lemma str_split_single sep a : str_all (fun x => negb (Ascii.eqb x sep)) a = true -> str_split sep a = [a].
Proof.
  induction a as [|c a IH]; cbn [str_all str_split]; [done|]. intros [Hc%negb_true_iff Ha]%andb_prop. by rewrite Hc, IH.
Qed.

Lemma phc_split salt key : Forall byte_range salt -> Forall byte_range key ->
  str_split "$" (phc_text salt key) =
  [""; "argon2id"; "v=19"; "m=19456,t=2,p=1"; raw_std (EncodeToString salt); raw_std (EncodeToString key)].
Proof.
  intros Hs Hk.
  assert (phc_text salt key = "" +:+ String "$" ("argon2id" +:+ String "$" ("v=19" +:+ String "$" ("m=19456,t=2,p=1" +:+ String "$"
    (raw_std (EncodeToString salt) +:+ String "$" (raw_std (EncodeToString key))))))) as -> by done.
  rewrite !str_split_head by first [done|apply alpha_without; [intros x Hx; by apply b64_alpha_plain|by apply raw_std_alphabet]].
  by rewrite str_split_single by (apply alpha_without; [intros x Hx; by apply b64_alpha_plain|by apply raw_std_alphabet]).
Qed.

(** Verifying against a stored hash compares the derived keys. *)
Lemma VerifyPassword_phc `{K : Argon2, !Argon2Laws K} password salt key : Forall byte_range salt -> Forall byte_range key ->
  VerifyPassword password (phc_text salt key)
  = Ok (bool_decide (IDKey password salt argonTime argonMemory argonThreads (length key) = key)).
Proof.
  intros Hs Hk. unfold VerifyPassword. rewrite phc_split by done.
  rewrite !decode_raw_std_encode by done. reflexivity.
Qed.

(** ** Properties *)

Lemma HashPassword_ok `{R : Random, K : Argon2} password s hash s' : HashPassword password s = Ok (hash, s') ->
  let salt := bytes_of (random (entropy_pos s) argonSaltLen) in
  hash = phc_text salt (IDKey password salt argonTime argonMemory argonThreads argonKeyLen) /\
  s' = s <| entropy_pos ::= S |> /\ (MinPasswordLength <= String.length password)%nat.
Proof.
  unfold HashPassword, ValidatePassword, mbind, tx_mbind, tx_bind, tx_lift, draw_tx, tx_ret.
  destruct (Nat.ltb_spec (String.length password) MinPasswordLength); [done|]. by intros [= <- <-].
Qed.

(** A stored hash verifies the password it was made from, and another
    password exactly when both derive the same key from the hash's salt and
    parameters; a password below the minimum is not hashed. *)
Theorem hashed_password_verifies `{R : Random, K : Argon2, !Argon2Laws K} password s :
  match HashPassword password s with
  | Ok (hash, s') =>
      (MinPasswordLength <= String.length password)%nat /\ VerifyPassword password hash = Ok true /\
      exists salt, length salt = String.length (random (entropy_pos s) argonSaltLen) /\
        forall other, VerifyPassword other hash = Ok (bool_decide (IDKey other salt argonTime argonMemory argonThreads argonKeyLen
                                                       = IDKey password salt argonTime argonMemory argonThreads argonKeyLen))
  | Err e => e = E CodeInvalidRequest /\ (String.length password < MinPasswordLength)%nat
  end.
Proof.
  destruct (HashPassword password s) as [[hash s']|e] eqn:Hh.
  - apply HashPassword_ok in Hh as (-> & _ & Hl). set (salt := bytes_of _) in *.
    assert (forall other, VerifyPassword other (phc_text salt (IDKey password salt argonTime argonMemory argonThreads argonKeyLen))
      = Ok (bool_decide (IDKey other salt argonTime argonMemory argonThreads argonKeyLen
                         = IDKey password salt argonTime argonMemory argonThreads argonKeyLen))) as Hv.
    { intros other. rewrite VerifyPassword_phc; [|apply bytes_of_range|apply idkey_bytes]. by rewrite idkey_length. }
    split_and!; [done|by rewrite Hv, bool_decide_eq_true_2|]. exists salt. split; [apply length_bytes_of|done].
  - unfold HashPassword, ValidatePassword, mbind, tx_mbind, tx_bind, tx_lift, draw_tx, tx_ret in Hh.
    destruct (Nat.ltb_spec (String.length password) MinPasswordLength); [|done]. by injection Hh as <-.
Qed.
