(* ===== verification/Accounts.v ===== *)
(** * Panel accounts, sessions and tenants (internal/auth/session.go,
      internal/admin/admin.go, internal/reseller/reseller.go)

    The three services over the account tables. A statement is one step of the
    store; a service reads before it writes, so an operation that has failed
    keeps the writes it made before. Account grants and reseller ceilings are
    stored as JSON lists and read on every request.

    A column that does not hold a JSON list of texts is written by no
    operation; where the code ignores the error of decoding one, the model
    reads an empty list. *)
From stdpp Require Import base tactics strings gmap list fin_maps sets sorting.
From Stdlib Require Import ZArith Lia Ascii.
From Stdlib Require String.
From S2P Require Import Prelude GoText GoTime Domain Awgparam JsonText Store Ipam NetText Crypto Tunnel Secrets Sealing Auth.

Open Scope Z_scope.

(** A query that may fail. *)
Definition act_read {A} (q : store -> result err A) : act store err A := fun s => (q s, s).

(** ** Texts *)

(** [strings.ToLower], as far as an ASCII pattern can tell: two other runes
    have an ASCII lower case. *)
Fixpoint to_lower (fuel : nat) (s : string) : string :=
  match fuel, s with
  | S fuel, String c r =>
      match strip_prefix (bytes [226; 132; 170]%nat) s, strip_prefix (bytes [196; 176]%nat) s with
      | Some r, _ => String "k" (to_lower fuel r)
      | _, Some r => String "i" (to_lower fuel r)
      | None, None => String (lower_char c) (to_lower fuel r)
      end
  | _, _ => ""
  end.

(** [len([]rune(s))]: an invalid byte counts as one. *)
Fixpoint rune_count (fuel : nat) (s : string) : nat :=
  match fuel, s with
  | S fuel, String _ _ => S (rune_count fuel (str_drop (Nat.max 1 (utf8_len s)) s))
  | _, _ => O
  end.

Definition slug_head (c : ascii) : bool := in_range "a" "z" c.
Definition slug_char (c : ascii) : bool := in_range "a" "z" c || is_digit c || Ascii.eqb c "-".

(** [slugPattern]: [^[a-z][a-z0-9-]{2,31}$]. *)
Definition slugPattern (s : string) : bool :=
  match s with
  | EmptyString => false
  | String c r => slug_head c && str_all slug_char r && (2 <=? String.length r)%nat && (String.length r <=? 31)%nat
  end.

(** ** Queries *)

Definition owner_exists (s : store) : bool :=
  existsb (fun a => String.eqb (ar_Role a) RoleOwner) (map_to_list (admins s)).*2.

Definition username_taken (name : string) (s : store) : bool :=
  existsb (fun a => String.eqb (ar_Username a) name) (map_to_list (admins s)).*2.

Definition slug_taken (slug : string) (s : store) : bool :=
  existsb (fun r => String.eqb (rs_Slug r) slug) (map_to_list (resellers s)).*2.

Definition hash_used (hash : string) (s : store) : bool :=
  existsb (fun x => String.eqb (se_TokenHash x) hash) (map_to_list (admin_sessions s)).*2.

(** [LEFT JOIN resellers r ON r.id = a.reseller_id]. *)
Definition reseller_of (a : AdminRow) (s : store) : option Reseller :=
  match ar_ResellerID a with Some id => resellers s !! id | None => None end.

(** The row of a unique session hash, joined with its account. *)
Definition session_row (hash : string) (s : store) : option (string * SessionRow) :=
  head (filter (fun r => se_TokenHash r.2 = hash) (map_to_list (admin_sessions s))).

Definition session_join (hash : string) (s : store) : option (SessionRow * AdminRow) :=
  match session_row hash s with
  | Some (_, x) => match admins s !! se_AdminID x with Some a => Some (x, a) | None => None end
  | None => None
  end.

(** ** internal/auth/session.go *)

(** [auth.Admin]. *)
Record Admin := MkAdmin {
  ad_ID : string;
  ad_Username : string;
  ad_Role : string;
  ad_Permissions : list string;
  ad_Enabled : bool;
  ad_ResellerID : option string;
  ad_Locale : string;
  ad_AppearancePreset : string;
  ad_AppearanceDigits : string
}.

Definition hashToken (token : string) : string := hex (Sum256 token).

Record SessionStore := MkSessionStore { IdleTTL : Z; AbsoluteTTL : Z }.

Definition delete_sessions (P : SessionRow -> bool) (s : store) : store :=
  s <| admin_sessions ::= filter (fun r => P r.2 = false) |>.

Definition revoke (hash : string) : act store err unit :=
  act_modify (delete_sessions (fun x => String.eqb (se_TokenHash x) hash)).

Definition Revoke (token : string) : act store err unit := revoke (hashToken token).

Definition RevokeAllForAdmin (adminID : string) : act store err unit :=
  act_modify (delete_sessions (fun x => String.eqb (se_AdminID x) adminID)).

Definition Prune (now : Z) : act store err Z := fun s =>
  let s' := delete_sessions (fun x => stored_lt (se_ExpiresAt x) now) s in
  (Ok (Z.of_nat (size (admin_sessions s)) - Z.of_nat (size (admin_sessions s'))), s').

(** The insert, under the keys of the table. *)
Definition insert_session (id : string) (x : SessionRow) : act store err unit := fun s =>
  if bool_decide (is_Some (admin_sessions s !! id)) || hash_used (se_TokenHash x) s
     || negb (bool_decide (is_Some (admins s !! se_AdminID x)))
  then (Err (Plain "auth: create session"), s)
  else (Ok tt, s <| admin_sessions ::= <[id := x]> |>).

(** The effective grants of an account: a tenant's are what both it and its
    reseller's current ceiling allow. *)
Definition effective_grants (a : AdminRow) (r : option Reseller) : result err (list string) :=
  match (if String.eqb (ar_Permissions a) "" then Some [] else decode_grants (ar_Permissions a)) with
  | None => Err (Plain "auth: permissions JSON")
  | Some permissions =>
      match ar_ResellerID a, r with
      | None, _ => Ok permissions
      | Some _, None => Err (E CodeForbidden)
      | Some _, Some r =>
          if String.eqb (ar_Role a) RoleOwner || negb (rs_Enabled r) then Err (E CodeForbidden)
          else match decode_grants (rs_Permissions r) with
               | None => Err (Plain "auth: reseller permissions JSON")
               | Some ceiling =>
                   if negb (ValidResellerGrants ceiling) then Err (E CodeForbidden)
                   else Ok (filter (fun scope => Allows permissions scope && Allows ceiling scope = true) ResellerScopes)
               end
      end
  end.

Definition minute : Z := 60 * second.

Definition touch_session (hash : string) (now : Z) (s : store) : store :=
  s <| admin_sessions ::= fmap (fun x => if String.eqb (se_TokenHash x) hash then x <| se_LastSeenAt := now |> else x) |>.

Section Sessions.
Context `{R : Random, N : Entropy} (ss : SessionStore).

Definition Sessions_Create (adminID sourceIP : string) : act store err (string * Z) :=
  now ← act_gets clock;
  token ← WithTx (NewRandomToken 32);
  id ← WithTx new_id;
  let exp := now + AbsoluteTTL ss in
  _ ← insert_session id (MkSessionRow adminID (hashToken token) now now exp sourceIP);
  mret (token, exp).

Definition Sessions_Validate (token : string) : act store err Admin :=
  row ← act_gets (session_join (hashToken token));
  match row with
  | None => act_fail (E CodeSessionExpired)
  | Some (x, a) =>
      now ← act_gets clock;
      if se_ExpiresAt x <? now then
        _ ← revoke (hashToken token); act_fail (E CodeSessionExpired)
      else if IdleTTL ss <? now - se_LastSeenAt x then
        _ ← revoke (hashToken token); act_fail (E CodeSessionExpired)
      else if negb (ar_Enabled a) then act_fail (E CodeForbidden)
      else
        r ← act_gets (reseller_of a);
        grants ← act_lift (effective_grants a r);
        _ ← act_when (minute <? now - se_LastSeenAt x) (act_modify (touch_session (hashToken token) now));
        mret (MkAdmin (se_AdminID x) (ar_Username a) (ar_Role a) grants true (ar_ResellerID a) (ar_Locale a)
                (ar_AppearancePreset a) (ar_AppearanceDigits a))
  end.
End Sessions.

(** ** internal/reseller/reseller.go *)

(** [reseller.Account]. *)
Record Tenant := MkTenant {
  tn_ID : string;
  tn_Slug : string;
  tn_DisplayName : string;
  tn_Permissions : list string;
  tn_Enabled : bool;
  tn_CreatedAt : Z;
  tn_UpdatedAt : Z
}.

(** The requested grants, once each and in order. *)
Definition ValidatePermissions (l : list string) : result err (list string) :=
  if forallb ResellerGrantable l then Ok (sort_strings (remove_dups l)) else Err (E CodeInvalidRequest).

Definition scanAccount (id : string) (row : option Reseller) : result err Tenant :=
  match row with
  | None => Err (E CodeNotFound)
  | Some r =>
      match decode_grants (rs_Permissions r) with
      | None => Err (Plain "reseller: permissions JSON")
      | Some grants => Ok (MkTenant id (rs_Slug r) (rs_DisplayName r) grants (rs_Enabled r) (rs_CreatedAt r) (rs_UpdatedAt r))
      end
  end.

Definition Resellers_Get (id : string) (s : store) : result err Tenant := scanAccount id (resellers s !! id).

(** [ORDER BY slug]: the slugs are unique. *)
Definition slug_le (a b : string * Reseller) : Prop := str_le (rs_Slug a.2) (rs_Slug b.2).
#[export] Instance slug_le_dec a b : Decision (slug_le a b).
Proof. unfold slug_le. apply _. Defined.

Fixpoint scan_accounts (l : list (string * Reseller)) : result err (list Tenant) :=
  match l with
  | [] => Ok []
  | (id, r) :: l => a ← scanAccount id (Some r); out ← scan_accounts l; Ok (a :: out)
  end.

Definition Resellers_List (s : store) : result err (list Tenant) :=
  scan_accounts (merge_sort slug_le (map_to_list (resellers s))).

Definition insert_reseller (id : string) (row : Reseller) : act store err unit := fun s =>
  if bool_decide (is_Some (resellers s !! id)) then (Err (Plain "reseller: create"), s)
  else if slug_taken (rs_Slug row) s then (Err (E CodeInvalidRequest), s)
  else (Ok tt, s <| resellers ::= <[id := row]> |>).

Definition Resellers_Create `{Entropy} (slug displayName : string) (grants : list string) : act store err Tenant :=
  let slug := trim_space (to_lower (String.length slug) slug) in
  let displayName := trim_space displayName in
  if negb (slugPattern slug) || (80 <? rune_count (String.length displayName) displayName)%nat
  then act_fail (E CodeInvalidRequest)
  else
    grants ← act_lift (ValidatePermissions grants);
    now ← act_gets clock;
    id ← WithTx new_id;
    _ ← insert_reseller id (MkReseller slug displayName (marshal_list (Some grants)) true now now);
    mret (MkTenant id slug displayName grants true now now).

(** An UPDATE of one row by its key. *)
Definition update_reseller (id : string) (f : Reseller -> Reseller) : act store err unit := fun s =>
  match resellers s !! id with
  | None => (Err (E CodeNotFound), s)
  | Some r => (Ok tt, s <| resellers ::= <[id := (f r) <| rs_UpdatedAt := clock s |>]> |>)
  end.

Definition Resellers_SetPermissions (id : string) (l : list string) : act store err unit :=
  grants ← act_lift (ValidatePermissions l);
  update_reseller id (fun r => r <| rs_Permissions := marshal_list (Some grants) |>).

Definition Resellers_SetEnabled (id : string) (enabled : bool) : act store err unit :=
  update_reseller id (fun r => r <| rs_Enabled := enabled |>).

(** The requested templates are distinct, stored and enabled. *)
Fixpoint check_templates (seen l : list string) (s : store) : result err unit :=
  match l with
  | [] => Ok tt
  | t :: l =>
      if String.eqb t "" || member t seen then Err (E CodeInvalidRequest)
      else match templates s !! t with
           | Some p => if p_Enabled p then check_templates (t :: seen) l s else Err (E CodeInvalidRequest)
           | None => Err (E CodeInvalidRequest)
           end
  end.

Definition SetTemplates (id : string) (templateIDs : list string) : act store err unit :=
  if (128 <? length templateIDs)%nat then act_fail (E CodeInvalidRequest)
  else WithTx (fun s =>
    match resellers s !! id with
    | None => Err (E CodeNotFound)
    | Some _ =>
        _ ← check_templates [] templateIDs s;
        Ok (tt, s <| reseller_access ::= fun m =>
                       filter (fun p => p.1 <> id) m ∪ list_to_set (pair id <$> templateIDs) |>)
    end).

Definition Templates (id : string) (s : store) : list string :=
  sort_strings (snd <$> filter (fun p => p.1 = id) (elements (reseller_access s))).

(** ** internal/admin/admin.go *)

(** [admin.Admin]. *)
Record Account := MkAccount {
  ac_ID : string;
  ac_ResellerID : option string;
  ac_Username : string;
  ac_Role : string;
  ac_Permissions : list string;
  ac_Enabled : bool;
  ac_CreatedAt : Z
}.

Definition account_of (id : string) (a : AdminRow) : Account :=
  MkAccount id (ar_ResellerID a) (ar_Username a) (ar_Role a) (default [] (decode_grants (ar_Permissions a)))
    (ar_Enabled a) (ar_CreatedAt a).

Definition admin_get (id : string) (s : store) : result err Account :=
  match admins s !! id with Some a => Ok (account_of id a) | None => Err (E CodeAdminNotFound) end.

Definition created_le (a b : string * AdminRow) : Prop :=
  text_le (rfc3339nano (ar_CreatedAt a.2)) (rfc3339nano (ar_CreatedAt b.2)) = true.
#[export] Instance created_le_dec a b : Decision (created_le a b).
Proof. exact (bool_eq_dec _ true). Defined.

(** [ORDER BY created_at]; [rows] is the order in which the table is scanned. *)
Definition Admins_List (rows : list (string * AdminRow)) : list Account :=
  (fun '(id, a) => account_of id a) <$> merge_sort created_le rows.

Definition username_char (c : ascii) : bool :=
  in_range "a" "z" c || in_range "A" "Z" c || is_digit c || Ascii.eqb c "_" || Ascii.eqb c "-".

Definition ValidateUsername (u : string) : result err unit :=
  if (String.length u <? 3)%nat || (32 <? String.length u)%nat || negb (str_all username_char u)
  then Err (E CodeInvalidRequest) else Ok tt.

Definition HasOwner (s : store) : bool := owner_exists s.

(** Every grant within the reseller's ceiling, which must be enabled. *)
Definition validateResellerGrants (resellerID : string) (permissions : list string) (s : store) : result err unit :=
  _ ← ValidatePermissions permissions;
  account ← Resellers_Get resellerID s;
  if negb (tn_Enabled account) then Err (E CodeForbidden)
  else if forallb (Allows (tn_Permissions account)) permissions then Ok tt else Err (E CodeForbidden).

(** What an insert was validated against is not what it commits to: the
    statement repeats the two checks that must hold at its own time. *)
Definition create_read (username role : string) (permissions : list string) (resellerID : option string)
    (s : store) : result err (list string) :=
  if negb (role_Valid role) then Err (E CodeInvalidRequest)
  else
    _ ← match resellerID with Some id => validateResellerGrants id permissions s | None => Ok tt end;
    permissions ←
      (if String.eqb role RoleOwner then
         if bool_decide (is_Some resellerID) then Err (E CodeInvalidRequest)
         else if owner_exists s then Err (E CodeOwnerProtected) else Ok []
       else match ValidateScopes permissions with Ok _ => Ok permissions | Err _ => Err (E CodeInvalidRequest) end);
    _ ← ValidateUsername username;
    Ok permissions.

Definition reseller_enabled (id : string) (s : store) : bool :=
  match resellers s !! id with Some r => rs_Enabled r | None => false end.

Definition insert_admin (id : string) (row : AdminRow) : act store err unit := fun s =>
  if (String.eqb (ar_Role row) RoleOwner && owner_exists s)
     || match ar_ResellerID row with Some r => negb (reseller_enabled r s) | None => false end
  then (Err (E (if bool_decide (is_Some (ar_ResellerID row)) then CodeForbidden else CodeOwnerProtected)), s)
  else if bool_decide (is_Some (admins s !! id)) || username_taken (ar_Username row) s then (Err (E CodeAdminExists), s)
  else (Ok tt, s <| admins ::= <[id := row]> |>).

Definition new_admin (username hash role : string) (permissions : list string) (resellerID : option string) (now : Z) : AdminRow :=
  MkAdminRow username hash role (marshal_list (Some permissions)) true now now resellerID "fa" "" "".

Section Admins.
Context `{R : Random, N : Entropy, K : Argon2}.

(** What follows the checks: another writer may have come in between. *)
Definition admin_commit (username password role : string) (resellerID : option string) (permissions : list string)
    : act store err Account :=
  hash ← WithTx (HashPassword password);
  id ← WithTx new_id;
  now ← act_gets clock;
  _ ← insert_admin id (new_admin username hash role permissions resellerID now);
  mret (MkAccount id resellerID username role permissions true now).

Definition admin_create (username password role : string) (permissions : list string) (resellerID : option string)
    : act store err Account :=
  permissions ← act_read (create_read username role permissions resellerID);
  admin_commit username password role resellerID permissions.

Definition Admins_Create (username password role : string) (permissions : list string) : act store err Account :=
  admin_create username password role permissions None.

Definition CreateForReseller (resellerID username password : string) (permissions : list string) : act store err Account :=
  if String.eqb resellerID "" then act_fail (E CodeInvalidRequest)
  else admin_create username password RoleAdmin permissions (Some resellerID).

Definition BootstrapOwner (username password : string) : act store err bool :=
  found ← act_gets owner_exists;
  if (found : bool) then mret false
  else
    r ← act_try (Admins_Create username password RoleOwner []);
    match r with
    | Ok _ => mret true
    | Err e => if bool_decide (CodeOf e = CodeOwnerProtected) then mret false else act_fail e
    end.

Definition dummyHash : string :=
  "$argon2id$v=19$m=19456,t=2,p=1$AAAAAAAAAAAAAAAAAAAAAA$AAAAAAAAAAAAAAAAAAAAAAAAAAAAAAAAAAAAAAAAAAA".

Definition by_username (username : string) (s : store) : option (string * AdminRow) :=
  head (filter (fun r => ar_Username r.2 = username) (map_to_list (admins s))).

Definition Authenticate (username password : string) (s : store) : result err Account :=
  match by_username username s with
  | None => match VerifyPassword password dummyHash with _ => Err (E CodeCredentialInvalid) end
  | Some (id, a) =>
      match VerifyPassword password (ar_PasswordHash a) with
      | Ok true =>
          if negb (ar_Enabled a)
             || match ar_ResellerID a with Some r => negb (reseller_enabled r s) | None => false end
          then Err (E CodeForbidden)
          else Ok (account_of id a)
      | _ => Err (E CodeCredentialInvalid)
      end
  end.

(** One UPDATE of an account by its key. *)
Definition update_admin (id : string) (f : AdminRow -> AdminRow) (s : store) : store :=
  s <| admins ::= alter (fun a => (f a) <| ar_UpdatedAt := clock s |>) id |>.

(** The same, with the missing row reported. *)
Definition update_known (id : string) (f : AdminRow -> AdminRow) : act store err unit := fun s =>
  match admins s !! id with
  | None => (Err (E CodeAdminNotFound), s)
  | Some _ => (Ok tt, update_admin id f s)
  end.

Definition SetLocale (id locale : string) : act store err unit :=
  if negb (String.eqb locale "fa") && negb (String.eqb locale "en") then act_fail (E CodeInvalidRequest)
  else update_known id (fun a => a <| ar_Locale := locale |>).

Definition SetAppearancePreset (id preset : string) : act store err unit :=
  update_known id (fun a => a <| ar_AppearancePreset := preset |>).

Definition DigitStyle_Valid (d : string) : bool := String.eqb d "latin" || String.eqb d "persian".

Definition SetAppearanceDigits (id digits : string) : act store err unit :=
  if negb (String.eqb digits "") && negb (DigitStyle_Valid digits) then act_fail (E CodeInvalidRequest)
  else update_known id (fun a => a <| ar_AppearanceDigits := digits |>).

Definition ResetAppearance (id : string) : act store err unit :=
  act_modify (update_admin id (fun a => a <| ar_AppearancePreset := "" |> <| ar_AppearanceDigits := "" |>)).

Definition SetPassword (id newPassword : string) : act store err unit :=
  hash ← WithTx (HashPassword newPassword);
  _ ← update_known id (fun a => a <| ar_PasswordHash := hash |>);
  RevokeAllForAdmin id.

Definition SetPermissions_read (id : string) (permissions : option (list string)) (s : store) : result err unit :=
  _ ← match ValidateScopes (default [] permissions) with Ok _ => Ok tt | Err _ => Err (E CodeInvalidRequest) end;
  a ← admin_get id s;
  if String.eqb (ac_Role a) RoleOwner then Err (E CodeOwnerProtected)
  else match ac_ResellerID a with
       | Some r => validateResellerGrants r (default [] permissions) s
       | None => Ok tt
       end.

Definition SetPermissions (id : string) (permissions : option (list string)) : act store err unit :=
  _ ← act_read (SetPermissions_read id permissions);
  act_modify (update_admin id (fun a => a <| ar_Permissions := marshal_list permissions |>)).

Definition SetEnabled (id : string) (enabled : bool) : act store err unit :=
  a ← act_read (admin_get id);
  if String.eqb (ac_Role a) RoleOwner then
    if negb enabled then act_fail (E CodeOwnerProtected) else mret tt
  else
    _ ← act_modify (update_admin id (fun a => a <| ar_Enabled := enabled |>));
    act_when (negb enabled) (RevokeAllForAdmin id).

(** The DELETE of an account with what its foreign keys do: its sessions go
    with it, and the tokens it issued lose their issuer. *)
Definition delete_admin (id : string) (s : store) : store :=
  if bool_decide (is_Some (admins s !! id)) then
    (delete_sessions (fun x => String.eqb (se_AdminID x) id) s)
      <| admins ::= delete id |>
      <| api_tokens ::= fmap (fun t => if bool_decide (tr_IssuedBy t = Some id) then t <| tr_IssuedBy := None |> else t) |>
  else s.

Definition Admins_Delete (id : string) : act store err unit :=
  a ← act_read (admin_get id);
  if String.eqb (ac_Role a) RoleOwner then act_fail (E CodeOwnerProtected)
  else
    _ ← act_modify (delete_admin id);
    RevokeAllForAdmin id.
End Admins.

(** ** Interleavings

    One step of the node: a whole operation of a service, with any outcome; the
    insertion of an account after checks made on some other state; or a change
    of other tables. *)

Section Steps.
Context `{R : Random, N : Entropy, K : Argon2} (ss : SessionStore).

Inductive account_step (s : store) : store -> Prop :=
| as_session_create adminID ip : account_step s (Sessions_Create ss adminID ip s).2
| as_session_validate token : account_step s (Sessions_Validate ss token s).2
| as_session_revoke token : account_step s (Revoke token s).2
| as_session_prune now : account_step s (Prune now s).2
| as_admin_commit username password role requested resellerID permissions s0 :
    create_read username role requested resellerID s0 = Ok permissions ->
    account_step s (admin_commit username password role resellerID permissions s).2
| as_bootstrap username password : account_step s (BootstrapOwner username password s).2
| as_locale id locale : account_step s (SetLocale id locale s).2
| as_preset id preset : account_step s (SetAppearancePreset id preset s).2
| as_digits id digits : account_step s (SetAppearanceDigits id digits s).2
| as_reset id : account_step s (ResetAppearance id s).2
| as_password id password : account_step s (SetPassword id password s).2
| as_permissions id permissions : account_step s (SetPermissions id permissions s).2
| as_enabled id enabled : account_step s (SetEnabled id enabled s).2
| as_delete id : account_step s (Admins_Delete id s).2
| as_tenant_create slug name grants : account_step s (Resellers_Create slug name grants s).2
| as_tenant_permissions id grants : account_step s (Resellers_SetPermissions id grants s).2
| as_tenant_enabled id enabled : account_step s (Resellers_SetEnabled id enabled s).2
| as_tenant_templates id ids : account_step s (SetTemplates id ids s).2
| as_other s' : admins s' = admins s -> resellers s' = resellers s -> admin_sessions s' = admin_sessions s ->
    api_tokens s' = api_tokens s -> account_step s s'.
End Steps.

(** ** The invariant *)

(** An account's grants are registered scopes and families; a tenant's are
    within what resellers may hold; the owner is of no tenant. *)
Definition admin_ok (a : AdminRow) : Prop :=
  role_Valid (ar_Role a) = true /\ (ar_Role a = RoleOwner -> ar_ResellerID a = None) /\
  exists grants, decode_grants (ar_Permissions a) = Some grants /\ ValidateScopes grants = Ok tt /\
    (is_Some (ar_ResellerID a) -> ValidResellerGrants grants = true).

Definition admins_wf (m : gmap string AdminRow) : Prop :=
  (forall id a, m !! id = Some a -> admin_ok a) /\
  (forall i j a b, m !! i = Some a -> m !! j = Some b -> ar_Role a = RoleOwner -> ar_Role b = RoleOwner -> i = j) /\
  (forall i j a b, m !! i = Some a -> m !! j = Some b -> ar_Username a = ar_Username b -> i = j).

Definition reseller_ok (r : Reseller) : Prop :=
  slugPattern (rs_Slug r) = true /\
  exists grants, decode_grants (rs_Permissions r) = Some grants /\ ValidResellerGrants grants = true.

Definition resellers_wf (m : gmap string Reseller) : Prop :=
  (forall id r, m !! id = Some r -> reseller_ok r) /\
  (forall i j a b, m !! i = Some a -> m !! j = Some b -> rs_Slug a = rs_Slug b -> i = j).

Definition sessions_wf (m : gmap string SessionRow) (ads : gmap string AdminRow) : Prop :=
  (forall id x, m !! id = Some x -> is_Some (ads !! se_AdminID x)) /\
  (forall i j x y, m !! i = Some x -> m !! j = Some y -> se_TokenHash x = se_TokenHash y -> i = j).

Definition accounts_wf (s : store) : Prop :=
  admins_wf (admins s) /\ resellers_wf (resellers s) /\ sessions_wf (admin_sessions s) (admins s).

(** ** Lemmas: unique columns *)

Lemma head_row_ok {V} (P : string * V -> Prop) `{forall r, Decision (P r)} (m : gmap string V) k v :
  head (filter P (map_to_list m)) = Some (k, v) -> m !! k = Some v /\ P (k, v).
Proof.
  intros Hh%head_Some_elem_of. apply list_elem_of_filter in Hh as [? Hin]. by apply elem_of_map_to_list in Hin.
Qed.

Lemma head_row_some {V} (P : string * V -> Prop) `{forall r, Decision (P r)} (m : gmap string V) k v :
  m !! k = Some v -> P (k, v) -> (forall k' v', m !! k' = Some v' -> P (k', v') -> k' = k) ->
  head (filter P (map_to_list m)) = Some (k, v).
Proof.
  intros Hk HP Hu. set (l := filter _ _).
  assert ((k, v) ∈ l) as Hin by (by apply list_elem_of_filter; split; [|apply elem_of_map_to_list]).
  destruct l as [|[k' v'] l'] eqn:El; [by apply elem_of_nil in Hin|]. cbn.
  assert ((k', v') ∈ l) as Hv by (rewrite El; apply list_elem_of_here).
  unfold l in Hv. apply list_elem_of_filter in Hv as [Hh Hv]. apply elem_of_map_to_list in Hv. 
  assert (k' = k) as -> by (by apply (Hu _ _ Hv)). by simplify_eq.
Qed.

(** A unique column stays unique under an insert that found no such value. *)
Lemma unique_insert {V X} `{EqDecision X} (f : V -> X) (p : V -> bool) (m : gmap string V) id v :
  (forall i j a b, m !! i = Some a -> m !! j = Some b -> f a = f b -> i = j) ->
  (forall w, f w = f v -> p w = true) -> existsb p (map_to_list m).*2 = false ->
  forall i j a b, <[id := v]> m !! i = Some a -> <[id := v]> m !! j = Some b -> f a = f b -> i = j.
Proof.
  intros Hm Hp He i j a b [[<- <-]|[_ Ha]]%lookup_insert_Some [[<- <-]|[_ Hb]]%lookup_insert_Some Hf; [done|..].
  - exfalso. rewrite (existsb_values_false p m) in He. specialize (He j b Hb). rewrite Hp in He; done.
  - exfalso. rewrite (existsb_values_false p m) in He. specialize (He i a Ha). rewrite Hp in He; done.
  - by apply (Hm i j a b).
Qed.

(** ** Lemmas: operations that keep a fact *)

Definition keeps {A} (I : store -> Prop) (m : act store err A) : Prop := forall s, I s -> I (m s).2.

(** A fact about the account tables. *)
Definition of_accounts (I : store -> Prop) : Prop := forall s s',
  admins s' = admins s -> resellers s' = resellers s -> admin_sessions s' = admin_sessions s ->
  api_tokens s' = api_tokens s -> I s -> I s'.

Section Keeps.
Context (I : store -> Prop) (HI : of_accounts I).

Lemma keeps_bind {A B} (m : act store err A) (f : A -> act store err B) :
  keeps I m -> (forall a, keeps I (f a)) -> keeps I (m ≫= f).
Proof.
  intros Hm Hf s Hs. specialize (Hm s Hs). unfold mbind, act_mbind, act_bind. destruct (m s) as [[a|e] s']; [|done].
  by apply Hf.
Qed.

Lemma keeps_pure {A} (q : store -> result err A) : keeps I (act_read q).
Proof. by intros s Hs. Qed.
Lemma keeps_ret {A} (a : A) : keeps I (mret a).
Proof. by intros s Hs. Qed.
Lemma keeps_gets {A} (f : store -> A) : keeps I (act_gets f).
Proof. by intros s Hs. Qed.
Lemma keeps_fail {A} e : keeps I (act_fail (A := A) e).
Proof. by intros s Hs. Qed.
Lemma keeps_lift {A} (r : result err A) : keeps I (act_lift r).
Proof. by intros s Hs. Qed.

Lemma keeps_read_bind {A B} (q : store -> result err A) (f : A -> act store err B) :
  (forall s a, q s = Ok a -> keeps I (f a)) -> keeps I (act_read q ≫= f).
Proof.
  intros Hf s Hs. unfold mbind, act_mbind, act_bind, act_read. destruct (q s) as [a|e] eqn:E; [|done]. by apply (Hf s a).
Qed.

Lemma keeps_draw {A} (m : Tx A) : (forall s a s', m s = Ok (a, s') -> outbox_only s s') -> keeps I (WithTx m).
Proof.
  intros Hm s Hs. unfold WithTx. destruct (m s) as [[a s']|e] eqn:E; [|done]. cbn [snd].
  destruct (Hm _ _ _ E) as (evs & dls & n & ->). by apply (HI s).
Qed.

Lemma keeps_modify f : (forall s, I s -> I (f s)) -> keeps I (act_modify f).
Proof. intros Hf s Hs. by apply Hf. Qed.

Lemma keeps_when b m : keeps I m -> keeps I (act_when b m).
Proof. intros Hm. destruct b; [done|apply keeps_ret]. Qed.

Lemma keeps_if {A} (b : bool) (m n : act store err A) : keeps I m -> keeps I n -> keeps I (if b then m else n).
Proof. by destruct b. Qed.

Lemma keeps_try {A} (m : act store err A) : keeps I m -> keeps I (act_try m).
Proof. intros Hm s Hs. specialize (Hm s Hs). unfold act_try. by destruct (m s). Qed.
End Keeps.

Lemma HashPassword_outbox `{Random, Argon2} pw s h s' : HashPassword pw s = Ok (h, s') -> outbox_only s s'.
Proof.
  unfold HashPassword. intros (u & s1 & H1 & H2)%tx_bind_ok.
  apply tx_bind_ok in H2 as (salt & s2 & H2%draw_tx_outbox & [= _ <-]).
  unfold tx_lift in H1. destruct (ValidatePassword pw); [|done]. by injection H1 as _ <-.
Qed.

Lemma NewRandomToken_outbox `{Random} n s t s' : NewRandomToken n s = Ok (t, s') -> outbox_only s s'.
Proof. unfold NewRandomToken. by intros (b & s1 & H1%draw_tx_outbox & [= _ <-])%tx_bind_ok. Qed.

Create HintDb keeps.
#[export] Hint Resolve keeps_pure keeps_ret keeps_gets keeps_fail keeps_lift : keeps.
#[export] Hint Extern 1 (keeps _ (WithTx _)) =>
  apply keeps_draw; [assumption|intros *; first [apply HashPassword_outbox|apply NewRandomToken_outbox|apply new_id_outbox]] : keeps.
#[export] Hint Extern 2 (keeps _ (act_when _ _)) => apply keeps_when : keeps.
#[export] Hint Extern 2 (keeps _ (act_try _)) => apply keeps_try : keeps.
#[export] Hint Extern 3 (keeps _ (if _ then _ else _)) => apply keeps_if : keeps.
#[export] Hint Extern 4 (keeps _ (_ ≫= _)) => apply keeps_bind; [|intros ?] : keeps.

(** ** Lemmas: each operation keeps the invariant *)

Section Sound.
Context `{R : Random, N : Entropy, K : Argon2} (ss : SessionStore).

Lemma accounts_wf_of : of_accounts accounts_wf.
Proof. intros s s' Ea Er Es _. unfold accounts_wf. by rewrite Ea, Er, Es. Qed.
Let HI := accounts_wf_of.

Lemma delete_sessions_wf P s : accounts_wf s -> accounts_wf (delete_sessions P s).
Proof.
  intros (Ha & Hr & H1 & H2). split_and!; [done..|]. split.
  - intros id x Hx. cbn in Hx. apply map_lookup_filter_Some in Hx as [Hx _]. by apply (H1 id).
  - intros i j x y Hx Hy. cbn in Hx, Hy. apply map_lookup_filter_Some in Hx as [Hx _], Hy as [Hy _]. by apply (H2 i j).
Qed.

Lemma keeps_delete_sessions P : keeps accounts_wf (act_modify (delete_sessions P)).
Proof. apply keeps_modify, delete_sessions_wf. Qed.

(** An account updated in place, to an account that is in order. *)
Lemma update_admin_wf id f s :
  (forall a, admins s !! id = Some a -> admin_ok a ->
     admin_ok (f a) /\ ar_Role (f a) = ar_Role a /\ ar_Username (f a) = ar_Username a) ->
  accounts_wf s -> accounts_wf (update_admin id f s).
Proof.
  intros Hf ((H1 & H2 & H3) & Hr & S1 & S2). set (g := fun a => (f a) <| ar_UpdatedAt := clock s |>).
  assert (forall i b, alter g id (admins s) !! i = Some b -> exists a, admins s !! i = Some a /\ admin_ok b /\
    ar_Role b = ar_Role a /\ ar_Username b = ar_Username a) as Hb.
  { intros i b Hi. apply lookup_alter_Some in Hi as [(<- & a & Ha & ->)|[_ Hi]].
    - destruct (Hf a Ha (H1 _ _ Ha)) as (Ho & Er & Eu). by exists a.
    - exists b. split_and!; [done|by apply (H1 i)|done..]. }
  split_and!; [split_and!|done|split; [|done]].
  - intros i b Hi. by apply Hb in Hi as (a & _ & Ho & _).
  - intros i j a b Hi Hj Ri Rj. apply Hb in Hi as (a' & Ha & _ & Ea & _), Hj as (b' & Hb' & _ & Eb & _).
    apply (H2 i j a' b'); congruence.
  - intros i j a b Hi Hj Eu. apply Hb in Hi as (a' & Ha & _ & _ & Ea), Hj as (b' & Hb' & _ & _ & Eb).
    apply (H3 i j a' b'); congruence.
  - intros i x Hx. cbn. destruct (S1 i x Hx) as [a Ha]. apply lookup_alter_is_Some. by exists a.
Qed.

(** A column that the invariant does not read. *)
Definition plain_column (f : AdminRow -> AdminRow) : Prop := forall a,
  ar_Role (f a) = ar_Role a /\ ar_Username (f a) = ar_Username a /\
  ar_ResellerID (f a) = ar_ResellerID a /\ ar_Permissions (f a) = ar_Permissions a.

Lemma plain_column_wf id f s : plain_column f -> accounts_wf s -> accounts_wf (update_admin id f s).
Proof.
  intros Hf. apply update_admin_wf. intros a _ Ho. destruct (Hf a) as (E1 & E2 & E3 & E4).
  split_and!; [|done..]. unfold admin_ok. by rewrite E1, E3, E4.
Qed.

Lemma keeps_known id f : plain_column f -> keeps accounts_wf (update_known id f).
Proof. intros Hf s Hs. unfold update_known. destruct (admins s !! id); [by apply plain_column_wf|done]. Qed.

Lemma keeps_plain id f : plain_column f -> keeps accounts_wf (act_modify (update_admin id f)).
Proof. intros Hf. apply keeps_modify. intros s. by apply plain_column_wf. Qed.
End Sound.

#[export] Hint Resolve keeps_delete_sessions : keeps.

Section Sound_steps.
Context `{R : Random, N : Entropy, K : Argon2} (ss : SessionStore).
Let HI := accounts_wf_of.

Lemma ValidatePermissions_ok l grants : ValidatePermissions l = Ok grants ->
  ValidResellerGrants grants = true /\ forall g, g ∈ grants <-> g ∈ l.
Proof.
  unfold ValidatePermissions. destruct (forallb ResellerGrantable l) eqn:E; [|done]. intros [= <-].
  assert (forall g, g ∈ sort_strings (remove_dups l) <-> g ∈ l) as Hg
    by (intros g; by rewrite sort_strings_elem, elem_of_remove_dups).
  split; [|done]. unfold ValidResellerGrants. apply forallb_forall. intros g Hin%list_elem_of_In.
  rewrite forallb_forall in E. by apply E, list_elem_of_In, Hg.
Qed.

Lemma ValidatePermissions_valid l grants : ValidatePermissions l = Ok grants -> ValidResellerGrants l = true.
Proof. unfold ValidatePermissions. by destruct (forallb ResellerGrantable l) eqn:E. Qed.

Lemma validateResellerGrants_ok r l s : validateResellerGrants r l s = Ok tt -> ValidResellerGrants l = true.
Proof. unfold validateResellerGrants. intros (g & Hg & _)%res_bind_ok. by eapply ValidatePermissions_valid. Qed.

Lemma decode_marshal_option permissions : ValidateScopes (default [] permissions) = Ok tt ->
  decode_grants (marshal_list permissions) = Some (default [] permissions).
Proof. destruct permissions as [l|]; [apply decode_marshal_grants|done]. Qed.

Lemma create_read_ok username role requested rid s permissions hash now :
  create_read username role requested rid s = Ok permissions ->
  admin_ok (new_admin username hash role permissions rid now).
Proof.
  unfold create_read, admin_ok. cbn [new_admin ar_Role ar_ResellerID ar_Permissions].
  destruct (role_Valid role) eqn:Er; [cbn [negb]|done].
  intros (u & Hv & (p & Hp & (u' & _ & [= <-])%res_bind_ok)%res_bind_ok)%res_bind_ok. destruct u.
  split; [done|]. destruct (String.eqb_spec role RoleOwner) as [Ho|Ho].
  - case_bool_decide as Hr; [done|]. destruct (owner_exists s); [done|]. injection Hp as <-.
    split; [intros _; destruct rid; [by destruct Hr|done]|]. exists []. split_and!; [done..|]. intros [? ->]. by destruct Hr.
  - destruct (ValidateScopes requested) as [[]|] eqn:Es; [|done]. injection Hp as <-. split; [done|].
    exists requested. split_and!; [by apply decode_marshal_grants|done|]. intros [r ->]. by eapply validateResellerGrants_ok.
Qed.

Lemma insert_admin_wf id row : admin_ok row -> keeps accounts_wf (insert_admin id row).
Proof.
  intros Hok s ((H1 & H2 & H3) & Hr & S1 & S2). unfold insert_admin.
  destruct (String.eqb (ar_Role row) RoleOwner && owner_exists s) eqn:Eo; cbn [orb]; [by split_and!|].
  match goal with |- accounts_wf (snd (if ?b then _ else _)) => destruct b; [by split_and!|] end.
  match goal with |- accounts_wf (snd (if ?b then _ else _)) => destruct b eqn:Et; [by split_and!|] end.
  apply orb_false_iff in Et as [Ei Eu]. apply bool_decide_eq_false, eq_None_not_Some in Ei.
  split_and!; [split_and!|done|split; [|done]]; cbn.
  - intros i a [[<- <-]|[_ Hi]]%lookup_insert_Some; [done|by apply (H1 i)].
  - assert (forall i a, admins s !! i = Some a -> ar_Role row = RoleOwner -> ar_Role a = RoleOwner -> False) as Hn.
    { intros i a Ha Ew Ea. rewrite Ew, String.eqb_refl in Eo. cbn [andb] in Eo. unfold owner_exists in Eo.
      rewrite existsb_values_false in Eo. specialize (Eo i a Ha). by rewrite Ea in Eo. }
    intros i j a b [[<- <-]|[_ Ha]]%lookup_insert_Some [[<- <-]|[_ Hb]]%lookup_insert_Some Ra Rb; [done|..].
    + by destruct (Hn _ _ Hb).
    + by destruct (Hn _ _ Ha).
    + by apply (H2 i j a b).
  - apply (unique_insert ar_Username _ _ _ _ H3) with (2 := Eu). intros w Ew. by apply String.eqb_eq.
  - intros i x Hx. cbn. apply lookup_insert_is_Some'. right. by apply (S1 i).
Qed.

Lemma keeps_commit username role requested rid s0 permissions password :
  create_read username role requested rid s0 = Ok permissions ->
  keeps accounts_wf (admin_commit username password role rid permissions).
Proof.
  intros Hr. unfold admin_commit. pose proof HI.
  apply keeps_bind; [auto with keeps|]. intros hash. apply keeps_bind; [auto with keeps|]. intros id.
  apply keeps_bind; [auto with keeps|]. intros now. apply keeps_bind; [|auto with keeps].
  apply insert_admin_wf. by eapply create_read_ok.
Qed.

Lemma keeps_bootstrap username password : keeps accounts_wf (BootstrapOwner username password).
Proof.
  unfold BootstrapOwner. apply keeps_bind; [auto with keeps|]. intros []; [auto with keeps|].
  apply keeps_bind; [|intros []; auto with keeps].
  apply keeps_try, keeps_read_bind. intros s a. apply keeps_commit.
Qed.

Lemma insert_session_wf id x : keeps accounts_wf (insert_session id x).
Proof.
  intros s (Ha & Hr & S1 & S2). unfold insert_session.
  match goal with |- accounts_wf (snd (if ?b then _ else _)) => destruct b eqn:E; [done|] end.
  apply orb_false_iff in E as [[Ei Eh]%orb_false_iff Ef%negb_false_iff%bool_decide_eq_true].
  split_and!; [done..|split]; cbn.
  - intros i y [[<- <-]|[_ Hi]]%lookup_insert_Some; [done|by apply (S1 i)].
  - apply (unique_insert se_TokenHash _ _ _ _ S2) with (2 := Eh). intros w Ew. by apply String.eqb_eq.
Qed.

Lemma touch_session_wf hash now s : accounts_wf s -> accounts_wf (touch_session hash now s).
Proof.
  intros (Ha & Hr & S1 & S2). split_and!; [done..|].
  assert (forall i y, admin_sessions (touch_session hash now s) !! i = Some y -> exists x, admin_sessions s !! i = Some x /\
    se_AdminID y = se_AdminID x /\ se_TokenHash y = se_TokenHash x) as Hy.
  { intros i y Hi. cbn in Hi. apply lookup_fmap_Some in Hi as (x & <- & Hx). exists x. by destruct (String.eqb _ _). }
  split.
  - intros i y (x & Hx & -> & _)%Hy. by apply (S1 i).
  - intros i j y z (x & Hx & _ & ->)%Hy (w & Hw & _ & ->)%Hy. by apply S2.
Qed.

Lemma keeps_validate token : keeps accounts_wf (Sessions_Validate ss token).
Proof.
  unfold Sessions_Validate. apply keeps_bind; [auto with keeps|]. intros [[x a]|]; [|auto with keeps].
  apply keeps_bind; [auto with keeps|]. intros now.
  assert (keeps accounts_wf (_ ← revoke (hashToken token); act_fail (A := Admin) (E CodeSessionExpired))) as Hrev
    by (unfold revoke; auto with keeps).
  apply keeps_if; [done|]. apply keeps_if; [done|]. apply keeps_if; [auto with keeps|].
  apply keeps_bind; [auto with keeps|]. intros r. apply keeps_bind; [auto with keeps|]. intros grants.
  apply keeps_bind; [|auto with keeps]. apply keeps_when, keeps_modify. intros s. apply touch_session_wf.
Qed.

Lemma keeps_permissions id permissions : keeps accounts_wf (SetPermissions id permissions).
Proof.
  intros s Hs. unfold SetPermissions, mbind, act_mbind, act_bind, act_read.
  destruct (SetPermissions_read id permissions s) as [u|e] eqn:E; [|done]. apply update_admin_wf; [|done].
  intros a Ha Hok. unfold SetPermissions_read in E. apply res_bind_ok in E as (u1 & Hv & E).
  destruct (ValidateScopes (default [] permissions)) as [[]|] eqn:Ev; [|done].
  apply res_bind_ok in E as (ac & Hac & E). unfold admin_get in Hac. rewrite Ha in Hac. injection Hac as <-. cbn in E.
  destruct (String.eqb_spec (ar_Role a) RoleOwner) as [|Ho]; [done|]. split_and!; [|done..].
  destruct Hok as (Hro & _ & _). split_and!; [done..|]. exists (default [] permissions).
  split_and!; [by apply decode_marshal_option|done|]. cbn. intros [r Hr]. rewrite Hr in E. destruct u. by eapply validateResellerGrants_ok.
Qed.

Lemma keeps_delete id : keeps accounts_wf (Admins_Delete id).
Proof.
  unfold Admins_Delete. apply keeps_bind; [auto with keeps|]. intros a. apply keeps_if; [auto with keeps|].
  unfold RevokeAllForAdmin. apply keeps_bind; [|auto with keeps]. apply keeps_modify. intros s Hs.
  unfold delete_admin. case_bool_decide; [|done].
  destruct Hs as ((H1 & H2 & H3) & Hr & S1 & S2). split_and!; [split_and!|done|split]; cbn.
  - intros i b [_ Hi]%lookup_delete_Some. by apply (H1 i).
  - intros i j b c [_ Hi]%lookup_delete_Some [_ Hj]%lookup_delete_Some. by apply H2.
  - intros i j b c [_ Hi]%lookup_delete_Some [_ Hj]%lookup_delete_Some. by apply H3.
  - intros i x [Hx Hne]%map_lookup_filter_Some. cbn in Hne. apply lookup_delete_is_Some. split; [|by apply (S1 i)].
    intros ->. by rewrite String.eqb_refl in Hne.
  - intros i j x y [Hx _]%map_lookup_filter_Some [Hy _]%map_lookup_filter_Some. by apply S2.
Qed.

Lemma update_reseller_wf id f : (forall r, reseller_ok r -> reseller_ok (f r) /\ rs_Slug (f r) = rs_Slug r) ->
  keeps accounts_wf (update_reseller id f).
Proof.
  intros Hf s (Ha & (R1 & R2) & Hs). unfold update_reseller. destruct (resellers s !! id) as [r|] eqn:Er; [|done].
  destruct (Hf r (R1 _ _ Er)) as [Ho Esl]. split_and!; [done|split|done]; cbn.
  - intros i w [[<- <-]|[_ Hi]]%lookup_insert_Some; [done|by apply (R1 i)].
  - intros i j w v [[<- <-]|[_ Hi]]%lookup_insert_Some [[<- <-]|[_ Hj]]%lookup_insert_Some Hw; [done|..].
    + apply (R2 _ _ r v); [done..|]. cbn in Hw. congruence.
    + apply (R2 _ _ w r); [done..|]. cbn in Hw. congruence.
    + by apply (R2 i j w v).
Qed.

Lemma decode_reseller_grants l : ValidResellerGrants l = true -> decode_grants (marshal_list (Some l)) = Some l.
Proof. intros H. by apply decode_marshal_grants, reseller_grants_valid. Qed.

Lemma keeps_tenant_create slug name grants : keeps accounts_wf (Resellers_Create slug name grants).
Proof.
  unfold Resellers_Create. cbv zeta. set (sl := trim_space _). set (dn := trim_space _). pose proof HI.
  destruct (slugPattern sl) eqn:Esl; cbn [negb orb]; [|apply keeps_fail]. apply keeps_if; [apply keeps_fail|].
  intros s Hs. unfold mbind at 1, act_mbind, act_bind, act_lift.
  destruct (ValidatePermissions grants) as [gs|] eqn:Eg; [|done]. apply ValidatePermissions_ok in Eg as [Hv _].
  revert s Hs. change (keeps accounts_wf (now ← act_gets clock; id ← WithTx new_id;
    _ ← insert_reseller id (MkReseller sl dn (marshal_list (Some gs)) true now now); mret (MkTenant id sl dn gs true now now))).
  apply keeps_bind; [auto with keeps|]. intros now. apply keeps_bind; [auto with keeps|]. intros id.
  apply keeps_bind; [|auto with keeps]. intros s (Ha & (R1 & R2) & Hs). unfold insert_reseller.
  case_bool_decide; [done|]. destruct (slug_taken _ s) eqn:Et; [done|]. split_and!; [done|split|done]; cbn.
  - intros i w [[<- <-]|[_ Hi]]%lookup_insert_Some; [|by apply (R1 i)]. split; [done|]. exists gs.
    split; [by apply decode_reseller_grants|done].
  - apply (unique_insert rs_Slug _ _ _ _ R2) with (2 := Et). intros w Ew. by apply String.eqb_eq.
Qed.

Lemma keeps_tenant_permissions id l : keeps accounts_wf (Resellers_SetPermissions id l).
Proof.
  intros s Hs. unfold Resellers_SetPermissions, mbind, act_mbind, act_bind, act_lift.
  destruct (ValidatePermissions l) as [gs|] eqn:Eg; [|done]. apply ValidatePermissions_ok in Eg as [Hv _].
  apply update_reseller_wf; [|done]. intros r [Hsl _]. split; [split; [done|]|done]. exists gs.
  split; [by apply decode_reseller_grants|done].
Qed.
End Sound_steps.

(** ** Lemmas: sessions *)

Section Session_facts.
Context `{R : Random, N : Entropy} (ss : SessionStore).

Lemma session_join_ok hash s x a : session_join hash s = Some (x, a) ->
  exists k, admin_sessions s !! k = Some x /\ se_TokenHash x = hash /\ admins s !! se_AdminID x = Some a.
Proof.
  unfold session_join. destruct (session_row hash s) as [[k y]|] eqn:E; [|done].
  destruct (admins s !! se_AdminID y) as [b|] eqn:Ea; [|done]. intros [= -> ->].
  apply head_row_ok in E as [Hk Hh]. by exists k.
Qed.

Lemma session_join_some s k x a : accounts_wf s -> admin_sessions s !! k = Some x -> admins s !! se_AdminID x = Some a ->
  session_join (se_TokenHash x) s = Some (x, a).
Proof.
  intros (_ & _ & _ & Hu) Hk Ha. unfold session_join.
  assert (session_row (se_TokenHash x) s = Some (k, x)) as ->; [|by rewrite Ha].
  apply head_row_some; [done..|]. intros k' y Hy Hh. by apply (Hu k' k y x).
Qed.

(** The account a session stands for, as the request handlers see it. *)
Definition principal (x : SessionRow) (a : AdminRow) (grants : list string) : Admin :=
  MkAdmin (se_AdminID x) (ar_Username a) (ar_Role a) grants true (ar_ResellerID a) (ar_Locale a)
    (ar_AppearancePreset a) (ar_AppearanceDigits a).

Lemma Validate_run token s x a : session_join (hashToken token) s = Some (x, a) ->
  (Sessions_Validate ss token s).1 =
  if (se_ExpiresAt x <? clock s) || (IdleTTL ss <? clock s - se_LastSeenAt x) then Err (E CodeSessionExpired)
  else if negb (ar_Enabled a) then Err (E CodeForbidden)
  else grants ← effective_grants a (reseller_of a s); Ok (principal x a grants).
Proof.
  intros Hj. unfold Sessions_Validate, mbind, act_mbind, act_bind, act_gets. rewrite Hj.
  destruct (se_ExpiresAt x <? clock s); [done|]. destruct (IdleTTL ss <? _); [done|]. cbn [orb].
  destruct (negb (ar_Enabled a)); [done|]. unfold act_lift.
  destruct (effective_grants a (reseller_of a s)) as [grants|]; [|done]. by destruct (minute <? _).
Qed.

Lemma Validate_ok token s ad s' : Sessions_Validate ss token s = (Ok ad, s') ->
  exists k x a grants, admin_sessions s !! k = Some x /\ se_TokenHash x = hashToken token /\
    admins s !! se_AdminID x = Some a /\ clock s <= se_ExpiresAt x /\ clock s - se_LastSeenAt x <= IdleTTL ss /\
    ar_Enabled a = true /\ effective_grants a (reseller_of a s) = Ok grants /\ ad = principal x a grants.
Proof.
  intros Hv. assert ((Sessions_Validate ss token s).1 = Ok ad) as H1 by (by rewrite Hv).
  destruct (session_join (hashToken token) s) as [[x a]|] eqn:Hj.
  - rewrite (Validate_run _ _ _ _ Hj) in H1. apply session_join_ok in Hj as (k & Hk & Hh & Ha).
    destruct (_ || _) eqn:Eo; [done|]. apply orb_false_iff in Eo as [E1%Z.ltb_ge E2%Z.ltb_ge].
    destruct (ar_Enabled a) eqn:Ee; [|done]. apply res_bind_ok in H1 as (grants & Hg & [= <-]).
    exists k, x, a, grants. by rewrite Hg.
  - unfold Sessions_Validate, mbind, act_mbind, act_bind, act_gets in Hv. by rewrite Hj in Hv.
Qed.

(** What an account is granted, once its tenant's ceiling is applied. *)
Definition within_ceiling (s : store) (a : AdminRow) (required : string) : Prop :=
  match ar_ResellerID a with
  | None => True
  | Some r => exists t ceiling, resellers s !! r = Some t /\ rs_Enabled t = true /\
      decode_grants (rs_Permissions t) = Some ceiling /\ ResellerGrantable required = true /\ Allows ceiling required = true
  end.

Lemma ResellerScopes_elem g : g ∈ ResellerScopes <-> ResellerGrantable g = true.
Proof. unfold ResellerScopes, ResellerGrantable. by rewrite sort_strings_elem, member_iff. Qed.

Lemma effective_grants_allow s a perms grants required : admin_ok a -> decode_grants (ar_Permissions a) = Some perms ->
  effective_grants a (reseller_of a s) = Ok grants ->
  (Allows grants required = true <-> Allows perms required = true /\ within_ceiling s a required).
Proof.
  intros (_ & Ho & _) Hd. unfold effective_grants, reseller_of, within_ceiling.
  assert (String.eqb (ar_Permissions a) "" = false) as -> by (destruct (String.eqb_spec (ar_Permissions a) "") as [E|]; [by rewrite E in Hd|done]).
  rewrite Hd. destruct (ar_ResellerID a) as [r|].
  - destruct (resellers s !! r) as [t|] eqn:Et; [|done].
    destruct (String.eqb_spec (ar_Role a) RoleOwner) as [Hr|_]; [by specialize (Ho Hr)|]. cbn [orb].
    destruct (rs_Enabled t) eqn:Ee; [|done]. cbn [negb].
    destruct (decode_grants (rs_Permissions t)) as [ceiling|] eqn:Ec; [|done].
    destruct (ValidResellerGrants ceiling) eqn:Ev; [|done]. cbn [negb]. intros [= <-].
    rewrite Allows_plain by (intros g Hg; apply list_elem_of_filter in Hg as [_ Hg];
      by apply ResellerGrantable_scope, ResellerScopes_elem).
    rewrite list_elem_of_filter, andb_true_iff, ResellerScopes_elem. split.
    + intros [[Hp Hc] Hg]. split; [done|]. by exists t, ceiling.
    + intros [Hp (t' & c' & [= <-] & _ & Hc' & Hg & Hc)]. simplify_eq. by split_and!.
  - intros [= <-]. tauto.
Qed.

(** An account whose tenant, if it has one, is enabled gets some grants. *)
Lemma effective_grants_ok s id a : accounts_wf s -> admins s !! id = Some a ->
  (forall r, ar_ResellerID a = Some r -> reseller_enabled r s = true) ->
  exists grants, effective_grants a (reseller_of a s) = Ok grants.
Proof.
  intros ((H1 & _) & (R1 & _) & _) Ha Hr. destruct (H1 _ _ Ha) as (_ & Ho & perms & Hd & _).
  unfold effective_grants, reseller_of.
  assert (String.eqb (ar_Permissions a) "" = false) as -> by (destruct (String.eqb_spec (ar_Permissions a) "") as [E|]; [by rewrite E in Hd|done]).
  rewrite Hd. destruct (ar_ResellerID a) as [r|]; [|by eexists].
  specialize (Hr r eq_refl). unfold reseller_enabled in Hr. destruct (resellers s !! r) as [t|] eqn:Et; [|done].
  rewrite Hr. destruct (String.eqb_spec (ar_Role a) RoleOwner) as [Hro|_]; [by specialize (Ho Hro)|]. cbn [orb negb].
  destruct (R1 _ _ Et) as (_ & ceiling & -> & ->). by eexists.
Qed.

Lemma Create_session_ok adminID ip s token exp s' : Sessions_Create ss adminID ip s = (Ok (token, exp), s') ->
  exists k, s' = s <| admin_sessions ::= <[k := MkSessionRow adminID (hashToken token) (clock s) (clock s) exp ip]> |>
                   <| entropy_pos := S (S (entropy_pos s)) |> /\
    exp = clock s + AbsoluteTTL ss /\ admin_sessions s !! k = None /\ hash_used (hashToken token) s = false /\
    is_Some (admins s !! adminID).
Proof.
  unfold Sessions_Create, NewRandomToken, new_id, draw_tx, insert_session, mbind, act_mbind, act_bind, tx_mbind, tx_bind, act_gets, WithTx,
    tx_ret. set (tok := raw_url _). cbv zeta.
  match goal with |- context [if ?b then _ else _] => destruct b eqn:E end; [done|].
  apply orb_false_iff in E as [[Ei%bool_decide_eq_false%eq_None_not_Some Eh]%orb_false_iff Ef%negb_false_iff%bool_decide_eq_true].
  intros [= <- <- <-]. eexists. split_and!; [|done|exact Ei|done|done]. by destruct s.
Qed.
End Session_facts.

(** ** Properties *)

Lemma accounts_wf_empty now : accounts_wf (empty_store now).
Proof. split_and!; [split_and!|split|split]; intros *; cbn; by rewrite ?lookup_empty. Qed.

Lemma account_step_wf `{R : Random, N : Entropy, K : Argon2} ss s s' : account_step ss s s' -> accounts_wf s -> accounts_wf s'.
Proof.
  pose proof accounts_wf_of as HI. destruct 1 as [admin ip|token|token|now|user pw role req rid perms s0 Hr|user pw|id loc|id pre|id dig|id|
    id pw|id perms|id en|id|slug name gs|id gs|id en|id ids|s' E1 E2 E3 E4]; intros Hs.
  - revert s Hs. change (keeps accounts_wf (Sessions_Create ss admin ip)). unfold Sessions_Create. cbv zeta.
    do 3 (apply keeps_bind; [auto with keeps|intros ?]). apply keeps_bind; [apply insert_session_wf|auto with keeps].
  - by apply keeps_validate.
  - by apply keeps_delete_sessions.
  - by apply delete_sessions_wf.
  - by eapply keeps_commit.
  - by apply keeps_bootstrap.
  - unfold SetLocale. destruct (_ && _); [done|]. by apply keeps_known.
  - by apply keeps_known.
  - unfold SetAppearanceDigits. destruct (_ && _); [done|]. by apply keeps_known.
  - by apply keeps_plain.
  - revert s Hs. change (keeps accounts_wf (SetPassword id pw)). unfold SetPassword.
    apply keeps_bind; [auto with keeps|intros h]. apply keeps_bind; [by apply keeps_known|intros _]. unfold RevokeAllForAdmin.
    auto with keeps.
  - by apply keeps_permissions.
  - revert s Hs. change (keeps accounts_wf (SetEnabled id en)). unfold SetEnabled, RevokeAllForAdmin.
    apply keeps_bind; [auto with keeps|intros a]. apply keeps_if; [auto with keeps|].
    apply keeps_bind; [by apply keeps_plain|auto with keeps].
  - by apply keeps_delete.
  - by apply keeps_tenant_create.
  - by apply keeps_tenant_permissions.
  - apply update_reseller_wf; [|done]. intros r Hr. by split.
  - unfold SetTemplates. destruct (_ <? _)%nat; [done|]. unfold WithTx. destruct (resellers s !! id); [|done].
    destruct (check_templates [] ids s); [|done]. by apply (HI s).
  - by apply (HI s).
Qed.

(** C8. From the empty node, whatever operations run and however account
    creations interleave with other writers: there is at most one owner, user
    names and tenant identifiers are unique, every account's grants decode to
    registered ones, a tenant's accounts hold only what resellers may hold and
    are never the owner, and every session belongs to an account. *)
Theorem accounts_sound `{R : Random, N : Entropy, K : Argon2} ss now s :
  rtc (account_step ss) (empty_store now) s -> accounts_wf s.
Proof.
  intros Hs. assert (forall s1, rtc (account_step ss) s1 s -> accounts_wf s1 -> accounts_wf s) as H
    by (induction 1; eauto using account_step_wf).
  apply (H _ Hs), accounts_wf_empty.
Qed.

(** C7. What a validated session allows: exactly the scopes its account's
    current grants allow, or all for the owner, and for a tenant's account only
    those of the closed list of reseller scopes that the current ceiling of its
    enabled tenant allows; the account is enabled. *)
Theorem session_ceiling `{R : Random, N : Entropy} ss token s ad s' :
  accounts_wf s -> Sessions_Validate ss token s = (Ok ad, s') ->
  exists a perms, admins s !! ad_ID ad = Some a /\ ar_Enabled a = true /\ decode_grants (ar_Permissions a) = Some perms /\
    forall required, Authorized (ad_Role ad) (ad_Permissions ad) required = true <->
      ar_Role a = RoleOwner \/ (Allows perms required = true /\ within_ceiling s a required).
Proof.
  intros Hwf (k & x & a & grants & _ & _ & Ha & _ & _ & He & Hg & ->)%Validate_ok.
  pose proof (proj1 (proj1 Hwf) _ _ Ha) as Hok. pose proof Hok as (_ & _ & perms & Hd & _).
  exists a, perms. split_and!; [done..|]. intros required. unfold Authorized. cbn [ad_Role ad_Permissions principal].
  destruct (String.eqb_spec (ar_Role a) RoleOwner) as [Hr|Hr]; [split; [by left|done]|].
  rewrite (effective_grants_allow _ _ _ _ required Hok Hd Hg). split; [by right|]. by intros [|].
Qed.

(** No session of the account is left. *)
Definition logged_out (id : string) (s : store) : Prop :=
  forall k x, admin_sessions s !! k = Some x -> se_AdminID x <> id.

Lemma delete_sessions_out id s : logged_out id (delete_sessions (fun x => String.eqb (se_AdminID x) id) s).
Proof. intros k x [_ Hx]%map_lookup_filter_Some. cbn in Hx. by apply String.eqb_neq. Qed.

Lemma logged_out_validate `{R : Random, N : Entropy} ss id s token ad s' : logged_out id s ->
  Sessions_Validate ss token s = (Ok ad, s') -> ad_ID ad <> id.
Proof. intros Hl (k & x & a & g & Hk & _ & _ & _ & _ & _ & _ & ->)%Validate_ok. by apply (Hl k). Qed.

(** The three operations that end an account's sessions. *)
Inductive locks_out `{R : Random, K : Argon2} (id : string) (s : store) : store -> Prop :=
| lo_password password s' : SetPassword id password s = (Ok tt, s') -> locks_out id s s'
| lo_disable s' : SetEnabled id false s = (Ok tt, s') -> locks_out id s s'
| lo_delete s' : Admins_Delete id s = (Ok tt, s') -> locks_out id s s'.

(** Changing an account's password, disabling it or deleting it ends all
    its sessions at once: no token that was valid before validates as that
    account afterwards. *)
Theorem lockout `{R : Random, N : Entropy, K : Argon2} ss id s s' :
  locks_out id s s' -> forall token ad s2, Sessions_Validate ss token s' = (Ok ad, s2) -> ad_ID ad <> id.
Proof.
  intros Hl token ad s2. apply logged_out_validate. destruct Hl as [pw s' H|s' H|s' H].
  - unfold SetPassword, mbind, act_mbind, act_bind in H. destruct (WithTx (HashPassword pw) s) as [[h|] s1]; [|done].
    destruct (update_known _ _ s1) as [[[]|] s3]; [|done]. injection H as <-. apply delete_sessions_out.
  - unfold SetEnabled, mbind, act_mbind, act_bind, act_read in H. destruct (admin_get id s) as [a|]; [|done].
    destruct (String.eqb (ac_Role a) RoleOwner); [done|]. injection H as <-. apply delete_sessions_out.
  - unfold Admins_Delete, mbind, act_mbind, act_bind, act_read in H. destruct (admin_get id s) as [a|]; [|done].
    destruct (String.eqb (ac_Role a) RoleOwner); [done|]. injection H as <-. apply delete_sessions_out.
Qed.

(** A session of an enabled account, of an enabled tenant if of any,
    validates as that account for as long as neither its lifetime nor its idle
    time is over, and as nothing later. *)
Theorem session_window `{R : Random, N : Entropy} ss id ip s token exp s1 a dt :
  accounts_wf s -> admins s !! id = Some a -> ar_Enabled a = true ->
  (forall r, ar_ResellerID a = Some r -> reseller_enabled r s = true) ->
  Sessions_Create ss id ip s = (Ok (token, exp), s1) -> 0 <= dt ->
  match (Sessions_Validate ss token (s1 <| clock := clock s + dt |>)).1 with
  | Ok ad => ad_ID ad = id /\ dt <= IdleTTL ss /\ dt <= AbsoluteTTL ss
  | Err e => e = E CodeSessionExpired /\ (IdleTTL ss < dt \/ AbsoluteTTL ss < dt)
  end.
Proof.
  intros Hwf Ha He Hr Hc Hdt. assert (accounts_wf s1) as Hwf1.
  { pose proof (as_session_create (K := fun _ _ _ _ _ n => []) ss s id ip) as Hst. rewrite Hc in Hst.
    by apply (account_step_wf _ _ _ Hst). }
  apply Create_session_ok in Hc as (k & -> & -> & Hk & _ & _). set (x := MkSessionRow _ _ _ _ _ _) in *.
  set (s2 := _ <| clock := _ |>). assert (accounts_wf s2) as Hwf2 by done.
  assert (session_join (hashToken token) s2 = Some (x, a)) as Hj.
  { apply (session_join_some s2 k x a); [done|cbn; apply lookup_insert_eq|done]. }
  rewrite (Validate_run _ _ _ _ _ Hj), He. cbn [negb].
  destruct (effective_grants_ok s2 id a Hwf2 Ha Hr) as [grants ->].
  change (clock s2) with (clock s + dt). cbn [x se_ExpiresAt se_LastSeenAt].
  destruct (Z.ltb_spec (clock s + AbsoluteTTL ss) (clock s + dt)); cbn [orb]; [split; [done|lia]|].
  destruct (Z.ltb_spec (IdleTTL ss) (clock s + dt - clock s)); [split; [done|lia]|].
  split; [done|]. lia.
Qed.

(** C11. After a password change the account's name and the new password log it
    in, unless the account or its tenant is disabled, and a password that does
    not derive the new key is refused. *)
Theorem password_login `{R : Random, N : Entropy, K : Argon2, !Argon2Laws K} id password s s' :
  accounts_wf s -> SetPassword id password s = (Ok tt, s') ->
  exists a salt, admins s' !! id = Some a /\ forall other, Authenticate (ar_Username a) other s' =
    if bool_decide (IDKey other salt argonTime argonMemory argonThreads argonKeyLen
                    = IDKey password salt argonTime argonMemory argonThreads argonKeyLen) then
      if negb (ar_Enabled a) || match ar_ResellerID a with Some r => negb (reseller_enabled r s') | None => false end
      then Err (E CodeForbidden) else Ok (account_of id a)
    else Err (E CodeCredentialInvalid).
Proof.
  intros Hwf Hp. assert (accounts_wf s') as Hwf'.
  { pose proof (as_password (MkSessionStore 0 0) s id password) as Hst. rewrite Hp in Hst. by apply (account_step_wf _ _ _ Hst). }
  unfold SetPassword, mbind, act_mbind, act_bind in Hp. destruct (WithTx (HashPassword password) s) as [[h|] s1] eqn:Hh; [|done].
  apply WithTx_run, HashPassword_ok in Hh as (-> & -> & _). set (salt := bytes_of _) in *.
  unfold update_known in Hp. cbn [admins upd_field] in Hp. destruct (admins s !! id) as [a|] eqn:Ea; [|done].
  injection Hp as <-. set (s' := delete_sessions _ _) in *.
  set (row := (a <| ar_PasswordHash := phc_text salt (IDKey password salt argonTime argonMemory argonThreads argonKeyLen) |>)
     <| ar_UpdatedAt := clock s |>).
  assert (admins s' !! id = Some row) as Hrow by (cbn; rewrite lookup_alter_eq, Ea; done).
  exists row, salt. split; [done|]. intros other. unfold Authenticate.
  assert (by_username (ar_Username row) s' = Some (id, row)) as ->.
  { apply head_row_some; [done..|]. intros k v Hk Hu. by apply (proj2 (proj2 (proj1 Hwf')) k id v row). }
  cbn [ar_PasswordHash row upd_field]. rewrite VerifyPassword_phc; [|apply bytes_of_range|apply idkey_bytes].
  rewrite idkey_length. by case_bool_decide.
Qed.

(** ** Witnesses *)

Definition toy_argon : Argon2 := fun password _ _ _ _ n => List.firstn n (bytes_of password ++ List.repeat 0 n).
#[export] Instance toy_argon_laws : Argon2Laws toy_argon.
Proof.
  split; unfold IDKey, toy_argon.
  - intros p salt t m th n. rewrite length_firstn, length_app, repeat_length. lia.
  - intros p salt t m th n. apply Forall_take, Forall_app. split; [apply bytes_of_range|].
    apply Forall_forall. intros b Hb%list_elem_of_In%repeat_spec. unfold byte_range. lia.
Qed.
#[local] Existing Instance toy_argon.
#[local] Existing Instance counting_entropy.

Definition w_ss : SessionStore := MkSessionStore (30 * minute) hour.
Definition w_t0 : Z := 1750000000 * second.
Definition w_boot : store := (BootstrapOwner "root" "correct horse" (empty_store w_t0)).2.
Definition w_tenant : result err Tenant * store := Resellers_Create " Acme-1" "Acme" ["users.read"; "devices.read"; "api_tokens.manage"] w_boot.
Definition w_tenant_id : string := Eval vm_compute in match w_tenant.1 with Ok t => tn_ID t | Err _ => "" end.
Definition w_agent : result err Account * store := CreateForReseller w_tenant_id "agent" "agent password" ["users.read"; "api_tokens.manage"] w_tenant.2.
Definition w_agent_id : string := Eval vm_compute in match w_agent.1 with Ok a => ac_ID a | Err _ => "" end.
Definition w_login : result err (string * Z) * store := Sessions_Create w_ss w_agent_id "192.0.2.1" w_agent.2.
Definition w_session : string := Eval vm_compute in match w_login.1 with Ok (t, _) => t | Err _ => "" end.
Definition w_s : store := w_login.2.

Lemma w_agent_reached : rtc (account_step w_ss) (empty_store w_t0) w_agent.2.
Proof.
  eapply rtc_l; [apply (as_bootstrap w_ss _ "root" "correct horse")|].
  eapply rtc_l; [apply (as_tenant_create w_ss _ " Acme-1" "Acme" ["users.read"; "devices.read"; "api_tokens.manage"])|].
  apply rtc_once.
  assert (create_read "agent" RoleAdmin ["users.read"; "api_tokens.manage"] (Some w_tenant_id) w_tenant.2
    = Ok ["users.read"; "api_tokens.manage"]) as Hr by (vm_compute; reflexivity).
  assert (w_agent.2 = (admin_commit "agent" "agent password" RoleAdmin (Some w_tenant_id) ["users.read"; "api_tokens.manage"] w_tenant.2).2) as E.
  { unfold w_agent, CreateForReseller. replace (String.eqb w_tenant_id "") with false by (vm_compute; reflexivity).
    unfold admin_create, mbind at 1, act_mbind, act_bind at 1, act_read. by rewrite Hr. }
  fold w_tenant. rewrite E. by eapply as_admin_commit.
Qed.

Lemma w_s_reached : rtc (account_step w_ss) (empty_store w_t0) w_s.
Proof.
  unfold w_s, w_login. apply (rtc_r _ _ _ w_agent_reached). generalize w_agent.2. intros s.
  apply (as_session_create w_ss s w_agent_id "192.0.2.1").
Qed.

Lemma reached_wf s : rtc (account_step w_ss) (empty_store w_t0) s -> accounts_wf s.
Proof. apply (rtc_ind_r (fun s => accounts_wf s)); [apply accounts_wf_empty|intros; by eapply account_step_wf]. Qed.

(** The tenant's account logs in and may read users, but not devices, which
    its tenant may. *)
Theorem accounts_sound_witness : accounts_wf w_s /\ size (admins w_s) = 2%nat /\ size (resellers w_s) = 1%nat.
Proof.
  split; [apply (accounts_sound w_ss w_t0), w_s_reached|]. split; vm_compute; reflexivity.
Defined.

Lemma w_s_wf : accounts_wf w_s.
Proof. apply reached_wf, w_s_reached. Qed.

Definition w_ad : Admin := Eval vm_compute in
  match (Sessions_Validate w_ss w_session w_s).1 with Ok ad => ad | Err _ => MkAdmin "" "" "" [] false None "" "" "" end.

Lemma w_validate : (Sessions_Validate w_ss w_session w_s).1 = Ok w_ad.
Proof. vm_compute. reflexivity. Qed.

Theorem session_ceiling_witness : ad_ID w_ad = w_agent_id /\ exists a perms, admins w_s !! ad_ID w_ad = Some a /\ ar_Enabled a = true /\
  decode_grants (ar_Permissions a) = Some perms /\
  forall required, Authorized (ad_Role w_ad) (ad_Permissions w_ad) required = true <->
    ar_Role a = RoleOwner \/ (Allows perms required = true /\ within_ceiling w_s a required).
Proof.
  split; [vm_compute; reflexivity|]. destruct (Sessions_Validate w_ss w_session w_s) as [r s'] eqn:E.
  pose proof w_validate as Hv. rewrite E in Hv. cbn [fst] in Hv. rewrite Hv in E.
  exact (session_ceiling w_ss w_session w_s w_ad s' w_s_wf E).
Defined.

Lemma w_disable : exists s', SetEnabled w_agent_id false w_s = (Ok tt, s').
Proof.
  destruct (SetEnabled w_agent_id false w_s) as [r s'] eqn:E. exists s'. f_equal.
  change r with (r, s').1. rewrite <-E. vm_compute. reflexivity.
Qed.

Theorem lockout_witness : exists s', SetEnabled w_agent_id false w_s = (Ok tt, s') /\
  forall token ad s2, Sessions_Validate w_ss token s' = (Ok ad, s2) -> ad_ID ad <> w_agent_id.
Proof.
  destruct w_disable as [s' E]. exists s'. split; [done|].
  exact (lockout w_ss w_agent_id w_s s' (lo_disable w_agent_id w_s s' E)).
Defined.

Lemma w_login_ok : exists e s1, w_login = (Ok (w_session, e), s1) /\ w_s = s1.
Proof.
  assert (match w_login.1 with Ok (t, _) => String.eqb t w_session | Err _ => false end = true) as H by (vm_compute; reflexivity).
  unfold w_s. destruct w_login as [[[t e]|] s1]; [|done]. apply String.eqb_eq in H. cbn in H. subst t. by exists e, s1.
Qed.

Theorem session_window_witness : match (Sessions_Validate w_ss w_session (w_s <| clock := clock w_agent.2 + 20 * minute |>)).1 with
  | Ok ad => ad_ID ad = w_agent_id /\ 20 * minute <= IdleTTL w_ss /\ 20 * minute <= AbsoluteTTL w_ss
  | Err e => e = E CodeSessionExpired /\ (IdleTTL w_ss < 20 * minute \/ AbsoluteTTL w_ss < 20 * minute)
  end.
Proof.
  assert (exists a, admins w_agent.2 !! w_agent_id = Some a /\ ar_Enabled a = true /\
    (forall r, ar_ResellerID a = Some r -> reseller_enabled r w_agent.2 = true)) as (a & Ha & He & Hr).
  { destruct (admins w_agent.2 !! w_agent_id) as [a|] eqn:E; [|exfalso; revert E; vm_compute; discriminate].
    exists a. assert (Some (ar_Enabled a, ar_ResellerID a) = Some (true, Some w_tenant_id)) as [= H1 H2].
    { change (Some (ar_Enabled a, ar_ResellerID a)) with ((fun a => (ar_Enabled a, ar_ResellerID a)) <$> Some a).
      rewrite <-E. vm_compute. reflexivity. }
    split_and!; [done..|]. intros r Er. rewrite H2 in Er. injection Er as <-. vm_compute. reflexivity. }
  destruct w_login_ok as (e & s1 & E & ->). unfold w_login in E.
  exact (session_window w_ss w_agent_id "192.0.2.1" w_agent.2 w_session e s1 a (20 * minute)
    (reached_wf _ w_agent_reached) Ha He Hr E ltac:(done)).
Defined.

Theorem password_login_witness : exists s' a salt, SetPassword w_agent_id "another password" w_s = (Ok tt, s') /\
  admins s' !! w_agent_id = Some a /\ forall other, Authenticate (ar_Username a) other s' =
    if bool_decide (IDKey other salt argonTime argonMemory argonThreads argonKeyLen
                    = IDKey "another password" salt argonTime argonMemory argonThreads argonKeyLen) then
      if negb (ar_Enabled a) || match ar_ResellerID a with Some r => negb (reseller_enabled r s') | None => false end
      then Err (E CodeForbidden) else Ok (account_of w_agent_id a)
    else Err (E CodeCredentialInvalid).
Proof.
  destruct (SetPassword w_agent_id "another password" w_s) as [r s'] eqn:E.
  assert (r = Ok tt) as -> by (change r with (r, s').1; rewrite <-E; vm_compute; reflexivity).
  destruct (password_login w_agent_id "another password" w_s s' w_s_wf E) as (a & salt & H1 & H2).
  exists s', a, salt. exact (conj eq_refl (conj H1 H2)).
Defined.
