(* ===== verification/Tokens.v ===== *)
(** * API tokens (internal/token/token.go)

    Minting, verification against the current grants of the issuer and of its
    tenant, the source allowlist with the address semantics of package net, the
    lists and the revocations. *)
From stdpp Require Import base tactics strings gmap list fin_maps sets sorting relations.
From Stdlib Require Import ZArith Lia Ascii.
From Stdlib Require String.
From S2P Require Import Prelude GoText GoTime Domain Awgparam JsonText Store Ipam NetText NetAddr Crypto Tunnel Secrets Sealing Auth Accounts.

Open Scope Z_scope.

(** ** Addresses as values (package net) *)

Definition ip_of (s : string) : option Z :=
  if ParseIP s then as16 s <$> parse_addr s else None.

(** [IP.To4]. *)
Definition To4 (ip : Z) : option Z := if Z.shiftr ip 32 =? 65535 then Some (ip mod 2 ^ 32) else None.

(** [net.IPNet]: the address bits kept by the mask, of a 4-byte or 16-byte one. *)
Inductive IPNet := Net4 (net bits : Z) | Net6 (net bits : Z).

Definition mask_bits (width bits a : Z) : Z := Z.shiftl (Z.shiftr a (width - bits)) (width - bits).

Definition net_of (s : string) : option IPNet :=
  if ParseCIDR s then
    let '(addr, mask, _) := str_cut "/" s in
    n ← undec_go mask 0;
    match parse_addr addr with
    | Some (V4 a) => Some (Net4 (mask_bits 32 n a) n)
    | Some a => Some (Net6 (mask_bits 128 n (as16 addr a)) n)
    | None => None
    end
  else None.

Definition same_bits (width bits a b : Z) : bool := Z.shiftr a (width - bits) =? Z.shiftr b (width - bits).

(** [IPNet.Contains]: both sides are compared in four bytes when they fit. *)
Definition net_Contains (n : IPNet) (ip : Z) : bool :=
  match n with
  | Net4 net bits => match To4 ip with Some a => same_bits 32 bits a net | None => false end
  | Net6 net bits =>
      match To4 ip, To4 net with
      | Some a, Some b => same_bits 32 (bits - 96) a b
      | None, None => same_bits 128 bits ip net
      | _, _ => false
      end
  end.

(** ** The source allowlist *)

Definition splitCIDR (raw : string) : list string :=
  if String.eqb raw "" then [] else filter (fun p => p <> "") (trim_space <$> str_split "," raw).

Definition ValidateCIDRList (raw : string) : result err unit :=
  match splitCIDR raw with
  | [] => Err (Plain "empty allowlist")
  | l => if forallb (fun c => bool_decide (is_Some (net_of c))) l then Ok tt else Err (Plain "not a valid CIDR")
  end.

Definition ipInList (ip : Z) (l : list string) : bool :=
  existsb (fun c => match net_of c with Some n => net_Contains n ip | None => false end) l.

(** [subtleXOR]: whether the texts differ. *)
Fixpoint xor_go (a b : string) (v : Z) : Z :=
  match a, b with
  | String x a, String y b => xor_go a b (Z.lor v (Z.lxor (byte_of x) (byte_of y)))
  | _, _ => v
  end.
Definition subtleXOR (a b : string) : bool :=
  if negb (String.length a =? String.length b)%nat then true else negb (xor_go a b 0 =? 0).

(** ** Tokens *)

Definition TokenPrefix : string := "wg_".
Definition TokenLengthBytes : nat := 32.
Definition lookupLen : nat := 8.

Record Token := MkToken {
  tk_ID : string;
  tk_Name : string;
  tk_Prefix : string;
  tk_Scopes : list string;
  tk_ResellerID : option string;
  tk_IssuedByAdminID : option string;
  tk_ownerAuthority : bool;
  tk_ExpiresAt : option Z;
  tk_Enabled : bool;
  tk_CIDR : list string;
  tk_LastUsed : option Z;
  tk_CreatedAt : Z
}.

#[export] Instance eta_Token : Eta Token := fun t =>
  MkToken (tk_ID t) (tk_Name t) (tk_Prefix t) (tk_Scopes t) (tk_ResellerID t) (tk_IssuedByAdminID t) (tk_ownerAuthority t)
    (tk_ExpiresAt t) (tk_Enabled t) (tk_CIDR t) (tk_LastUsed t) (tk_CreatedAt t).

Definition lookup_prefix (plaintext : string) : string := str_take (String.length TokenPrefix + lookupLen) plaintext.

(** The insert, under the unique columns and the foreign keys. *)
Definition insert_token (id : string) (t : TokenRow) : act store err unit := fun s =>
  if bool_decide (is_Some (api_tokens s !! id))
     || existsb (fun o => String.eqb (tr_Prefix o) (tr_Prefix t) || String.eqb (tr_TokenHash o) (tr_TokenHash t))
          (map_to_list (api_tokens s)).*2
     || negb (fk (resellers s) (tr_ResellerID t)) || negb (fk (admins s) (tr_IssuedBy t))
  then (Err (Plain "token: create"), s)
  else (Ok tt, s <| api_tokens ::= <[id := t]> |>).

Definition bad_request {A} (r : result err A) : result err unit :=
  match r with Ok _ => Ok tt | Err _ => Err (E CodeInvalidRequest) end.

(** A token request: a nil list of scopes is [None]. *)
Record Request := MkRequest {
  rq_name : string;
  rq_scopes : option (list string);
  rq_expiresAt : option Z;
  rq_cidr : string
}.
Definition rq_list (q : Request) : list string := default [] (rq_scopes q).

Definition check_request (q : Request) : result err unit :=
  if String.eqb (trim_space (rq_name q)) "" then Err (E CodeInvalidRequest)
  else
    _ ← bad_request (ValidateScopes (rq_list q));
    if String.eqb (rq_cidr q) "" then Ok tt else bad_request (ValidateCIDRList (rq_cidr q)).

Definition token_row (q : Request) (plaintext : string) (now : Z) (issuerID resellerID : option string) : TokenRow :=
  MkTokenRow (rq_name q) (lookup_prefix plaintext) (hashToken plaintext) (marshal_list (rq_scopes q)) (rq_expiresAt q) true
    (rq_cidr q) None now resellerID issuerID.

Section Service.
Context `{R : Random, N : Entropy}.

Definition token_create (q : Request) (issuerID resellerID : option string) : act store err (Token * string) :=
  _ ← act_lift (check_request q);
  random ← WithTx (NewRandomToken TokenLengthBytes);
  let plaintext := TokenPrefix +:+ random in
  id ← WithTx new_id;
  now ← act_gets clock;
  _ ← insert_token id (token_row q plaintext now issuerID resellerID);
  mret (MkToken id (rq_name q) (lookup_prefix plaintext) (rq_list q) resellerID issuerID false (rq_expiresAt q) true
          (splitCIDR (rq_cidr q)) None now, plaintext).

Definition Tokens_Create (q : Request) : act store err (Token * string) := token_create q None None.

(** The tenant a token is for: the issuer's own, or one the owner names. *)
Definition target_reseller (a : AdminRow) (target : option string) : result err (option string) :=
  match ar_ResellerID a with
  | Some r =>
      match target with
      | Some t => if String.eqb t r then Ok (Some r) else Err (E CodeForbidden)
      | None => Ok (Some r)
      end
  | None =>
      match target with
      | Some t => if String.eqb (ar_Role a) RoleOwner then Ok (Some t) else Err (E CodeForbidden)
      | None => Ok None
      end
  end.

(** The grants of an enabled tenant. *)
Definition reseller_grants (id : string) (s : store) : result err (list string) :=
  match resellers s !! id with
  | None => Err (E CodeForbidden)
  | Some r =>
      if negb (rs_Enabled r) then Err (E CodeForbidden)
      else match decode_grants (rs_Permissions r) with
           | Some grants => if ValidResellerGrants grants then Ok grants else Err (E CodeForbidden)
           | None => Err (E CodeForbidden)
           end
  end.

(** What a panel account may issue now: the tenant the token is bound to. *)
Definition issue_check (adminID : string) (target : option string) (q : Request) (s : store) : result err (option string) :=
  match admins s !! adminID with
  | None => Err (E CodeForbidden)
  | Some a =>
      if negb (ar_Enabled a) then Err (E CodeForbidden)
      else match decode_grants (ar_Permissions a) with
      | None => Err (E CodeForbidden)
      | Some grants =>
          if negb (role_Valid (ar_Role a)) || negb (Authorized (ar_Role a) grants "api_tokens.manage") then Err (E CodeForbidden)
          else if String.eqb (ar_Role a) RoleOwner && bool_decide (is_Some (ar_ResellerID a)) then Err (E CodeForbidden)
          else
            resellerID ← target_reseller a target;
            _ ← bad_request (ValidateScopes (rq_list q));
            ceiling ← match resellerID with
                      | None => Ok None
                      | Some r =>
                          g ← reseller_grants r s;
                          if negb (Authorized RoleAdmin g "api_tokens.manage") && negb (String.eqb (ar_Role a) RoleOwner)
                          then Err (E CodeForbidden)
                          else if negb (ValidResellerGrants (rq_list q)) then Err (E CodeForbidden) else Ok (Some g)
                      end;
            if forallb (fun scope =>
                 negb (Allows (rq_list q) scope)
                 || (String.eqb (ar_Role a) RoleOwner || Allows grants scope)
                    && match ceiling with Some g => Allows g scope | None => true end) AllScopes
            then Ok resellerID else Err (E CodeForbidden)
      end
  end.

Definition CreateForAdmin (adminID : string) (target : option string) (q : Request) : act store err (Token * string) :=
  resellerID ← act_read (issue_check adminID target q);
  token_create q (Some adminID) resellerID.

(** ** Verification *)

(** The issuer of a token, if it has one, as of now: its role and grants. *)
Definition issuer_grants (t : TokenRow) (s : store) : result err (option (string * list string)) :=
  match tr_IssuedBy t with
  | Some adminID =>
      match admins s !! adminID with
      | None => Err (E CodeForbidden)
      | Some a =>
          if negb (ar_Enabled a) then Err (E CodeForbidden)
          else if negb (role_Valid (ar_Role a))
                  || match ar_ResellerID a with
                     | Some r => negb (bool_decide (tr_ResellerID t = Some r))
                     | None => bool_decide (is_Some (tr_ResellerID t)) && negb (String.eqb (ar_Role a) RoleOwner)
                     end
          then Err (E CodeForbidden)
          else match decode_grants (ar_Permissions a) with
               | Some grants => Ok (Some (ar_Role a, grants))
               | None => Err (E CodeForbidden)
               end
      end
  | None => if bool_decide (is_Some (tr_ResellerID t)) then Err (E CodeForbidden) else Ok None
  end.

(** The scopes of a token within the ceilings, and whether it has the owner's
    authority. *)
Definition applyPrincipalCeiling (t : TokenRow) (scopes : list string) (s : store) : result err (list string * bool) :=
  issuer ← issuer_grants t s;
  ceiling ← match tr_ResellerID t with Some r => g ← reseller_grants r s; Ok (Some g) | None => Ok None end;
  Ok (filter (fun scope =>
        Allows scopes scope
        && match issuer with Some (role, g) => String.eqb role RoleOwner || Allows g scope | None => true end
        && match ceiling with Some g => ResellerGrantable scope && Allows g scope | None => true end = true) AllScopes,
      match issuer with Some (role, _) => String.eqb role RoleOwner | None => true end).

Definition by_prefix (prefix : string) (s : store) : option (string * TokenRow) :=
  head (filter (fun r => tr_Prefix r.2 = prefix) (map_to_list (api_tokens s))).

Definition touch_token (id : string) (now : Z) (s : store) : store :=
  s <| api_tokens ::= alter (fun t => t <| tr_LastUsedAt := Some now |>) id |>.

Definition Tokens_Verify (plaintext remoteIP : string) : act store err Token :=
  if negb (has_prefix TokenPrefix plaintext) || negb (String.length plaintext =? String.length TokenPrefix + 43)%nat
  then act_fail (E CodeTokenInvalid)
  else
    row ← act_gets (by_prefix (lookup_prefix plaintext));
    match row with
    | None => act_fail (E CodeTokenInvalid)
    | Some (id, t) =>
        now ← act_gets clock;
        if subtleXOR (tr_TokenHash t) (hashToken plaintext) then act_fail (E CodeTokenInvalid)
        else if negb (tr_Enabled t) then act_fail (E CodeForbidden)
        else if match tr_ExpiresAt t with Some exp => exp <? now | None => false end then act_fail (E CodeForbidden)
        else match decode_grants (tr_Scopes t) with
        | None => act_fail (Plain "token: scopes")
        | Some scopes =>
            let scopes := match ValidateScopes scopes with Ok _ => scopes | Err _ => [] end in
            ceiling ← act_read (applyPrincipalCeiling t scopes);
            let cidr := splitCIDR (tr_CIDR t) in
            if bool_decide (cidr <> []) && match ip_of remoteIP with Some ip => negb (ipInList ip cidr) | None => true end
            then act_fail (E CodeForbidden)
            else
              _ ← act_when (match tr_LastUsedAt t with Some used => minute <? now - used | None => true end)
                    (act_modify (touch_token id now));
              mret (MkToken id (tr_Name t) (tr_Prefix t) ceiling.1 (tr_ResellerID t) (tr_IssuedBy t) ceiling.2
                      (tr_ExpiresAt t) true cidr (tr_LastUsedAt t) (tr_CreatedAt t))
        end
    end.

Definition NodeOwnerAuthority (t : Token) : bool := bool_decide (tk_ResellerID t = None) && tk_ownerAuthority t.
Definition Authorize (t : Token) (required : string) : bool := Allows (tk_Scopes t) required.

(** ** Lists and revocation *)

Definition listed (id : string) (t : TokenRow) : Token :=
  MkToken id (tr_Name t) (tr_Prefix t) (default [] (decode_grants (tr_Scopes t))) (tr_ResellerID t) (tr_IssuedBy t) false
    (tr_ExpiresAt t) (tr_Enabled t) (splitCIDR (tr_CIDR t)) (tr_LastUsedAt t) (tr_CreatedAt t).

Definition token_le (a b : string * TokenRow) : Prop :=
  text_le (rfc3339nano (tr_CreatedAt a.2)) (rfc3339nano (tr_CreatedAt b.2)) = true.
#[export] Instance token_le_dec a b : Decision (token_le a b).
Proof. exact (bool_eq_dec _ true). Defined.

(** [ORDER BY created_at]; [rows] is the order in which the table is scanned. *)
Definition token_list (keep : TokenRow -> bool) (rows : list (string * TokenRow)) : list Token :=
  (fun '(id, t) => listed id t) <$> merge_sort token_le (filter (fun r => keep r.2 = true) rows).

Definition Tokens_List : list (string * TokenRow) -> list Token := token_list (fun _ => true).
Definition ListGlobal : list (string * TokenRow) -> list Token := token_list (fun t => bool_decide (tr_ResellerID t = None)).
Definition ListForReseller (resellerID : string) (rows : list (string * TokenRow)) : result err (list Token) :=
  if String.eqb resellerID "" then Err (E CodeInvalidRequest)
  else Ok (token_list (fun t => bool_decide (tr_ResellerID t = Some resellerID)) rows).

(** One conditional UPDATE that disables a row. *)
Definition disable_token (id : string) (cond : TokenRow -> bool) : act store err unit := fun s =>
  match api_tokens s !! id with
  | Some t => if cond t then (Ok tt, s <| api_tokens ::= <[id := t <| tr_Enabled := false |>]> |>) else (Err (E CodeNotFound), s)
  | None => (Err (E CodeNotFound), s)
  end.

Definition Tokens_Revoke (id : string) : act store err unit := disable_token id (fun _ => true).
Definition RevokeForReseller (id resellerID : string) : act store err unit :=
  if String.eqb resellerID "" then act_fail (E CodeInvalidRequest)
  else disable_token id (fun t => bool_decide (tr_ResellerID t = Some resellerID)).
Definition RevokeGlobal (id : string) : act store err unit := disable_token id (fun t => bool_decide (tr_ResellerID t = None)).
End Service.

(** ** Lemmas: comparing hashes *)

Lemma xor_go_zero a b v : 0 <= v -> String.length a = String.length b -> (xor_go a b v = 0 <-> v = 0 /\ a = b).
Proof.
  revert b v. induction a as [|x a IH]; intros [|y b] v Hv Hl; try done; cbn [xor_go].
  { intuition. }
  assert (0 <= byte_of x /\ 0 <= byte_of y) as [Hx Hy] by (unfold byte_of; lia).
  assert (0 <= Z.lxor (byte_of x) (byte_of y)) by (by apply Z.lxor_nonneg).
  rewrite IH; [|by apply Z.lor_nonneg|by injection Hl]. rewrite Z.lor_eq_0_iff, Z.lxor_eq_0_iff. split.
  - intros [[-> Hb] ->]. split; [done|]. f_equal. rewrite <-(char_of_byte x), Hb. apply char_of_byte.
  - by intros [-> [= -> ->]].
Qed.

(** The constant-time comparison is a comparison. *)
Lemma subtleXOR_spec a b : subtleXOR a b = negb (String.eqb a b).
Proof.
  unfold subtleXOR. destruct (Nat.eqb_spec (String.length a) (String.length b)) as [E|E]; cbn [negb].
  - f_equal. apply eq_true_iff_eq. rewrite Z.eqb_eq, xor_go_zero, String.eqb_eq by done. intuition.
  - destruct (String.eqb_spec a b); [congruence|done].
Qed.

(** ** Lemmas: verification *)

Section Verify.

(** The stored scopes, as far as they are registered. *)
Definition stored_scopes (t : TokenRow) : option (list string) :=
  match decode_grants (tr_Scopes t) with
  | Some scopes => Some (match ValidateScopes scopes with Ok _ => scopes | Err _ => [] end)
  | None => None
  end.

Definition expired (t : TokenRow) (now : Z) : bool := match tr_ExpiresAt t with Some exp => exp <? now | None => false end.
Definition source_refused (t : TokenRow) (remoteIP : string) : bool :=
  bool_decide (splitCIDR (tr_CIDR t) <> [])
  && match ip_of remoteIP with Some ip => negb (ipInList ip (splitCIDR (tr_CIDR t))) | None => true end.

Definition token_form (plaintext : string) : bool :=
  has_prefix TokenPrefix plaintext && (String.length plaintext =? String.length TokenPrefix + 43)%nat.

Definition verified (id : string) (t : TokenRow) (c : list string * bool) : Token :=
  MkToken id (tr_Name t) (tr_Prefix t) c.1 (tr_ResellerID t) (tr_IssuedBy t) c.2 (tr_ExpiresAt t) true (splitCIDR (tr_CIDR t))
    (tr_LastUsedAt t) (tr_CreatedAt t).

Lemma Verify_run plaintext remoteIP s : (Tokens_Verify plaintext remoteIP s).1 =
  if negb (token_form plaintext) then Err (E CodeTokenInvalid)
  else match by_prefix (lookup_prefix plaintext) s with
  | None => Err (E CodeTokenInvalid)
  | Some (id, t) =>
      if negb (String.eqb (tr_TokenHash t) (hashToken plaintext)) then Err (E CodeTokenInvalid)
      else if negb (tr_Enabled t) || expired t (clock s) then Err (E CodeForbidden)
      else match stored_scopes t with
      | None => Err (Plain "token: scopes")
      | Some scopes =>
          c ← applyPrincipalCeiling t scopes s;
          if source_refused t remoteIP then Err (E CodeForbidden) else Ok (verified id t c)
      end
  end.
Proof.
  unfold Tokens_Verify, mbind, act_mbind, act_bind, act_gets, act_read, stored_scopes, expired, source_refused, token_form.
  rewrite <-negb_andb. destruct (negb (_ && _)); [done|].
  destruct (by_prefix _ s) as [[id t]|]; [|done]. rewrite subtleXOR_spec.
  destruct (negb (String.eqb _ _)); [done|]. destruct (tr_Enabled t); cbn [negb orb]; [|done].
  match goal with |- context [if ?b then act_fail (E CodeForbidden) else _] => destruct b; [done|] end.
  destruct (decode_grants (tr_Scopes t)) as [scopes|]; [|done]. cbv zeta.
  destruct (applyPrincipalCeiling t _ s) as [c|]; [|done]. cbn [result_bind rbind].
  match goal with |- context [if ?b then act_fail (E CodeForbidden) else _] => destruct b; [done|] end.
  unfold act_when. by match goal with |- context [if ?b then act_modify _ else _] => destruct b end.
Qed.

Lemma Verify_ok plaintext remoteIP s t s' : Tokens_Verify plaintext remoteIP s = (Ok t, s') ->
  exists id row scopes c, api_tokens s !! id = Some row /\ tr_TokenHash row = hashToken plaintext /\ tr_Enabled row = true /\
    expired row (clock s) = false /\ stored_scopes row = Some scopes /\ applyPrincipalCeiling row scopes s = Ok c /\
    source_refused row remoteIP = false /\ token_form plaintext = true /\ tr_Prefix row = lookup_prefix plaintext /\ t = verified id row c.
Proof.
  intros Hv. assert ((Tokens_Verify plaintext remoteIP s).1 = Ok t) as H by (by rewrite Hv). rewrite Verify_run in H.
  destruct (token_form plaintext) eqn:Ef; [cbn [negb] in H|done]. destruct (by_prefix _ s) as [[id row]|] eqn:Ep; [|done].
  apply head_row_ok in Ep as [Hid Hpre]. destruct (String.eqb_spec (tr_TokenHash row) (hashToken plaintext)); [|done]. cbn [negb] in H.
  destruct (tr_Enabled row) eqn:Ee; [|done]. cbn [negb orb] in H. destruct (expired row (clock s)) eqn:Ex; [done|].
  destruct (stored_scopes row) as [scopes|] eqn:Es; [|done]. apply res_bind_ok in H as (c & Hc & H).
  destruct (source_refused row remoteIP) eqn:Er; [done|]. injection H as <-. by exists id, row, scopes, c.
Qed.

(** The row's issuer, if any, is enabled and allows the scope now. *)
Definition issuer_allows (s : store) (t : TokenRow) (required : string) : Prop :=
  match tr_IssuedBy t with
  | None => True
  | Some adminID => exists a grants, admins s !! adminID = Some a /\ ar_Enabled a = true /\
      decode_grants (ar_Permissions a) = Some grants /\ (ar_Role a = RoleOwner \/ Allows grants required = true)
  end.

Definition tenant_allows (s : store) (t : TokenRow) (required : string) : Prop :=
  match tr_ResellerID t with
  | None => True
  | Some r => exists row ceiling, resellers s !! r = Some row /\ rs_Enabled row = true /\
      decode_grants (rs_Permissions row) = Some ceiling /\ ResellerGrantable required = true /\ Allows ceiling required = true
  end.

Lemma reseller_grants_ok r s g : reseller_grants r s = Ok g ->
  exists row, resellers s !! r = Some row /\ rs_Enabled row = true /\ decode_grants (rs_Permissions row) = Some g /\
    ValidResellerGrants g = true.
Proof.
  unfold reseller_grants. destruct (resellers s !! r) as [row|]; [|done]. destruct (rs_Enabled row) eqn:Ee; [|done]. cbn [negb].
  destruct (decode_grants (rs_Permissions row)) as [l|] eqn:Ed; [|done]. destruct (ValidResellerGrants l) eqn:Ev; [|done].
  intros [= <-]. by exists row.
Qed.

Lemma issuer_grants_ok t s i : issuer_grants t s = Ok i ->
  match tr_IssuedBy t, i with
  | None, None => tr_ResellerID t = None
  | Some adminID, Some (role, grants) => exists a, admins s !! adminID = Some a /\ ar_Enabled a = true /\ ar_Role a = role /\
      decode_grants (ar_Permissions a) = Some grants
  | _, _ => False
  end.
Proof.
  unfold issuer_grants. destruct (tr_IssuedBy t) as [adminID|].
  - destruct (admins s !! adminID) as [a|] eqn:Ea; [|done]. destruct (ar_Enabled a) eqn:Ee; [|done]. cbn [negb].
    destruct (_ || _); [done|]. destruct (decode_grants (ar_Permissions a)) as [g|] eqn:Ed; [|done]. intros [= <-]. by exists a.
  - destruct (tr_ResellerID t); [by rewrite bool_decide_eq_true_2 by eauto|]. cbn. by intros [= <-].
Qed.

(** A filtered list of registered scopes allows what the filter keeps. *)
Lemma Allows_filter (P : string -> bool) required :
  Allows (filter (fun x => P x = true) AllScopes) required = true <-> required ∈ scopes /\ P required = true.
Proof.
  rewrite Allows_plain by (intros g Hg; apply list_elem_of_filter in Hg as [_ Hg]; by apply AllScopes_elem).
  rewrite list_elem_of_filter, AllScopes_elem. tauto.
Qed.

Lemma ceiling_allows t l s c required : applyPrincipalCeiling t l s = Ok c ->
  (Allows c.1 required = true <-> Allows l required = true /\ issuer_allows s t required /\ tenant_allows s t required).
Proof.
  unfold applyPrincipalCeiling. intros (i & Hi & (g & Hg & [= <-])%res_bind_ok)%res_bind_ok. cbn [fst].
  rewrite Allows_filter. apply issuer_grants_ok in Hi. rewrite !andb_true_iff.
  assert (required ∈ scopes /\ (Allows l required = true /\
    match i with Some (role, g0) => String.eqb role RoleOwner || Allows g0 required | None => true end = true) /\
    match g with Some g0 => ResellerGrantable required && Allows g0 required | None => true end = true
    <-> Allows l required = true /\
    match i with Some (role, g0) => String.eqb role RoleOwner || Allows g0 required | None => true end = true /\
    match g with Some g0 => ResellerGrantable required && Allows g0 required | None => true end = true) as ->
    by (split; [tauto|intros (H & ? & ?); split; [by eapply Allows_scope|tauto]]).
  apply and_iff_compat_l. f_equiv.
  - unfold issuer_allows. destruct (tr_IssuedBy t) as [adminID|], i as [[role grants]|]; try done.
    destruct Hi as (a & Ha & He & <- & Hd). rewrite orb_true_iff, String.eqb_eq. split.
    + intros H. by exists a, grants.
    + intros (a' & g' & Ha' & _ & Hd' & H). by simplify_eq.
  - unfold tenant_allows. destruct (tr_ResellerID t) as [r|].
    + apply res_bind_ok in Hg as (g' & Hg & [= <-]). apply reseller_grants_ok in Hg as (row & Hr & He & Hd & _).
      rewrite andb_true_iff. split.
      * intros [H1 H2]. by exists row, g'.
      * intros (row' & c' & Hr' & _ & Hd' & H1 & H2). by simplify_eq.
    + by injection Hg as <-.
Qed.
End Verify.

(** ** Interleavings *)

Section Steps.
Context `{R : Random, N : Entropy, K : Argon2} (ss : SessionStore).

(** One step of the node, tokens included. *)
Inductive token_step (s : store) : store -> Prop :=
| ts_account s' : account_step ss s s' -> token_step s s'
| ts_create q : token_step s (Tokens_Create q s).2
| ts_issue adminID target q : token_step s (CreateForAdmin adminID target q s).2
| ts_verify plaintext remoteIP : token_step s (Tokens_Verify plaintext remoteIP s).2
| ts_revoke id : token_step s (Tokens_Revoke id s).2
| ts_revoke_tenant id resellerID : token_step s (RevokeForReseller id resellerID s).2
| ts_revoke_global id : token_step s (RevokeGlobal id s).2.
End Steps.

(** ** Lemmas: what a step does to the token table *)

(** A fact about the token table that clearing an issuer keeps. *)
Definition clear_issuer (id : string) (t : TokenRow) : TokenRow :=
  if bool_decide (tr_IssuedBy t = Some id) then t <| tr_IssuedBy := None |> else t.

Section Table.
Context (J : gmap string TokenRow -> Prop) (HJ : forall id m, J m -> J (clear_issuer id <$> m)).
Let I (s : store) : Prop := J (api_tokens s).

Lemma table_of_accounts : of_accounts I.
Proof. intros s s' _ _ _ E. unfold I. by rewrite E. Qed.
Let HI := table_of_accounts.

Lemma table_update_known id f : keeps I (update_known id f).
Proof. intros s Hs. unfold update_known. by destruct (admins s !! id). Qed.
Lemma table_modify f : (forall s, api_tokens (f s) = api_tokens s) -> keeps I (act_modify f).
Proof. intros Hf s Hs. unfold I. cbn. by rewrite Hf. Qed.
Lemma table_delete_sessions P : keeps I (act_modify (delete_sessions P)).
Proof. by apply table_modify. Qed.

Lemma table_commit `{R : Random, N : Entropy, K : Argon2} user pw role rid perms : keeps I (admin_commit user pw role rid perms).
Proof.
  unfold admin_commit. do 3 (apply keeps_bind; [auto with keeps|intros ?]). apply keeps_bind; [|auto with keeps].
  intros s Hs. unfold insert_admin. repeat match goal with |- context [if ?b then _ else _] => destruct b; [exact Hs|] end. exact Hs.
Qed.

Lemma table_account_step `{R : Random, N : Entropy, K : Argon2} ss s s' : account_step ss s s' -> I s -> I s'.
Proof.
  destruct 1 as [admin ip|token|token|now|user pw role req rid perms s0 Hr|user pw|id loc|id pre|id dig|id|
    id pw|id perms|id en|id|slug name gs|id gs|id en|id ids|s' E1 E2 E3 E4]; try revert s; match goal with
    | |- forall s : store, I s -> I (snd (?m s)) => change (keeps I m)
    | _ => idtac end.
  - unfold Sessions_Create. cbv zeta. do 3 (apply keeps_bind; [auto with keeps|intros ?]). apply keeps_bind; [|auto with keeps].
    intros s Hs. unfold insert_session. match goal with |- context [if ?b then _ else _] => by destruct b end.
  - unfold Sessions_Validate, revoke. apply keeps_bind; [auto with keeps|]. intros [[x a]|]; [|auto with keeps].
    apply keeps_bind; [auto with keeps|]. intros now.
    do 2 (apply keeps_if; [apply keeps_bind; [apply table_delete_sessions|auto with keeps]|]). apply keeps_if; [auto with keeps|].
    do 2 (apply keeps_bind; [auto with keeps|intros ?]). apply keeps_bind; [|auto with keeps]. by apply keeps_when, table_modify.
  - apply table_delete_sessions.
  - by intros s Hs.
  - apply table_commit.
  - unfold BootstrapOwner. apply keeps_bind; [auto with keeps|]. intros []; [auto with keeps|].
    apply keeps_bind; [|intros []; auto with keeps]. apply keeps_try, keeps_read_bind. intros _ a _. apply table_commit.
  - unfold SetLocale. apply keeps_if; [auto with keeps|apply table_update_known].
  - apply table_update_known.
  - unfold SetAppearanceDigits. apply keeps_if; [auto with keeps|apply table_update_known].
  - by apply table_modify.
  - unfold SetPassword. apply keeps_bind; [auto with keeps|intros h].
    apply keeps_bind; [apply table_update_known|intros _; apply table_delete_sessions].
  - unfold SetPermissions. apply keeps_bind; [auto with keeps|intros u]. by apply table_modify.
  - unfold SetEnabled. apply keeps_bind; [auto with keeps|intros a]. apply keeps_if; [auto with keeps|].
    apply keeps_bind; [by apply table_modify|intros _; apply keeps_when, table_delete_sessions].
  - unfold Admins_Delete. apply keeps_bind; [auto with keeps|intros a]. apply keeps_if; [auto with keeps|].
    apply keeps_bind; [|intros _; apply table_delete_sessions]. apply keeps_modify. intros s Hs. unfold delete_admin.
    case_bool_decide; [|done]. exact (HJ id _ Hs).
  - unfold Resellers_Create. cbv zeta. apply keeps_if; [auto with keeps|]. do 3 (apply keeps_bind; [auto with keeps|intros ?]).
    apply keeps_bind; [|auto with keeps]. intros s Hs. unfold insert_reseller.
    repeat match goal with |- context [if ?b then _ else _] => destruct b; [exact Hs|] end. exact Hs.
  - unfold Resellers_SetPermissions. apply keeps_bind; [auto with keeps|intros g]. intros s Hs. unfold update_reseller.
    by destruct (resellers s !! id).
  - intros s Hs. unfold Resellers_SetEnabled, update_reseller. by destruct (resellers s !! id).
  - unfold SetTemplates. apply keeps_if; [auto with keeps|]. intros s Hs. unfold WithTx.
    destruct (resellers s !! id); [|done]. by destruct (check_templates [] ids s).
  - by apply (HI s).
Qed.

(** The token operations, through what each may do to the table. *)
Lemma table_token_step `{R : Random, N : Entropy, K : Argon2} ss s s' :
  (forall id t, keeps I (insert_token id t)) -> (forall id now, keeps I (act_modify (touch_token id now))) ->
  (forall id cond, keeps I (disable_token id cond)) -> token_step ss s s' -> I s -> I s'.
Proof.
  intros Hi Ht Hd.
  assert (forall q issuer rid, keeps I (token_create q issuer rid)) as Hc.
  { intros q issuer rid. unfold token_create. cbv zeta. do 4 (apply keeps_bind; [auto with keeps|intros ?]).
    apply keeps_bind; [apply Hi|auto with keeps]. }
  destruct 1 as [s' Hst|q|adm target q|plaintext ip|id|id r|id].
  - by eapply table_account_step.
  - apply Hc.
  - revert s. change (keeps I (CreateForAdmin adm target q)). unfold CreateForAdmin. apply keeps_bind; [auto with keeps|intros r]. apply Hc.
  - revert s. change (keeps I (Tokens_Verify plaintext ip)). unfold Tokens_Verify. apply keeps_if; [auto with keeps|].
    apply keeps_bind; [auto with keeps|]. intros [[id t]|]; [|auto with keeps]. apply keeps_bind; [auto with keeps|]. intros now.
    do 3 (apply keeps_if; [auto with keeps|]). destruct (decode_grants (tr_Scopes t)); [|auto with keeps]. cbv zeta.
    apply keeps_bind; [auto with keeps|intros c]. apply keeps_if; [auto with keeps|].
    apply keeps_bind; [|auto with keeps]. apply keeps_when, Ht.
  - apply Hd.
  - revert s. change (keeps I (RevokeForReseller id r)). unfold RevokeForReseller. apply keeps_if; [auto with keeps|apply Hd].
  - apply Hd.
Qed.
End Table.

(** The lookup prefix and the hash of a token are its own. *)
Definition tokens_wf (m : gmap string TokenRow) : Prop :=
  (forall i j a b, m !! i = Some a -> m !! j = Some b -> tr_Prefix a = tr_Prefix b -> i = j) /\
  (forall i j a b, m !! i = Some a -> m !! j = Some b -> tr_TokenHash a = tr_TokenHash b -> i = j).

(** A table whose rows keep those two columns. *)
Lemma tokens_wf_follow m m' :
  (forall i b, m' !! i = Some b -> exists a, m !! i = Some a /\ tr_Prefix b = tr_Prefix a /\ tr_TokenHash b = tr_TokenHash a) ->
  tokens_wf m -> tokens_wf m'.
Proof.
  intros Hf [H1 H2]. split; intros i j a b Hi Hj; destruct (Hf _ _ Hi) as (a' & Ha & Ep & Eh), (Hf _ _ Hj) as (b' & Hb & Ep' & Eh').
  - rewrite Ep, Ep'. by apply H1.
  - rewrite Eh, Eh'. by apply H2.
Qed.

Lemma clear_issuer_columns id t : tr_Prefix (clear_issuer id t) = tr_Prefix t /\ tr_TokenHash (clear_issuer id t) = tr_TokenHash t /\
  tr_Enabled (clear_issuer id t) = tr_Enabled t.
Proof. unfold clear_issuer. by case_bool_decide. Qed.

Lemma insert_token_ok id t s s' : insert_token id t s = (Ok tt, s') ->
  s' = s <| api_tokens ::= <[id := t]> |> /\ api_tokens s !! id = None /\
  forall k o, api_tokens s !! k = Some o -> tr_Prefix o <> tr_Prefix t /\ tr_TokenHash o <> tr_TokenHash t.
Proof.
  unfold insert_token. match goal with |- context [if ?b then _ else _] => destruct b eqn:E; [done|] end. intros [= <-].
  apply orb_false_iff in E as [[[Ei%bool_decide_eq_false%eq_None_not_Some Eu]%orb_false_iff _]%orb_false_iff _].
  split_and!; [done..|]. rewrite existsb_values_false in Eu. intros k o Ho. specialize (Eu k o Ho).
  apply orb_false_iff in Eu as [Ep%String.eqb_neq Eh%String.eqb_neq]. done.
Qed.

Lemma tokens_wf_insert id t m : tokens_wf m ->
  (forall k o, m !! k = Some o -> tr_Prefix o <> tr_Prefix t /\ tr_TokenHash o <> tr_TokenHash t) -> tokens_wf (<[id := t]> m).
Proof.
  intros [H1 H2] Hu. split.
  - intros i j a b [[<- <-]|[_ Hi]]%lookup_insert_Some [[<- <-]|[_ Hj]]%lookup_insert_Some E; [done|..|by apply (H1 i j a b)].
    + by destruct (Hu _ _ Hj) as [[] _].
    + by destruct (Hu _ _ Hi) as [[] _].
  - intros i j a b [[<- <-]|[_ Hi]]%lookup_insert_Some [[<- <-]|[_ Hj]]%lookup_insert_Some E; [done|..|by apply (H2 i j a b)].
    + by destruct (Hu _ _ Hj) as [_ []].
    + by destruct (Hu _ _ Hi) as [_ []].
Qed.

Lemma act_cases {A} (m : act store err A) (I : store -> Prop) s : I s -> (forall a s', m s = (Ok a, s') -> I s') ->
  (forall e s', m s = (Err e, s') -> I s') -> I (m s).2.
Proof. destruct (m s) as [[a|e] s'] eqn:E; intros _ H1 H2; [by apply (H1 a)|by apply (H2 e)]. Qed.

Lemma insert_token_err id t s e s' : insert_token id t s = (Err e, s') -> s' = s.
Proof. unfold insert_token. match goal with |- context [if ?b then _ else _] => destruct b end; congruence. Qed.

Lemma token_step_wf `{R : Random, N : Entropy, K : Argon2} ss s s' : token_step ss s s' ->
  tokens_wf (api_tokens s) -> tokens_wf (api_tokens s').
Proof.
  apply (table_token_step tokens_wf).
  - intros id m. apply tokens_wf_follow. intros i b (a & <- & Ha)%lookup_fmap_Some. exists a.
    destruct (clear_issuer_columns id a) as (-> & -> & _). done.
  - intros id t s0 Hs. apply act_cases; [done|..].
    + intros [] s1 (-> & Hn & Hu)%insert_token_ok. by apply tokens_wf_insert.
    + by intros e s1 ->%insert_token_err.
  - intros id now s0. apply tokens_wf_follow. intros i b Hi. cbn in Hi.
    apply lookup_alter_Some in Hi as [(<- & a & Ha & ->)|[_ Hi]]; [by exists a|by exists b].
  - intros id cond s0 Hs. unfold disable_token. destruct (api_tokens s0 !! id) as [t|] eqn:Et; [|done]. destruct (cond t); [|done].
    revert Hs. apply tokens_wf_follow. intros i b Hi. cbn in Hi.
    apply lookup_insert_Some in Hi as [[<- <-]|[_ Hi]]; [by exists t|by exists b].
Qed.

(** A row that exists and is disabled. *)
Definition token_disabled (id : string) (m : gmap string TokenRow) : Prop := exists t, m !! id = Some t /\ tr_Enabled t = false.

Lemma token_step_disabled `{R : Random, N : Entropy, K : Argon2} ss id s s' : token_step ss s s' ->
  token_disabled id (api_tokens s) -> token_disabled id (api_tokens s').
Proof.
  apply (table_token_step (token_disabled id)).
  - intros k m (t & Ht & He). exists (clear_issuer k t). destruct (clear_issuer_columns k t) as (_ & _ & ->).
    by rewrite lookup_fmap, Ht.
  - intros k t s0 Hs. apply act_cases; [done|..].
    + intros [] s1 (-> & Hn & _)%insert_token_ok. destruct Hs as (o & Ho & He). exists o. split; [|done]. cbn.
      rewrite lookup_insert_ne; [done|]. intros ->. congruence.
    + by intros e s1 ->%insert_token_err.
  - intros k now s0 (t & Ht & He). cbn. destruct (decide (k = id)) as [->|Hk].
    + exists (t <| tr_LastUsedAt := Some now |>). by rewrite lookup_alter_eq, Ht.
    + exists t. by rewrite lookup_alter_ne.
  - intros k cond s0 (t & Ht & He). unfold disable_token. destruct (api_tokens s0 !! k) as [o|] eqn:Eo; [|by exists t].
    destruct (cond o); [|by exists t]. cbn. destruct (decide (k = id)) as [->|Hk].
    + exists (o <| tr_Enabled := false |>). by rewrite lookup_insert_eq.
    + exists t. by rewrite lookup_insert_ne.
Qed.

(** ** Properties *)

(** C5. A verified token allows exactly the scopes that its row holds, that the
    account that issued it (if one is recorded) allows now, being enabled, and
    that the current ceiling of its tenant allows, being enabled; its row is
    enabled, not expired, carries the hash of the presented text, and its
    allowlist, if any, contains the source. *)
Theorem token_ceiling `{R : Random, N : Entropy} plaintext remoteIP s v s' :
  Tokens_Verify plaintext remoteIP s = (Ok v, s') ->
  exists row held, api_tokens s !! tk_ID v = Some row /\ tr_TokenHash row = hashToken plaintext /\ tr_Enabled row = true /\
    expired row (clock s) = false /\ stored_scopes row = Some held /\
    (splitCIDR (tr_CIDR row) = [] \/ exists ip, ip_of remoteIP = Some ip /\ ipInList ip (splitCIDR (tr_CIDR row)) = true) /\
    forall required, Authorize v required = true <->
      Allows held required = true /\ issuer_allows s row required /\ tenant_allows s row required.
Proof.
  intros (id & row & held & c & Hid & Hh & He & Hx & Hs & Hc & Hr & _ & _ & ->)%Verify_ok.
  exists row, held. split_and!; [done..| |].
  - unfold source_refused in Hr. case_bool_decide as Hn.
    + right. cbn [andb] in Hr. destruct (ip_of remoteIP) as [ip|]; [|done]. exists ip. by apply negb_false_iff in Hr.
    + left. by destruct (splitCIDR (tr_CIDR row)) as [|x l]; [|destruct Hn].
  - intros required. by apply ceiling_allows.
Qed.

(** C9. Once a token is revoked no later request verifies as it, whatever
    happens to the node in between. *)
Theorem revoked_stays_revoked `{R : Random, N : Entropy, K : Argon2} ss id s s1 s2 :
  Tokens_Revoke id s = (Ok tt, s1) -> rtc (token_step ss) s1 s2 ->
  forall plaintext remoteIP v s3, Tokens_Verify plaintext remoteIP s2 = (Ok v, s3) -> tk_ID v <> id.
Proof.
  intros Hr Hs plaintext remoteIP v s3 (k & row & held & c & Hk & _ & He & _ & _ & _ & _ & _ & _ & ->)%Verify_ok Hid.
  cbn [tk_ID verified] in Hid. subst k.
  assert (token_disabled id (api_tokens s1)) as Hd.
  { unfold Tokens_Revoke, disable_token in Hr. destruct (api_tokens s !! id) as [t|]; [|done]. injection Hr as <-.
    exists (t <| tr_Enabled := false |>). cbn. by rewrite lookup_insert_eq. }
  assert (token_disabled id (api_tokens s2)) as (t & Ht & Ef).
  { clear -Hs Hd. induction Hs as [|x y z Hst _ IH]; [done|]. by apply IH, (token_step_disabled ss id x). }
  congruence.
Qed.

Lemma by_prefix_some s id t : tokens_wf (api_tokens s) -> api_tokens s !! id = Some t -> by_prefix (tr_Prefix t) s = Some (id, t).
Proof. intros [Hu _] Ht. apply head_row_some; [done..|]. intros k o Hk Ho. by apply (Hu k id o t). Qed.

(** Verification of a row that is in order. *)
Lemma Verify_row plaintext remoteIP s id t held : tokens_wf (api_tokens s) -> api_tokens s !! id = Some t ->
  token_form plaintext = true -> tr_Prefix t = lookup_prefix plaintext -> tr_TokenHash t = hashToken plaintext ->
  tr_Enabled t = true -> expired t (clock s) = false -> stored_scopes t = Some held -> source_refused t remoteIP = false ->
  (Tokens_Verify plaintext remoteIP s).1 = (c ← applyPrincipalCeiling t held s; Ok (verified id t c)).
Proof.
  intros Hwf Ht Hf Hp Hh He Hx Hs Hr. rewrite Verify_run, Hf, <-Hp, (by_prefix_some _ _ _ Hwf Ht), Hh, String.eqb_refl, He, Hx, Hs, Hr.
  done.
Qed.

Lemma Admins_Delete_ok `{R : Random, N : Entropy, K : Argon2} id s s' : Admins_Delete id s = (Ok tt, s') ->
  exists a, admins s !! id = Some a /\ ar_Role a <> RoleOwner /\ admins s' = delete id (admins s) /\ resellers s' = resellers s /\
    api_tokens s' = clear_issuer id <$> api_tokens s /\ clock s' = clock s.
Proof.
  unfold Admins_Delete, mbind, act_mbind, act_bind, act_read, admin_get. destruct (admins s !! id) as [a|] eqn:Ea; [|done].
  cbn [ac_Role account_of]. destruct (String.eqb_spec (ar_Role a) RoleOwner) as [|Hr]; [done|]. unfold act_modify, RevokeAllForAdmin.
  intros [= <-]. exists a. unfold delete_admin. rewrite bool_decide_eq_true_2 by eauto. done.
Qed.

(** C6. Deleting the account that issued a node-wide token frees the token of
    its ceiling: it still verifies, with every scope its row holds instead of
    those its issuer was granted, and with the authority of the node's owner,
    which it did not have. *)
Theorem deleted_issuer_lifts_ceiling `{R : Random, N : Entropy, K : Argon2} plaintext remoteIP s v s0 adminID s' :
  tokens_wf (api_tokens s) -> Tokens_Verify plaintext remoteIP s = (Ok v, s0) ->
  tk_ResellerID v = None -> tk_IssuedByAdminID v = Some adminID -> Admins_Delete adminID s = (Ok tt, s') ->
  NodeOwnerAuthority v = false /\
  exists w row held, (Tokens_Verify plaintext remoteIP s').1 = Ok w /\ tk_ID w = tk_ID v /\ NodeOwnerAuthority w = true /\
    api_tokens s !! tk_ID v = Some row /\ stored_scopes row = Some held /\
    forall required, Authorize w required = Allows held required.
Proof.
  intros Hwf (id & row & held & c & Hid & Hh & He & Hx & Hs & Hc & Hr & Hf & Hp & ->)%Verify_ok Hrid Hiss Hdel.
  cbn [tk_ResellerID tk_IssuedByAdminID verified] in Hrid, Hiss.
  apply Admins_Delete_ok in Hdel as (a & Ha & Hno & _ & _ & Et & Ec).
  unfold applyPrincipalCeiling in Hc. apply res_bind_ok in Hc as (i & Hi & Hc). apply issuer_grants_ok in Hi.
  rewrite Hiss in Hi. destruct i as [[role g]|]; [|done]. destruct Hi as (a' & Ha' & _ & <- & _). simplify_eq.
  rewrite Hrid in Hc. injection Hc as <-. split.
  { unfold NodeOwnerAuthority. cbn [tk_ResellerID tk_ownerAuthority verified snd]. apply String.eqb_neq in Hno. rewrite Hno. apply andb_false_r. }
  set (row' := clear_issuer adminID row).
  assert (row' = row <| tr_IssuedBy := None |>) as Erow by (unfold row', clear_issuer; by rewrite bool_decide_eq_true_2).
  assert (api_tokens s' !! id = Some row') as Hid' by (by rewrite Et, lookup_fmap, Hid).
  assert (tokens_wf (api_tokens s')) as Hwf'.
  { rewrite Et. revert Hwf. apply tokens_wf_follow. intros k b (o & <- & Ho)%lookup_fmap_Some. exists o.
    destruct (clear_issuer_columns adminID o) as (-> & -> & _). done. }
  set (c' := (filter (fun scope => Allows held scope && true && true = true) AllScopes, true)).
  exists (verified id row' c'), row, held. split_and!; [|done|unfold NodeOwnerAuthority; by rewrite Erow; cbn; rewrite Hrid|done..|].
  - assert (applyPrincipalCeiling row' held s' = Ok c') as Eceil.
    { unfold applyPrincipalCeiling, issuer_grants. rewrite Erow. cbn [tr_IssuedBy tr_ResellerID upd_field]. by rewrite Hrid. }
    rewrite (Verify_row plaintext remoteIP s' id row' held); [by rewrite Eceil|done..| | | | | |]; rewrite ?Ec, Erow; done.
  - intros required. unfold Authorize. cbn [tk_Scopes verified fst c']. apply eq_true_iff_eq. rewrite Allows_filter, !andb_true_r.
    split; [tauto|]. intros H. split; [by eapply Allows_scope|done].
Qed.

Lemma random_token_form `{R : Random, !RandomLength R} s t s' : NewRandomToken TokenLengthBytes s = Ok (t, s') ->
  token_form (TokenPrefix +:+ t) = true /\ outbox_only s s'.
Proof.
  intros H. split; [|by eapply NewRandomToken_outbox]. unfold NewRandomToken in H.
  apply tx_bind_ok in H as (buf & s1 & Hb & [= <- _]). injection Hb as <- _. unfold token_form.
  assert (has_prefix TokenPrefix (TokenPrefix +:+ raw_url (EncodeToString (bytes_of (random (entropy_pos s) TokenLengthBytes)))) = true) as ->
    by (unfold has_prefix; by rewrite strip_prefix_self).
  rewrite str_length_app. apply Nat.eqb_eq. f_equal.
  apply Nat2Z.inj. rewrite length_raw_url by apply bytes_of_range. by rewrite length_bytes_of, random_length.
Qed.

Lemma token_create_ok `{R : Random, N : Entropy, !RandomLength R} q issuer rid s t plaintext s' :
  token_create q issuer rid s = (Ok (t, plaintext), s') ->
  check_request q = Ok tt /\ token_form plaintext = true /\ exists s1, outbox_only s s1 /\
    s' = s1 <| api_tokens ::= <[tk_ID t := token_row q plaintext (clock s) issuer rid]> |> /\
    api_tokens s1 !! tk_ID t = None /\
    forall k o, api_tokens s1 !! k = Some o -> tr_Prefix o <> lookup_prefix plaintext /\ tr_TokenHash o <> hashToken plaintext.
Proof.
  unfold token_create, mbind, act_mbind, act_bind, act_lift, act_gets. destruct (check_request q) as [[]|] eqn:Eq; [|done].
  destruct (WithTx (NewRandomToken TokenLengthBytes) s) as [[rnd|] s1] eqn:Er; [|done].
  apply WithTx_run, random_token_form in Er as [Hf Ho1].
  destruct (WithTx new_id s1) as [[id|] s2] eqn:Ei; [|done]. apply WithTx_run, new_id_outbox in Ei as Ho2.
  assert (clock s2 = clock s) as Ec by (destruct Ho1 as (?&?&?&->), Ho2 as (?&?&?&->); done). rewrite Ec.
  destruct (insert_token id _ s2) as [[[]|] s3] eqn:En; [|done]. intros [= <- <- <-]. apply insert_token_ok in En as (-> & Hn & Hu).
  split_and!; [done..|]. exists s2. split_and!; [by etrans|done..|exact Hu].
Qed.

Lemma issue_check_ok adminID target q s rid : issue_check adminID target q s = Ok rid ->
  exists a grants, admins s !! adminID = Some a /\ ar_Enabled a = true /\ decode_grants (ar_Permissions a) = Some grants /\
    role_Valid (ar_Role a) = true /\ target_reseller a target = Ok rid /\ ValidateScopes (rq_list q) = Ok tt /\
    (forall r, rid = Some r -> exists g, reseller_grants r s = Ok g) /\
    forall required, Allows (rq_list q) required = true ->
      (ar_Role a = RoleOwner \/ Allows grants required = true) /\
      forall r g, rid = Some r -> reseller_grants r s = Ok g -> Allows g required = true /\ ResellerGrantable required = true.
Proof.
  unfold issue_check. destruct (admins s !! adminID) as [a|] eqn:Ea; [|done]. destruct (ar_Enabled a) eqn:Ee; [|done]. cbn [negb].
  destruct (decode_grants (ar_Permissions a)) as [grants|] eqn:Ed; [|done].
  destruct (role_Valid (ar_Role a)) eqn:Erv; [|done]. cbn [negb orb]. destruct (negb (Authorized _ _ _)); [done|].
  destruct (_ && _); [done|]. intros (rid' & Ht & (u & Hv & (ceil & Hc & Hf)%res_bind_ok)%res_bind_ok)%res_bind_ok.
  destruct (forallb _ AllScopes) eqn:Eall; [|done]. injection Hf as <-. exists a, grants.
  assert (ValidateScopes (rq_list q) = Ok tt) as Hvs by (unfold bad_request in Hv; destruct (ValidateScopes _) as [[]|]; done).
  assert (match rid', ceil with Some r, Some g => reseller_grants r s = Ok g /\ ValidResellerGrants (rq_list q) = true
          | None, None => True | _, _ => False end) as Hceil.
  { destruct rid' as [r|]; [|by injection Hc as <-]. apply res_bind_ok in Hc as (g & Hg & Hc). destruct (_ && _); [done|].
    destruct (ValidResellerGrants (rq_list q)); [|done]. by injection Hc as <-. }
  split_and!; [done..| |].
  - intros r ->. destruct ceil as [g|]; [|done]. exists g. apply Hceil.
  - intros required Hreq. rewrite forallb_forall in Eall. specialize (Eall required).
    rewrite Hreq in Eall. cbn [negb orb] in Eall. apply andb_prop in Eall as [E1 E2].
    2: { apply list_elem_of_In, AllScopes_elem. by eapply Allows_scope. }
    split. { apply orb_prop in E1 as [E1%String.eqb_eq|E1]; [by left|by right]. }
    intros r g -> Hg. destruct ceil as [g'|]; [|done]. destruct Hceil as [Hg' Hvr]. rewrite Hg in Hg'. injection Hg' as ->. split; [done|].
    apply Allows_plain in Hreq; [|intros x Hx; unfold ValidResellerGrants in Hvr; rewrite forallb_forall in Hvr;
      by apply ResellerGrantable_scope, Hvr, list_elem_of_In].
    unfold ValidResellerGrants in Hvr. rewrite forallb_forall in Hvr. by apply Hvr, list_elem_of_In.
Qed.

Lemma target_reseller_ok a target rid : target_reseller a target = Ok rid ->
  match ar_ResellerID a with Some r => rid = Some r | None => rid = target /\ (is_Some target -> ar_Role a = RoleOwner) end.
Proof.
  unfold target_reseller. destruct (ar_ResellerID a) as [r|], target as [t|].
  - destruct (String.eqb t r); congruence.
  - congruence.
  - destruct (String.eqb_spec (ar_Role a) RoleOwner); [|done]. by intros [= <-].
  - intros [= <-]. split; [done|]. by intros [? ?].
Qed.


(** ** Witnesses *)

#[local] Existing Instance toy_argon.
#[local] Existing Instance counting_entropy.

Lemma fst_run {A} (x : result err A * store) r : x.1 = r -> x = (r, x.2).
Proof. destruct x. by intros <-. Qed.

(** A node administrator who may read users and issue tokens issues one to read
    them; it is presented from anywhere. *)
Definition w_ops : result err Account * store := Admins_Create "ops" "ops password" RoleAdmin ["users.*"; "api_tokens.manage"] w_s.
Definition w_ops_s : store := w_ops.2.
Definition w_ops_id : string := Eval vm_compute in match w_ops.1 with Ok a => ac_ID a | Err _ => "" end.
Definition w_request : Request := MkRequest "billing" (Some ["users.*"]) None "".
Definition w_issue : result err (Token * string) * store := CreateForAdmin w_ops_id None w_request w_ops_s.
Definition w_issued : store := w_issue.2.
Definition w_plain : string := Eval vm_compute in match w_issue.1 with Ok (_, p) => p | Err _ => "" end.
Definition w_token_row : Token := Eval vm_compute in
  match w_issue.1 with Ok (t, _) => t | Err _ => MkToken "" "" "" [] None None false None false [] None 0 end.

Lemma w_issue_ok : CreateForAdmin w_ops_id None w_request w_ops_s = (Ok (w_token_row, w_plain), w_issued).
Proof. unfold w_issued, w_issue. apply fst_run. vm_compute. reflexivity. Qed.

Lemma w_ops_tokens : tokens_wf (api_tokens w_ops_s).
Proof.
  assert (api_tokens w_ops_s = ∅) as -> by (vm_compute; reflexivity).
  split; intros i j a b Hi; by rewrite lookup_empty in Hi.
Qed.

Lemma w_issue_tokens : tokens_wf (api_tokens w_issued).
Proof.
  unfold w_issued, w_issue. generalize w_ops_tokens. generalize w_ops_s. intros s. apply (token_step_wf w_ss).
  apply (ts_issue w_ss s w_ops_id None w_request).
Qed.


Definition w_verify : result err Token * store := Tokens_Verify w_plain "192.0.2.1" w_issued.
Definition w_seen : store := w_verify.2.
Definition w_verified : Token := Eval vm_compute in
  match w_verify.1 with Ok t => t | Err _ => w_token_row end.

Lemma w_verify_ok : Tokens_Verify w_plain "192.0.2.1" w_issued = (Ok w_verified, w_seen).
Proof. unfold w_seen, w_verify. apply fst_run. vm_compute. reflexivity. Qed.

Theorem token_ceiling_witness : exists row held, api_tokens w_issued !! tk_ID w_verified = Some row /\
  tr_TokenHash row = hashToken w_plain /\ tr_Enabled row = true /\ expired row (clock w_issued) = false /\
  stored_scopes row = Some held /\
  (splitCIDR (tr_CIDR row) = [] \/ exists ip, ip_of "192.0.2.1" = Some ip /\ ipInList ip (splitCIDR (tr_CIDR row)) = true) /\
  forall required, Authorize w_verified required = true <->
    Allows held required = true /\ issuer_allows w_issued row required /\ tenant_allows w_issued row required.
Proof. exact (token_ceiling w_plain "192.0.2.1" w_issued w_verified w_seen w_verify_ok). Defined.

Definition w_revoked : result err unit * store := Tokens_Revoke (tk_ID w_verified) w_issued.
Definition w_revoked_s : store := w_revoked.2.
Lemma w_revoked_ok : Tokens_Revoke (tk_ID w_verified) w_issued = (Ok tt, w_revoked_s).
Proof. unfold w_revoked_s, w_revoked. apply fst_run. vm_compute. reflexivity. Qed.

Theorem revoked_stays_revoked_witness : Tokens_Revoke (tk_ID w_verified) w_issued = (Ok tt, w_revoked_s) /\
  forall plaintext remoteIP v s3, Tokens_Verify plaintext remoteIP (SetPassword w_ops_id "next password" w_revoked_s).2 = (Ok v, s3) ->
    tk_ID v <> tk_ID w_verified.
Proof.
  split; [exact w_revoked_ok|].
  exact (revoked_stays_revoked w_ss (tk_ID w_verified) w_issued w_revoked_s _ w_revoked_ok
    (rtc_once _ _ (ts_account w_ss _ _ (as_password w_ss w_revoked_s w_ops_id "next password")))).
Defined.

(** The administrator keeps only the right to issue tokens, and then leaves. *)
Definition w_demoted : store := (SetPermissions w_ops_id (Some ["api_tokens.manage"]) w_issued).2.
Definition w_demoted_verify : result err Token * store := Tokens_Verify w_plain "192.0.2.1" w_demoted.
Definition w_demoted_seen : store := w_demoted_verify.2.
Definition w_demoted_token : Token := Eval vm_compute in
  match w_demoted_verify.1 with Ok t => t | Err _ => w_token_row end.
Lemma w_demoted_ok : Tokens_Verify w_plain "192.0.2.1" w_demoted = (Ok w_demoted_token, w_demoted_seen).
Proof. unfold w_demoted_seen, w_demoted_verify. apply fst_run. vm_compute. reflexivity. Qed.

Lemma w_demoted_tokens : tokens_wf (api_tokens w_demoted).
Proof.
  unfold w_demoted. generalize w_issue_tokens. generalize w_issued. intros s. apply (token_step_wf w_ss), ts_account.
  apply (as_permissions w_ss s w_ops_id (Some ["api_tokens.manage"])).
Qed.

Definition w_left : result err unit * store := Admins_Delete w_ops_id w_demoted.
Definition w_left_s : store := w_left.2.
Lemma w_left_ok : Admins_Delete w_ops_id w_demoted = (Ok tt, w_left_s).
Proof. unfold w_left_s, w_left. apply fst_run. vm_compute. reflexivity. Qed.

Theorem deleted_issuer_lifts_ceiling_witness : Authorize w_demoted_token "users.delete" = false /\
  NodeOwnerAuthority w_demoted_token = false /\
  exists w row held, (Tokens_Verify w_plain "192.0.2.1" w_left_s).1 = Ok w /\ tk_ID w = tk_ID w_demoted_token /\
    NodeOwnerAuthority w = true /\ api_tokens w_demoted !! tk_ID w_demoted_token = Some row /\ stored_scopes row = Some held /\
    forall required, Authorize w required = Allows held required.
Proof.
  split; [vm_compute; reflexivity|].
  exact (deleted_issuer_lifts_ceiling w_plain "192.0.2.1" w_demoted w_demoted_token w_demoted_seen w_ops_id w_left_s
    w_demoted_tokens w_demoted_ok eq_refl eq_refl w_left_ok).
Defined.
