(* ===== verification/Matchers.v ===== *)
(** * Routing matchers (internal/egress/matchers.go, presets.go,
      internal/egress/match)

    The rule text: one matcher per line, parsed into normalized matchers; the
    curated presets; and the compiled form the resolver consults. The regular
    expressions of package regexp are an interface. *)
From stdpp Require Import base tactics strings gmap list fin_sets.
From Stdlib Require Import ZArith Lia Ascii.
From Stdlib Require String.
From S2P Require Import Prelude GoText Domain Ipam NetText Auth Accounts.

Open Scope Z_scope.

(** ** Texts *)

Fixpoint str_contains (k s : string) : bool :=
  has_prefix k s || match s with String _ r => str_contains k r | EmptyString => false end.

Definition trim_prefix (p s : string) : string := default s (strip_prefix p s).

(** [strings.ToLower]. A letter outside ASCII keeps its case here (U+0130 and
    U+212A, which Go lowers into ASCII, apart). A domain or a category with such
    a letter is refused either way, and a keyword with one matches no name
    either way, names being ASCII. *)
Definition ToLower (s : string) : string := to_lower (String.length s) s.

(** The text before the first [c]. *)
Definition before (c : ascii) (s : string) : string := (str_cut c s).1.1.

(** ** Matchers (matchers.go) *)

Inductive MatcherType := MatchDomain | MatchFull | MatchKeyword | MatchRegexp | MatchGeosite | MatchCIDR | MatchGeoIP.
#[export] Instance MatcherType_eq_dec : EqDecision MatcherType.
Proof. solve_decision. Defined.

Record Matcher := MkMatcher { mt_Type : MatcherType; mt_Value : string }.
#[export] Instance Matcher_eq_dec : EqDecision Matcher.
Proof. solve_decision. Defined.

Definition IsDomain (m : Matcher) : bool :=
  match mt_Type m with
  | MatchDomain | MatchFull | MatchKeyword | MatchRegexp | MatchGeosite => true
  | _ => false
  end.

Definition MaxMatcherLines : nat := 2000.
Definition MaxMatcherBytes : nat := 64 * 1024.
Definition maxRegexpLen : nat := 256.
Definition maxDomainLen : nat := 253.
Definition maxCategoryLen : nat := 64.
Definition maxRegexpPerRule : nat := 32.

(** A refused line or text, by its stable reason. *)
Definition reject {A} (reason : string) : result err A := Err (Plain reason).

Definition category_head (c : ascii) : bool := in_range "a" "z" c || is_digit c.
Definition category_char (c : ascii) : bool :=
  category_head c || existsb (Ascii.eqb c) ["!"; "@"; "."; "_"; "-"]%char.
Definition categoryRe (s : string) : bool :=
  match s with String c r => category_head c && str_all category_char r | EmptyString => false end.

(** [netip.ParsePrefix]: no zone, and a width without a sign or leading zeros. *)
Definition parse_prefix (s : string) : option (IP * string * Z) :=
  '(addr, bits) ← str_cut_last "/" s;
  ip ← parse_addr addr;
  if negb (String.eqb (zone_of ip) "") then None
  else n ← parse_field (if Is6 ip then 128 else 32) bits; Some (ip, addr, n).

(** A label: a hyphen is neither first nor last. *)
Fixpoint label_tail (s : string) : bool :=
  match s with
  | EmptyString => true
  | String c r =>
      (in_range "a" "z" c || is_digit c || Ascii.eqb c "_" || Ascii.eqb c "-" && negb (String.eqb r "")) && label_tail r
  end.
Definition label_ok (l : string) : bool :=
  negb (String.eqb l "") && (String.length l <=? 63)%nat && label_tail l && negb (has_prefix "-" l).

Definition normalizeDomain (s : string) : option string :=
  let s := ToLower (trim_space s) in
  let s := trim_prefix "*." s in
  let s := trim_prefix "." s in
  let s := trim_suffix "." s in
  if String.eqb s "" || (maxDomainLen <? String.length s)%nat then None
  else if forallb label_ok (str_split "." s) then Some s else None.

Class Regexp := re_compile : string -> option (string -> bool).

Definition domain_matcher (t : MatcherType) (value : string) : result err Matcher :=
  match normalizeDomain value with Some d => Ok (MkMatcher t d) | None => reject "matcher_invalid" end.

(** An IPv4 address or prefix, masked. *)
Definition parseAddress (value : string) : result err Matcher :=
  let prefix :=
    if has_char "/" value then '(ip, _, n) ← parse_prefix value; Some (ip, n)
    else ip ← parse_addr value; Some (ip, if Is6 ip then 128 else 32) in
  match prefix with
  | None => reject "matcher_invalid"
  | Some (V6 _, _) => reject "matcher_ipv6"
  | Some (V4 a, n) =>
      if n =? 0 then reject "matcher_everything" else Ok (MkMatcher MatchCIDR (prefix_text (Masked (MkPrefix a n))))
  end.

Definition looksLikeAddress (line : string) : bool :=
  bool_decide (is_Some (parse_prefix line)) || bool_decide (is_Some (parse_addr line)).

Definition parseBare (line : string) : result err Matcher :=
  if has_char "/" line || has_char ":" line then reject "matcher_invalid" else domain_matcher MatchDomain line.

Section Parse.
Context `{Regexp}.

Definition parse_typed (prefix value : string) : result err Matcher :=
  if String.eqb prefix "domain" then domain_matcher MatchDomain value
  else if String.eqb prefix "full" then domain_matcher MatchFull value
  else if String.eqb prefix "keyword" then
    let v := ToLower value in
    if String.eqb v "" || (maxDomainLen <? String.length v)%nat || has_char " " v || has_char (char_of 9) v
    then reject "matcher_invalid" else Ok (MkMatcher MatchKeyword v)
  else if String.eqb prefix "regexp" || String.eqb prefix "regex" then
    if String.eqb value "" || (maxRegexpLen <? String.length value)%nat then reject "matcher_invalid"
    else match re_compile value with Some _ => Ok (MkMatcher MatchRegexp value) | None => reject "matcher_invalid" end
  else if String.eqb prefix "geosite" || String.eqb prefix "geoip" then
    let v := ToLower value in
    if String.eqb v "" || (maxCategoryLen <? String.length v)%nat || negb (categoryRe v) then reject "matcher_invalid"
    else Ok (MkMatcher (if String.eqb prefix "geosite" then MatchGeosite else MatchGeoIP) v)
  else if String.eqb prefix "ip" || String.eqb prefix "cidr" then parseAddress value
  else reject "matcher_invalid".

Definition parseMatcher (line : string) : result err Matcher :=
  if looksLikeAddress line then parseAddress line
  else
    let '(prefix, value, hasPrefix) := str_cut ":" line in
    if negb hasPrefix || has_char "." prefix || has_char "/" prefix then parseBare line
    else parse_typed (ToLower (trim_space prefix)) (trim_space value).

(** One line without its comment. *)
Definition matcher_line (raw : string) : string :=
  let line := trim_space raw in
  if has_char "#" line then trim_space (before "#" line) else line.

(** The lines in turn: what was found, and how many expressions were seen. *)
Fixpoint parse_lines (lines : list string) (regexps : nat) (out : list Matcher) : result err (list Matcher) :=
  match lines with
  | [] => Ok out
  | raw :: lines =>
      let line := matcher_line raw in
      if String.eqb line "" then parse_lines lines regexps out
      else
        m ← parseMatcher line;
        let regexps := if decide (mt_Type m = MatchRegexp) then S regexps else regexps in
        if (maxRegexpPerRule <? regexps)%nat then reject "matchers_too_many_regexp"
        else if decide (m ∈ out) then parse_lines lines regexps out
        else if (MaxMatcherLines <? S (length out))%nat then reject "matchers_too_large"
        else parse_lines lines regexps (out ++ [m])
  end.

Definition ParseMatchers (text : string) : result err (list Matcher) :=
  if (MaxMatcherBytes <? String.length text)%nat then reject "matchers_too_large"
  else parse_lines (str_split (char_of 10) text) 0 [].
End Parse.

(** ** Presets (presets.go) *)

Inductive PresetCategory := CategoryAI | CategoryGoogle | CategoryMedia | CategoryDev | CategoryIPCheck.
#[export] Instance PresetCategory_eq_dec : EqDecision PresetCategory.
Proof. solve_decision. Defined.

Record Preset := MkPreset { ps_ID : string; ps_Name : string; ps_Category : PresetCategory; ps_Lines : list string }.

Definition PresetCategories : list PresetCategory := [CategoryAI; CategoryGoogle; CategoryMedia; CategoryDev; CategoryIPCheck].

Definition presets : list Preset := [
  MkPreset "gemini" "Google Gemini" CategoryAI [
    "gemini.google.com"; "gemini.google"; "bard.google.com"; "aistudio.google.com"; "ai.google.dev";
    "makersuite.google.com"; "generativelanguage.googleapis.com"; "alkalimakersuite-pa.clients6.google.com";
    "alkalicore-pa.clients6.google.com"; "aisandbox-pa.googleapis.com"; "robinfrontend-pa.googleapis.com";
    "proactivebackend-pa.googleapis.com"; "geller-pa.googleapis.com"; "assistant-s3-pa.googleapis.com";
    "notebooklm.google"; "notebooklm.google.com"; "labs.google"; "deepmind.com"; "deepmind.google"];
  MkPreset "openai" "ChatGPT / OpenAI" CategoryAI [
    "openai.com"; "chatgpt.com"; "chat.com"; "oaistatic.com"; "oaiusercontent.com"; "sora.com";
    "full:chatgpt.livekit.cloud"; "full:openaiapi-site.azureedge.net";
    "full:production-openaicom-storage.azureedge.net"];
  MkPreset "claude" "Claude" CategoryAI [
    "anthropic.com"; "claude.ai"; "claude.com"; "claudeusercontent.com"; "clau.de"];
  MkPreset "copilot" "Microsoft Copilot" CategoryAI [
    "copilot.microsoft.com"; "copilot.cloud.microsoft"; "full:sydney.bing.com"; "full:edgeservices.bing.com"];
  MkPreset "github-copilot" "GitHub Copilot" CategoryAI [
    "githubcopilot.com"; "full:copilot-proxy.githubusercontent.com"; "full:origin-tracker.githubusercontent.com"];
  MkPreset "perplexity" "Perplexity" CategoryAI [
    "perplexity.ai"; "perplexity.com"; "pplx.ai"];
  MkPreset "grok" "Grok" CategoryAI [
    "x.ai"; "grok.com"; "full:grok.x.com"];
  MkPreset "meta-ai" "Meta AI" CategoryAI [
    "meta.ai"];
  MkPreset "mistral" "Mistral" CategoryAI [
    "mistral.ai"];
  MkPreset "poe" "Poe" CategoryAI [
    "poe.com"; "poecdn.net"];
  MkPreset "character-ai" "Character.AI" CategoryAI [
    "character.ai"];
  MkPreset "cursor" "Cursor" CategoryAI [
    "cursor.com"; "cursor.sh"; "cursor-cdn.com"];
  MkPreset "google-play" "Google Play" CategoryGoogle [
    "play.google.com"; "play.googleapis.com"; "play-fe.googleapis.com"; "full:android.clients.google.com";
    "full:play-lh.googleusercontent.com"];
  MkPreset "android-dev" "Android & Firebase" CategoryGoogle [
    "developer.android.com"; "dl.google.com"; "dl-ssl.google.com"; "maven.google.com"; "android.googlesource.com";
    "firebase.google.com"; "console.firebase.google.com"];
  MkPreset "google-cloud" "Google Cloud" CategoryGoogle [
    "cloud.google.com"; "console.cloud.google.com"];
  MkPreset "spotify" "Spotify" CategoryMedia [
    "spotify.com"; "scdn.co"; "spotifycdn.com"; "spotifycdn.net"; "spotify.design"; "spotilocal.com"; "spoti.fi";
    "spotify.link"; "byspotify.com"; "tospotify.com"; "pscdn.co"; "spotifycharts.com"];
  MkPreset "netflix" "Netflix" CategoryMedia [
    "netflix.com"; "netflix.net"; "nflxext.com"; "nflximg.com"; "nflximg.net"; "nflxso.net"; "nflxvideo.net";
    "nflxsearch.net"; "fast.com"];
  MkPreset "youtube" "YouTube" CategoryMedia [
    "youtube.com"; "youtu.be"; "yt.be"; "ytimg.com"; "googlevideo.com"; "youtube-nocookie.com"; "ggpht.com";
    "full:youtubei.googleapis.com"];
  MkPreset "disney" "Disney+" CategoryMedia [
    "disneyplus.com"; "disney-plus.net"; "bamgrid.com"; "dssott.com"];
  MkPreset "docker" "Docker Hub" CategoryDev [
    "docker.io"; "docker.com"];
  MkPreset "huggingface" "Hugging Face" CategoryDev [
    "huggingface.co"; "hf.co"];
  MkPreset "jetbrains" "JetBrains" CategoryDev [
    "jetbrains.com"; "jb.gg"];
  MkPreset "gradle" "Gradle" CategoryDev [
    "gradle.org"; "gradle.com"];
  MkPreset "ip-lookup" "IP lookup services" CategoryIPCheck [
    "ipdata.co"; "ipinfo.io"; "ip-api.com"; "ipapi.co"; "ipify.org"; "ifconfig.me"; "ifconfig.co";
    "icanhazip.com"; "ipregistry.co"; "ipgeolocation.io"; "ip.sb"; "ipwho.is"; "ipwhois.app"; "iplocation.net";
    "whatismyipaddress.com"; "myip.com"; "db-ip.com"; "maxmind.com"; "geojs.io"; "ip2location.com"; "ipquery.io";
    "iphub.info"; "ipqualityscore.com"; "scamalytics.com"; "browserleaks.com"]].

(** The catalog in category order, stable inside a category. *)
Definition Presets : list Preset :=
  PresetCategories ≫= (fun c => filter (fun p => ps_Category p = c) presets).

Definition PresetByID (id : string) : option Preset := find (fun p => String.eqb (ps_ID p) id) presets.

Fixpoint preset_lines `{Regexp} (lines : list string) (out : list Matcher) : list Matcher :=
  match lines with
  | [] => out
  | line :: lines =>
      match parseMatcher line with
      | Ok m => preset_lines lines (if decide (m ∈ out) then out else out ++ [m])
      | Err _ => preset_lines lines out
      end
  end.

Fixpoint preset_ids `{Regexp} (ids : list string) (out : list Matcher) : list Matcher :=
  match ids with
  | [] => out
  | id :: ids =>
      match PresetByID id with
      | Some p => preset_ids ids (preset_lines (ps_Lines p) out)
      | None => preset_ids ids out
      end
  end.

(** Unknown presets and lines that do not parse are skipped. *)
Definition PresetMatchers `{Regexp} (ids : list string) : list Matcher := preset_ids ids [].

(** ** The compiled form (internal/egress/match) *)

Record Domains := MkDomains {
  dm_full : gset string;
  dm_suffix : gset string;
  dm_keywords : list string;
  dm_regexps : list (string -> bool)
}.

Section Match.
Context `{Regexp}.

Definition add_matcher (d : Domains) (m : Matcher) : Domains :=
  match mt_Type m with
  | MatchFull => MkDomains ({[mt_Value m]} ∪ dm_full d) (dm_suffix d) (dm_keywords d) (dm_regexps d)
  | MatchDomain => MkDomains (dm_full d) ({[mt_Value m]} ∪ dm_suffix d) (dm_keywords d) (dm_regexps d)
  | MatchKeyword => MkDomains (dm_full d) (dm_suffix d) (dm_keywords d ++ [mt_Value m]) (dm_regexps d)
  | MatchRegexp =>
      match re_compile (mt_Value m) with
      | Some re => MkDomains (dm_full d) (dm_suffix d) (dm_keywords d) (dm_regexps d ++ [re])
      | None => d
      end
  | _ => d
  end.

Definition NewDomains (l : list Matcher) : Domains := foldl add_matcher (MkDomains ∅ ∅ [] []) l.

Definition Domains_Len (d : Domains) : nat :=
  size (dm_full d) + size (dm_suffix d) + length (dm_keywords d) + length (dm_regexps d).

(** The walk label by label: the name, then what follows each dot. *)
Fixpoint after_dots (p : string -> bool) (s : string) : bool :=
  match s with
  | EmptyString => false
  | String c r => (Ascii.eqb c "." && p r) || after_dots p r
  end.
Definition walk_labels (p : string -> bool) (name : string) : bool := p name || after_dots p name.

Definition Domains_Match (d : Domains) (name : string) : bool :=
  if String.eqb name "" then false
  else
    bool_decide (name ∈ dm_full d)
    || walk_labels (fun s => bool_decide (s ∈ dm_suffix d)) name
    || existsb (fun k => str_contains k name) (dm_keywords d)
    || existsb (fun re => re name) (dm_regexps d).
End Match.

(** [match.Entry] and [match.Ruleset]. *)
Record Entry := MkEntry { en_RuleID : string; en_SetName : string; en_Domains : Domains }.

Definition Lookup (rules : list Entry) (name : string) : option Entry :=
  match normalizeDomain name with
  | None => None
  | Some name => find (fun e => Domains_Match (en_Domains e) name) rules
  end.

(** ** Lemmas: normalized names *)

Definition name_char (c : ascii) : bool :=
  in_range "a" "z" c || is_digit c || Ascii.eqb c "_" || Ascii.eqb c "-" || Ascii.eqb c ".".

Lemma name_char_lower c r : name_char c = true ->
  strip_prefix (bytes [226; 132; 170]%nat) (String c r) = None /\ strip_prefix (bytes [196; 176]%nat) (String c r) = None /\
  lower_char c = c.
Proof. intros H. split_and!; revert H; every_char c. Qed.

Lemma to_lower_name fuel s : (String.length s <= fuel)%nat -> str_all name_char s = true -> to_lower fuel s = s.
Proof.
  revert fuel. induction s as [|c s IH]; intros [|fuel] Hf; cbn in Hf; try done; [lia|]. cbn [str_all]. intros [Hc Hs]%andb_prop.
  cbn [to_lower]. destruct (name_char_lower c s Hc) as (-> & -> & ->). f_equal. apply IH; [lia|done].
Qed.

Lemma trim_name s : str_all name_char s = true -> trim_space s = s.
Proof.
  intros Hs. assert (forall ps t fuel, (forall c r, name_char c = true -> strip_any ps (String c r) = None) ->
    strip_any ps "" = None -> str_all name_char t = true -> trim_left fuel ps t = t) as Hl.
  { intros ps t fuel Hps Hnil Ht. destruct fuel as [|fuel]; [done|]. cbn. destruct t as [|c t]; [by rewrite Hnil|].
    apply andb_prop in Ht as [Hc _]. by rewrite Hps. }
  unfold trim_space. cbv zeta. rewrite (Hl space_runes); [|intros c r; every_char c|done..].
  rewrite Hl; [apply str_rev_rev|intros c r; every_char c|done|by rewrite str_all_rev].
Qed.

Lemma label_tail_chars l : label_tail l = true -> str_all name_char l = true.
Proof.
  induction l as [|c l IH]; [done|]. cbn [label_tail str_all]. intros [Hc Hl]%andb_prop. rewrite IH by done. unfold name_char.
  apply orb_prop in Hc as [->|[-> _]%andb_prop]; [done|]. by rewrite orb_true_r.
Qed.

Lemma labels_chars s : forallb label_ok (str_split "." s) = true -> str_all name_char s = true.
Proof.
  rewrite forallb_forall. intros H. apply (str_split_all _ "."); [done|]. apply Forall_forall. intros l Hl%list_elem_of_In%H.
  unfold label_ok in Hl. apply label_tail_chars. destruct (label_tail l); [done|]. by rewrite andb_false_r in Hl.
Qed.

Lemma str_split_snoc sep s : str_split sep (s +:+ String sep "") = str_split sep s ++ [""].
Proof.
  induction s as [|c s IH]; cbn; [by rewrite Ascii.eqb_refl|]. rewrite IH.
  destruct (Ascii.eqb c sep); [done|]. by destruct (str_split sep s) as [|x l] eqn:E; [apply str_split_nil in E|].
Qed.

(** What [normalizeDomain] returns. *)
Definition normalized (d : string) : Prop :=
  d <> "" /\ (String.length d <= maxDomainLen)%nat /\ forallb label_ok (str_split "." d) = true.

Lemma normalizeDomain_ok s d : normalizeDomain s = Some d -> normalized d.
Proof.
  unfold normalizeDomain. cbv zeta. set (t := trim_suffix _ _). destruct (String.eqb_spec t ""); [done|]. cbn [orb].
  destruct (Nat.ltb_spec maxDomainLen (String.length t)); [done|]. destruct (forallb label_ok (str_split "." t)) eqn:E; [|done].
  intros [= <-]. done.
Qed.

Lemma normalized_chars d : normalized d -> str_all name_char d = true.
Proof. intros (_ & _ & H). by apply labels_chars. Qed.

(** Normalizing is idempotent. *)
Lemma normalizeDomain_idem d : normalized d -> normalizeDomain d = Some d.
Proof.
  intros Hd. pose proof (normalized_chars d Hd) as Hc. destruct Hd as (Hn & Hlen & Hl). unfold normalizeDomain. cbv zeta.
  rewrite trim_name by done. unfold ToLower. rewrite to_lower_name by done.
  assert (trim_prefix "*." d = d) as ->.
  { unfold trim_prefix. destruct d as [|c d]; [done|]. cbn [strip_prefix]. destruct (Ascii.eqb_spec "*" c) as [<-|]; [discriminate Hc|].
    done. }
  assert (trim_prefix "." d = d) as ->.
  { unfold trim_prefix. destruct d as [|c d]; [done|]. cbn [strip_prefix]. destruct (Ascii.eqb_spec "." c) as [<-|]; [|done].
    discriminate Hl. }
  assert (trim_suffix "." d = d) as ->.
  { destruct (trim_suffix_split "." d) as [|E]; [done|]. rewrite E, str_split_snoc, forallb_app in Hl.
    apply andb_prop in Hl as [_ Hl]. done. }
  apply String.eqb_neq in Hn. apply Nat.leb_le in Hlen. rewrite Hn, Nat.ltb_antisym, Hlen, Hl. done.
Qed.

(** ** Lemmas: matching *)

Lemma str_contains_spec k s : str_contains k s = true <-> exists a b, s = a +:+ k +:+ b.
Proof.
  induction s as [|c s IH]; cbn [str_contains]; rewrite orb_true_iff.
  - split.
    + intros [H|H]; [|done]. unfold has_prefix in H. destruct (strip_prefix k "") as [r|] eqn:E; [|done].
      apply strip_prefix_iff in E. by exists "", r.
    + intros (a & b & E). destruct a; [|done]. cbn in E. left. unfold has_prefix.
      by rewrite (proj2 (strip_prefix_iff k "" b) E).
  - rewrite IH. split.
    + intros [H|(a & b & ->)]; [|by exists (String c a), b]. unfold has_prefix in H.
      destruct (strip_prefix k (String c s)) as [r|] eqn:E; [|done]. apply strip_prefix_iff in E. by exists "", r.
    + intros ([|d a] & b & E); cbn in E.
      * left. unfold has_prefix. by rewrite (proj2 (strip_prefix_iff k (String c s) b) E).
      * injection E as -> ->. right. by exists a, b.
Qed.

Lemma walk_labels_spec p s : walk_labels p s = true <-> p s = true \/ exists a t, s = a +:+ "." +:+ t /\ p t = true.
Proof.
  unfold walk_labels. rewrite orb_true_iff. apply or_iff_compat_l. induction s as [|c s IH]; cbn [after_dots].
  - split; [done|]. by intros ([|? ?] & t & E & _).
  - rewrite orb_true_iff, IH, andb_true_iff, Ascii.eqb_eq. split.
    + intros [[-> Hp]|(a & t & -> & Hp)]; [by exists "", s|by exists (String c a), t].
    + intros ([|d a] & t & E & Hp); injection E as -> ->; [by left|right; by exists a, t].
Qed.

Section Matching.
Context `{Regexp}.

(** Which names a matcher stands for. *)
Definition matches (m : Matcher) (name : string) : Prop :=
  let v := mt_Value m in
  match mt_Type m with
  | MatchDomain => name = v \/ exists sub, name = sub +:+ "." +:+ v
  | MatchFull => name = v
  | MatchKeyword => exists a b, name = a +:+ v +:+ b
  | MatchRegexp => exists re, re_compile v = Some re /\ re name = true
  | _ => False
  end.

Definition domains_match (d : Domains) (name : string) : Prop :=
  name ∈ dm_full d \/ (name ∈ dm_suffix d \/ exists a t, name = a +:+ "." +:+ t /\ t ∈ dm_suffix d) \/
  (exists k, k ∈ dm_keywords d /\ exists a b, name = a +:+ k +:+ b) \/ (exists re, re ∈ dm_regexps d /\ re name = true).

Lemma Domains_Match_iff d name : Domains_Match d name = true <-> name <> "" /\ domains_match d name.
Proof.
  unfold Domains_Match, domains_match. destruct (String.eqb_spec name "") as [->|Hn]; [split; [done|by intros [[] _]]|].
  rewrite !orb_true_iff, bool_decide_eq_true, walk_labels_spec, bool_decide_eq_true, !existsb_exists.
  setoid_rewrite bool_decide_eq_true. setoid_rewrite str_contains_spec. setoid_rewrite list_elem_of_In. tauto.
Qed.

Lemma add_matcher_match d m name : domains_match (add_matcher d m) name <-> domains_match d name \/ matches m name.
Proof.
  unfold add_matcher, domains_match, matches. destruct m as [[] v]; cbn [mt_Type mt_Value dm_full dm_suffix dm_keywords dm_regexps].
  - split.
    + intros [?|[[[->%elem_of_singleton|?]%elem_of_union|(a & t & -> & [->%elem_of_singleton|?]%elem_of_union)]|?]]; eauto 8.
    + intros [[?|[[?|(a & t & -> & ?)]|?]]|[->|[sub ->]]]; eauto 9; right; left.
      * left. set_solver.
      * right. exists a, t. set_solver.
      * left. set_solver.
      * right. exists sub, v. set_solver.
  - rewrite elem_of_union, elem_of_singleton. tauto.
  - setoid_rewrite elem_of_app. setoid_rewrite list_elem_of_singleton. split.
    + intros [?|[?|[(k & [?| ->] & ?)|?]]]; eauto 8.
    + intros [[?|[?|[(k & ? & ?)|?]]]|?]; eauto 9.
  - destruct (re_compile v) as [re|] eqn:E; cbn [dm_full dm_suffix dm_keywords dm_regexps].
    + setoid_rewrite elem_of_app. setoid_rewrite list_elem_of_singleton. split.
      * intros [?|[?|[?|(k & [?| ->] & ?)]]]; eauto 8.
      * intros [[?|[?|[?|(k & ? & ?)]]]|(re' & [= ->] & ?)]; eauto 9.
    + split; [by left|]. by intros [|(re & [=] & _)].
  - tauto.
  - tauto.
  - tauto.
Qed.

Lemma NewDomains_match l name : domains_match (NewDomains l) name <-> exists m, m ∈ l /\ matches m name.
Proof.
  unfold NewDomains. set (d0 := MkDomains _ _ _ _).
  assert (forall d, domains_match (foldl add_matcher d l) name <-> domains_match d name \/ exists m, m ∈ l /\ matches m name) as Hg.
  { induction l as [|m l IH]; intros d; cbn.
    - split; [by left|]. intros [|(m & Hm & _)]; [done|by apply elem_of_nil in Hm].
    - rewrite IH, add_matcher_match. setoid_rewrite elem_of_cons. split.
      + intros [[?|?]|(m' & ? & ?)]; eauto 6.
      + intros [?|(m' & [->|?] & ?)]; eauto 6. }
  rewrite Hg. unfold domains_match at 1, d0. cbn. split; [|by right].
  intros [[?|[[?|(a & t & _ & ?)]|[(k & ? & _)|(re & ? & _)]]]|?]; [set_solver..|done].
Qed.
End Matching.

(** ** Lemmas: parsing *)

Section Parsing.
Context `{Regexp}.

(** What a stored matcher is. *)
Definition matcher_ok (m : Matcher) : Prop :=
  let v := mt_Value m in
  match mt_Type m with
  | MatchDomain | MatchFull => normalized v
  | MatchKeyword => v <> "" /\ (String.length v <= maxDomainLen)%nat
  | MatchRegexp => (String.length v <= maxRegexpLen)%nat /\ is_Some (re_compile v)
  | MatchGeosite | MatchGeoIP => categoryRe v = true /\ (String.length v <= maxCategoryLen)%nat
  | MatchCIDR => exists p, ParsePrefix v = Some p /\ v = prefix_text p /\ valid_prefix p /\ p = Masked p /\ 0 < pf_bits p
  end.

Lemma parse_addr_v4 s a : parse_addr s = Some (V4 a) -> ParseAddr s = Some a.
Proof.
  unfold parse_addr. destruct (family s) as [c|]; [|done]. destruct (ascii_dec c ".") as [->|]; [|].
  - by intros (b & Hb & [= <-])%fmap_Some.
  - destruct c as [[] [] [] [] [] [] [] []]; try done. unfold parse_ipv6. destruct (str_cut "%" s) as [[x y] z].
    by destruct (_ && _), (ipv6_ok x).
Qed.

Lemma ParseAddr_valid s a : ParseAddr s = Some a -> valid_addr a.
Proof.
  intros H1. assert (ParsePrefix (s +:+ "/" +:+ dec 32) = Some (MkPrefix a 32)) as [Hv _]%ParsePrefix_valid; [|done].
  unfold ParsePrefix. cbn [String.append]. rewrite str_cut_app; [by rewrite H1|].
  pose proof (ParseAddr_dotted _ _ H1) as Hd. revert Hd. apply str_all_weaken. intros c. every_char c.
Qed.

Lemma Masked_idem p : valid_prefix p -> Masked (Masked p) = Masked p.
Proof.
  intros Hp. unfold Masked. cbn [pf_addr pf_bits]. f_equal. unfold host_bits. cbn [pf_bits].
  apply Z.bits_inj. intros i. rewrite !Z.ldiff_spec. by destruct (Z.testbit (pf_addr p) i), (Z.testbit _ i).
Qed.

Lemma Masked_valid p : valid_prefix p -> valid_prefix (Masked p).
Proof. intros Hp. pose proof (masked_bounds p Hp). destruct Hp as [Ha Hb]. unfold valid_prefix, valid_addr in *. cbn. cbn in *. lia. Qed.

Lemma parseAddress_ok value m : parseAddress value = Ok m -> mt_Type m = MatchCIDR /\ matcher_ok m.
Proof.
  unfold parseAddress. cbv zeta.
  assert (forall a n, (if has_char "/" value then '(ip, _, n) ← parse_prefix value; Some (ip, n)
     else ip ← parse_addr value; Some (ip, if Is6 ip then 128 else 32)) = Some (V4 a, n) -> valid_prefix (MkPrefix a n)) as Hv.
  { intros a n. destruct (has_char "/" value).
    - unfold parse_prefix. destruct (str_cut_last "/" value) as [[ad bits]|]; [|done]. cbn [mbind option_bind].
      destruct (parse_addr ad) as [ip|] eqn:Ea; [|done]. cbn [mbind option_bind]. destruct (negb _); [done|].
      destruct (parse_field _ bits) as [k|] eqn:Ek; [|done]. cbn. intros [= -> ->]. cbn [Is6] in Ek.
      apply parse_addr_v4, ParseAddr_valid in Ea. unfold valid_prefix. cbn. split; [done|].
      unfold parse_field in Ek. destruct bits as [|c rest]; [done|]. destruct (_ && _); [done|].
      destruct (undec_go (String c rest) 0) as [w|] eqn:Ew; [|done]. destruct (Z.leb_spec w 32); [|done]. injection Ek as <-.
      apply undec_go_nonneg in Ew; lia.
    - destruct (parse_addr value) as [ip|] eqn:Ea; [|done]. cbn. intros [= -> <-]. apply parse_addr_v4, ParseAddr_valid in Ea.
      split; [done|]. cbn. lia. }
  destruct (if has_char "/" value then _ else _) as [[[a|z] n]|] eqn:E; [|done..]. specialize (Hv a n eq_refl).
  destruct (Z.eqb_spec n 0); [done|]. intros [= <-]. split; [done|]. cbn [matcher_ok mt_Type mt_Value].
  exists (Masked (MkPrefix a n)). split_and!; [by apply ParsePrefix_prefix_text, Masked_valid|done|by apply Masked_valid|
    symmetry; by apply Masked_idem|]. cbn. destruct Hv as [_ Hv]. cbn in Hv. lia.
Qed.

Lemma domain_matcher_ok t v m : domain_matcher t v = Ok m -> mt_Type m = t /\ normalized (mt_Value m).
Proof.
  unfold domain_matcher. destruct (normalizeDomain v) as [d|] eqn:E; [|done]. intros [= <-]. apply normalizeDomain_ok in E. done.
Qed.

Lemma parseMatcher_ok line m : parseMatcher line = Ok m -> matcher_ok m.
Proof.
  unfold parseMatcher. destruct (looksLikeAddress line); [intros Hp; by apply parseAddress_ok in Hp as [_ Hp]|].
  destruct (str_cut ":" line) as [[prefix value] found].
  destruct (negb found || has_char "." prefix || has_char "/" prefix).
  { unfold parseBare. destruct (_ || _); [done|]. intros [Ht Hv]%domain_matcher_ok. unfold matcher_ok. by rewrite Ht. }
  unfold parse_typed. cbv zeta. generalize (ToLower (trim_space prefix)) as p, (trim_space value) as v. intros p v.
  destruct (String.eqb p "domain"). { intros [Ht Hv]%domain_matcher_ok. unfold matcher_ok. by rewrite Ht. }
  destruct (String.eqb p "full"). { intros [Ht Hv]%domain_matcher_ok. unfold matcher_ok. by rewrite Ht. }
  destruct (String.eqb p "keyword").
  { destruct (String.eqb_spec (ToLower v) ""); [done|]. destruct (Nat.ltb_spec maxDomainLen (String.length (ToLower v))); [done|].
    cbn [orb]. destruct (_ || _); [done|]. by intros [= <-]. }
  destruct (_ || _).
  { destruct (String.eqb v ""); [done|]. cbn [orb]. destruct (Nat.ltb_spec maxRegexpLen (String.length v)); [done|].
    destruct (re_compile v) eqn:E; [|done]. intros [= <-]. split; [done|]. cbn. by rewrite E. }
  destruct (String.eqb p "geosite" || String.eqb p "geoip").
  { destruct (String.eqb (ToLower v) ""); [done|]. cbn [orb]. destruct (Nat.ltb_spec maxCategoryLen (String.length (ToLower v))); [done|].
    destruct (categoryRe (ToLower v)) eqn:E; [|done]. intros [= <-]. unfold matcher_ok. cbn [mt_Type mt_Value].
    by destruct (String.eqb p "geosite"). }
  destruct (_ || _); [intros Hp; by apply parseAddress_ok in Hp as [_ Hp]|done].
Qed.

Lemma parse_lines_ok lines n out l : parse_lines lines n out = Ok l ->
  NoDup out -> Forall matcher_ok out -> (length out <= MaxMatcherLines)%nat ->
  NoDup l /\ Forall matcher_ok l /\ (length l <= MaxMatcherLines)%nat.
Proof.
  revert n out. induction lines as [|raw lines IH]; intros n out; cbn [parse_lines]; [by intros [= <-]|]. cbv zeta.
  destruct (String.eqb (matcher_line raw) ""); [apply IH|]. intros (m & Hm & Hl)%res_bind_ok Hn Hf Hlen.
  destruct (_ <? _)%nat; [done|]. destruct (decide (m ∈ out)) as [|Hnew]; [by apply (IH _ _ Hl)|].
  destruct (Nat.ltb_spec MaxMatcherLines (S (length out))); [done|]. apply (IH _ _ Hl).
  - apply NoDup_app. split_and!; [done| |apply NoDup_singleton]. by intros x Hx ->%list_elem_of_singleton.
  - apply Forall_app. split; [done|]. apply Forall_singleton. by eapply parseMatcher_ok.
  - rewrite length_app. cbn. lia.
Qed.
End Parsing.

(** ** Properties *)

(** C38. The compiled form matches a name exactly when one of the matchers it was
    made from does: the label walk, the two sets and the lists lose nothing
    and add nothing. *)
Theorem Match_refines `{Regexp} l name : Domains_Match (NewDomains l) name = true <->
  name <> "" /\ exists m, m ∈ l /\ matches m name.
Proof. by rewrite Domains_Match_iff, NewDomains_match. Qed.

(** C37. An accepted rule text: at most two thousand distinct matchers, each in
    order: names normalized (normalizing them again changes nothing), networks
    canonical IPv4 prefixes of at least one bit that parse back, expressions
    that compile, categories and keywords within their bounds. *)
Theorem ParseMatchers_sound `{Regexp} text l : ParseMatchers text = Ok l ->
  NoDup l /\ Forall matcher_ok l /\ (length l <= MaxMatcherLines)%nat /\
  forall m, m ∈ l -> mt_Type m = MatchDomain \/ mt_Type m = MatchFull -> normalizeDomain (mt_Value m) = Some (mt_Value m).
Proof.
  unfold ParseMatchers. destruct (_ <? _)%nat; [done|]. intros Hl.
  apply parse_lines_ok in Hl as (Hn & Hf & Hlen); [|apply NoDup_nil_2|done|cbn; lia]. split_and!; [done..|].
  intros m Hm Ht. apply normalizeDomain_idem. rewrite Forall_forall in Hf. specialize (Hf m Hm). unfold matcher_ok in Hf.
  by destruct Ht as [Ht|Ht]; rewrite Ht in Hf.
Qed.

#[local] Instance no_regexp : Regexp := fun _ => None.

Theorem ParseMatchers_sound_witness : exists l,
  ParseMatchers ("# exits" +:+ String (char_of 10) "*.Example.com" +:+ String (char_of 10) "ip:10.1.2.3/8") = Ok l /\
  NoDup l /\ Forall matcher_ok l /\ (length l <= MaxMatcherLines)%nat /\
  forall m, m ∈ l -> mt_Type m = MatchDomain \/ mt_Type m = MatchFull -> normalizeDomain (mt_Value m) = Some (mt_Value m).
Proof.
  exists [MkMatcher MatchDomain "example.com"; MkMatcher MatchCIDR "10.0.0.0/8"]. split; [vm_compute; reflexivity|].
  apply (ParseMatchers_sound ("# exits" +:+ String (char_of 10) "*.Example.com" +:+ String (char_of 10) "ip:10.1.2.3/8")).
  vm_compute. reflexivity.
Defined.

(** Every line of every preset parses, to a name matcher, and no two presets
    share an identifier. *)
Theorem presets_parse `{Regexp} : NoDup (ps_ID <$> presets) /\
  forall p line, p ∈ presets -> line ∈ ps_Lines p ->
    exists m, parseMatcher line = Ok m /\ (mt_Type m = MatchDomain \/ mt_Type m = MatchFull).
Proof.
  split; [apply (bool_decide_unpack _); vm_compute; exact I|].
  assert (forallb (fun p => forallb (fun line => match parseMatcher line with
    | Ok m => bool_decide (mt_Type m = MatchDomain) || bool_decide (mt_Type m = MatchFull) | Err _ => false end) (ps_Lines p)) presets = true) as Ha
    by (vm_compute; reflexivity).
  intros p line Hp Hline. rewrite forallb_forall in Ha. apply list_elem_of_In in Hp, Hline. specialize (Ha p Hp).
  rewrite forallb_forall in Ha. specialize (Ha line Hline). destruct (parseMatcher line) as [m|]; [|done]. exists m.
  split; [done|]. apply orb_prop in Ha as [Ha%bool_decide_eq_true|Ha%bool_decide_eq_true]; auto.
Qed.
