(* ===== verification/ImportConfig.v ===== *)
(** * Imported client configurations (internal/egress/wgconf.go)

    The configuration a VPN provider or another node exports, read line by
    line into the public and the secret half of an outbound; what the runtimes
    themselves enforce of its obfuscation parameters. Of an error the model
    keeps the reason, not the key it names. *)
From stdpp Require Import base tactics strings list.
From Stdlib Require Import ZArith Lia Ascii.
From Stdlib Require String.
From S2P Require Import Prelude GoText GoTime Domain Awgparam Ipam NetText NetAddr Crypto Tunnel Profile Auth Accounts Matchers.

Open Scope Z_scope.

(** ** The halves of an outbound (egress.go) *)

(** [egress.TunnelConfig]. *)
Record TunnelConfig := MkTunnel {
  tc_Address : string;
  tc_MTU : Z;
  tc_PeerPublicKey : string;
  tc_Endpoint : string;
  tc_Keepalive : Z;
  tc_KeepaliveMax : Z;
  tc_Obfuscation : Obfuscation;
  tc_Via : string;
  tc_Address6 : string;
  tc_IPv6Sites : bool
}.

#[export] Instance eta_TunnelConfig : Eta TunnelConfig := fun t =>
  MkTunnel (tc_Address t) (tc_MTU t) (tc_PeerPublicKey t) (tc_Endpoint t) (tc_Keepalive t) (tc_KeepaliveMax t)
    (tc_Obfuscation t) (tc_Via t) (tc_Address6 t) (tc_IPv6Sites t).

#[export] Instance TunnelConfig_eq_dec : EqDecision TunnelConfig.
Proof. solve_decision. Defined.

(** [egress.Secret]. *)
Record Secret := MkSecret {
  sc_PrivateKey : string;
  sc_PresharedKey : string;
  sc_WARPToken : string;
  sc_WARPLicense : string
}.

#[export] Instance eta_Secret : Eta Secret := fun x =>
  MkSecret (sc_PrivateKey x) (sc_PresharedKey x) (sc_WARPToken x) (sc_WARPLicense x).

#[export] Instance Secret_eq_dec : EqDecision Secret.
Proof. solve_decision. Defined.

Definition no_tunnel : TunnelConfig := MkTunnel "" 0 "" "" 0 0 no_obf "" "" false.
Definition no_secret : Secret := MkSecret "" "" "" "".

(** ** Texts *)

Definition MaxConfigBytes : nat := 64 * 1024.
Definition DefaultTunnelMTU : Z := 1280.
Definition maxSignatureBytes : nat := 16 * 1024.

(** [strings.Fields]. *)
Fixpoint fields_go (fuel : nat) (word s : string) : list string :=
  let last := if String.eqb word "" then [] else [word] in
  match fuel, s with
  | S fuel, String c r =>
      match strip_any space_runes s with
      | Some r => last ++ fields_go fuel "" r
      | None => fields_go fuel (word +:+ String c "") r
      end
  | _, _ => last
  end.
Definition fields (s : string) : list string := fields_go (String.length s) "" s.

(** [strings.Join(strings.Fields(s), "")]. *)
Definition squeeze (s : string) : string := str_join "" (fields s).

(** [strings.ReplaceAll(s, "\r\n", "\n")]. *)
Fixpoint unix_lines (s : string) : string :=
  match s with
  | String c (String d _ as r) =>
      if Ascii.eqb c (char_of 13) && Ascii.eqb d (char_of 10) then unix_lines r else String c (unix_lines r)
  | _ => s
  end.

Definition byte_order_mark : string := bytes [239; 187; 191]%nat.

(** ** Values *)

(** host:port: a WireGuard endpoint always has a port. *)
Definition validEndpoint (value : string) : result err unit :=
  if String.eqb value "" || negb (is_ok (ValidEndpoint value)) then reject "endpoint_invalid"
  else if has_prefix "[" value then (if str_contains "]:" value then Ok tt else reject "endpoint_invalid")
  else if (str_count ":" value =? 1)%nat then Ok tt else reject "endpoint_invalid".

(** [off], one number, or an interval; the high bound of one number is 0. *)
Definition parseKeepalive (value : string) : option (Z * Z) :=
  if String.eqb (str_lower value) "off" then Some (0, 0)
  else match ParseU16Range value with
       | Err _ => None
       | Ok r => if low r =? high r then Some (low r, 0) else if low r =? 0 then None else Some (low r, high r)
       end.

Definition parseFlag (value : string) : option bool :=
  let v := ToLower value in
  if existsb (String.eqb v) ["on"; "true"; "yes"] then Some true
  else if existsb (String.eqb v) ["off"; "false"; "no"] then Some false
  else n ← parse_uint 32 value; Some (negb (n =? 0)).

Definition isSignatureKey (key : string) : bool :=
  match key with String a (String b EmptyString) => Ascii.eqb a "i" && in_range "1" "5" b | _ => false end.

Definition signatureTags : list string := ["b"; "c"; "t"; "r"; "rc"; "rd"; "d"; "ds"; "dz"].

(** The elements between the angle brackets, each a tag and at most a value. *)
Fixpoint tags_ok (fuel : nat) (rest : string) : bool :=
  match fuel with
  | O => true
  | S fuel =>
      match str_cut "<" rest with
      | (_, inner, true) =>
          match str_cut ">" inner with
          | (element, rest, true) =>
              match fields element with
              | [tag] | [tag; _] => member tag signatureTags && tags_ok fuel rest
              | _ => false
              end
          | _ => false
          end
      | _ => true
      end
  end.

Definition validSignature (value : string) : bool :=
  negb (String.eqb value "") && (String.length value <=? maxSignatureBytes)%nat
  && config_text_ok value && tags_ok (String.length value) value && has_char "<" value.

(** A key of 32 bytes, in its canonical form. *)
Definition protection_key (value : string) : option string :=
  k ← DecodeString value; if (length k =? 32)%nat then Some (EncodeToString k) else None.

(** ** The parser *)

(** [ParsedConfig] with the parameters collected so far and the keys seen. *)
Record configParser := MkParser {
  cp_Tunnel : TunnelConfig;
  cp_Secret : Secret;
  cp_Ignored : list string;
  cp_obf : Obfuscation;
  cp_seen : list string
}.

#[export] Instance eta_configParser : Eta configParser := fun p =>
  MkParser (cp_Tunnel p) (cp_Secret p) (cp_Ignored p) (cp_obf p) (cp_seen p).

Definition new_parser : configParser := MkParser no_tunnel no_secret [] no_obf [].

Definition ignore (name : string) (p : configParser) : configParser :=
  if member name (cp_Ignored p) then p else p <| cp_Ignored ::= fun l => l ++ [name] |>.

Definition ignoredInterfaceKeys : list (string * string) :=
  [("dns", "DNS"); ("listenport", "ListenPort"); ("table", "Table"); ("preup", "PreUp"); ("postup", "PostUp");
   ("predown", "PreDown"); ("postdown", "PostDown"); ("saveconfig", "SaveConfig"); ("fwmark", "FwMark");
   ("j1", "J1"); ("j2", "J2"); ("j3", "J3"); ("itime", "Itime")].

Fixpoint assoc {A} (key : string) (l : list (string * A)) : option A :=
  match l with [] => None | (k, v) :: l => if String.eqb key k then Some v else assoc key l end.

(** The addresses of one line: the first IPv4 and the first IPv6 one count. *)
Fixpoint read_addresses (parts : list string) (t : TunnelConfig) : result err TunnelConfig :=
  match parts with
  | [] => Ok t
  | part :: parts =>
      if String.eqb part "" then read_addresses parts t
      else
        match (match parse_prefix part with Some (ip, text, _) => Some (ip, text) | None => ip ← parse_addr part; Some (ip, part) end) with
        | None => reject "config_address"
        | Some (V4 a, _) =>
            read_addresses parts (if String.eqb (tc_Address t) "" then t <| tc_Address := prefix_text (MkPrefix a 32) |> else t)
        | Some (V6 _, text) =>
            read_addresses parts
              match own_ipv6 text with
              | Some l => if String.eqb (tc_Address6 t) "" then t <| tc_Address6 := addr6_text l +:+ "/128" |> else t
              | None => t
              end
        end
  end.

Definition set_number (key : string) (n : Z) (o : Obfuscation) : Obfuscation :=
  if String.eqb key "jc" then o <| ob_Jc := n |>
  else if String.eqb key "jmin" then o <| ob_Jmin := n |>
  else if String.eqb key "jmax" then o <| ob_Jmax := n |>
  else if String.eqb key "s1" then o <| ob_S1 := n |>
  else if String.eqb key "s2" then o <| ob_S2 := n |>
  else if String.eqb key "s3" then o <| ob_S3 := n |>
  else o <| ob_S4 := n |>.

Definition set_header (key : string) (r : Range) (o : Obfuscation) : Obfuscation :=
  if String.eqb key "h1" then o <| ob_H1 := r |>
  else if String.eqb key "h2" then o <| ob_H2 := r |>
  else if String.eqb key "h3" then o <| ob_H3 := r |>
  else o <| ob_H4 := r |>.

Definition set_signature (key value : string) (o : Obfuscation) : Obfuscation :=
  if String.eqb key "i1" then o <| ob_I1 := value |>
  else if String.eqb key "i2" then o <| ob_I2 := value |>
  else if String.eqb key "i3" then o <| ob_I3 := value |>
  else if String.eqb key "i4" then o <| ob_I4 := value |>
  else o <| ob_I5 := value |>.

Definition set_timer (key : string) (r : Range) (o : Obfuscation) : Obfuscation :=
  if String.eqb key "contentpaddingaddition" then o <| ob_ContentPaddingAddition := r |>
  else if String.eqb key "rekeyaftertime" then o <| ob_RekeyAfterTime := r |>
  else if String.eqb key "rekeytimeout" then o <| ob_RekeyTimeout := r |>
  else if String.eqb key "rejectaftertime" then o <| ob_RejectAfterTime := r |>
  else if String.eqb key "keepalivetimeout" then o <| ob_KeepaliveTimeout := r |>
  else o <| ob_MaxHandshakeAttempts := r |>.

Definition numberKeys : list string := ["jc"; "jmin"; "jmax"; "s1"; "s2"; "s3"; "s4"].
Definition headerKeys : list string := ["h1"; "h2"; "h3"; "h4"].
Definition signatureKeys : list string := ["i1"; "i2"; "i3"; "i4"; "i5"].
Definition timerKeys : list string :=
  ["contentpaddingaddition"; "rekeyaftertime"; "rekeytimeout"; "rejectaftertime"; "keepalivetimeout"; "maxhandshakeattempts"].

(** A parameter of the obfuscation profile; [None] is a key that is none. *)
Definition profile_key (key value : string) (o : Obfuscation) : option (result err Obfuscation) :=
  let bad := reject "config_obfuscation" in
  if member key numberKeys then
    Some match parse_uint 16 value with Some n => Ok (set_number key n o) | None => bad end
  else if member key headerKeys then
    Some match ParseU32Range value with
         | Ok r => if low r =? 0 then bad else Ok (set_header key r o)
         | Err _ => bad
         end
  else if member key signatureKeys then
    Some (if validSignature value then Ok (set_signature key value o) else bad)
  else if String.eqb key "headerprotectionkey" then
    Some match protection_key value with Some k => Ok (o <| ob_HeaderProtectionKey := k |>) | None => bad end
  else if member key timerKeys then
    Some match ParseU16Range value with Ok r => Ok (set_timer key r o) | Err _ => bad end
  else if String.eqb key "randomtrailers" then
    Some match parseFlag value with Some b => Ok (o <| ob_RandomTrailers := b |>) | None => bad end
  else if String.eqb key "disablecookies" then
    Some match parseFlag value with Some b => Ok (o <| ob_DisableCookies := b |>) | None => bad end
  else None.

Definition interfaceKey (key value : string) (p : configParser) : result err configParser :=
  match assoc key ignoredInterfaceKeys with
  | Some name => Ok (ignore name p)
  | None =>
      if member key (cp_seen p) && negb (String.eqb key "address") then reject "config_duplicate_key"
      else
        let p := p <| cp_seen ::= cons key |> in
        if String.eqb key "privatekey" then
          (if is_ok (ValidatePrivateKey value) then Ok (p <| cp_Secret ::= fun x => x <| sc_PrivateKey := value |> |>)
           else reject "config_key")
        else if String.eqb key "address" then
          t ← read_addresses (str_split "," value) (cp_Tunnel p); Ok (p <| cp_Tunnel := t |>)
        else if String.eqb key "mtu" then
          match parse_int64 value with
          | Some n => if (n <? 576) || (1500 <? n) then reject "config_mtu" else Ok (p <| cp_Tunnel ::= fun t => t <| tc_MTU := n |> |>)
          | None => reject "config_mtu"
          end
        else
          match profile_key key value (cp_obf p) with
          | Some r => o ← r; Ok (p <| cp_obf := o |>)
          | None => reject "config_unsupported_key"
          end
  end.

Definition peerKey (key value : string) (p : configParser) : result err configParser :=
  if String.eqb key "allowedips" then Ok (ignore "AllowedIPs" p)
  else if String.eqb key "advancedsecurity" then Ok (ignore "AdvancedSecurity" p)
  else if member key (cp_seen p) then reject "config_duplicate_key"
  else
    let p := p <| cp_seen ::= cons key |> in
    let tunnel f := Ok (p <| cp_Tunnel ::= f |>) in
    if String.eqb key "publickey" then
      (if is_ok (ValidatePublicKey value) then tunnel (fun t => t <| tc_PeerPublicKey := value |>) else reject "config_key")
    else if String.eqb key "presharedkey" then
      (if is_ok (ValidatePrivateKey value) then Ok (p <| cp_Secret ::= fun x => x <| sc_PresharedKey := value |> |>)
       else reject "config_key")
    else if String.eqb key "endpoint" then
      (if is_ok (validEndpoint value) then tunnel (fun t => t <| tc_Endpoint := value |>) else reject "config_value")
    else if String.eqb key "persistentkeepalive" then
      match parseKeepalive value with
      | Some (lo, hi) => tunnel (fun t => t <| tc_Keepalive := lo |> <| tc_KeepaliveMax := hi |>)
      | None => reject "config_value"
      end
    else reject "config_unsupported_key".

Inductive section_kind := NoSection | SInterface | SPeer.

Definition section_text (line : string) : string :=
  ToLower (squeeze (str_take (String.length line - 2) (str_drop 1 line))).

(** The line without its comment. *)
Definition config_line (raw : string) : string := trim_space (before "#" raw).

Fixpoint read_lines (lines : list string) (section : section_kind) (peers : nat) (p : configParser) : result err (nat * configParser) :=
  match lines with
  | [] => Ok (peers, p)
  | raw :: lines =>
      let line := config_line raw in
      if String.eqb line "" || has_prefix ";" line then read_lines lines section peers p
      else if has_prefix "[" line && has_suffix "]" line then
        let name := section_text line in
        if String.eqb name "interface" then read_lines lines SInterface peers p
        else if String.eqb name "peer" then
          (if (1 <? S peers)%nat then reject "config_multiple_peers" else read_lines lines SPeer (S peers) p)
        else reject "config_unknown_section"
      else
        let '(key, value, found) := str_cut "=" line in
        if negb found then reject "config_invalid"
        else
          let key := ToLower (squeeze key) in
          let value := trim_space value in
          let value := if isSignatureKey key then value else squeeze value in
          p ← match section with
              | SInterface => interfaceKey key value p
              | SPeer => peerKey key value p
              | NoSection => reject "config_invalid"
              end;
          read_lines lines section peers p
  end.

(** ** What the runtimes enforce *)

(** A header that was not set is the stock one. *)
Fixpoint stock_defaults (i : Z) (hs : list Range) : list Range :=
  match hs with [] => [] | h :: hs => (if IsZero h then Scalar i else h) :: stock_defaults (i + 1) hs end.

Fixpoint pairwise_disjoint (hs : list Range) : bool :=
  match hs with [] => true | h :: hs => negb (existsb (Awgparam.Overlaps h) hs) && pairwise_disjoint hs end.

Definition importedObfuscation (o : Obfuscation) : result err Obfuscation :=
  let o := set_headers (stock_defaults 1 (headers o)) o in
  if negb (pairwise_disjoint (headers o)) then reject "config_headers_overlap"
  else if JcMax <? ob_Jc o then reject "config_obfuscation"
  else if (0 <? ob_Jc o) && (ob_Jmax o <? ob_Jmin o) then reject "config_junk_range"
  else if negb (String.eqb (ob_HeaderProtectionKey o) "")
          && ((ob_S1 o <? 12) || (ob_S2 o <? 12) || (ob_S3 o <? 12) || (ob_S4 o <? 12)) then reject "config_header_protection"
  else if PlainEquivalent (Tunnel o) then Ok no_obf
  else Ok (o <| ob_Enabled := true |>).

(** ** The whole text *)

(** [ParsedConfig]. *)
Record ParsedConfig := MkParsed { pc_Tunnel : TunnelConfig; pc_Secret : Secret; pc_Ignored : list string }.

Definition requiredKeys : list string := ["privatekey"; "address"; "publickey"; "endpoint"].

Definition ParseClientConfig (text : string) : result err ParsedConfig :=
  if (MaxConfigBytes <? String.length text)%nat then reject "config_too_large"
  else
    let text := trim_prefix byte_order_mark text in
    '(peers, p) ← read_lines (str_split (char_of 10) (unix_lines text)) NoSection 0 new_parser;
    if (peers =? 0)%nat then reject "config_missing"
    else if negb (forallb (fun k => member k (cp_seen p)) requiredKeys) then reject "config_missing"
    else
      let t := cp_Tunnel p in
      if String.eqb (tc_Address t) "" then reject "config_address"
      else
        let t := if tc_MTU t =? 0 then t <| tc_MTU := DefaultTunnelMTU |> else t in
        let t := if member "persistentkeepalive" (cp_seen p) then t else t <| tc_Keepalive := 25 |> in
        obf ← importedObfuscation (cp_obf p);
        Ok (MkParsed (t <| tc_Obfuscation := obf |>) (cp_Secret p) (cp_Ignored p)).

(** ** Lemmas: decoded keys *)

Lemma b64_val_range c v : b64_val c = Some v -> 0 <= v < 64.
Proof. destruct c as [[] [] [] [] [] [] [] []]; vm_compute; intros [= <-]; split; done. Qed.

Lemma b64_quads_bytes n s l : (String.length s <= n)%nat -> b64_quads s = Some l -> Forall byte_range l.
Proof.
  unfold byte_range. revert s l. induction n as [|n IH]; intros [|a [|b [|c [|d rest]]]] l Hn; cbn [b64_quads String.length] in *; try done; try lia;
    try (intros [= <-]; done).
  destruct (b64_val a) as [x|] eqn:Ea; [|done]. destruct (b64_val b) as [y|] eqn:Eb; [|done]. cbn [mbind option_bind].
  apply b64_val_range in Ea, Eb. destruct (Ascii.eqb c "=").
  { destruct (_ && _); [|done]. intros [= <-]. apply Forall_singleton. dlia. }
  destruct (b64_val c) as [z|] eqn:Ec; [|done]. cbn [mbind option_bind]. apply b64_val_range in Ec. destruct (Ascii.eqb d "=").
  { destruct (String.eqb rest ""); [|done]. intros [= <-]. apply Forall_cons. split; [dlia|]. apply Forall_singleton. dlia. }
  destruct (b64_val d) as [w|] eqn:Ed; [|done]. cbn [mbind option_bind]. apply b64_val_range in Ed.
  destruct (b64_quads rest) as [bs|] eqn:Er; [|done]. intros [= <-].
  apply Forall_cons; split; [dlia|]. apply Forall_cons; split; [dlia|]. apply Forall_cons; split; [dlia|]. eapply (IH rest); [lia|done].
Qed.

Lemma DecodeString_bytes s l : DecodeString s = Some l -> Forall byte_range l.
Proof. by apply b64_quads_bytes with (n := String.length (skip_breaks s)). Qed.

(** ** Lemmas: what the parser keeps true *)

Definition key_ok (k : string) : Prop := ValidatePublicKey k = Ok tt.
Definition header_ok (r : Range) : Prop := r = zero_range \/ range_ok 32 r /\ 0 < low r.
Definition signature_ok (v : string) : Prop := v = "" \/ validSignature v = true.
Definition canonical_key (k : string) : Prop := k = "" \/ protection_key k = Some k.

(** The parameters of a profile that was read and not yet judged. *)
Record param_ok (o : Obfuscation) : Prop := {
  po_numbers : Forall (fun n => 0 <= n < 2 ^ 16) (numbers o);
  po_headers : Forall header_ok (headers o);
  po_timers : Forall (range_ok 16) (timers o);
  po_signatures : Forall signature_ok (signatures o);
  po_key : canonical_key (ob_HeaderProtectionKey o)
}.

Definition interval_ok (lo hi : Z) : Prop := 0 <= lo < 2 ^ 16 /\ (hi = 0 \/ 0 < lo < hi /\ hi < 2 ^ 16).

Lemma private_is_public k : is_ok (ValidatePrivateKey k) = true -> key_ok k.
Proof.
  unfold ValidatePrivateKey, key_ok, ValidatePublicKey. destruct (DecodeString k); [|done]. by destruct (length _ =? 32)%nat.
Qed.

Lemma public_ok k : is_ok (ValidatePublicKey k) = true -> key_ok k.
Proof. unfold key_ok, ValidatePublicKey. destruct (DecodeString k); [|done]. by destruct (length _ =? 32)%nat. Qed.

Lemma ParseRange_range bits text r : ParseRange bits text = Ok r -> range_ok bits r.
Proof.
  unfold ParseRange, parseBounds. destruct (_ || _); [done|]. destruct (str_cut "-" text) as [[a b] ranged]. destruct (_ || _); [done|].
  destruct (parse_uint bits a) as [lo|] eqn:Ea; [|done]. apply parse_uint_range in Ea.
  destruct (if ranged then _ else _) as [hi|] eqn:Eb; [|done]. destruct (Z.ltb_spec hi lo); [done|]. intros [= <-]. unfold range_ok. cbn.
  destruct ranged; [apply parse_uint_range in Eb|injection Eb as <-]; lia.
Qed.

Lemma parseKeepalive_ok v lo hi : parseKeepalive v = Some (lo, hi) -> interval_ok lo hi.
Proof.
  unfold parseKeepalive, interval_ok. destruct (String.eqb _ _); [intros [= <- <-]; lia|].
  destruct (ParseU16Range v) as [r|] eqn:E; [|done]. apply ParseRange_range in E as [? ?].
  destruct (Z.eqb_spec (low r) (high r)); [intros [= <- <-]; lia|]. destruct (Z.eqb_spec (low r) 0); [done|]. intros [= <- <-]. lia.
Qed.

Lemma protection_key_canonical v k : protection_key v = Some k -> canonical_key k.
Proof.
  unfold canonical_key, protection_key. destruct (DecodeString v) as [l|] eqn:E; [|done]. cbn.
  destruct (length l =? 32)%nat eqn:El; [|done]. intros [= <-]. right. rewrite Decode_Encode; [cbn; by rewrite El|].
  by eapply DecodeString_bytes.
Qed.

Lemma param_ok_fields o o' : param_ok o -> Forall (fun n => 0 <= n < 2 ^ 16) (numbers o') -> Forall header_ok (headers o') ->
  Forall (range_ok 16) (timers o') -> Forall signature_ok (signatures o') -> canonical_key (ob_HeaderProtectionKey o') -> param_ok o'.
Proof. by split. Qed.

Ltac forall_cons := repeat match goal with
  | H : Forall _ (_ :: _) |- _ => apply Forall_cons in H as [? H]
  | H : Forall _ [] |- _ => clear H
  | |- Forall _ (_ :: _) => apply Forall_cons; split
  | |- Forall _ [] => apply Forall_nil_2
  end.

Ltac by_key key := match goal with |- context [String.eqb key ?s] => destruct (String.eqb key s) end.

Lemma set_number_ok key n o : 0 <= n < 2 ^ 16 -> param_ok o -> param_ok (set_number key n o).
Proof.
  intros Hn [H1 H2 H3 H4 H5]. unfold set_number. repeat by_key key; (split; [|done..]);
  unfold numbers in *; cbn in *; forall_cons; done.
Qed.

Lemma set_header_ok key r o : header_ok r -> param_ok o -> param_ok (set_header key r o).
Proof.
  intros Hn [H1 H2 H3 H4 H5]. unfold set_header. repeat by_key key; (split; [done| |done..]);
  unfold headers in *; cbn in *; forall_cons; done.
Qed.

Lemma set_signature_ok key v o : signature_ok v -> param_ok o -> param_ok (set_signature key v o).
Proof.
  intros Hn [H1 H2 H3 H4 H5]. unfold set_signature. repeat by_key key; (split; [done..| |done]);
  unfold signatures in *; cbn in *; forall_cons; done.
Qed.

Lemma set_timer_ok key r o : range_ok 16 r -> param_ok o -> param_ok (set_timer key r o).
Proof.
  intros Hn [H1 H2 H3 H4 H5]. unfold set_timer. repeat by_key key; (split; [done..| |done|done]);
  unfold timers in *; cbn in *; forall_cons; done.
Qed.

Lemma set_same_enabled key n r v o : ob_Enabled (set_number key n o) = ob_Enabled o /\ ob_Enabled (set_header key r o) = ob_Enabled o /\
  ob_Enabled (set_signature key v o) = ob_Enabled o /\ ob_Enabled (set_timer key r o) = ob_Enabled o.
Proof. unfold set_number, set_header, set_signature, set_timer. split_and!; by repeat by_key key. Qed.

Lemma profile_key_ok key v o o' : profile_key key v o = Some (Ok o') -> param_ok o ->
  param_ok o' /\ ob_Enabled o' = ob_Enabled o.
Proof.
  unfold profile_key. intros H Ho. destruct (member key numberKeys).
  { injection H as H. destruct (parse_uint 16 v) as [n|] eqn:E; [|done]. injection H as <-. apply parse_uint_range in E.
    split; [by apply set_number_ok|apply (set_same_enabled key n zero_range "")]. }
  destruct (member key headerKeys).
  { injection H as H. destruct (ParseU32Range v) as [r|] eqn:E; [|done]. apply ParseRange_range in E.
    destruct (Z.eqb_spec (low r) 0); [done|]. injection H as <-. split; [apply set_header_ok; [|done]|apply (set_same_enabled key 0 r "")].
    right. destruct E. split; [done|lia]. }
  destruct (member key signatureKeys).
  { injection H as H. destruct (validSignature v) eqn:E; [|done]. injection H as <-.
    split; [apply set_signature_ok; [by right|done]|apply (set_same_enabled key 0 zero_range v)]. }
  destruct (String.eqb key "headerprotectionkey").
  { injection H as H. destruct (protection_key v) as [k|] eqn:E; [|done]. injection H as <-. split; [|done].
    destruct Ho. split; [done..|]. by eapply protection_key_canonical. }
  destruct (member key timerKeys).
  { injection H as H. destruct (ParseU16Range v) as [r|] eqn:E; [|done]. apply ParseRange_range in E. injection H as <-.
    split; [by apply set_timer_ok|apply (set_same_enabled key 0 r "")]. }
  destruct (String.eqb key "randomtrailers").
  { injection H as H. destruct (parseFlag v); [|done]. injection H as <-. destruct Ho. done. }
  destruct (String.eqb key "disablecookies"); [|done].
  injection H as H. destruct (parseFlag v); [|done]. injection H as <-. destruct Ho. done.
Qed.

(** An IPv4 address of one host, or none yet. *)
Definition host_address (s : string) : Prop := exists a, valid_addr a /\ s = prefix_text (MkPrefix a 32).
Definition address6_ok (s : string) : Prop := s = "" \/ exists l, s = addr6_text l +:+ "/128".

(** What the lines read so far have stored. *)
Record parser_ok (p : configParser) : Prop := {
  pk_address : tc_Address (cp_Tunnel p) = "" \/ host_address (tc_Address (cp_Tunnel p));
  pk_address6 : address6_ok (tc_Address6 (cp_Tunnel p));
  pk_mtu : tc_MTU (cp_Tunnel p) = 0 \/ 576 <= tc_MTU (cp_Tunnel p) <= 1500;
  pk_keepalive : interval_ok (tc_Keepalive (cp_Tunnel p)) (tc_KeepaliveMax (cp_Tunnel p));
  pk_no_keepalive : "persistentkeepalive" ∉ cp_seen p -> tc_KeepaliveMax (cp_Tunnel p) = 0;
  pk_unchained : tc_Via (cp_Tunnel p) = "" /\ tc_IPv6Sites (cp_Tunnel p) = false;
  pk_public : "publickey" ∈ cp_seen p -> key_ok (tc_PeerPublicKey (cp_Tunnel p));
  pk_endpoint : "endpoint" ∈ cp_seen p -> validEndpoint (tc_Endpoint (cp_Tunnel p)) = Ok tt;
  pk_private : "privatekey" ∈ cp_seen p -> key_ok (sc_PrivateKey (cp_Secret p));
  pk_psk : sc_PresharedKey (cp_Secret p) = "" \/ key_ok (sc_PresharedKey (cp_Secret p));
  pk_no_warp : sc_WARPToken (cp_Secret p) = "" /\ sc_WARPLicense (cp_Secret p) = "";
  pk_ignored : NoDup (cp_Ignored p);
  pk_profile : param_ok (cp_obf p) /\ ob_Enabled (cp_obf p) = false
}.

Lemma new_parser_ok : parser_ok new_parser.
Proof.
  split; cbn; try done; try (by left); try (by intros ?%elem_of_nil); [unfold interval_ok; lia|].
  split; [|done]. split; unfold numbers, headers, timers, signatures; cbn; repeat apply Forall_cons_2; try apply Forall_nil_2; try lia;
    first [by left|unfold range_ok; cbn; lia].
Qed.

Lemma ignore_ok name p : parser_ok p -> parser_ok (ignore name p).
Proof.
  intros [H1 H2 H3 H4 H5 H6 H7 H8 H9 H10 H11 H12 H13]. unfold ignore. destruct (member name (cp_Ignored p)) eqn:E; [done|]. split; try done. cbn.
  apply NoDup_app. split_and!; [done| |apply NoDup_singleton]. intros x Hx ->%list_elem_of_singleton.
  apply member_iff in Hx. congruence.
Qed.

Lemma read_addresses_ok parts t t' : read_addresses parts t = Ok t' ->
  (tc_Address t = "" \/ host_address (tc_Address t)) -> address6_ok (tc_Address6 t) ->
  (tc_Address t' = "" \/ host_address (tc_Address t')) /\ address6_ok (tc_Address6 t') /\
  t' = t <| tc_Address := tc_Address t' |> <| tc_Address6 := tc_Address6 t' |>.
Proof.
  revert t. induction parts as [|part parts IH]; intros t; cbn [read_addresses]; [intros [= <-]; by destruct t|].
  destruct (String.eqb part ""); [apply IH|].
  set (parsed := match parse_prefix part with Some _ => _ | None => _ end).
  assert (forall a x, parsed = Some (V4 a, x) -> valid_addr a) as Hv.
  { intros a x. unfold parsed. destruct (parse_prefix part) as [[[ip tx] n]|] eqn:E.
    - intros [= -> ->]. unfold parse_prefix in E. destruct (str_cut_last "/" part) as [[ad bits]|]; [|done]. cbn [mbind option_bind] in E.
      destruct (parse_addr ad) as [ip|] eqn:Ea; [|done]. cbn [mbind option_bind] in E. destruct (negb _); [done|].
      destruct (parse_field _ bits); [|done]. injection E as -> -> ->. by eapply ParseAddr_valid, parse_addr_v4.
    - destruct (parse_addr part) as [ip|] eqn:Ea; [|done]. cbn. intros [= -> <-]. by eapply ParseAddr_valid, parse_addr_v4. }
  destruct parsed as [[[a|z] tx]|]; [| |done].
  - specialize (Hv a tx eq_refl). intros H Ha H6. destruct (String.eqb (tc_Address t) ""); [|by apply (IH t)].
    apply IH in H as (? & ? & Ht); [|right; by exists a|done]. split_and!; [done..|]. rewrite Ht. by destruct t.
  - intros H Ha H6. destruct (own_ipv6 tx) as [l|]; [|by apply (IH t)]. destruct (String.eqb (tc_Address6 t) ""); [|by apply (IH t)].
    apply IH in H as (? & ? & Ht); [|done|right; by exists l]. split_and!; [done..|]. rewrite Ht. by destruct t.
Qed.

(** A key that has been seen for the first time and stored nothing else. *)
Ltac seen_cases := repeat match goal with
  | |- _ ∈ _ :: _ -> _ => intros [|]%elem_of_cons
  | |- _ ∉ _ :: _ -> _ => intros [? ?]%not_elem_of_cons
  end.

Lemma interfaceKey_ok key value p p' : interfaceKey key value p = Ok p' -> parser_ok p -> parser_ok p'.
Proof.
  unfold interfaceKey. intros H Hp. destruct (assoc key _); [injection H as <-; by apply ignore_ok|]. destruct (_ && _); [done|].
  pose proof Hp as [H1 H2 H3 H4 H5 H6 H7 H8 H9 H10 H11 H12 H13]. revert H. cbv zeta.
  destruct (String.eqb_spec key "privatekey") as [->|Hn1].
  { destruct (is_ok (ValidatePrivateKey value)) eqn:E; [|done]. intros [= <-]. apply private_is_public in E.
    split; cbn; try done; seen_cases; auto; done. }
  destruct (String.eqb_spec key "address") as [->|Hn2].
  { intros (t & Ht & [= <-])%res_bind_ok. apply read_addresses_ok in Ht as (? & ? & ->); [|done..]. split; cbn; try done; seen_cases; auto; done. }
  destruct (String.eqb_spec key "mtu") as [->|Hn3].
  { destruct (parse_int64 value) as [n|]; [|done]. destruct (Z.ltb_spec n 576); [done|]. destruct (Z.ltb_spec 1500 n); [done|].
    intros [= <-]. split; cbn; try done; try (right; lia); seen_cases; auto; done. }
  destruct (profile_key key value _) as [[o|]|] eqn:E; [|done..]. intros [= <-]. cbn in E. pose proof E as Ek.
  apply profile_key_ok in E as [? He]; [|apply H13]. assert (key <> "publickey" /\ key <> "endpoint" /\ key <> "persistentkeepalive") as (? & ? & ?).
  { split_and!; intros ->; vm_compute in Ek; done. }
  split; cbn; try done; seen_cases; try congruence; auto. split; [done|]. rewrite He. apply H13.
Qed.

Lemma peerKey_ok key value p p' : peerKey key value p = Ok p' -> parser_ok p -> parser_ok p'.
Proof.
  unfold peerKey. intros H Hp. destruct (String.eqb key "allowedips"); [injection H as <-; by apply ignore_ok|].
  destruct (String.eqb key "advancedsecurity"); [injection H as <-; by apply ignore_ok|]. destruct (member _ _); [done|].
  pose proof Hp as [H1 H2 H3 H4 H5 H6 H7 H8 H9 H10 H11 H12 H13]. revert H. cbv zeta.
  destruct (String.eqb_spec key "publickey") as [->|Hn1].
  { destruct (is_ok (ValidatePublicKey value)) eqn:E; [|done]. intros [= <-]. apply public_ok in E.
    split; cbn; try done; seen_cases; auto; done. }
  destruct (String.eqb_spec key "presharedkey") as [->|Hn2].
  { destruct (is_ok (ValidatePrivateKey value)) eqn:E; [|done]. intros [= <-]. apply private_is_public in E.
    split; cbn; try done; seen_cases; auto; done. }
  destruct (String.eqb_spec key "endpoint") as [->|Hn3].
  { destruct (validEndpoint value) as [[]|] eqn:E; [|done]. intros [= <-]. split; cbn; try done; seen_cases; auto; done. }
  destruct (String.eqb_spec key "persistentkeepalive") as [->|Hn4]; [|done].
  destruct (parseKeepalive value) as [[lo hi]|] eqn:E; [|done]. intros [= <-]. apply parseKeepalive_ok in E.
  split; cbn; try done; seen_cases; auto; done.
Qed.

Lemma read_lines_ok lines section peers p n p' : read_lines lines section peers p = Ok (n, p') -> parser_ok p -> parser_ok p'.
Proof.
  revert section peers p. induction lines as [|raw lines IH]; intros section peers p; cbn [read_lines]; [by intros [= _ <-]|]. cbv zeta.
  destruct (_ || _); [apply IH|]. destruct (_ && _).
  { destruct (String.eqb _ "interface"); [apply IH|]. destruct (String.eqb _ "peer"); [|done]. destruct (_ <? _)%nat; [done|apply IH]. }
  destruct (str_cut "=" (config_line raw)) as [[key value] found]. destruct (negb found); [done|].
  intros (p1 & Hp1 & H)%res_bind_ok Hp. eapply IH; [done|]. destruct section; [done|by eapply interfaceKey_ok|by eapply peerKey_ok].
Qed.

(** ** Lemmas: the profile an import ends with *)

Definition in_header (v : Z) (r : Range) : Prop := low r <= v <= high r.

(** A profile the runtimes accept and can be told from plain WireGuard. *)
Record runtime_ok (o : Obfuscation) : Prop := {
  ro_params : param_ok o;
  ro_enabled : ob_Enabled o = true;
  ro_junk : ob_Jc o <= JcMax /\ (0 < ob_Jc o -> ob_Jmin o <= ob_Jmax o);
  ro_headers : Forall (fun r => range_ok 32 r /\ 0 < low r) (headers o);
  ro_disjoint : forall i j a b v, headers o !! i = Some a -> headers o !! j = Some b -> i <> j -> in_header v a -> ~ in_header v b;
  ro_protection : ob_HeaderProtectionKey o <> "" -> Forall (fun n => 12 <= n) [ob_S1 o; ob_S2 o; ob_S3 o; ob_S4 o];
  ro_visible : PlainEquivalent o = false
}.

Lemma Tunnel_same o : Tunnel o = o.
Proof. by destruct o. Qed.

Lemma overlaps_common a b v : in_header v a -> in_header v b -> Awgparam.Overlaps a b = true.
Proof. unfold in_header, Awgparam.Overlaps. intros ? ?. apply andb_true_intro. rewrite !Z.leb_le. lia. Qed.

Lemma pairwise_disjoint_spec hs i j a b v : pairwise_disjoint hs = true -> hs !! i = Some a -> hs !! j = Some b -> (i < j)%nat ->
  in_header v a -> ~ in_header v b.
Proof.
  revert i j. induction hs as [|h hs IH]; intros i j; [done|]. cbn [pairwise_disjoint]. intros [Hh%negb_true_iff Hr]%andb_prop.
  destruct i as [|i], j as [|j]; try lia.
  - intros [= ->] Hb _ Hva Hvb. assert (existsb (Awgparam.Overlaps a) hs = true) as He; [|congruence].
    apply existsb_exists. exists b. split; [|by eapply overlaps_common]. by apply list_elem_of_In, list_elem_of_lookup_2 with j.
  - cbn. intros Ha Hb Hij. apply (IH i j); [done..|lia].
Qed.

Lemma pairwise_distinct hs : pairwise_disjoint hs = true -> forall i j a b v, hs !! i = Some a -> hs !! j = Some b -> i <> j ->
  in_header v a -> ~ in_header v b.
Proof.
  intros Hp i j a b v Ha Hb Hij Hva Hvb. destruct (Nat.lt_total i j) as [|[|]]; [|done|].
  - by eapply (pairwise_disjoint_spec hs i j).
  - by eapply (pairwise_disjoint_spec hs j i).
Qed.

Lemma stock_defaults_ok i hs : 0 < i -> i + Z.of_nat (length hs) <= 2 ^ 32 -> Forall header_ok hs ->
  Forall (fun r => range_ok 32 r /\ 0 < low r) (stock_defaults i hs).
Proof.
  revert i. induction hs as [|h hs IH]; intros i Hi Hl Hf; cbn [stock_defaults]; [apply Forall_nil_2|].
  apply Forall_cons in Hf as [Hh Hf]. cbn [length] in Hl. apply Forall_cons; split; [|apply IH; [lia|lia|done]].
  unfold IsZero. destruct (Z.eqb_spec (low h) 0), (Z.eqb_spec (high h) 0); cbn [andb].
  1: unfold range_ok; cbn; lia.
  all: destruct Hh as [->|Hh]; [done|exact Hh].
Qed.

Lemma importedObfuscation_ok o o' : importedObfuscation o = Ok o' -> param_ok o -> o' = no_obf \/ runtime_ok o'.
Proof.
  unfold importedObfuscation. cbv zeta. intros H Ho. set (q := set_headers _ o) in *.
  assert (headers q = stock_defaults 1 (headers o)) as Eh by done.
  assert (Forall (fun r => range_ok 32 r /\ 0 < low r) (headers q)) as Hh.
  { rewrite Eh. apply stock_defaults_ok; [lia|cbn; lia|apply Ho]. }
  destruct (pairwise_disjoint (headers q)) eqn:Ed; [|done]. destruct (Z.ltb_spec JcMax (ob_Jc q)); [done|].
  destruct ((0 <? ob_Jc q) && _) eqn:Ej; [done|]. destruct (negb _ && _) eqn:Ep; [done|]. cbn [negb] in H.
  destruct (PlainEquivalent (Tunnel q)) eqn:Ev; [left; by injection H as <-|]. injection H as <-. right. rewrite Tunnel_same in Ev.
  split; [|done| |exact Hh| | |exact Ev].
  - destruct Ho. split; [done| |done..]. change (headers (q <| ob_Enabled := true |>)) with (headers q).
    eapply Forall_impl; [exact Hh|]. by right.
  - split; [done|]. cbn in Ej |- *. intros Hj. rewrite (proj2 (Z.ltb_lt _ _) Hj) in Ej. cbn in Ej. apply Z.ltb_ge in Ej. exact Ej.
  - exact (pairwise_distinct (headers q) Ed).
  - cbn in Ep |- *. intros Hk. apply String.eqb_neq in Hk. rewrite Hk in Ep. cbn in Ep. rewrite !orb_false_iff, !Z.ltb_ge in Ep.
    repeat apply Forall_cons_2; try apply Forall_nil_2; tauto.
Qed.

(** A tunnel the runtimes can be given. *)
Record tunnel_ok (t : TunnelConfig) : Prop := {
  tk_address : host_address (tc_Address t) /\ address6_ok (tc_Address6 t);
  tk_mtu : 576 <= tc_MTU t <= 1500;
  tk_peer : key_ok (tc_PeerPublicKey t) /\ validEndpoint (tc_Endpoint t) = Ok tt;
  tk_keepalive : interval_ok (tc_Keepalive t) (tc_KeepaliveMax t);
  tk_profile : tc_Obfuscation t = no_obf \/ runtime_ok (tc_Obfuscation t)
}.

Lemma imported_tunnel text c : ParseClientConfig text = Ok c ->
  let t := pc_Tunnel c in
  tunnel_ok t /\ tc_Via t = "" /\ tc_IPv6Sites t = false /\
  key_ok (sc_PrivateKey (pc_Secret c)) /\ (sc_PresharedKey (pc_Secret c) = "" \/ key_ok (sc_PresharedKey (pc_Secret c))) /\
  sc_WARPToken (pc_Secret c) = "" /\ sc_WARPLicense (pc_Secret c) = "" /\ NoDup (pc_Ignored c).
Proof.
  unfold ParseClientConfig. destruct (_ <? _)%nat; [done|]. cbv zeta. intros ([peers p] & Hr & H)%res_bind_ok.
  apply read_lines_ok in Hr as [H1 H2 H3 H4 H5 [H6 H6'] H7 H8 H9 H10 [H11 H11'] H12 [H13 H13']]; [|apply new_parser_ok].
  destruct (peers =? 0)%nat; [done|]. destruct (forallb _ requiredKeys) eqn:Ek; [|done]. cbn [negb] in H.
  cbn in Ek. rewrite !andb_true_iff, !member_iff in Ek. destruct Ek as (Ek1 & _ & Ek3 & Ek4 & _).
  destruct (String.eqb_spec (tc_Address (cp_Tunnel p)) ""); [done|].
  apply res_bind_ok in H as (o & Ho & [= <-]). apply importedObfuscation_ok in Ho; [|done]. cbn [pc_Tunnel pc_Secret pc_Ignored].
  set (t1 := if tc_MTU _ =? 0 then _ else _). set (t2 := if member _ _ then t1 else _).
  assert (tc_Address t2 = tc_Address (cp_Tunnel p) /\ tc_Address6 t2 = tc_Address6 (cp_Tunnel p) /\ 576 <= tc_MTU t2 <= 1500 /\
    tc_PeerPublicKey t2 = tc_PeerPublicKey (cp_Tunnel p) /\ tc_Endpoint t2 = tc_Endpoint (cp_Tunnel p) /\
    interval_ok (tc_Keepalive t2) (tc_KeepaliveMax t2) /\ tc_Via t2 = "" /\ tc_IPv6Sites t2 = false) as (E1 & E2 & E3 & E4 & E5 & E6 & E7 & E8).
  { assert (576 <= tc_MTU t1 <= 1500) as Hm.
    { unfold t1. destruct (Z.eqb_spec (tc_MTU (cp_Tunnel p)) 0); [by cbn|]. destruct H3; [done|lia]. }
    unfold t2. destruct (member "persistentkeepalive" (cp_seen p)) eqn:Em.
    - split_and!; try lia; unfold t1; by destruct (tc_MTU _ =? 0).
    - assert (tc_KeepaliveMax t1 = 0) as Hx.
      { unfold t1. destruct (tc_MTU _ =? 0); cbn; apply H5; intros Hin%member_iff; congruence. }
      split_and!; try (cbn; lia); try (unfold t1; by destruct (tc_MTU _ =? 0)). cbn. rewrite Hx. unfold interval_ok. lia. }
  cbn. split_and!; try done; auto. constructor; cbn; rewrite ?E1, ?E2, ?E4, ?E5; try done; try lia; split; auto. by destruct H1.
Qed.

(** ** Properties *)


Definition w_line (key value : string) : string := key +:+ " = " +:+ value +:+ String (char_of 10) "".
Definition w_zero_key : string := EncodeToString (List.repeat 0 32).
Definition w_text : string :=
  "[Interface]" +:+ String (char_of 10) "" +:+ w_line "PrivateKey" w_zero_key +:+ w_line "Address" "172.16.0.2/32, 2606:4700::2/128"
  +:+ w_line "DNS" "1.1.1.1" +:+ w_line "Jc" "4" +:+ w_line "H1" "5-9" +:+ w_line "I1" "<b 0xff> <t>"
  +:+ "[ Peer ]" +:+ String (char_of 10) "" +:+ w_line "PublicKey" w_zero_key +:+ w_line "Endpoint" "engage.cloudflareclient.com:2408 # port".
Definition w_config : ParsedConfig := Eval vm_compute in
  match ParseClientConfig w_text with Ok c => c | Err _ => MkParsed no_tunnel no_secret [] end.

