(* ===== verification/Iface.v ===== *)
(** * Interface profiles (internal/iface)

    The stored profiles of the node: creation with its uniqueness and overlap
    checks in one write transaction, automatic ports, names and pools, partial
    updates, the enabled switch, deletion, and the deletion that first takes
    the link down through a reconcile pass. *)
From stdpp Require Import base tactics strings gmap list fin_maps sets sorting.
From Stdlib Require Import ZArith Lia Ascii.
From Stdlib Require String.
From S2P Require Import Prelude GoTime Domain Awgparam Store Ipam NetText Crypto Tunnel Profile Secrets Sealing.

Open Scope Z_scope.

(** ** Data *)

Record Interface := MkInterface {
  if_ID : string;
  if_Name : string;
  if_ListenPort : Z;
  if_Subnet : string;
  if_Pools : list string;
  if_MTU : Z;
  if_PublicKey : string;
  if_PrivKeyEnc : string;
  if_Obfuscation : Obfuscation;
  if_Preset : string;
  if_Enabled : bool;
  if_BackendMode : BackendMode;
  if_EndpointOverride : string;
  if_CreatedAt : Z;
  if_UpdatedAt : Z;
  if_automaticPool : bool;
  if_blockedRoutes : list Prefix
}.

#[export] Instance eta_Interface : Eta Interface := fun i =>
  MkInterface (if_ID i) (if_Name i) (if_ListenPort i) (if_Subnet i) (if_Pools i) (if_MTU i)
    (if_PublicKey i) (if_PrivKeyEnc i) (if_Obfuscation i) (if_Preset i) (if_Enabled i)
    (if_BackendMode i) (if_EndpointOverride i) (if_CreatedAt i) (if_UpdatedAt i)
    (if_automaticPool i) (if_blockedRoutes i).

(** The pools are absent, or a list that may be empty. *)
Record CreateInput := MkCreateInput {
  ci_Name : string;
  ci_ListenPort : Z;
  ci_Subnet : string;
  ci_Pools : option (list string);
  ci_MTU : Z;
  ci_Obfuscation : Obfuscation;
  ci_Preset : string;
  ci_GeneratedProfile : bool;
  ci_BackendMode : BackendMode;
  ci_EndpointOverride : string
}.

#[export] Instance eta_CreateInput : Eta CreateInput := fun c =>
  MkCreateInput (ci_Name c) (ci_ListenPort c) (ci_Subnet c) (ci_Pools c) (ci_MTU c)
    (ci_Obfuscation c) (ci_Preset c) (ci_GeneratedProfile c) (ci_BackendMode c) (ci_EndpointOverride c).

Record UpdateInput := MkUpdateInput {
  ui_Pools : option (list string);
  ui_MTU : option Z;
  ui_Enabled : option bool;
  ui_EndpointOverride : option string;
  ui_Obfuscation : option Obfuscation;
  ui_Preset : option string;
  ui_GeneratedProfile : bool
}.

(** The runtime-settings registry, as this package uses it. *)
Class Settings := {
  GetInt : string -> result err Z;
  GetString : string -> result err string;
  ValidEndpoint : string -> result err unit
}.

(** The host's answers: whether the userspace daemon can start, and the routes
    a pool must not cover; a service may have neither. *)
Class Host := {
  userspaceReady : option (result err unit);
  hostRoutes : option (string -> result err (list Prefix))
}.

(** ** Names *)

(** The submatch of [^awg([0-9]{1,3})$], as a number. *)
Definition name_index (name : string) : option Z :=
  match strip_prefix "awg" name with
  | Some digits =>
      if decimalDigits digits && (String.length digits <=? 3)%nat then undec_go digits 0 else None
  | None => None
  end.

Definition ValidName (name : string) : bool :=
  match name_index name with Some _ => true | None => false end.

(** ** Rows *)

Definition scanIface (row : Iface) : result err Interface :=
  obf ← scan_obf (i_Obf row);
  pools ← Decode (i_Subnet row) (i_ExtraPools row);
  Ok (MkInterface (i_ID row) (i_Name row) (i_ListenPort row) (i_Subnet row) pools (i_MTU row)
        (i_PublicKey row) (i_PrivKeyEnc row) obf (i_Preset row) (i_Enabled row) (i_BackendMode row)
        (default "" (i_EndpointOverride row)) (i_CreatedAt row) (i_UpdatedAt row) false []).

(** The inserted row; [Extras] of the pools is the tail as a JSON list. *)
Definition iface_row (ifc : Interface) : Iface :=
  MkIface (if_ID ifc) (if_Name ifc) (if_ListenPort ifc) (if_Subnet ifc) (Some (tail (if_Pools ifc)))
    (if_MTU ifc) (if_PublicKey ifc) (if_PrivKeyEnc ifc) (obf_columns (if_Obfuscation ifc))
    (if_Preset ifc) (if_Enabled ifc) (if_BackendMode ifc) (text_or_null (if_EndpointOverride ifc))
    (if_CreatedAt ifc) (if_UpdatedAt ifc).

Definition put_iface (row : Iface) (s : store) : store := s <| ifaces ::= <[i_ID row := row]> |>.

Definition iface_rows (s : store) : list Iface := (map_to_list (ifaces s)).*2.

(** [ORDER BY name]. *)
Definition row_name_le (a b : Iface) : Prop := String.leb (i_Name a) (i_Name b) = true.
#[export] Instance row_name_le_dec a b : Decision (row_name_le a b) :=
  decide (String.leb (i_Name a) (i_Name b) = true).
Definition rows_by_name (s : store) : list Iface := merge_sort row_name_le (iface_rows s).

(** A scan stopped by the first row that does not decode. *)
Fixpoint scan_rows {A} (scan : Iface -> result err A) (rows : list Iface) : result err (list A) :=
  match rows with
  | [] => Ok []
  | row :: rows => a ← scan row; l ← scan_rows scan rows; Ok (a :: l)
  end.

Definition List_ (s : store) : result err (list Interface) := scan_rows scanIface (rows_by_name s).

Definition get_row (p : Iface -> bool) (s : store) : result err Interface :=
  match List.find p (iface_rows s) with
  | None => Err (E CodeInterfaceNotFound)
  | Some row => scanIface row
  end.

Definition Get (id : string) (s : store) : result err Interface :=
  get_row (fun row => String.eqb (i_ID row) id) s.
Definition GetByName (name : string) (s : store) : result err Interface :=
  get_row (fun row => String.eqb (i_Name row) name) s.

(** ** Pools *)

(** [MustParsePrefix]: a text that does not parse panics. *)
Definition must_parse (pool : string) : result err Prefix :=
  match ParsePrefix pool with Some p => Ok p | None => Err (Plain "netip.ParsePrefix panic") end.

Definition checkHostPool (pool : string) (routes : list Prefix) : result err unit :=
  p ← must_parse pool;
  if existsb (Ipam.Overlaps p) routes then Err (E CodeSubnetOverlap) else Ok tt.

Fixpoint overlaps_any (p : Prefix) (pools : list string) : result err bool :=
  match pools with
  | [] => Ok false
  | pool :: pools => q ← must_parse pool; if Ipam.Overlaps p q then Ok true else overlaps_any p pools
  end.

Fixpoint check_rows (p : Prefix) (rows : list Iface) : result err unit :=
  match rows with
  | [] => Ok tt
  | row :: rows =>
      pools ← Decode (i_Subnet row) (i_ExtraPools row);
      clash ← overlaps_any p pools;
      if clash : bool then Err (E CodeSubnetOverlap) else check_rows p rows
  end.

Definition checkOverlaps (excludeID subnet : string) (s : store) : result err unit :=
  prefix ← must_parse subnet;
  check_rows prefix (filter (fun row => i_ID row <> excludeID) (iface_rows s)).

Definition checkAutomaticPool (ifc : Interface) (pool : string) (s : store) : result err unit :=
  _ ← checkHostPool pool (if_blockedRoutes ifc); checkOverlaps (if_ID ifc) pool s.

Definition ladder_pool (n : Z) : string := "10.8." +:+ dec n +:+ ".0/24".

(** The /24 ladder from [n]; [more] networks remain. *)
Fixpoint ladder (more : nat) (n : Z) (ifc : Interface) (s : store) : result err Interface :=
  match more with
  | O => Err (E CodeSubnetOverlap)
  | S more =>
      let pool := ladder_pool n in
      match checkAutomaticPool ifc pool s with
      | Ok _ => Ok (ifc <| if_Subnet := pool |> <| if_Pools := [pool] |>)
      | Err e => if decide (CodeOf e = CodeSubnetOverlap) then ladder more (n + 1) ifc s else Err e
      end
  end.

Definition selectAutomaticPool (ifc : Interface) (s : store) : result err Interface :=
  match checkAutomaticPool ifc (if_Subnet ifc) s with
  | Ok _ => Ok ifc
  | Err e => if decide (CodeOf e = CodeSubnetOverlap) then ladder 256 0 ifc s else Err e
  end.

Fixpoint check_pools (ifc : Interface) (pools : list string) (s : store) : result err unit :=
  match pools with
  | [] => Ok tt
  | pool :: pools =>
      _ ← checkHostPool pool (if_blockedRoutes ifc);
      _ ← checkOverlaps (if_ID ifc) pool s;
      check_pools ifc pools s
  end.

Definition validatePoolSize (p : Prefix) : result err unit :=
  if MinUsefulPoolBits <? pf_bits p then Err (E CodeSubnetInvalid) else Ok tt.

(** [Capacity]: the pools of an interface with their registered addresses. *)
Record PoolUsage := MkUsage { pu_CIDR : string; pu_Capacity : Z; pu_Used : Z; pu_Free : Z }.

#[export] Instance eta_PoolUsage : Eta PoolUsage := fun u =>
  MkUsage (pu_CIDR u) (pu_Capacity u) (pu_Used u) (pu_Free u).

(** The address counts in the first pool that contains it. *)
Fixpoint count_address (a : Z) (out : list PoolUsage) : result err (list PoolUsage) :=
  match out with
  | [] => Ok []
  | u :: out =>
      p ← must_parse (pu_CIDR u);
      if Contains p a then Ok ((u <| pu_Used ::= fun n => u64 (n + 1) |>) :: out)
      else out ← count_address a out; Ok (u :: out)
  end.

Fixpoint count_addresses (raws : list string) (out : list PoolUsage) : result err (list PoolUsage) :=
  match raws with
  | [] => Ok out
  | raw :: raws =>
      match ParsePrefix raw with
      | None => Err (E CodeSubnetInvalid)
      | Some p => out ← count_address (pf_addr p) out; count_addresses raws out
      end
  end.

Definition free_of (u : PoolUsage) : PoolUsage :=
  if pu_Used u <=? pu_Capacity u then u <| pu_Free := pu_Capacity u - pu_Used u |> else u.

Fixpoint empty_usage (pools : list string) : result err (list PoolUsage) :=
  match pools with
  | [] => Ok []
  | pool :: pools =>
      p ← must_parse pool; out ← empty_usage pools; Ok (MkUsage pool (Capacity p) 0 0 :: out)
  end.

Definition iface_devices (id : string) (s : store) : list Device :=
  filter (fun d => d_InterfaceID d = id) (map_to_list (devices s)).*2.

Definition PoolCapacity (id : string) (s : store) : result err (list PoolUsage) :=
  i ← Get id s;
  out ← empty_usage (if_Pools i);
  out ← count_addresses (List.map d_IPv4 (iface_devices id s)) out;
  Ok (List.map free_of out).

(** ** The service *)

Definition validatePort (p : Z) : result err unit :=
  if outside 1024 65535 p then Err (E CodeInvalidRequest) else Ok tt.

(** The scan of the window from a start that depends on the instant. *)
Fixpoint scan_ports (fuel : nat) (min span start i : Z) (used : list Z) : result err Z :=
  match fuel with
  | O => Err (E CodePortInUse)
  | S fuel =>
      let p := min + Z.rem (start + i) span in
      if existsb (Z.eqb p) used then scan_ports fuel min span start (i + 1) used else Ok p
  end.

Section Service.
Context `{Settings} `{Host} `{A : AEAD, R : Random, X : X25519} `{P : ProfileEntropy} `{Entropy}.
Context (ring : KeyRing).

Definition defaultPool (n : Z) : string :=
  match (if n =? 0 then GetString "network.default_pool" else Ok "") with
  | Ok pool => if String.eqb pool "" then ladder_pool n else pool
  | Err _ => ladder_pool n
  end.

Definition allocatePort (s : store) : result err Z :=
  min ← GetInt "network.port_min";
  max ← GetInt "network.port_max";
  _ ← ValidatePortRange min max;
  let span := max - min + 1 in
  scan_ports (Z.to_nat span) min span (Z.rem (clock s) span) 0 (i_ListenPort <$> iface_rows s).

(** The first free name below the cap; [make] panics on a negative length. *)
Fixpoint first_free (fuel : nat) (n : Z) (taken : list Z) : option Z :=
  match fuel with
  | O => None
  | S fuel => if existsb (Z.eqb n) taken then first_free fuel (n + 1) taken else Some n
  end.

Definition NextAvailableName (s : store) : result err string :=
  maxCount ← GetInt "interfaces.max_count";
  if maxCount <? 0 then Err (Plain "makeslice panic")
  else match first_free (Z.to_nat maxCount) 0 (omap (fun row => name_index (i_Name row)) (iface_rows s)) with
       | Some n => Ok ("awg" +:+ dec n)
       | None => Err (E CodeInvalidRequest)
       end.

(** The classification and the parameters of a creation. *)
Definition resolveCreateProfile (c : CreateInput) : gen CreateInput :=
  let trimmed := trim_space (ci_Preset c) in
  let policy := if String.eqb trimmed ""
                then if decide (ci_Obfuscation c = no_obf) then ProfilePlain else ProfileCustom
                else policy_of trimmed in
  o ← match policy with
      | ProfilePlain =>
          if decide (ci_Obfuscation c = no_obf) then tx_ret (ci_Obfuscation c) else tx_fail constraint
      | ProfileCustom =>
          if ci_GeneratedProfile c then tx_fail constraint
          else if decide (ci_Obfuscation c = no_obf) then tx_fail constraint
          else _ ← tx_lift (ValidateObfuscation (ci_Obfuscation c)); tx_ret (ci_Obfuscation c)
      | ProfileOther _ => tx_fail constraint
      | _ =>
          if ci_GeneratedProfile c
          then _ ← tx_lift (ValidateGeneratedProfile policy (ci_Obfuscation c)); tx_ret (ci_Obfuscation c)
          else if decide (ci_Obfuscation c = no_obf) then Generate policy else tx_fail constraint
      end;
  _ ← tx_lift (ValidateObfuscation o);
  tx_ret (c <| ci_Obfuscation := o |> <| ci_Preset := policy_text policy |>).

(** A generation step on the store's entropy. *)
Definition with_entropy {T} (m : gen T) : Tx T := fun s =>
  '(x, n) ← m (entropy_pos s); Ok (x, s <| entropy_pos := n |>).

(** The network, port and size checks before anything is minted. *)
Definition create_mtu (c : CreateInput) : result err Z :=
  mtu ← (if ci_MTU c =? 0
         then if decide (policy_of (trim_space (ci_Preset c)) = ProfileSuggested)
              then Ok SuggestedMTU else GetInt "network.mtu"
         else Ok (ci_MTU c));
  if outside 576 65535 mtu then Err (E CodeInvalidRequest) else Ok mtu.

Definition create_pools (c : CreateInput) (n : Z) : result err (list string) :=
  if bool_decide (ci_Pools c = Some []) then Err (E CodeSubnetInvalid)
  else
    let given := default [] (ci_Pools c) in
    if negb (String.eqb (ci_Subnet c) "") && negb (bool_decide (given = [])) then Err (E CodeInvalidRequest)
    else
      let subnet := match given with pool :: _ => pool | [] => ci_Subnet c end in
      let subnet := if String.eqb subnet "" then defaultPool n else subnet in
      match ValidSubnet subnet with
      | Err _ => Err (E CodeSubnetInvalid)
      | Ok _ =>
          prefix ← must_parse subnet;
          _ ← validatePoolSize prefix;
          let pools := match given with [] => [subnet] | _ => given end in
          _ ← Validate pools; Ok pools
      end.

(** [Create] up to the write transaction: the profile to insert. *)
Definition Create_read (c : CreateInput) : Tx Interface :=
  n ← tx_lift (match name_index (ci_Name c) with Some n => Ok n | None => Err (E CodeInvalidRequest) end);
  maxCount ← tx_lift (GetInt "interfaces.max_count");
  _ ← tx_guard (maxCount <=? n) (E CodeInvalidRequest);
  let mode := if String.eqb (mode_text (ci_BackendMode c)) "" then BackendKernel else ci_BackendMode c in
  _ ← tx_guard (negb (BackendMode_Valid mode)) (E CodeInvalidRequest);
  _ ← tx_guard (bool_decide (mode = BackendUserspace)
                && match userspaceReady with Some (Err _) => true | _ => false end) (E CodeInvalidRequest);
  port ← (if ci_ListenPort c =? 0 then (fun s => p ← allocatePort s; Ok (p, s))
          else _ ← tx_lift (validatePort (ci_ListenPort c)); tx_ret (ci_ListenPort c));
  pools ← tx_lift (create_pools c n);
  mtu ← tx_lift (create_mtu c);
  _ ← tx_guard (negb (is_ok (ValidEndpoint (ci_EndpointOverride c)))) (E CodeInvalidRequest);
  c' ← with_entropy (resolveCreateProfile c);
  raw ← draw_tx 32;
  let kp := GenerateKeyPair raw in
  privEnc ← ring_Encrypt ring (kp_Private kp);
  id ← new_id;
  now ← now_;
  routes ← tx_lift (match hostRoutes with Some f => f (ci_Name c) | None => Ok [] end);
  tx_ret (MkInterface id (ci_Name c) port (default "" (head pools)) pools mtu (kp_Public kp) privEnc
            (ci_Obfuscation c') (ci_Preset c') true mode (trim_space (ci_EndpointOverride c)) now now
            (String.eqb (ci_Subnet c) "" && bool_decide (default [] (ci_Pools c) = [])) routes).

(** The checks and the insert, inside one transaction; the primary key, the
    name and the port are unique columns, the mode a checked one. *)
Definition insertWithChecks (ifc : Interface) : Tx Interface := fun s =>
  if existsb (fun row => String.eqb (i_Name row) (if_Name ifc)) (iface_rows s) then Err (E CodeInterfaceNameTaken)
  else if existsb (fun row => i_ListenPort row =? if_ListenPort ifc) (iface_rows s) then Err (E CodePortInUse)
  else
    ifc ← (if if_automaticPool ifc then selectAutomaticPool ifc s else Ok ifc);
    _ ← check_pools ifc (if_Pools ifc) s;
    if bool_decide (is_Some (ifaces s !! if_ID ifc)) then Err (E CodeInterfaceNameTaken)
    else if negb (BackendMode_Valid (if_BackendMode ifc)) then Err (Plain "iface: insert")
    else Ok (ifc, put_iface (iface_row ifc) s).

Definition Create (c : CreateInput) (s : store) : result err Interface * store :=
  match Create_read c s with
  | Ok (ifc, s) => WithTx (insertWithChecks ifc) s
  | Err e => (Err e, s)
  end.

Definition SetEnabled (id : string) (enabled : bool) (s : store) : result err unit * store :=
  match ifaces s !! id with
  | None => (Err (E CodeInterfaceNotFound), s)
  | Some row => (Ok tt, put_iface (row <| i_Enabled := enabled |> <| i_UpdatedAt := clock s |>) s)
  end.

Definition classifySubmittedProfile (profile : Obfuscation) (requested : option string) (generated : bool)
    : result err string :=
  match requested with
  | None =>
      if generated then Err constraint
      else _ ← ValidateObfuscation profile;
           Ok (policy_text (if decide (profile = no_obf) then ProfilePlain else ProfileCustom))
  | Some text =>
      let policy := policy_of (trim_space text) in
      _ ← match policy with
          | ProfilePlain => if generated || negb (bool_decide (profile = no_obf)) then Err constraint else Ok tt
          | ProfileCustom =>
              if generated || bool_decide (profile = no_obf) then Err constraint else ValidateObfuscation profile
          | ProfileOther _ => Err constraint
          | _ => if negb generated then Err constraint else ValidateGeneratedProfile policy profile
          end;
      Ok (policy_text policy)
  end.

(** [Update] up to the write transaction: the loaded profile with the fields
    of the request set. *)
Definition Update_read (id : string) (u : UpdateInput) (s : store) : result err Interface :=
  ifc ← Get id s;
  routes ← match ui_Pools u, hostRoutes with Some _, Some f => f (if_Name ifc) | _, _ => Ok [] end;
  let ifc := ifc <| if_blockedRoutes := routes |> in
  ifc ← match ui_MTU u with
        | Some mtu => if outside 576 65535 mtu then Err (E CodeInvalidRequest) else Ok (ifc <| if_MTU := mtu |>)
        | None => Ok ifc
        end;
  let ifc := match ui_Enabled u with Some b => ifc <| if_Enabled := b |> | None => ifc end in
  ifc ← match ui_EndpointOverride u with
        | Some e => if is_ok (ValidEndpoint e) then Ok (ifc <| if_EndpointOverride := e |>)
                    else Err (E CodeInvalidRequest)
        | None => Ok ifc
        end;
  ifc ← match ui_Obfuscation u with
        | Some o => preset ← classifySubmittedProfile o (ui_Preset u) (ui_GeneratedProfile u);
                    Ok (ifc <| if_Obfuscation := o |> <| if_Preset := preset |>)
        | None => if ui_GeneratedProfile u || bool_decide (is_Some (ui_Preset u)) then Err constraint else Ok ifc
        end;
  Ok (ifc <| if_UpdatedAt := clock s |>).

(** A removed pool may hold no registered device, whatever its state. *)
Fixpoint holds_device (removed : list Prefix) (raws : list string) : result err unit :=
  match raws with
  | [] => Ok tt
  | raw :: raws =>
      match ParsePrefix raw with
      | None => Err (Plain "netip.ParsePrefix")
      | Some a => if existsb (fun p => Contains p (pf_addr a)) removed then Err (E CodeSubnetOverlap)
                  else holds_device removed raws
      end
  end.

Fixpoint removed_pools (pools old : list string) : result err (list Prefix) :=
  match old with
  | [] => Ok []
  | pool :: old =>
      rest ← removed_pools pools old;
      if existsb (String.eqb pool) pools then Ok rest else p ← must_parse pool; Ok (p :: rest)
  end.

Definition updatePoolsTx (ifc : Interface) (pools : list string) : Tx unit := fun s =>
  _ ← Validate pools;
  match ifaces s !! if_ID ifc with
  | None => Err (Plain "sql: no rows")
  | Some row =>
      if negb (bool_decide (head pools = Some (i_Subnet row))) then Err (E CodeSubnetInvalid)
      else
        old ← Decode (i_Subnet row) (i_ExtraPools row);
        _ ← check_pools ifc pools s;
        removed ← removed_pools pools old;
        _ ← (match removed with
             | [] => Ok tt
             | _ => holds_device removed (d_IPv4 <$> iface_devices (if_ID ifc) s)
             end);
        Ok (tt, put_iface (row <| i_ExtraPools := Some (tail pools) |>) s)
  end.

(** The columns an update writes; without a row it writes nothing. *)
Definition write_profile (ifc : Interface) (row : Iface) : Iface :=
  row <| i_MTU := if_MTU ifc |> <| i_Enabled := if_Enabled ifc |>
      <| i_EndpointOverride := text_or_null (if_EndpointOverride ifc) |>
      <| i_Obf := obf_columns (if_Obfuscation ifc) |> <| i_Preset := if_Preset ifc |>
      <| i_UpdatedAt := if_UpdatedAt ifc |>.

Definition Update_commit (ifc : Interface) (pools : option (list string)) : Tx Interface := fun s =>
  '(_, s) ← match pools with Some pools => updatePoolsTx ifc pools s | None => Ok (tt, s) end;
  Ok (ifc <| if_Pools := default (if_Pools ifc) pools |>,
      s <| ifaces ::= alter (write_profile ifc) (if_ID ifc) |>).

Definition Update (id : string) (u : UpdateInput) (s : store) : result err Interface * store :=
  match Update_read id u s with
  | Ok ifc => WithTx (Update_commit ifc (ui_Pools u)) s
  | Err e => (Err e, s)
  end.

Definition ensureNoDevices (id : string) (s : store) : result err unit :=
  if bool_decide (iface_devices id s = []) then Ok tt else Err (E CodeInvalidRequest).

(** [DELETE FROM tunnel_interfaces]: a device's reference refuses it, those of
    templates and accounts become NULL, the retired keys go with the row. *)
Definition delete_row (id : string) (s : store) : result err unit * store :=
  match ifaces s !! id with
  | None => (Err (E CodeInterfaceNotFound), s)
  | Some _ =>
      if negb (bool_decide (iface_devices id s = [])) then (Err (Plain "iface: delete"), s)
      else
        let unset o := if bool_decide (o = Some id) then None else o in
        (Ok tt, s <| ifaces ::= delete id |>
                  <| templates ::= fmap (fun p => p <| p_InterfaceID ::= unset |>) |>
                  <| users ::= fmap (fun u => u <| u_InterfaceID ::= unset |>) |>
                  <| retired_peer_keys ::= filter (fun r => r.1 <> id) |>)
  end.

Definition Delete (id : string) (s : store) : result err unit * store :=
  match ensureNoDevices id s with Ok _ => delete_row id s | Err e => (Err e, s) end.
End Service.

(** ** Deletion with the link taken down first

    [DeleteReconciled] runs over the database and a runtime; the callback is a
    reconcile pass over both. *)

Section Teardown.
Context {R : Type}.

Definition on_db {T} (f : store -> result err T * store) : act (store * R) err T := fun w =>
  let '(x, s) := f w.1 in (x, (s, w.2)).

Definition rollback (ifc : Interface) (reconcile : option (act (store * R) err unit)) (cause : err)
    : act (store * R) err unit :=
  if negb (if_Enabled ifc) then act_fail cause
  else
    restored ← act_try (on_db (SetEnabled (if_ID ifc) true));
    _ ← match restored, reconcile with
        | Ok _, Some run => act_try run
        | _, _ => mret (Ok tt)
        end;
    act_fail cause.

Definition DeleteReconciled (id : string) (reconcile : option (act (store * R) err unit))
    : act (store * R) err unit :=
  ifc ← on_db (fun s => (Get id s, s));
  _ ← on_db (fun s => (ensureNoDevices id s, s));
  _ ← act_when (if_Enabled ifc) (on_db (SetEnabled id false));
  down ← match reconcile with Some run => act_try run | None => mret (Ok tt) end;
  match down with
  | Err e => rollback ifc reconcile e
  | Ok _ =>
      gone ← act_try (on_db (Delete id));
      match gone with Err e => rollback ifc reconcile e | Ok _ => mret tt end
  end.
End Teardown.

(** ** The invariant *)

(** The networks of a row. *)
Definition pool_of (row : Iface) (p : Prefix) : Prop :=
  exists pools c, Decode (i_Subnet row) (i_ExtraPools row) = Ok pools /\ c ∈ pools /\ Parse c = Ok p.

(** A row that reads back as a usable profile. *)
Definition row_ok (row : Iface) : Prop :=
  1024 <= i_ListenPort row <= 65535 /\ 576 <= i_MTU row <= 65535 /\
  BackendMode_Valid (i_BackendMode row) = true /\
  (exists o, scan_obf (i_Obf row) = Ok o /\ ValidateObfuscation o = Ok tt /\ profile_wf o) /\
  (exists pools, Decode (i_Subnet row) (i_ExtraPools row) = Ok pools).

(** Two profiles share no name, no port and no address. *)
Definition apart (r1 r2 : Iface) : Prop :=
  i_Name r1 <> i_Name r2 /\ i_ListenPort r1 <> i_ListenPort r2 /\
  forall p q, pool_of r1 p -> pool_of r2 q -> Ipam.Overlaps p q = false.

Definition ifaces_wf (s : store) : Prop :=
  map_Forall (fun k row => i_ID row = k /\ row_ok row) (ifaces s) /\
  forall k1 k2 r1 r2, ifaces s !! k1 = Some r1 -> ifaces s !! k2 = Some r2 -> k1 <> k2 -> apart r1 r2.

(** ** Lemmas: overlap *)

Lemma Overlaps_sym p q : Ipam.Overlaps p q = Ipam.Overlaps q p.
Proof. unfold Ipam.Overlaps. rewrite Z.min_comm. cbv zeta. destruct (_ =? 0); [done|]. apply Z.eqb_sym. Qed.

Lemma apart_sym r1 r2 : apart r1 r2 -> apart r2 r1.
Proof. intros (H1 & H2 & H3). split_and!; [auto..|]. intros p q Hp Hq. rewrite Overlaps_sym. auto. Qed.

Lemma must_parse_Parse c p : Parse c = Ok p -> must_parse c = Ok p.
Proof. intros (H & _)%Parse_ok. unfold must_parse. by rewrite H. Qed.

Lemma Validate_parses pools : Validate pools = Ok tt -> Forall (fun c => exists p, Parse c = Ok p) pools.
Proof.
  unfold Validate. destruct (_ || _); [done|]. intros (ps & H & _)%validate_go_ok.
  clear -H. induction H; eauto.
Qed.

Lemma Decode_ok primary extras pools : Decode primary extras = Ok pools ->
  exists l, extras = Some l /\ pools = primary :: l /\ Validate pools = Ok tt.
Proof.
  unfold Decode. destruct extras as [l|]; [|done].
  destruct (Validate (primary :: l)) as [[]|] eqn:E; [|done]. intros [= <-]. eauto.
Qed.

Lemma overlaps_any_false p pools q c : overlaps_any p pools = Ok false -> c ∈ pools -> Parse c = Ok q ->
  Ipam.Overlaps p q = false.
Proof.
  induction pools as [|x pools IH]; intros H Hc Hq; [by apply elem_of_nil in Hc|]. cbn [overlaps_any] in H.
  destruct (must_parse x) as [y|] eqn:Ex; [|discriminate]. cbn [mbind result_bind rbind] in H.
  destruct (Ipam.Overlaps p y) eqn:E; [discriminate|].
  apply elem_of_cons in Hc as [->|Hc]; [|by apply IH].
  apply must_parse_Parse in Hq. congruence.
Qed.

Lemma check_rows_ok p rows : check_rows p rows = Ok tt ->
  forall row q, row ∈ rows -> pool_of row q -> Ipam.Overlaps p q = false.
Proof.
  induction rows as [|r rows IH]; intros H row q Hrow Hq; [by apply elem_of_nil in Hrow|].
  cbn [check_rows] in H. destruct (Decode _ _) as [pools|] eqn:Ed; [|discriminate].
  cbn [mbind result_bind rbind] in H. destruct (overlaps_any p pools) as [[]|] eqn:Eo; try discriminate.
  apply elem_of_cons in Hrow as [->|Hrow]; [|by eapply IH].
  destruct Hq as (pools' & c & Hd & Hc & Hp). rewrite Ed in Hd. injection Hd as <-.
  by eapply overlaps_any_false.
Qed.

Lemma elem_of_iface_rows s row : ifaces_wf s -> row ∈ iface_rows s <-> ifaces s !! i_ID row = Some row.
Proof.
  intros [Hk _]. unfold iface_rows. rewrite elem_of_values. split.
  - intros [k Hr]. destruct (Hk k row Hr) as [<- _]. done.
  - eauto.
Qed.

(** A pool that passed the checks is disjoint from every other interface's. *)
Lemma check_pools_ok ifc pools s : check_pools ifc pools s = Ok tt -> ifaces_wf s ->
  forall c p row q, c ∈ pools -> Parse c = Ok p -> ifaces s !! i_ID row = Some row ->
    i_ID row <> if_ID ifc -> pool_of row q -> Ipam.Overlaps p q = false.
Proof.
  induction pools as [|x pools IH]; intros H Hwf c p row q Hc Hp Hrow Hid Hq; [by apply elem_of_nil in Hc|].
  cbn [check_pools] in H.
  destruct (checkHostPool _ _) as [[]|]; [|discriminate]. cbn [mbind result_bind rbind] in H.
  destruct (checkOverlaps (if_ID ifc) x s) as [[]|] eqn:Ec; [|discriminate]. cbn in H.
  apply elem_of_cons in Hc as [->|Hc]; [|by eapply IH].
  unfold checkOverlaps in Ec. rewrite (must_parse_Parse _ _ Hp) in Ec. cbn in Ec.
  eapply check_rows_ok; [exact Ec| |exact Hq].
  apply list_elem_of_filter. split; [done|]. by apply elem_of_iface_rows.
Qed.

(** ** Lemmas: the invariant *)

Lemma ifaces_wf_eq s s' : ifaces s' = ifaces s -> ifaces_wf s -> ifaces_wf s'.
Proof. unfold ifaces_wf. by intros ->. Qed.

Lemma ifaces_wf_put row s : ifaces_wf s -> row_ok row ->
  (forall r, ifaces s !! i_ID r = Some r -> i_ID r <> i_ID row -> apart row r) ->
  ifaces_wf (put_iface row s).
Proof.
  intros [Hk Hd] Hok Hap. unfold put_iface. split; cbn.
  - apply map_Forall_insert_2; [done|]. exact Hk.
  - assert (forall k r, ifaces s !! k = Some r -> k <> i_ID row -> apart row r) as Hap'.
    { intros k r Hr Hne. destruct (Hk k r Hr) as [<- _]. by apply Hap. }
    intros k1 k2 r1 r2.
    destruct (decide (k1 = i_ID row)) as [->|H1], (decide (k2 = i_ID row)) as [->|H2].
    + done.
    + rewrite lookup_insert_eq, lookup_insert_ne by done. intros [= <-] Hr _. by eapply Hap'.
    + rewrite lookup_insert_eq, lookup_insert_ne by done. intros Hr [= <-] _. eapply apart_sym, Hap'; eauto.
    + rewrite !lookup_insert_ne by done. apply Hd.
Qed.

(** A row rewritten in place keeps its name, its port and its networks. *)
Lemma ifaces_wf_update row row' s : ifaces_wf s -> ifaces s !! i_ID row = Some row ->
  i_ID row' = i_ID row -> i_Name row' = i_Name row -> i_ListenPort row' = i_ListenPort row ->
  i_Subnet row' = i_Subnet row -> i_ExtraPools row' = i_ExtraPools row -> row_ok row' ->
  ifaces_wf (put_iface row' s).
Proof.
  intros Hwf Hrow E1 E2 E3 E4 E5 Hok. apply ifaces_wf_put; [done..|]. intros r Hr Hne.
  destruct Hwf as [_ Hd]. rewrite E1 in Hne.
  specialize (Hd (i_ID row) (i_ID r) row r Hrow Hr ltac:(congruence)).
  destruct Hd as (H1 & H2 & H3). split_and!; [congruence..|]. intros p q Hp Hq. apply H3; [|done].
  unfold pool_of in *. by rewrite <-E4, <-E5.
Qed.

Lemma get_row_ok p s ifc : get_row p s = Ok ifc -> ifaces_wf s ->
  exists row, p row = true /\ ifaces s !! i_ID row = Some row /\ scanIface row = Ok ifc.
Proof.
  unfold get_row. destruct (List.find p (iface_rows s)) as [row|] eqn:E; [|done]. intros Hs Hwf.
  apply List.find_some in E as [Hin Hp]. exists row. split_and!; [done| |done].
  by apply elem_of_iface_rows; [|apply list_elem_of_In].
Qed.

Lemma Get_row id s ifc : Get id s = Ok ifc -> ifaces_wf s ->
  exists row, ifaces s !! id = Some row /\ scanIface row = Ok ifc.
Proof.
  intros Hg Hwf. eapply get_row_ok in Hg as (row & <-%String.eqb_eq & Hrow & Hs); eauto.
Qed.

Lemma scanIface_ok row ifc : scanIface row = Ok ifc ->
  scan_obf (i_Obf row) = Ok (if_Obfuscation ifc) /\
  Decode (i_Subnet row) (i_ExtraPools row) = Ok (if_Pools ifc) /\
  if_ID ifc = i_ID row /\ if_Name ifc = i_Name row /\ if_ListenPort ifc = i_ListenPort row /\
  if_Subnet ifc = i_Subnet row /\ if_MTU ifc = i_MTU row /\ if_BackendMode ifc = i_BackendMode row /\
  if_PrivKeyEnc ifc = i_PrivKeyEnc row /\ if_Enabled ifc = i_Enabled row.
Proof.
  unfold scanIface. destruct (scan_obf _) as [o|]; [|done]. destruct (Decode _ _) as [pools|]; [|done].
  intros [= <-]. cbn. done.
Qed.

Lemma scan_row_ok row ifc : row_ok row -> scanIface row = Ok ifc ->
  ValidateObfuscation (if_Obfuscation ifc) = Ok tt /\ profile_wf (if_Obfuscation ifc) /\
  1024 <= if_ListenPort ifc <= 65535 /\ 576 <= if_MTU ifc <= 65535 /\
  Validate (if_Pools ifc) = Ok tt /\ BackendMode_Valid (if_BackendMode ifc) = true.
Proof.
  intros (H1 & H2 & H3 & (o & Ho & Hv & Hw) & pools & Hd) (S1 & S2 & _ & _ & S5 & _ & S7 & S8 & _)%scanIface_ok.
  rewrite Ho in S1. injection S1 as <-. rewrite S5, S7, S8. split_and!; try done; try lia.
  by apply Decode_ok in S2 as (_ & _ & _ & ?).
Qed.

(** A profile fit for a row: what [Create] and [Update] hand to the database. *)
Definition profile_ok (ifc : Interface) : Prop :=
  1024 <= if_ListenPort ifc <= 65535 /\ 576 <= if_MTU ifc <= 65535 /\
  BackendMode_Valid (if_BackendMode ifc) = true /\
  ValidateObfuscation (if_Obfuscation ifc) = Ok tt /\ profile_wf (if_Obfuscation ifc) /\
  Validate (if_Pools ifc) = Ok tt /\ head (if_Pools ifc) = Some (if_Subnet ifc).

Lemma Decode_stored ifc : Validate (if_Pools ifc) = Ok tt -> head (if_Pools ifc) = Some (if_Subnet ifc) ->
  Decode (if_Subnet ifc) (Some (tail (if_Pools ifc))) = Ok (if_Pools ifc).
Proof.
  destruct (if_Pools ifc) as [|p l]; [done|]. intros Hv [= ->]. unfold Decode. cbn [tail]. by rewrite Hv.
Qed.

Lemma iface_row_ok ifc : profile_ok ifc -> row_ok (iface_row ifc).
Proof.
  intros (H1 & H2 & H3 & H4 & H5 & H6 & H7). unfold row_ok, iface_row. cbn. split_and!; try done; try lia.
  - exists (if_Obfuscation ifc). split_and!; [by apply stored_profile_round_trip|done..].
  - eexists. by apply Decode_stored.
Qed.

(** The pool the ladder settles on: the profile with another network. *)
Lemma ladder_ok more n ifc s ifc' : ladder more n ifc s = Ok ifc' ->
  exists k, n <= k < n + Z.of_nat more /\ ifc' = ifc <| if_Subnet := ladder_pool k |> <| if_Pools := [ladder_pool k] |>.
Proof.
  revert n. induction more as [|more IH]; intros n; cbn [ladder]; [done|]. cbv zeta.
  destruct (checkAutomaticPool _ _ _) as [[]|e].
  - intros [= <-]. exists n. split; [lia|done].
  - destruct (decide _); [|done]. intros (k & Hk & ->)%IH. exists k. split; [lia|done].
Qed.

Lemma ladder_pool_valid k : 0 <= k < 256 -> Validate [ladder_pool k] = Ok tt.
Proof.
  assert (Z_upto 256 0 (fun k => match Validate [ladder_pool k] with Ok _ => true | _ => false end) = true) as H
    by by vm_compute.
  intros Hk. pose proof (Z_upto_spec _ _ _ H k ltac:(lia)) as Hp. cbn beta in Hp.
  by destruct (Validate _) as [[]|].
Qed.

Lemma selectAutomaticPool_ok ifc s ifc' : selectAutomaticPool ifc s = Ok ifc' -> profile_ok ifc ->
  profile_ok ifc' /\ if_ID ifc' = if_ID ifc /\ if_Name ifc' = if_Name ifc /\ if_ListenPort ifc' = if_ListenPort ifc /\
  if_BackendMode ifc' = if_BackendMode ifc.
Proof.
  unfold selectAutomaticPool. destruct (checkAutomaticPool _ _ _) as [[]|e]; [by intros [= <-]|].
  destruct (decide _); [|done]. intros (k & Hk & ->)%ladder_ok (H1 & H2 & H3 & H4 & H5 & H6 & H7).
  split; [|done]. unfold profile_ok. cbn. split_and!; try done; try lia. apply ladder_pool_valid. lia.
Qed.

Lemma insertWithChecks_ok ifc s ifc' s' : insertWithChecks ifc s = Ok (ifc', s') -> profile_ok ifc ->
  profile_ok ifc' /\ s' = put_iface (iface_row ifc') s /\ ifaces s !! if_ID ifc' = None /\
  (forall row, row ∈ iface_rows s -> i_Name row <> if_Name ifc' /\ i_ListenPort row <> if_ListenPort ifc') /\
  check_pools ifc' (if_Pools ifc') s = Ok tt.
Proof.
  unfold insertWithChecks. intros H Hok.
  destruct (existsb _ (iface_rows s)) eqn:En; [discriminate|].
  destruct (existsb (fun row => i_ListenPort row =? _) (iface_rows s)) eqn:Ep; [discriminate|].
  assert (forall row, row ∈ iface_rows s -> i_Name row <> if_Name ifc /\ i_ListenPort row <> if_ListenPort ifc) as Hfree.
  { intros row Hrow%list_elem_of_In. split; intros Heq.
    - apply not_true_iff_false in En. apply En, existsb_exists. exists row. by rewrite Heq, String.eqb_refl.
    - apply not_true_iff_false in Ep. apply Ep, existsb_exists. exists row. by rewrite Heq, Z.eqb_refl. }
  destruct (if if_automaticPool ifc then selectAutomaticPool ifc s else Ok ifc) as [i|] eqn:Ea; [|discriminate].
  cbn [mbind result_bind rbind] in H.
  destruct (check_pools i (if_Pools i) s) as [[]|] eqn:Ec; [|discriminate]. cbn in H.
  destruct (bool_decide _) eqn:Ei; [discriminate|]. destruct (negb _); [discriminate|]. injection H as <- <-.
  assert (profile_ok i /\ if_ID i = if_ID ifc /\ if_Name i = if_Name ifc /\ if_ListenPort i = if_ListenPort ifc)
    as (Hoki & E1 & E2 & E3).
  { destruct (if_automaticPool ifc); [|by injection Ea as <-].
    destruct (selectAutomaticPool_ok _ _ _ Ea Hok) as (? & ? & ? & ? & ?). done. }
  rewrite E2, E3. split_and!; try done.
  apply bool_decide_eq_false in Ei. by apply eq_None_not_Some.
Qed.

Lemma insertWithChecks_wf ifc s ifc' s' : insertWithChecks ifc s = Ok (ifc', s') -> profile_ok ifc ->
  ifaces_wf s -> ifaces_wf s'.
Proof.
  intros H Hok Hwf. destruct (insertWithChecks_ok _ _ _ _ H Hok) as (Hok' & -> & Hnew & Hfree & Hc).
  apply ifaces_wf_put; [done|by apply iface_row_ok|]. intros r Hr Hne. cbn [iface_row i_ID] in Hne.
  destruct (Hfree r) as [Hn Hp]; [by apply elem_of_iface_rows|].
  split_and!; cbn [iface_row i_Name i_ListenPort]; [congruence..|].
  intros p q (pools & c & Hd & Hin & Hp') Hq. cbn [iface_row i_Subnet i_ExtraPools] in Hd.
  destruct Hok' as (_ & _ & _ & _ & _ & Hv & Hh). rewrite Decode_stored in Hd by done. injection Hd as <-.
  eapply check_pools_ok; eauto.
Qed.

Section Profiles.
Context `{S : Settings} `{H : Host} `{A : AEAD, R : Random, X : X25519} `{P : ProfileEntropy, !ProfileEntropyLaws P}
  `{N : Entropy}.
Context (ring : KeyRing).

Lemma scan_ports_range fuel min max start i used p : scan_ports fuel min (max - min + 1) start i used = Ok p ->
  min <= max -> 0 <= start -> 0 <= i -> min <= p <= max.
Proof.
  revert i. induction fuel as [|fuel IH]; intros i; cbn [scan_ports]; [done|]. cbv zeta.
  destruct (existsb _ used); [intros Hp ???; eapply IH; eauto; lia|]. intros [= <-] ???.
  pose proof (Z.rem_bound_pos (start + i) (max - min + 1)). lia.
Qed.

Lemma allocatePort_range s p : allocatePort s = Ok p -> 0 <= clock s -> 1024 <= p <= 65535.
Proof.
  unfold allocatePort. destruct (GetInt "network.port_min") as [min|]; [|done].
  destruct (GetInt "network.port_max") as [max|]; [|done]. cbn [mbind result_bind rbind].
  unfold ValidatePortRange. destruct (_ || _) eqn:Eo; [done|]. destruct (Z.ltb_spec max min); [done|].
  apply orb_false_iff in Eo as [H1%outside_spec H2%outside_spec]. cbn [rbind]. intros Hp Hc.
  apply scan_ports_range in Hp; [lia|lia| |lia]. apply Z.rem_bound_pos; lia.
Qed.

Lemma Generate_wf p n o n' : Generate p n = Ok (o, n') -> profile_wf o.
Proof.
  intros Hg. destruct (IsGeneratedProfilePolicy p) eqn:Ep.
  - pose proof (Generate_never_rejected p n Ep) as Hr. rewrite Hg in Hr. apply Hr.
  - destruct p; try discriminate. injection Hg as <- _.
    split; repeat (apply Forall_cons; split; [vm_compute; intuition discriminate|]); constructor.
Qed.

Lemma resolveCreateProfile_ok c n c' n' : resolveCreateProfile c n = Ok (c', n') -> profile_wf (ci_Obfuscation c) ->
  ValidateObfuscation (ci_Obfuscation c') = Ok tt /\ profile_wf (ci_Obfuscation c').
Proof.
  unfold resolveCreateProfile. intros Hr Hwf.
  apply tx_bind_ok in Hr as (o & n1 & Ho & Hr). apply tx_bind_ok in Hr as ([] & n2 & Hv & Hr).
  injection Hr as <- _. cbn [ci_Obfuscation upd_field].
  assert (ValidateObfuscation o = Ok tt) as Hvo.
  { unfold tx_lift in Hv. by destruct (ValidateObfuscation o) as [[]|]. }
  split; [exact Hvo|].
  assert (forall (m : gen unit) t, (_ ← m; tx_ret (ci_Obfuscation c)) n = Ok (o, t) -> o = ci_Obfuscation c) as Hkeep.
  { intros m t Hm. apply tx_bind_ok in Hm as (? & ? & _ & Hm). by injection Hm as <- _. }
  destruct (if String.eqb _ "" then _ else _) eqn:Epol;
    repeat match type of Ho with
    | (if ?b then _ else _) _ = _ => destruct b; try discriminate
    end;
    first [ discriminate Ho | apply Hkeep in Ho; by subst o
          | exact (Generate_wf _ _ _ _ Ho)
          | injection Ho as <- _; exact Hwf ].
Qed.

Lemma create_pools_ok c n pools : create_pools c n = Ok pools ->
  Validate pools = Ok tt /\ exists p, head pools = Some p.
Proof.
  unfold create_pools. destruct (bool_decide _); [done|]. destruct (_ && _); [done|].
  destruct (ValidSubnet _) as [[]|]; [|done].
  destruct (must_parse _) as [q|]; [|done]. cbn [mbind result_bind rbind].
  destruct (validatePoolSize q) as [[]|]; [|done]. cbn [rbind].
  destruct (Validate _) as [[]|] eqn:Ev; [|done]. cbn [rbind]. intros [= <-]. split; [done|].
  destruct (default [] (ci_Pools c)); cbn; eauto.
Qed.

Lemma tx_lift_ok {St T} (r : result err T) (s : St) x s' : tx_lift r s = Ok (x, s') -> r = Ok x /\ s' = s.
Proof. unfold tx_lift. destruct r; [by intros [= <- <-]|done]. Qed.

Lemma with_entropy_ok {T} (m : gen T) s x s' : with_entropy m s = Ok (x, s') ->
  (exists n, m (entropy_pos s) = Ok (x, n)) /\ outbox_only s s'.
Proof.
  unfold with_entropy. destruct (m (entropy_pos s)) as [[y n]|] eqn:E; [|done]. intros [= <- <-].
  split; [eauto|]. exists (webhook_events s), (webhook_deliveries s), n. by destruct s.
Qed.

(** One statement of a body whose state only feeds the next one. *)
Ltac step_as x H Hx := apply tx_bind_ok in H as (x & ? & Hx & H).
Ltac lift_as x H Hx := step_as x H Hx; apply tx_lift_ok in Hx as [Hx ->].
Ltac guard_as H Hx := let x := fresh in step_as x H Hx; apply tx_guard_ok in Hx as [Hx ->].

(** Everything [Create] hands to its transaction is fit for a row, and before
    it nothing but the entropy moved. *)
Lemma Create_read_ok c s ifc s' : Create_read ring c s = Ok (ifc, s') -> profile_wf (ci_Obfuscation c) ->
  0 <= clock s -> profile_ok ifc /\ outbox_only s s'.
Proof.
  unfold Create_read. intros Hr Hwf Hc.
  lift_as n Hr Hn. lift_as maxCount Hr Hm. guard_as Hr Hcap. cbv zeta in Hr. guard_as Hr Hmode. guard_as Hr Hus.
  step_as port Hr Hport.
  assert (1024 <= port <= 65535 /\ x = s) as [Hp ->].
  { destruct (ci_ListenPort c =? 0).
    - destruct (allocatePort s) as [q|] eqn:Eq; [|discriminate]. injection Hport as <- <-.
      split; [by apply (allocatePort_range s)|done].
    - step_as u Hport Hu. apply tx_lift_ok in Hu as [Hu ->]. injection Hport as <- <-. split; [|done].
      unfold validatePort in Hu. destruct (outside _ _ _) eqn:Eo; [done|]. by apply outside_spec. }
  lift_as pools Hr Hpools. lift_as mtu Hr Hmtu. guard_as Hr Hend.
  step_as c' Hr Hres. apply with_entropy_ok in Hres as [[k Hres] Ho1].
  apply resolveCreateProfile_ok in Hres as [Hv Hw]; [|done].
  step_as raw Hr Hraw. apply draw_tx_outbox in Hraw.
  step_as priv Hr Hpriv. apply ring_Encrypt_ok in Hpriv as [_ Hpriv].
  step_as fresh_id Hr Hid. apply new_id_outbox in Hid.
  step_as now Hr Hnow. injection Hnow as <- <-. lift_as routes Hr Hroutes.
  injection Hr as <- <-. split; [|by repeat (etransitivity; [eassumption|])].
  apply create_pools_ok in Hpools as [Hval [p Hhead]].
  unfold profile_ok. cbn [if_ListenPort if_MTU if_BackendMode if_Obfuscation if_Pools if_Subnet].
  split_and!; try done; try lia.
  - unfold create_mtu in Hmtu. destruct (if ci_MTU c =? 0 then _ else _) as [m|]; [|done].
    cbn in Hmtu. destruct (outside _ _ _) eqn:Eo; [done|]. injection Hmtu as <-. apply outside_spec in Eo. lia.
  - unfold create_mtu in Hmtu. destruct (if ci_MTU c =? 0 then _ else _) as [m|]; [|done].
    cbn in Hmtu. destruct (outside _ _ _) eqn:Eo; [done|]. injection Hmtu as <-. apply outside_spec in Eo. lia.
  - by apply negb_false_iff in Hmode.
  - by rewrite Hhead.
Qed.
End Profiles.

(** ** Lemmas: updates *)

Lemma alter_lookup {V} (f : V -> V) (k : string) (x : V) (m : gmap string V) :
  m !! k = Some x -> alter f k m = <[k := f x]> m.
Proof.
  intros Hk. apply map_eq. intros j. destruct (decide (j = k)) as [->|Hj].
  - by rewrite lookup_alter_eq, lookup_insert_eq, Hk.
  - by rewrite lookup_alter_ne, lookup_insert_ne.
Qed.

Lemma alter_absent {V} (f : V -> V) (k : string) (m : gmap string V) : m !! k = None -> alter f k m = m.
Proof.
  intros Hk. apply map_eq. intros j. destruct (decide (j = k)) as [->|Hj].
  - by rewrite lookup_alter_eq, Hk.
  - by rewrite lookup_alter_ne.
Qed.

(** The parameters of a request are within the widths of their types. *)
Definition typed_update (u : UpdateInput) : Prop :=
  match ui_Obfuscation u with Some o => profile_wf o | None => True end.

Definition update_fit (ifc : Interface) : Prop :=
  576 <= if_MTU ifc <= 65535 /\ ValidateObfuscation (if_Obfuscation ifc) = Ok tt /\ profile_wf (if_Obfuscation ifc).

Lemma ValidateGeneratedProfile_valid p o : ValidateGeneratedProfile p o = Ok tt -> ValidateObfuscation o = Ok tt.
Proof. unfold ValidateGeneratedProfile. by destruct (ValidateObfuscation o) as [[]|]. Qed.

Lemma classify_valid o requested generated preset :
  classifySubmittedProfile o requested generated = Ok preset -> ValidateObfuscation o = Ok tt.
Proof.
  unfold classifySubmittedProfile. destruct requested as [text|].
  - cbv zeta. generalize (policy_of (trim_space text)) as p. intros p H.
    match type of H with mbind _ ?m = _ => destruct m as [[]|] eqn:Em; [clear H|discriminate H] end.
    assert (forall b : bool, (if b then Err constraint else Ok tt) = Ok tt -> b = false) as Hg by by intros [].
    destruct p; try discriminate Em;
      try (destruct (negb generated); [discriminate Em|exact (ValidateGeneratedProfile_valid _ _ Em)]).
    + apply Hg, orb_false_iff in Em as [_ Em%negb_false_iff%bool_decide_eq_true]. by subst.
    + destruct (_ || _); [discriminate Em|exact Em].
  - destruct generated; [done|]. by destruct (ValidateObfuscation o) as [[]|].
Qed.

Section Updates.
Context `{S : Settings} `{H : Host}.

Lemma profile_Update_read_ok id u s ifc : Update_read id u s = Ok ifc -> ifaces_wf s -> typed_update u ->
  if_ID ifc = id /\ update_fit ifc.
Proof.
  unfold Update_read, typed_update, update_fit. intros Hr Hwf Hty.
  res_step Hr as i Eg.
  destruct (Get_row _ _ _ Eg Hwf) as (row & Hrow & Hscan).
  destruct Hwf as [Hk _]. destruct (Hk _ _ Hrow) as [Hid Hok].
  destruct (scan_row_ok _ _ Hok Hscan) as (V1 & V2 & V3 & V4 & V5 & V6).
  apply scanIface_ok in Hscan as (_ & _ & Eid & _). rewrite Hid in Eid.
  res_step Hr as routes _. cbv zeta in Hr. res_step Hr as i1 E1. res_step Hr as i2 E2. res_step Hr as i3 E3.
  injection Hr as <-.
  cbn [if_ID if_MTU if_Obfuscation upd_field].
  assert (if_ID i1 = id /\ if_Obfuscation i1 = if_Obfuscation i /\ 576 <= if_MTU i1 <= 65535) as (A1 & A2 & A3).
  { destruct (ui_MTU u) as [mtu|]; [destruct (outside _ _ _) eqn:Eo; [done|]|]; injection E1 as <-; [|done].
    apply outside_spec in Eo. done. }
  assert (if_ID i2 = id /\ if_Obfuscation i2 = if_Obfuscation i /\ 576 <= if_MTU i2 <= 65535) as (B1 & B2 & B3).
  { destruct (ui_EndpointOverride u) as [e|]; [destruct (is_ok _); [|done]|]; injection E2 as <-;
      by destruct (ui_Enabled u). }
  destruct (ui_Obfuscation u) as [o|].
  - destruct (classifySubmittedProfile o _ _) as [preset|] eqn:Ec; [|discriminate]. injection E3 as <-.
    cbn. apply classify_valid in Ec. done.
  - destruct (_ || _); [discriminate|]. injection E3 as <-. by rewrite B2.
Qed.

Lemma updatePoolsTx_ok ifc pools s s' : updatePoolsTx ifc pools s = Ok (tt, s') ->
  exists row old removed, ifaces s !! if_ID ifc = Some row /\ Validate pools = Ok tt /\
    head pools = Some (i_Subnet row) /\ Decode (i_Subnet row) (i_ExtraPools row) = Ok old /\
    check_pools ifc pools s = Ok tt /\ removed_pools pools old = Ok removed /\
    (removed <> [] -> holds_device removed (d_IPv4 <$> iface_devices (if_ID ifc) s) = Ok tt) /\
    s' = put_iface (row <| i_ExtraPools := Some (tail pools) |>) s.
Proof.
  unfold updatePoolsTx. intros Hu. res_step Hu as [] Ev.
  destruct (ifaces s !! if_ID ifc) as [row|]; [|discriminate].
  destruct (negb _) eqn:Eh; [discriminate|]. apply negb_false_iff, bool_decide_eq_true in Eh.
  res_step Hu as old Ed. res_step Hu as [] Ec. res_step Hu as removed Er. res_step Hu as [] Eh'.
  injection Hu as <-. exists row, old, removed. split_and!; try done.
  intros Hne. by destruct removed.
Qed.
End Updates.

Lemma iface_lookup k s row : ifaces_wf s -> ifaces s !! k = Some row -> i_ID row = k /\ row_ok row.
Proof. intros [Hk _]. apply Hk. Qed.

Lemma write_profile_ok ifc row : update_fit ifc -> row_ok row -> row_ok (write_profile ifc row).
Proof.
  intros (H1 & H2 & H3) (R1 & R2 & R3 & R4 & R5). unfold row_ok, write_profile. cbn. split_and!; try done; try lia.
  exists (if_Obfuscation ifc). split_and!; [by apply stored_profile_round_trip|done..].
Qed.

Lemma write_profile_wf ifc s : update_fit ifc -> ifaces_wf s ->
  ifaces_wf (s <| ifaces ::= alter (write_profile ifc) (if_ID ifc) |>).
Proof.
  intros Hfit Hwf. destruct (ifaces s !! if_ID ifc) as [row|] eqn:Hrow.
  - destruct (iface_lookup _ _ _ Hwf Hrow) as [Hid Hok].
    assert (s <| ifaces ::= alter (write_profile ifc) (if_ID ifc) |> = put_iface (write_profile ifc row) s) as ->.
    { unfold put_iface, upd_field. f_equal. rewrite (alter_lookup _ _ _ _ Hrow). cbn. by rewrite Hid. }
    rewrite <-Hid in Hrow. by apply (ifaces_wf_update row); try done; apply write_profile_ok.
  - eapply ifaces_wf_eq; [|exact Hwf]. cbn. by apply alter_absent.
Qed.

Lemma updatePoolsTx_wf ifc pools s s' : updatePoolsTx ifc pools s = Ok (tt, s') -> ifaces_wf s -> ifaces_wf s'.
Proof.
  intros (row & old & removed & Hrow & Hv & Hh & _ & Hc & _ & _ & ->)%updatePoolsTx_ok Hwf.
  destruct (iface_lookup _ _ _ Hwf Hrow) as [Hid Hok].
  assert (Decode (i_Subnet row) (Some (tail pools)) = Ok pools) as Hdec.
  { destruct pools as [|p l]; [done|]. injection Hh as ->. unfold Decode. cbn [tail]. by rewrite Hv. }
  apply ifaces_wf_put; [done| |].
  - destruct Hok as (R1 & R2 & R3 & R4 & _). unfold row_ok. cbn. split_and!; try done; try lia; eauto.
  - intros r Hr Hne. cbn in Hne. rewrite <-Hid in Hrow. destruct Hwf as [Hk Hd].
    destruct (Hd (i_ID row) (i_ID r) row r Hrow Hr ltac:(congruence)) as (A1 & A2 & _).
    split_and!; [done..|]. intros p q (pools' & c & Hd' & Hc' & Hp) Hq.
    cbn [i_Subnet i_ExtraPools upd_field] in Hd'. rewrite Hdec in Hd'. injection Hd' as <-.
    eapply check_pools_ok; eauto; [by split|]. congruence.
Qed.

Lemma Update_commit_ok ifc pools s x s' : Update_commit ifc pools s = Ok (x, s') ->
  exists s1, (pools = None /\ s1 = s \/ exists l, pools = Some l /\ updatePoolsTx ifc l s = Ok (tt, s1)) /\
    s' = s1 <| ifaces ::= alter (write_profile ifc) (if_ID ifc) |>.
Proof.
  unfold Update_commit. intros H. destruct pools as [l|].
  - destruct (updatePoolsTx ifc l s) as [[[] s1]|] eqn:E; [|discriminate]. injection H as _ <-.
    exists s1. split; [right; eauto|done].
  - injection H as _ <-. exists s. split; [by left|done].
Qed.

Lemma profile_Update_commit_wf ifc pools s x s' : Update_commit ifc pools s = Ok (x, s') -> update_fit ifc ->
  ifaces_wf s -> ifaces_wf s'.
Proof.
  intros (s1 & Hs1 & ->)%Update_commit_ok Hfit Hwf. apply write_profile_wf; [done|].
  destruct Hs1 as [[_ ->]|(l & _ & Hu)]; [done|]. by eapply updatePoolsTx_wf.
Qed.

Lemma profile_SetEnabled_wf id b s : ifaces_wf s -> ifaces_wf (SetEnabled id b s).2.
Proof.
  intros Hwf. unfold SetEnabled. destruct (ifaces s !! id) as [row|] eqn:Hrow; [|done]. cbn [snd].
  destruct (iface_lookup _ _ _ Hwf Hrow) as [Hid Hok]. rewrite <-Hid in Hrow.
  by apply (ifaces_wf_update row).
Qed.

Lemma Delete_ok id s : (Delete id s).2 = s \/
  ifaces (Delete id s).2 = delete id (ifaces s) /\ devices (Delete id s).2 = devices s /\
  iface_devices id s = [] /\ is_Some (ifaces s !! id).
Proof.
  unfold Delete, ensureNoDevices. destruct (bool_decide (iface_devices id s = [])) eqn:E; [|by left].
  apply bool_decide_eq_true in E. unfold delete_row.
  destruct (ifaces s !! id) as [row|]; [|by left]. rewrite bool_decide_eq_true_2 by done. cbn. right. eauto.
Qed.

Lemma Delete_wf id s : ifaces_wf s -> ifaces_wf (Delete id s).2.
Proof.
  intros Hwf. destruct (Delete_ok id s) as [->|(E & _)]; [done|]. unfold ifaces_wf. rewrite E.
  destruct Hwf as [Hk Hd]. split; [by apply map_Forall_delete|].
  intros k1 k2 r1 r2 H1%lookup_delete_Some H2%lookup_delete_Some. eapply Hd; [apply H1|apply H2].
Qed.

(** ** Addresses stay inside the pools *)

(** The address of a device lies in a network of its interface. *)
Definition pooled (s : store) (d : Device) : Prop :=
  exists row p a, ifaces s !! d_InterfaceID d = Some row /\ pool_of row p /\
    ParsePrefix (d_IPv4 d) = Some a /\ Contains p (pf_addr a) = true.

Definition devices_pooled (s : store) : Prop := map_Forall (fun _ => pooled s) (devices s).

Lemma devices_pooled_rows s s' : devices s' = devices s -> devices_pooled s ->
  (forall d row, d ∈ iface_devices (i_ID row) s -> ifaces s !! d_InterfaceID d = Some row -> pooled s d -> pooled s' d) ->
  ifaces_wf s -> devices_pooled s'.
Proof.
  intros E Hp Hf Hwf. unfold devices_pooled. rewrite E. intros k d Hd.
  pose proof (Hp k d Hd) as Hpd. destruct (Hpd) as (row & p & a & Hrow & _).
  apply (Hf d row); [|done..]. destruct (iface_lookup _ _ _ Hwf Hrow) as [Hid _].
  apply list_elem_of_filter. rewrite Hid. split; [done|]. apply elem_of_values. eauto.
Qed.

(** A row replaced by one with the same networks. *)
Lemma pooled_put row row' s d : ifaces s !! i_ID row = Some row -> i_ID row' = i_ID row ->
  i_Subnet row' = i_Subnet row -> i_ExtraPools row' = i_ExtraPools row -> pooled s d -> pooled (put_iface row' s) d.
Proof.
  intros Hrow E1 E2 E3 (r & p & a & Hr & Hp & Ha & Hc). unfold pooled, put_iface. cbn. rewrite E1.
  destruct (decide (d_InterfaceID d = i_ID row)) as [E|Hne].
  - rewrite E, lookup_insert_eq. exists row', p, a. split_and!; try done.
    rewrite E, Hrow in Hr. injection Hr as <-. unfold pool_of in *. by rewrite E2, E3.
  - rewrite lookup_insert_ne by done. by exists r, p, a.
Qed.

Lemma pooled_insert row s d : ifaces s !! i_ID row = None -> pooled s d -> pooled (put_iface row s) d.
Proof.
  intros Hn (r & p & a & Hr & Hrest). exists r, p, a. split; [|done]. unfold put_iface. cbn.
  rewrite lookup_insert_ne; [done|]. intros E. congruence.
Qed.

Lemma holds_device_ok removed raws : holds_device removed raws = Ok tt ->
  forall raw a p, raw ∈ raws -> ParsePrefix raw = Some a -> p ∈ removed -> Contains p (pf_addr a) = false.
Proof.
  induction raws as [|r raws IH]; intros H raw a p Hraw Ha Hp; [by apply elem_of_nil in Hraw|].
  cbn [holds_device] in H. destruct (ParsePrefix r) as [b|] eqn:Eb; [|done].
  destruct (existsb _ removed) eqn:Ee; [done|].
  apply elem_of_cons in Hraw as [->|Hraw]; [|by eapply IH].
  rewrite Eb in Ha. injection Ha as ->. apply not_true_iff_false. intros Hc.
  apply not_true_iff_false in Ee. apply Ee, existsb_exists. exists p. by rewrite <-list_elem_of_In.
Qed.

Lemma removed_pools_ok pools old removed : removed_pools pools old = Ok removed ->
  forall c p, c ∈ old -> Parse c = Ok p -> c ∈ pools \/ p ∈ removed.
Proof.
  revert removed. induction old as [|x old IH]; intros removed H c p Hc Hp; [by apply elem_of_nil in Hc|].
  cbn [removed_pools] in H. res_step H as rest Hrest.
  destruct (existsb (String.eqb x) pools) eqn:Ee.
  - injection H as <-. apply elem_of_cons in Hc as [->|Hc]; [|by eapply IH].
    left. apply existsb_exists in Ee as (y & Hy%list_elem_of_In & ->%String.eqb_eq). done.
  - res_step H as q Hq. injection H as <-. apply elem_of_cons in Hc as [->|Hc].
    + apply must_parse_Parse in Hp. right. rewrite Hp in Hq. injection Hq as ->. apply list_elem_of_here.
    + destruct (IH _ Hrest c p Hc Hp) as [?|?]; [by left|]. right. by apply list_elem_of_further.
Qed.

(** An overflow pool is only dropped when no device, enabled or not, holds an
    address of it. *)
Lemma updatePoolsTx_pooled ifc pools s s' : updatePoolsTx ifc pools s = Ok (tt, s') -> ifaces_wf s ->
  devices_pooled s -> devices_pooled s'.
Proof.
  intros (row & old & removed & Hrow & Hv & Hh & Hold & _ & Hr & Hdev & ->)%updatePoolsTx_ok Hwf Hp.
  destruct (iface_lookup _ _ _ Hwf Hrow) as [Hid Hok].
  assert (Decode (i_Subnet row) (Some (tail pools)) = Ok pools) as Hdec.
  { destruct pools as [|p l]; [done|]. injection Hh as ->. unfold Decode. cbn [tail]. by rewrite Hv. }
  apply (devices_pooled_rows s); try done. intros d r Hd Hdr (r' & p & a & Hr' & Hpool & Ha & Hc).
  rewrite Hdr in Hr'. injection Hr' as <-. unfold pooled, put_iface. cbn. rewrite Hid.
  destruct (decide (d_InterfaceID d = if_ID ifc)) as [E|Hne].
  2:{ rewrite lookup_insert_ne by done. by exists r, p, a. }
  rewrite E in Hdr |- *. rewrite lookup_insert_eq. rewrite Hrow in Hdr. injection Hdr as <-.
  destruct Hpool as (pools' & c & Hd' & Hin & Hparse). rewrite Hold in Hd'. injection Hd' as <-.
  eexists _, p, a. split_and!; [done| |done..].
  exists pools, c. cbn. split_and!; [exact Hdec| |done].
  destruct (removed_pools_ok _ _ _ Hr c p Hin Hparse) as [?|Hrem]; [done|]. exfalso.
  assert (removed <> []) as Hne by (intros ->; by apply elem_of_nil in Hrem).
  specialize (Hdev Hne). assert (Contains p (pf_addr a) = false); [|congruence].
  eapply holds_device_ok; [exact Hdev| |exact Ha|exact Hrem].
  apply list_elem_of_fmap. exists d. split; [done|]. by rewrite <-Hid.
Qed.

Lemma Update_commit_pooled ifc pools s x s' : Update_commit ifc pools s = Ok (x, s') -> update_fit ifc ->
  ifaces_wf s -> devices_pooled s -> devices_pooled s'.
Proof.
  intros (s1 & Hs1 & ->)%Update_commit_ok Hfit Hwf Hp.
  assert (ifaces_wf s1 /\ devices_pooled s1) as [Hwf1 Hp1].
  { destruct Hs1 as [[_ ->]|(l & _ & Hu)]; [done|]. split; [by eapply updatePoolsTx_wf|by eapply updatePoolsTx_pooled]. }
  destruct (ifaces s1 !! if_ID ifc) as [row|] eqn:Hrow.
  - destruct (iface_lookup _ _ _ Hwf1 Hrow) as [Hid Hok].
    assert (s1 <| ifaces ::= alter (write_profile ifc) (if_ID ifc) |> = put_iface (write_profile ifc row) s1) as ->.
    { unfold put_iface, upd_field. f_equal. rewrite (alter_lookup _ _ _ _ Hrow). cbn. by rewrite Hid. }
    rewrite <-Hid in Hrow. intros k d Hd. apply (pooled_put row); try done. by apply (Hp1 k).
  - intros k d Hd. destruct (Hp1 k d Hd) as (r & p & a & Hr & Hrest). exists r, p, a. split; [|done].
    cbn. by rewrite alter_absent.
Qed.

(** ** Steps of the service

    The reads of an operation come before its write transaction, which may
    run in a later state. *)
Inductive iface_step `{Settings, Host, AEAD, Random, X25519, ProfileEntropy, Entropy} (ring : KeyRing)
    : store -> store -> Prop :=
| istep_create c s0 s1 ifc s x s' : 0 <= clock s0 -> profile_wf (ci_Obfuscation c) ->
    Create_read ring c s0 = Ok (ifc, s1) -> insertWithChecks ifc s = Ok (x, s') -> iface_step ring s s'
| istep_enable id b s : iface_step ring s (SetEnabled id b s).2
| istep_update id u s0 ifc s x s' : ifaces_wf s0 -> typed_update u -> Update_read id u s0 = Ok ifc ->
    Update_commit ifc (ui_Pools u) s = Ok (x, s') -> iface_step ring s s'
| istep_delete id s : iface_step ring s (Delete id s).2.

(** ** Properties *)

(** C17. Every operation on the profiles, over any interleaving of their reads and
    writes, keeps them usable and apart: each row reads back as a profile
    that meets the runtime's constraints, and no two share a name, a port or
    an address. The address of every registered device stays inside a pool of
    its interface. *)
Theorem profiles_invariant `{Settings, Host, AEAD, Random, X25519, P : ProfileEntropy, !ProfileEntropyLaws P, Entropy}
    ring s s' :
  iface_step ring s s' -> ifaces_wf s -> devices_pooled s -> ifaces_wf s' /\ devices_pooled s'.
Proof.
  intros Hstep Hwf Hp. destruct Hstep.
  - destruct (Create_read_ok _ _ _ _ _ ltac:(eassumption) ltac:(eassumption) ltac:(eassumption)) as [Hok _].
    split; [by eapply insertWithChecks_wf|].
    edestruct insertWithChecks_ok as (_ & -> & Hnew & _); [eassumption|exact Hok|].
    intros k d Hd. apply pooled_insert; [exact Hnew|]. by apply (Hp k).
  - split; [by apply profile_SetEnabled_wf|]. unfold SetEnabled. destruct (ifaces s !! id) as [row|] eqn:Hrow; [|done].
    destruct (iface_lookup _ _ _ Hwf Hrow) as [Hid _]. rewrite <-Hid in Hrow.
    intros k d Hd. apply (pooled_put row); try done. by apply (Hp k).
  - edestruct profile_Update_read_ok as [_ Hfit]; [eassumption..|].
    split; [by eapply profile_Update_commit_wf|by eapply Update_commit_pooled].
  - split; [by apply Delete_wf|]. destruct (Delete_ok id s) as [->|(E1 & E2 & Hno & _)]; [done|].
    unfold devices_pooled. rewrite E2. intros k d Hd. destruct (Hp k d Hd) as (r & p & a & Hr & Hrest).
    exists r, p, a. split; [|done]. rewrite E1, lookup_delete_ne; [done|]. intros ->.
    assert (d ∈ iface_devices (d_InterfaceID d) s) as Hin; [|by rewrite Hno in Hin; apply elem_of_nil in Hin].
    apply list_elem_of_filter. split; [done|]. apply elem_of_values. eauto.
Qed.

Lemma scan_ports_complete fuel min span start i used e :
  scan_ports fuel min span start i used = Err e ->
  e = E CodePortInUse /\ forall j, i <= j < i + Z.of_nat fuel -> min + Z.rem (start + j) span ∈ used.
Proof.
  revert i. induction fuel as [|fuel IH]; intros i; cbn [scan_ports].
  - intros [= <-]. split; [done|]. lia.
  - cbv zeta. destruct (existsb _ used) eqn:Ee; [|done]. intros [-> Hu]%IH. split; [done|]. intros j Hj.
    destruct (decide (j = i)) as [->|Hne]; [|apply Hu; lia].
    apply existsb_exists in Ee as (x & Hx%list_elem_of_In & ->%Z.eqb_eq). done.
Qed.

Lemma scan_ports_free fuel min span start i used p :
  scan_ports fuel min span start i used = Ok p -> p ∉ used.
Proof.
  revert i. induction fuel as [|fuel IH]; intros i; cbn [scan_ports]; [done|]. cbv zeta.
  destruct (existsb _ used) eqn:Ee; [apply IH|]. intros [= <-] Hin.
  apply not_true_iff_false in Ee. apply Ee, existsb_exists. eexists. rewrite <-list_elem_of_In, Z.eqb_refl. eauto.
Qed.

(** The automatic port is a free port of the configured window, wherever the
    scan starts, and it is refused only when every port of the window is
    taken. *)
Theorem allocatePort_spec `{Settings} s min max :
  GetInt "network.port_min" = Ok min -> GetInt "network.port_max" = Ok max ->
  ValidatePortRange min max = Ok tt -> 0 <= clock s ->
  match allocatePort s with
  | Ok p => min <= p <= max /\ p ∉ i_ListenPort <$> iface_rows s
  | Err e => e = E CodePortInUse /\ forall p, min <= p <= max -> p ∈ i_ListenPort <$> iface_rows s
  end.
Proof.
  intros Hmin Hmax Hv Hc. unfold allocatePort. rewrite Hmin, Hmax. cbn [mbind result_bind rbind].
  rewrite Hv. cbn [rbind]. unfold ValidatePortRange in Hv. destruct (_ || _); [done|].
  destruct (Z.ltb_spec max min) as [|Hle]; [done|].
  pose proof (Z.rem_bound_pos (clock s) (max - min + 1) Hc ltac:(lia)) as Hs.
  destruct (scan_ports _ _ _ _ _ _) as [p|e] eqn:Ep.
  - split; [|by eapply scan_ports_free]. eapply scan_ports_range; eauto; lia.
  - apply scan_ports_complete in Ep as [-> Hu]. split; [done|]. intros p Hp.
    set (span := max - min + 1) in *. set (start := Z.rem (clock s) span) in *.
    pose proof (Z.mod_pos_bound (p - min - start) span ltac:(lia)) as Hj.
    specialize (Hu ((p - min - start) mod span) ltac:(lia)).
    rewrite Z.rem_mod_nonneg, Z.add_mod_idemp_r in Hu by lia.
    replace (start + (p - min - start)) with (p - min) in Hu by lia.
    rewrite Z.mod_small in Hu by lia. by replace (min + (p - min)) with p in Hu by lia.
Qed.

(** ** Witnesses *)

Definition w_settings : Settings := {|
  GetInt := fun key =>
    if String.eqb key "interfaces.max_count" then Ok 8
    else if String.eqb key "network.port_min" then Ok 20000
    else if String.eqb key "network.port_max" then Ok 20002
    else if String.eqb key "network.mtu" then Ok 1420 else Err (E CodeSettingUnknown);
  GetString := fun _ => Ok "";
  ValidEndpoint := fun _ => Ok tt
|}.
Definition w_host : Host := {| userspaceReady := None; hostRoutes := None |}.
Definition w_x25519 : X25519 := fun k => k.

Definition w_create : CreateInput :=
  MkCreateInput "awg0" 0 "" None 0 no_obf "balanced" false BackendKernel "".

Definition w_before : store := empty_store 1700000000000000000.

#[export] Existing Instances w_settings w_host w_x25519 zero_entropy counting_entropy.
#[export] Instance w_entropy_laws : ProfileEntropyLaws zero_entropy := zero_entropy_laws.

(** The first interface of a node, with everything left to the service. *)
Definition w_minted : result err (Interface * store) := Create_read w_ring w_create w_before.
Definition w_mid : store := Eval vm_compute in
  match w_minted with Ok (_, s) => s | Err _ => w_before end.
Definition w_inserted : result err (Interface * store) :=
  match w_minted with Ok (i, s) => insertWithChecks i s | Err e => Err e end.
Definition w_after : store := Eval vm_compute in
  match w_inserted with Ok (_, s) => s | Err _ => w_before end.

Definition w_input : Interface := Eval vm_compute in
  match w_minted with Ok (i, _) => i | Err _ => MkInterface "" "" 0 "" [] 0 "" "" no_obf "" false BackendKernel "" 0 0 false [] end.
Definition w_stored : Interface := Eval vm_compute in
  match w_inserted with Ok (i, _) => i | Err _ => w_input end.

Lemma w_iface_step : iface_step w_ring w_mid w_after.
Proof.
  apply (istep_create w_ring w_create w_before w_mid w_input w_mid w_stored w_after).
  - vm_compute. discriminate.
  - split; repeat (apply Forall_cons; split; [vm_compute; intuition discriminate|]); constructor.
  - vm_compute. reflexivity.
  - vm_compute. reflexivity.
Qed.

Lemma w_no_profiles : ifaces_wf w_mid /\ devices_pooled w_mid.
Proof. split; [split; [intros k r Hk; discriminate Hk|intros k1 k2 r1 r2 Hk; discriminate Hk]|intros k d Hk; discriminate Hk]. Qed.

Theorem profiles_invariant_witness : ifaces_wf w_after /\ devices_pooled w_after.
Proof.
  apply (profiles_invariant w_ring w_mid w_after);
    [exact w_iface_step|exact (proj1 w_no_profiles)|exact (proj2 w_no_profiles)].
Defined.

Theorem allocatePort_spec_witness :
  match allocatePort w_after with
  | Ok p => 20000 <= p <= 20002 /\ p ∉ i_ListenPort <$> iface_rows w_after
  | Err e => e = E CodePortInUse /\ forall p, 20000 <= p <= 20002 -> p ∈ i_ListenPort <$> iface_rows w_after
  end.
Proof. apply allocatePort_spec; vm_compute; (reflexivity || discriminate). Defined.
