(* ===== verification/Registry.v ===== *)
(** * The runtime settings (internal/settings/settings.go)

    The typed registry over the [settings] table: a catalogue of definitions,
    values that are decoded from and encoded to texts, secrets that are sealed
    under the key ring, and a cache that every write invalidates. A read is
    given in the phases the lock leaves apart: the cache is looked up, the row
    is loaded, the cache is filled unless a write came between. *)
From stdpp Require Import base tactics strings gmap list sorting.
From Stdlib Require Import ZArith Lia Ascii.
From Stdlib Require String.
From S2P Require Import Prelude GoText GoTime Domain Awgparam JsonText Store Crypto Tunnel Secrets.

Open Scope Z_scope.

(** ** Data *)

Inductive Kind := KindString | KindInt | KindBool | KindStringList | KindSecret.

#[export] Instance Kind_eq_dec : EqDecision Kind.
Proof. solve_decision. Defined.

(** [Kind.String]. *)
Definition kind_text (k : Kind) : string :=
  match k with
  | KindInt => "int" | KindBool => "bool" | KindStringList => "string_list" | KindSecret => "secret"
  | KindString => "string"
  end.

(** A value of type [any]: what the callers pass and the getters return. A
    [float64] is the dyadic number [mant * 2 ^ expo]; [VStrings None] is the nil
    slice; every other type, the [[]any] of a JSON array among them, is
    [VOther]. *)
Inductive value :=
| VNil
| VInt (n : Z)
| VInt64 (n : Z)
| VFloat (mant expo : Z)
| VBool (b : bool)
| VString (s : string)
| VStrings (l : option (list string))
| VOther.

#[export] Instance value_eq_dec : EqDecision value.
Proof. solve_decision. Defined.

Record Definition_ := MkDef {
  de_Key : string;
  de_Kind : Kind;
  de_Default : value;
  de_Min : Z; de_Max : Z;
  de_Options : option (list string);
  de_Validator : option (value -> result err unit);
  de_Category : string;
  de_Secret : bool;
  de_Advanced : bool;
  de_Persistent : bool
}.

(** [Item]: [it_Updated] is [None] for the zero time. *)
Record Item := MkItem {
  it_Definition : Definition_;
  it_Value : value;
  it_IsZero : bool;
  it_Updated : option Z
}.

Record cacheEntry := MkEntry { ce_val : value; ce_updated : option Z }.

Record Update := MkUpdate { up_Key : string; up_Value : value }.
Record preparedUpdate := MkPrepared { pu_def : Definition_; pu_value : string }.

(** The table (text and [updated_at] by key), the cache and its generation, the
    clock and the random draws made so far. *)
Record registry := MkRegistry {
  rg_rows : gmap string (string * Z);
  rg_cache : gmap string cacheEntry;
  rg_generation : Z;
  rg_now : Z;
  rg_draws : nat
}.
#[export] Instance eta_registry : Eta registry := fun r =>
  MkRegistry (rg_rows r) (rg_cache r) (rg_generation r) (rg_now r) (rg_draws r).

Definition Reg (X : Type) : Type := act registry err X.

(** What the conversion of a [float64] that no [int] can hold gives: the
    language leaves it to the platform. *)
Class FloatOverflow := float_overflow : Z -> Z -> Z.

Definition ErrUnknown : err := E CodeSettingUnknown.
Definition ErrInvalid : err := E CodeSettingInvalid.
(** A failed type assertion. *)
Definition ErrPanic : err := Plain "interface conversion".

(** ** The catalogue *)

Definition default_ok (d : Definition_) : bool :=
  match de_Kind d, de_Default d with
  | KindInt, VInt _ | KindBool, VBool _ | KindStringList, VStrings _ => true
  | (KindString | KindSecret), (VNil | VString _) => true
  | _, _ => false
  end.

Fixpoint new_defs (l : list Definition_) (m : gmap string Definition_) : result err (gmap string Definition_) :=
  match l with
  | [] => Ok m
  | d :: l =>
      if String.eqb (de_Key d) "" || String.eqb (de_Category d) ""
      then Err (Plain "settings: key and category are required")
      else if negb (default_ok d) then Err (Plain "settings: default required")
      else new_defs l (<[de_Key d := d]> m)
  end.

Definition New (ring : option KeyRing) (l : list Definition_) : result err (gmap string Definition_) :=
  match ring with None => Err (Plain "settings: key ring required") | Some _ => new_defs l ∅ end.

(** ** Values *)

Section Registry.
Context `{A : AEAD, R : Random, F : FloatOverflow}.
Context (ring : KeyRing) (catalog : gmap string Definition_).

(** [int(f)]: towards zero. *)
Definition float_int (mant expo : Z) : Z :=
  let n := if 0 <=? expo then mant * 2 ^ expo else Z.quot mant (2 ^ (- expo)) in
  if (- 2 ^ 63 <=? n) && (n <? 2 ^ 63) then n else i64 (float_overflow mant expo).

Definition toInt (v : value) : option Z :=
  match v with
  | VInt n | VInt64 n => Some n
  | VFloat m e => Some (float_int m e)
  | _ => None
  end.

Definition decode (def : Definition_) (stored : string) : result err value :=
  match de_Kind def with
  | KindInt => match parse_int64 stored with Some n => Ok (VInt n) | None => Err ErrInvalid end
  | KindBool => match parse_bool stored with Some b => Ok (VBool b) | None => Err ErrInvalid end
  | KindStringList => match unmarshal_list stored with Some l => Ok (VStrings l) | None => Err ErrInvalid end
  | KindSecret =>
      if String.eqb stored "" then Ok (VString "")
      else pt ← ring_DecryptString ring stored; Ok (VString pt)
  | KindString => Ok (VString stored)
  end.

Definition validator_ok (def : Definition_) (typed : value) : result err unit :=
  match de_Validator def with
  | None => Ok tt
  | Some f => match f typed with Ok _ => Ok tt | Err e => if decide (e = ErrPanic) then Err ErrPanic else Err ErrInvalid end
  end.

Definition validateValue (def : Definition_) (typed : value) : result err unit :=
  match de_Kind def with
  | KindInt =>
      match typed with
      | VInt n => if (n <? de_Min def) || (de_Max def <? n) then Err ErrInvalid else validator_ok def typed
      | _ => Err ErrPanic
      end
  | KindString =>
      match de_Options def with
      | Some options =>
          match typed with
          | VString s => if existsb (String.eqb s) options then Ok tt else Err ErrInvalid
          | _ => Err ErrPanic
          end
      | None => validator_ok def typed
      end
  | _ => validator_ok def typed
  end.

(** [ValidateStoredValue]: a secret is already plain. *)
Definition ValidateStoredValue (def : Definition_) (stored : string) : result err unit :=
  typed ← (if decide (de_Kind def = KindSecret) then Ok (VString stored) else decode def stored);
  validateValue def typed.

Definition EncryptString (plaintext : string) : Reg string := fun r =>
  (Ok (seal_string (random (rg_draws r) NonceSize) (kr_current ring) plaintext), r <| rg_draws ::= S |>).

(** ** Writing *)

Definition prepareStored (def : Definition_) (stored : string) : Reg preparedUpdate :=
  typed ← act_lift (if decide (de_Kind def = KindSecret) then Ok (VString stored) else decode def stored);
  _ ← act_lift (validateValue def typed);
  final ← (if decide (de_Kind def = KindSecret)
           then if String.eqb stored "" then act_ret "" else EncryptString stored
           else act_ret stored);
  act_ret (MkPrepared def final).

(** The text of a typed value. *)
Definition encode (def : Definition_) (v : value) : result err string :=
  match de_Kind def with
  | KindInt => match toInt v with Some n => Ok (int_text n) | None => Err ErrInvalid end
  | KindBool => match v with VBool b => Ok (bool_text b) | _ => Err ErrInvalid end
  | KindStringList => match v with VStrings l => Ok (marshal_list l) | _ => Err ErrInvalid end
  | _ => match v with VString s => Ok s | _ => Err ErrInvalid end
  end.

Definition prepare (key : string) (v : value) : Reg preparedUpdate :=
  match catalog !! key with
  | None => act_fail ErrUnknown
  | Some def => stored ← act_lift (encode def v); prepareStored def stored
  end.

Definition write_row (u : preparedUpdate) (r : registry) : registry :=
  if String.eqb (pu_value u) "" then r <| rg_rows ::= delete (de_Key (pu_def u)) |>
  else r <| rg_rows ::= <[de_Key (pu_def u) := (pu_value u, rg_now r)]> |>.
Definition write (u : preparedUpdate) : Reg unit := act_modify (write_row u).

Definition invalidate_keys (keys : list string) (r : registry) : registry :=
  r <| rg_cache := foldl (fun m k => delete k m) (rg_cache r) keys |>
    <| rg_generation := u64 (rg_generation r + 1) |>.
Definition invalidate (key : string) : Reg unit := act_modify (invalidate_keys [key]).

Definition store_ (def : Definition_) (stored : string) : Reg unit :=
  u ← prepareStored def stored; _ ← write u; invalidate (de_Key def).

(** The text a command line or a form gives, parsed by kind. *)
Definition raw_text (def : Definition_) (raw : string) : result err string :=
  match de_Kind def with
  | KindInt => match parse_int64 (trim_space raw) with Some n => Ok (int_text n) | None => Err ErrInvalid end
  | KindBool =>
      let s := str_lower (trim_space raw) in
      if existsb (String.eqb s) ["true"; "1"; "yes"; "on"] then Ok "true"
      else if existsb (String.eqb s) ["false"; "0"; "no"; "off"] then Ok "false"
      else Err ErrInvalid
  | KindStringList =>
      let parts := filter (fun p => p <> "") (trim_space <$> str_split "," raw) in
      Ok (marshal_list (if decide (parts = []) then None else Some parts))
  | _ => Ok raw
  end.

Definition SetRaw (key raw : string) : Reg unit :=
  match catalog !! key with
  | None => act_fail ErrUnknown
  | Some def => stored ← act_lift (raw_text def raw); store_ def stored
  end.

Definition Set_ (key : string) (v : value) : Reg unit :=
  u ← prepare key v; _ ← write u; invalidate (de_Key (pu_def u)).

Fixpoint prepare_all (updates : list Update) : Reg (list preparedUpdate) :=
  match updates with
  | [] => act_ret []
  | u :: updates => p ← prepare (up_Key u) (up_Value u); ps ← prepare_all updates; act_ret (p :: ps)
  end.

(** One transaction: the writes take effect together. *)
Definition write_all (ps : list preparedUpdate) : Reg unit :=
  act_modify (fun r => foldl (fun r u => write_row u r) r ps).

Definition SetBatch (updates : list Update) : Reg unit :=
  prepared ← prepare_all updates;
  if decide (prepared = []) then act_ret tt
  else _ ← write_all prepared;
       act_modify (invalidate_keys ((fun u => de_Key (pu_def u)) <$> prepared)).

Definition Reset (key : string) : Reg unit :=
  match catalog !! key with
  | None => act_fail ErrUnknown
  | Some _ => _ ← act_modify (fun r => r <| rg_rows ::= delete key |>); invalidate key
  end.

Definition Validate (key : string) (v : value) : result err unit :=
  match catalog !! key with
  | None => Err ErrUnknown
  | Some def =>
      match de_Kind def with
      | KindInt => match toInt v with Some n => validateValue def (VInt n) | None => Err ErrInvalid end
      | KindBool => match v with VBool b => validateValue def (VBool b) | _ => Err ErrInvalid end
      | KindStringList => match v with VStrings l => validateValue def (VStrings l) | _ => Err ErrInvalid end
      | _ => match v with VString s => validateValue def (VString s) | _ => Err ErrInvalid end
      end
  end.

(** ** Reading *)

Definition redacted (def : Definition_) (v : value) : value :=
  if decide (de_Kind def = KindSecret)
  then match v with VString s => if String.eqb s "" then VString "" else VString "<set>" | _ => VString "" end
  else v.

(** The row as a value and its time, the default without a row. *)
Definition load (def : Definition_) (rows : gmap string (string * Z)) : result err cacheEntry :=
  match rows !! de_Key def with
  | None => Ok (MkEntry (redacted def (de_Default def)) None)
  | Some (raw, ts) => v ← decode def raw; Ok (MkEntry (redacted def v) (Some ts))
  end.

(** The cache is trusted, except for the category another process writes. *)
Definition lookup_cache (def : Definition_) (r : registry) : option cacheEntry :=
  if String.eqb (de_Category def) "backup" then None else rg_cache r !! de_Key def.

(** The cache is filled only if no write was invalidated since [generation]. *)
Definition fill (def : Definition_) (generation : Z) (e : cacheEntry) (r : registry) : registry :=
  if rg_generation r =? generation then r <| rg_cache ::= <[de_Key def := e]> |> else r.

Definition Get (key : string) : Reg value :=
  match catalog !! key with
  | None => act_fail ErrUnknown
  | Some def =>
      generation ← act_gets rg_generation;
      hit ← act_gets (lookup_cache def);
      match hit with
      | Some e => act_ret (ce_val e)
      | None =>
          rows ← act_gets rg_rows;
          e ← act_lift (load def rows);
          _ ← act_modify (fill def generation e);
          act_ret (ce_val e)
      end
  end.

Definition GetString (key : string) : Reg string :=
  v ← Get key; match v with VString s => act_ret s | _ => act_fail (Plain "settings: not a string") end.
Definition GetInt (key : string) : Reg Z :=
  v ← Get key; match v with VInt n => act_ret n | _ => act_fail (Plain "settings: not an int") end.
Definition GetBool (key : string) : Reg bool :=
  v ← Get key; match v with VBool b => act_ret b | _ => act_fail (Plain "settings: not a bool") end.
Definition GetStringList (key : string) : Reg (option (list string)) :=
  v ← Get key; match v with VStrings l => act_ret l | _ => act_fail (Plain "settings: not a string list") end.

(** The only reader that yields a secret. *)
Definition GetSecret (key : string) : Reg string :=
  match catalog !! key with
  | None => act_fail (Plain "settings: not a secret setting")
  | Some def =>
      if decide (de_Kind def = KindSecret) then
        row ← act_gets (fun r => rg_rows r !! key);
        match row with
        | None => act_ret (match de_Default def with VString s => s | _ => "" end)
        | Some (raw, _) => if String.eqb raw "" then act_ret "" else act_lift (ring_DecryptString ring raw)
        end
      else act_fail (Plain "settings: not a secret setting")
  end.

(** [fmt.Sprint] of the values the getters and the catalogue hold. *)
Definition sprint (v : value) : string :=
  match v with
  | VNil => "<nil>"
  | VInt n | VInt64 n => int_text n
  | VBool b => bool_text b
  | VString s => s
  | VStrings l => "[" +:+ str_join " " (default [] l) +:+ "]"
  | VFloat _ _ | VOther => ""
  end.

(** [All] over the definitions in the order [order] Go's map gave them. *)
Fixpoint All (order : list Definition_) : Reg (list Item) :=
  match order with
  | [] => act_ret []
  | d :: order =>
      v ← Get (de_Key d);
      let v := redacted d v in
      updated ← act_gets (fun r => match rg_cache r !! de_Key d with Some e => ce_updated e | None => None end);
      items ← All order;
      act_ret (MkItem d v (String.eqb (sprint v) (sprint (de_Default d))) updated :: items)
  end.

(** ** The REST handlers (internal/api/handlers_misc.go) *)

Definition key_le (a b : string * value) : Prop := String.leb a.1 b.1 = true.
#[local] Instance key_le_dec a b : Decision (key_le a b).
Proof. unfold key_le. apply _. Defined.

(** A decoded JSON object: its keys are distinct and visited in byte order. *)
Definition sorted_updates (req : gmap string value) : list Update :=
  (fun kv => MkUpdate kv.1 kv.2) <$> merge_sort key_le (map_to_list req).

(** [handleSettingsUpdate]; the answer is the list of keys. *)
Definition handleSettingsUpdate (req : gmap string value) : Reg (list string) :=
  let n := Z.of_nat (size req) in
  if (n =? 0) || (100 <? n) then act_fail (Plain "provide 1-100 setting keys")
  else
    let batch := sorted_updates req in
    _ ← SetBatch batch; act_ret (up_Key <$> batch).

(** A row of the catalogue the API shows: never a secret. *)
Record settingOut := MkOut {
  so_Key : string; so_Category : string; so_Kind : string;
  so_Value : value; so_Secret : bool; so_SecretSet : bool
}.

Fixpoint handleSettingsGet (order : list Definition_) : Reg (list settingOut) :=
  match order with
  | [] => act_ret []
  | d :: order =>
      let out := MkOut (de_Key d) (de_Category d) (kind_text (de_Kind d)) in
      if de_Secret d then
        s ← act_try (GetSecret (de_Key d));
        let isset := match s with Ok v => negb (String.eqb v "") | Err _ => false end in
        items ← handleSettingsGet order; act_ret (out VNil true isset :: items)
      else
        v ← act_try (Get (de_Key d));
        items ← handleSettingsGet order;
        act_ret (match v with Ok v => out v false false :: items | Err _ => items end)
  end.
End Registry.

(** ** Lemmas: the catalogue *)

(** Definitions are filed under their keys. *)
Definition filed (catalog : gmap string Definition_) : Prop := forall k d, catalog !! k = Some d -> de_Key d = k /\ default_ok d = true.

Lemma new_defs_filed l m c : new_defs l m = Ok c -> filed m -> filed c.
Proof.
  revert m. induction l as [|d l IH]; intros m; cbn; [by intros [= <-]|].
  destruct (_ || _); [done|]. destruct (default_ok d) eqn:Ed; [|done]. cbn. intros H Hm. apply (IH _ H).
  intros k d'. rewrite lookup_insert. case_decide as E; [by intros [= <-]|apply Hm].
Qed.

Lemma New_filed ring l c : New ring l = Ok c -> filed c.
Proof. destruct ring; [|done]. intros H. eapply new_defs_filed; [exact H|]. intros k0 d0. by rewrite lookup_empty. Qed.

Lemma act_bind_ok {S E X Y} (m : act S E X) (f : X -> act S E Y) s b s2 :
  mbind f m s = (Ok b, s2) -> exists a s1, m s = (Ok a, s1) /\ f a s1 = (Ok b, s2).
Proof. unfold mbind, act_mbind, act_bind. destruct (m s) as [[a|e] s1]; [eauto|done]. Qed.

Section Facts.
Context `{A : AEAD, R : Random, F : FloatOverflow}.
Context {L : AEADLaws A} {N : RandomLength R}.
Context (ring : KeyRing) (catalog : gmap string Definition_) (Hfiled : filed catalog).

(** ** What the table and the cache hold *)

(** A stored text decodes to a value the definition accepts. *)
Definition row_ok (def : Definition_) (raw : string) : Prop :=
  raw <> "" /\ exists v, decode ring def raw = Ok v /\ validateValue def v = Ok tt.

Definition rows_ok (r : registry) : Prop := forall k raw ts def,
  rg_rows r !! k = Some (raw, ts) -> catalog !! k = Some def -> row_ok def raw.

(** A cached entry is what a load would give. *)
Definition cache_ok (r : registry) : Prop := forall k e def,
  rg_cache r !! k = Some e -> catalog !! k = Some def -> load ring def (rg_rows r) = Ok e.

Definition reg_ok (r : registry) : Prop := rows_ok r /\ cache_ok r.

(** Only random draws were made. *)
Definition drew (r r' : registry) : Prop :=
  rg_rows r' = rg_rows r /\ rg_cache r' = rg_cache r /\ rg_generation r' = rg_generation r /\ rg_now r' = rg_now r.

Lemma drew_refl r : drew r r.
Proof. done. Qed.

Lemma drew_trans r1 r2 r3 : drew r1 r2 -> drew r2 r3 -> drew r1 r3.
Proof. unfold drew. intuition congruence. Qed.

Lemma drew_ok r r' : drew r r' -> reg_ok r -> reg_ok r'.
Proof. unfold reg_ok, rows_ok, cache_ok. intros (-> & -> & _). done. Qed.

Lemma load_row def rows rows' : rows !! de_Key def = rows' !! de_Key def -> load ring def rows = load ring def rows'.
Proof. unfold load. by intros ->. Qed.

(** ** Preparing *)

Lemma DecryptString_seal nonce s : String.length nonce = NonceSize ->
  ring_DecryptString ring (seal_string nonce (kr_current ring) s) = Ok s.
Proof.
  intros Hn. unfold ring_DecryptString, DecryptString, seal_string, envelope_text, IsEncryptedText.
  rewrite str_length_app. cbn [str_take str_drop String.append text_prefix String.eqb Ascii.eqb].
  assert (4 < String.length text_prefix + String.length (EncodeToString (bytes_of (seal_with nonce (kr_current ring) s))))%nat as Hl.
  { pose proof (length_Encode (bytes_of (seal_with nonce (kr_current ring) s))) as H. rewrite length_bytes_of, length_seal in H by done.
    cbn [String.length]. assert (1 <= (Z.of_nat (1 + NonceSize + String.length s + Overhead) + 2) / 3); [|change (String.length text_prefix) with 4%nat; lia].
    apply Z.div_le_lower_bound; lia. }
  rewrite (proj2 (Nat.ltb_lt _ _) Hl). cbn [andb Bool.eqb negb str_drop].

  rewrite Decode_text, text_of_bytes. by rewrite Decrypt_seal.
Qed.

Definition good_update (u : preparedUpdate) (def : Definition_) : Prop :=
  pu_def u = def /\ (pu_value u = "" \/ row_ok def (pu_value u)).
Lemma envelope_nonempty n s : seal_string n (kr_current ring) s <> "".
Proof. done. Qed.

Lemma prepareStored_acts def stored r :
  acts (fun u r' => drew r r' /\ good_update u def) (fun _ => drew r) (prepareStored ring def stored) r.
Proof.
  unfold prepareStored. destruct (decide (de_Kind def = KindSecret)) as [Hk|Hk].
  - unfold acts. cbv [mbind act_mbind act_bind act_lift].
    destruct (validateValue def (VString stored)) as [[]|e] eqn:Ev; [|done].
    destruct (String.eqb_spec stored "") as [->|Hne]; [split; [done|split; [done|by left]]|].
    cbn [EncryptString act_ret]. split; [done|]. split; [done|]. right. split; [done|]. exists (VString stored).
    split; [|done]. cbn [pu_value]. unfold decode. rewrite Hk.
    rewrite (proj2 (String.eqb_neq _ _)) by done. by rewrite DecryptString_seal by apply random_length.
  - unfold acts. cbv [mbind act_mbind act_bind act_lift act_ret].
    destruct (decode ring def stored) as [v|e] eqn:Ed; [|done].
    destruct (validateValue def v) as [[]|e] eqn:Ev; [|done].
    split; [done|]. split; [done|]. destruct (String.eqb_spec stored "") as [->|Hne]; [by left|right]. split; [done|eauto].
Qed.

Lemma prepare_acts key v r :
  acts (fun u r' => drew r r' /\ exists def, catalog !! key = Some def /\ good_update u def) (fun _ => drew r)
    (prepare ring catalog key v) r.
Proof.
  unfold prepare. destruct (catalog !! key) as [def|]; [|done].
  apply (acts_bind (fun _ r' => r' = r)); [unfold act_lift, acts; by destruct (encode def v)|].
  intros stored ? ->. eapply acts_weaken; [apply prepareStored_acts| |done]. intros u r' [? ?]. split; [done|]. by exists def.
Qed.

Lemma act_lift_acts {S E X} (Q : X -> S -> Prop) (Z0 : E -> S -> Prop) (m : result E X) s :
  (forall x, m = Ok x -> Q x s) -> (forall e, m = Err e -> Z0 e s) -> acts Q Z0 (act_lift m) s.
Proof. unfold acts, act_lift. destruct m; auto. Qed.

Lemma prepare_all_acts us r :
  acts (fun ps r' => drew r r' /\ Forall (fun u => exists k def, catalog !! k = Some def /\ good_update u def) ps)
    (fun _ => drew r) (prepare_all ring catalog us) r.
Proof.
  revert r. induction us as [|u us IH]; intros r; [split; [done|constructor]|]. cbn [prepare_all].
  eapply acts_bind; [apply prepare_acts|]. intros p r1 (D1 & def & Hdef & Hg).
  eapply acts_bind; [eapply acts_weaken; [apply IH| |]|].
  - intros ps r2 H. exact H.
  - intros e r2 D2. by eapply drew_trans.
  - intros ps r2 [D2 Hps]. split; [by eapply drew_trans|]. constructor; eauto.
Qed.

(** ** Writing *)

Lemma write_row_lookup u r k :
  rg_rows (write_row u r) !! k =
  if decide (k = de_Key (pu_def u)) then (if String.eqb (pu_value u) "" then None else Some (pu_value u, rg_now r))
  else rg_rows r !! k.
Proof.
  unfold write_row. destruct (String.eqb (pu_value u) ""); cbn [rg_rows upd_field].
  - case_decide as E; [subst; apply lookup_delete_eq|by apply lookup_delete_ne].
  - case_decide as E; [subst; apply lookup_insert_eq|by apply lookup_insert_ne].
Qed.

Lemma write_row_cache u r : rg_cache (write_row u r) = rg_cache r /\ rg_generation (write_row u r) = rg_generation r /\
  rg_now (write_row u r) = rg_now r /\ rg_draws (write_row u r) = rg_draws r.
Proof. unfold write_row. by destruct (String.eqb (pu_value u) ""). Qed.

Lemma write_row_ok u def k r : catalog !! k = Some def -> good_update u def -> rows_ok r -> rows_ok (write_row u r).
Proof.
  intros Hdef [<- Hg] Hr j raw ts def'. rewrite write_row_lookup. destruct (Hfiled _ _ Hdef) as [Hk _]. case_decide as Ej.
  - destruct (String.eqb_spec (pu_value u) "") as [|Hne]; [done|]. intros [= <- <-] Hj.
    rewrite Ej, Hk, Hdef in Hj. injection Hj as <-. by destruct Hg.
  - apply Hr.
Qed.

Lemma delete_all_lookup {V} (keys : list string) (m : gmap string V) k :
  foldl (fun m k => delete k m) m keys !! k = if decide (k ∈ keys) then None else m !! k.
Proof.
  revert m. induction keys as [|x keys IH]; intros m; cbn [foldl].
  - case_decide as E; [by apply elem_of_nil in E|done].
  - rewrite IH. case_decide as E1; case_decide as E2; try done.
    + exfalso. apply E2. by right.
    + apply elem_of_cons in E2 as [->|?]; [apply lookup_delete_eq|done].
    + apply lookup_delete_ne. intros ->. apply E2. by left.
Qed.

(** Entries of the keys that stay are as good as before. *)
Lemma invalidate_ok keys r r' :
  cache_ok r -> rg_cache r' = rg_cache r -> (forall k, k ∉ keys -> rg_rows r' !! k = rg_rows r !! k) ->
  cache_ok (invalidate_keys keys r').
Proof.
  intros Hc Ec Er k e def. unfold invalidate_keys. cbn [rg_cache rg_rows upd_field]. rewrite delete_all_lookup.
  case_decide as Ek; [done|]. rewrite Ec. intros He Hdef. rewrite <-(Hc k e def He Hdef). apply load_row.
  destruct (Hfiled _ _ Hdef) as [-> _]. by apply Er.
Qed.

Lemma write_rows_lookup ps r k : k ∉ ((fun u => de_Key (pu_def u)) <$> ps) ->
  rg_rows (foldl (fun r u => write_row u r) r ps) !! k = rg_rows r !! k.
Proof.
  revert r. induction ps as [|p ps IH]; intros r Hk; [done|]. cbn [foldl]. rewrite fmap_cons in Hk.
  apply not_elem_of_cons in Hk as [H1 H2]. rewrite IH by done. rewrite write_row_lookup. by case_decide.
Qed.

Lemma write_rows_cache ps r : rg_cache (foldl (fun r u => write_row u r) r ps) = rg_cache r.
Proof. revert r. induction ps as [|p ps IH]; intros r; [done|]. cbn [foldl]. rewrite IH. apply write_row_cache. Qed.

Lemma write_rows_ok ps r : Forall (fun u => exists k def, catalog !! k = Some def /\ good_update u def) ps ->
  rows_ok r -> rows_ok (foldl (fun r u => write_row u r) r ps).
Proof.
  revert r. induction ps as [|p ps IH]; intros r Hps Hr; [done|]. apply Forall_cons in Hps as [(k & def & Hd & Hg) Hps].
  cbn [foldl]. apply IH; [done|]. by eapply write_row_ok.
Qed.

(** What every operation promises: the registry stays sound, and a failure
    changes neither the table nor the cache. *)
Definition keeps {X} (m : Reg X) : Prop := forall r, reg_ok r ->
  acts (fun _ => reg_ok) (fun _ r' => reg_ok r' /\ rg_rows r' = rg_rows r) m r.

Lemma one_write_ok u def k r r1 : reg_ok r -> drew r r1 -> catalog !! k = Some def -> good_update u def ->
  reg_ok (invalidate_keys [de_Key def] (write_row u r1)).
Proof.
  intros Hr D Hdef Hg. pose proof (drew_ok _ _ D Hr) as [H1 H2]. split.
  - exact (write_row_ok _ _ _ _ Hdef Hg H1).
  - apply (invalidate_ok _ r1); [done|apply write_row_cache|]. intros j Hj. rewrite write_row_lookup.
    case_decide as E; [|done]. exfalso. apply Hj. destruct Hg as [<- _]. rewrite E. by left.
Qed.

Lemma store_keeps def k stored : catalog !! k = Some def -> keeps (store_ ring def stored).
Proof.
  intros Hdef r Hr. unfold store_. eapply acts_bind; [eapply acts_weaken; [apply prepareStored_acts| |]|].
  - intros u r1 H. exact H.
  - intros e r1 D. split; [exact (drew_ok _ _ D Hr)|]. apply D.
  - intros u r1 [D Hg]. eapply acts_bind; [by instantiate (1 := fun _ r2 => r2 = write_row u r1)|].
    intros _ r2 ->. by eapply one_write_ok.
Qed.

Lemma SetRaw_keeps key raw : keeps (SetRaw ring catalog key raw).
Proof.
  intros r Hr. unfold SetRaw. destruct (catalog !! key) as [def|] eqn:Hdef; [|done].
  eapply acts_bind; [apply (act_lift_acts (fun _ r' => r' = r)); [done|by intros; split]|].
  intros stored ? ->. by eapply store_keeps.
Qed.

Lemma Set_keeps key v : keeps (Set_ ring catalog key v).
Proof.
  intros r Hr. unfold Set_. eapply acts_bind; [eapply acts_weaken; [apply prepare_acts| |]|].
  - intros u r1 H. exact H.
  - intros e r1 D. split; [exact (drew_ok _ _ D Hr)|]. apply D.
  - intros u r1 (D & def & Hdef & Hg). eapply acts_bind; [by instantiate (1 := fun _ r2 => r2 = write_row u r1)|].
    intros _ r2 ->. destruct Hg as [E Hg]. rewrite E. by eapply one_write_ok.
Qed.

Lemma SetBatch_keeps us : keeps (SetBatch ring catalog us).
Proof.
  intros r Hr. unfold SetBatch. eapply acts_bind; [eapply acts_weaken; [apply prepare_all_acts| |]|].
  - intros ps r1 H. exact H.
  - intros e r1 D. split; [exact (drew_ok _ _ D Hr)|]. apply D.
  - intros ps r1 [D Hps]. pose proof (drew_ok _ _ D Hr) as [H1 H2]. case_decide as Hn; [done|].
    eapply acts_bind; [by instantiate (1 := fun _ r2 => r2 = foldl (fun r u => write_row u r) r1 ps)|].
    intros _ r2 ->. split; [exact (write_rows_ok ps r1 Hps H1)|].
    apply (invalidate_ok _ r1); [done|apply write_rows_cache|]. intros k Hk. by apply write_rows_lookup.
Qed.

Lemma Reset_keeps key : keeps (Reset catalog key).
Proof.
  intros r [H1 H2]. unfold Reset. destruct (catalog !! key) as [def|] eqn:Hdef; [|done].
  eapply acts_bind; [by instantiate (1 := fun _ r2 => r2 = r <| rg_rows ::= delete key |>)|].
  intros _ r2 ->. split.
  - intros k raw ts def'. cbn [rg_rows invalidate_keys upd_field]. intros Hk. apply lookup_delete_Some in Hk as [_ Hk]. by eapply H1.
  - apply (invalidate_ok _ r); [done|done|]. intros k Hk. cbn [rg_rows upd_field]. apply lookup_delete_ne. set_solver.
Qed.

(** ** Reading *)

Lemma load_ok r key def : rows_ok r -> catalog !! key = Some def -> exists e, load ring def (rg_rows r) = Ok e.
Proof.
  intros Hr Hdef. destruct (Hfiled _ _ Hdef) as [Hk _]. unfold load. rewrite Hk.
  destruct (rg_rows r !! key) as [[raw ts]|] eqn:Er; [|eauto].
  destruct (Hr _ _ _ _ Er Hdef) as (_ & v & Hv & _). rewrite Hv. cbn. eauto.
Qed.

Lemma fill_ok r key def e : reg_ok r -> catalog !! key = Some def -> load ring def (rg_rows r) = Ok e ->
  reg_ok (fill def (rg_generation r) e r) /\ rg_rows (fill def (rg_generation r) e r) = rg_rows r.
Proof.
  intros [H1 H2] Hdef He. unfold fill. rewrite Z.eqb_refl. split; [|done]. split; [exact H1|].
  destruct (Hfiled _ _ Hdef) as [Hk _]. intros k e' def'. cbn [rg_cache rg_rows upd_field]. rewrite Hk.
  destruct (decide (k = key)) as [->|Hne].
  - rewrite lookup_insert_eq. intros [= <-] Hd. rewrite Hdef in Hd. by injection Hd as <-.
  - rewrite lookup_insert_ne by done. apply H2.
Qed.

(** A read gives what the row holds, cached or not. *)
Lemma Get_load r key def : reg_ok r -> catalog !! key = Some def ->
  exists e r', load ring def (rg_rows r) = Ok e /\ Get ring catalog key r = (Ok (ce_val e), r') /\
    reg_ok r' /\ rg_rows r' = rg_rows r.
Proof.
  intros Hr Hdef. destruct (load_ok r key def (proj1 Hr) Hdef) as [e He]. exists e. unfold Get. rewrite Hdef.
  cbv [mbind act_mbind act_bind act_gets]. destruct (lookup_cache def r) as [e'|] eqn:Ec.
  - exists r. assert (load ring def (rg_rows r) = Ok e') as He'.
    { unfold lookup_cache in Ec. destruct (String.eqb (de_Category def) "backup"); [done|].
      destruct (Hfiled _ _ Hdef) as [Hk _]. rewrite Hk in Ec. by apply (proj2 Hr key). }
    rewrite He in He'. injection He' as ->. done.
  - exists (fill def (rg_generation r) e r). unfold act_lift. rewrite He. split; [done|]. split; [done|]. by eapply fill_ok.
Qed.

Lemma Get_keeps key : keeps (Get ring catalog key).
Proof.
  intros r Hr. destruct (catalog !! key) as [def|] eqn:Hdef; [|unfold acts, Get; by rewrite Hdef].
  destruct (Get_load r key def Hr Hdef) as (e & r' & _ & HG & Hr' & _). unfold acts. by rewrite HG.
Qed.

(** ** Operations as a whole *)

Inductive op :=
| OpSetRaw (key raw : string)
| OpSet (key : string) (v : value)
| OpSetBatch (us : list Update)
| OpReset (key : string)
| OpGet (key : string)
| OpTick (now : Z).

Definition run_op (o : op) (r : registry) : registry :=
  match o with
  | OpSetRaw key raw => (SetRaw ring catalog key raw r).2
  | OpSet key v => (Set_ ring catalog key v r).2
  | OpSetBatch us => (SetBatch ring catalog us r).2
  | OpReset key => (Reset catalog key r).2
  | OpGet key => (Get ring catalog key r).2
  | OpTick now => r <| rg_now := now |>
  end.

Definition empty_registry (now : Z) : registry := MkRegistry ∅ ∅ 0 now 0.

Lemma keeps_snd {X} (m : Reg X) r : keeps m -> reg_ok r -> reg_ok (m r).2.
Proof. intros Hm Hr. specialize (Hm r Hr). unfold acts in Hm. destruct (m r) as [[x|e] r']; [done|]. by destruct Hm. Qed.

Lemma run_op_ok o r : reg_ok r -> reg_ok (run_op o r).
Proof.
  intros Hr. destruct o; [..|done]; apply keeps_snd; try done;
    auto using SetRaw_keeps, Set_keeps, SetBatch_keeps, Reset_keeps, Get_keeps.
Qed.

Lemma run_ops_ok ops r : reg_ok r -> reg_ok (foldl (fun r o => run_op o r) r ops).
Proof. revert r. induction ops as [|o ops IH]; intros r Hr; [done|]. apply IH. by apply run_op_ok. Qed.

Lemma empty_registry_ok now : reg_ok (empty_registry now).
Proof. split; [intros k raw ts def Hk|intros k e def Hk]; cbn in Hk; by rewrite lookup_empty in Hk. Qed.

(** ** Round trips *)

(** A value a caller of the language can build: integers of 64 bits, texts of
    valid UTF-8 in the lists, which are stored as JSON. *)
Definition well_typed (v : value) : Prop :=
  match v with
  | VInt n | VInt64 n => is_i64 n
  | VStrings (Some l) => Forall utf8 l
  | _ => True
  end.

(** What a read gives after [v] was set. *)
Definition settled (def : Definition_) (v : value) : value :=
  match de_Kind def, v with
  | KindInt, _ => match toInt v with Some n => VInt n | None => v end
  | KindString, VString "" | KindSecret, VString "" => redacted def (de_Default def)
  | _, _ => redacted def v
  end.

Lemma float_int_range m e : is_i64 (float_int m e).
Proof.
  unfold float_int. cbv zeta. generalize (if 0 <=? e then m * 2 ^ e else Z.quot m (2 ^ (- e))) as n. intros n.
  destruct (Z.leb_spec (- 2 ^ 63) n), (Z.ltb_spec n (2 ^ 63)); cbn [andb]; try apply i64_range. unfold is_i64. lia.
Qed.

Lemma toInt_range v n : well_typed v -> toInt v = Some n -> is_i64 n.
Proof. destruct v; cbn; try done; intros Hv [= <-]; [done|done|apply float_int_range]. Qed.

(** Encoding then decoding a value of the kind. *)
Lemma decode_encode def v stored : de_Kind def <> KindSecret -> well_typed v -> encode def v = Ok stored ->
  decode ring def stored = Ok (match de_Kind def with KindInt => match toInt v with Some n => VInt n | None => v end | _ => v end) /\
  (de_Kind def = KindString \/ stored <> "").
Proof.
  unfold encode, decode. intros Hk Hv. destruct (de_Kind def) eqn:K; [| | | |done].
  - destruct v; try done. intros [= <-]. auto.
  - destruct (toInt v) as [n|] eqn:En; [|done]. intros [= <-]. pose proof (toInt_range _ _ Hv En).
    rewrite parse_int64_text by done. split; [done|]. right. apply int_text_nonempty.
  - destruct v; try done. intros [= <-]. rewrite parse_bool_text. split; [done|]. right. by destruct b.
  - destruct v as [| | | | | |l|]; try done. intros [= <-]. rewrite unmarshal_marshal_list.
    + split; [done|]. right. by destruct l.
    + intros l' ->. exact Hv.
Qed.

(** What is written for a stored text. *)
Lemma prepareStored_ok def stored r u r1 : prepareStored ring def stored r = (Ok u, r1) ->
  drew r r1 /\ pu_def u = def /\
  if decide (de_Kind def = KindSecret)
  then (stored = "" /\ pu_value u = "") \/ (stored <> "" /\ pu_value u <> "" /\ ring_DecryptString ring (pu_value u) = Ok stored)
  else pu_value u = stored.
Proof.
  unfold prepareStored. destruct (decide (de_Kind def = KindSecret)) as [Hk|Hk]; cbv [mbind act_mbind act_bind act_lift].
  - destruct (validateValue def (VString stored)) as [[]|e]; [|done].
    destruct (String.eqb_spec stored "") as [->|Hne]; [intros [= <- <-]; split; [done|]; split; [done|]; by left|].
    cbn [EncryptString act_ret]. intros [= <- <-]. split; [done|]. split; [done|]. right. split; [done|]. split; [done|].
    cbn [pu_value]. by rewrite DecryptString_seal by apply random_length.
  - destruct (decode ring def stored) as [v|]; [|done]. destruct (validateValue def v) as [[]|]; [|done].
    by intros [= <- <-].
Qed.

Lemma prepare_ok key v r u r1 : prepare ring catalog key v r = (Ok u, r1) ->
  exists def stored, catalog !! key = Some def /\ encode def v = Ok stored /\ prepareStored ring def stored r = (Ok u, r1).
Proof.
  unfold prepare. destruct (catalog !! key) as [def|]; [|done]. cbv [mbind act_mbind act_bind act_lift].
  destruct (encode def v) as [stored|] eqn:He; [|done]. eauto.
Qed.

Lemma Set_ok key v r r' : Set_ ring catalog key v r = (Ok tt, r') ->
  exists def stored u r1, catalog !! key = Some def /\ encode def v = Ok stored /\
    prepareStored ring def stored r = (Ok u, r1) /\ r' = invalidate_keys [de_Key def] (write_row u r1).
Proof.
  unfold Set_. intros (u & r1 & Hp & H)%act_bind_ok. destruct (prepare_ok _ _ _ _ _ Hp) as (def & stored & Hd & He & Hs).
  exists def, stored, u, r1. destruct (prepareStored_ok _ _ _ _ _ Hs) as (_ & E & _). rewrite E in H.
  apply act_bind_ok in H as ([] & r2 & [= <-] & [= <-]). done.
Qed.

Lemma load_written def u r1 : pu_def u = def ->
  load ring def (rg_rows (invalidate_keys [de_Key def] (write_row u r1))) =
  if String.eqb (pu_value u) "" then Ok (MkEntry (redacted def (de_Default def)) None)
  else v ← decode ring def (pu_value u); Ok (MkEntry (redacted def v) (Some (rg_now r1))).
Proof.
  intros E. unfold load. change (rg_rows (invalidate_keys ?k ?r)) with (rg_rows r).
  rewrite write_row_lookup, E, decide_True by done. by destruct (String.eqb (pu_value u) "").
Qed.

(** ** Theorems: one operation *)


(** A value that was set is what the next read returns. *)
Theorem Set_Get key v r r' : reg_ok r -> well_typed v -> Set_ ring catalog key v r = (Ok tt, r') ->
  exists def, catalog !! key = Some def /\ (Get ring catalog key r').1 = Ok (settled def v) /\
    (de_Kind def = KindSecret -> forall s, v = VString s ->
      (GetSecret ring catalog key r').1 = Ok (if String.eqb s "" then match de_Default def with VString d => d | _ => "" end else s)).
Proof.
  intros Hr Hv H. destruct (Set_ok _ _ _ _ H) as (def & stored & u & r1 & Hdef & He & Hp & E). exists def. split; [done|].
  destruct (prepareStored_ok _ _ _ _ _ Hp) as (D & Eu & Hst). destruct (Hfiled _ _ Hdef) as [Hkey _].
  assert (reg_ok r') as Hr'. { pose proof (Set_keeps key v r Hr) as Hk. unfold acts in Hk. by rewrite H in Hk. }
  destruct (Get_load r' key def Hr' Hdef) as (e & r2 & Hload & HG & _). rewrite HG. cbn [fst].
  rewrite E, (load_written _ _ _ Eu) in Hload. case_decide as Hk.
  - assert (exists s, v = VString s /\ stored = s) as (s & -> & ->).
    { unfold encode in He. rewrite Hk in He. destruct v; try done. injection He as <-. eauto. }
    split.
    + f_equal. unfold settled. rewrite Hk. destruct Hst as [[-> Hu]|(Hne & Hu & Hd)].
      * rewrite Hu in Hload. by injection Hload as <-.
      * rewrite (proj2 (String.eqb_neq _ _) Hu) in Hload. unfold decode in Hload.
        rewrite Hk, (proj2 (String.eqb_neq _ _) Hu), Hd in Hload. injection Hload as <-. cbn [ce_val]. by destruct s.
    + intros _ s' [= <-]. unfold GetSecret. rewrite Hdef, decide_True by done.
      cbv [mbind act_mbind act_bind act_gets]. rewrite E.
      change (rg_rows (invalidate_keys ?k ?x)) with (rg_rows x). rewrite write_row_lookup, decide_True by (rewrite Eu; done).
      destruct Hst as [[-> Hu]|(Hne & Hu & Hd)]; [by rewrite Hu|].
      rewrite (proj2 (String.eqb_neq _ _) Hu). cbn [act_ret fst]. rewrite (proj2 (String.eqb_neq _ _) Hu).
      unfold act_lift. rewrite Hd, (proj2 (String.eqb_neq _ _) Hne). done.
  - split; [|done]. f_equal. destruct (decode_encode def v stored Hk Hv He) as [Hd Hne]. rewrite Hst, Hd in Hload.
    unfold settled. unfold encode in He. destruct (de_Kind def) eqn:K; [| | | |done].
    + destruct v; try done. injection He as ->. destruct (String.eqb_spec stored "") as [->|Hs]; [by injection Hload as <-|].
      injection Hload as <-. cbn [ce_val]. by destruct stored.
    + destruct Hne as [?|Hne]; [done|]. rewrite (proj2 (String.eqb_neq _ _) Hne) in Hload. injection Hload as <-. cbn [ce_val].
      unfold redacted. rewrite decide_False by congruence. done.
    + destruct Hne as [?|Hne]; [done|]. rewrite (proj2 (String.eqb_neq _ _) Hne) in Hload. injection Hload as <-. cbn [ce_val].
      destruct v; done.
    + destruct Hne as [?|Hne]; [done|]. rewrite (proj2 (String.eqb_neq _ _) Hne) in Hload. injection Hload as <-. cbn [ce_val].
      destruct v; done.
Qed.

(** No read of a secret setting yields more than whether it is set. *)
Theorem Get_redacts key def v r r' : reg_ok r -> catalog !! key = Some def -> de_Kind def = KindSecret ->
  Get ring catalog key r = (Ok v, r') -> v = VString "" \/ v = VString "<set>".
Proof.
  intros Hr Hdef Hk HG. destruct (Get_load r key def Hr Hdef) as (e & r2 & Hload & HG' & _).
  rewrite HG in HG'. injection HG' as -> _. assert (forall x, redacted def x = VString "" \/ redacted def x = VString "<set>") as Hx.
  { intros x. unfold redacted. rewrite decide_True by done. destruct x as [| | | | |s| |]; auto. destruct (String.eqb s ""); auto. }
  unfold load in Hload. destruct (rg_rows r !! de_Key def) as [[raw ts]|]; [|injection Hload as <-; apply Hx].
  destruct (decode ring def raw) as [x|]; [|done]. injection Hload as <-. apply Hx.
Qed.

(** ** A batch and its settings one by one *)

Fixpoint set_each (us : list Update) : Reg unit :=
  match us with [] => act_ret tt | u :: us => _ ← Set_ ring catalog (up_Key u) (up_Value u); set_each us end.

(** Preparing looks at the random source only. *)
Lemma prepareStored_draws def stored r q : rg_draws r = rg_draws q ->
  (prepareStored ring def stored r).1 = (prepareStored ring def stored q).1 /\
  rg_draws (prepareStored ring def stored r).2 = rg_draws (prepareStored ring def stored q).2.
Proof.
  intros E. unfold prepareStored. cbv [mbind act_mbind act_bind act_lift].
  destruct (decide (de_Kind def = KindSecret)); [|by destruct (decode ring def stored) as [v|]; [destruct (validateValue def v)|]].
  destruct (validateValue def (VString stored)); [|done]. destruct (String.eqb stored ""); [done|].
  cbn. by rewrite E.
Qed.

Lemma prepare_draws key v r q : rg_draws r = rg_draws q ->
  (prepare ring catalog key v r).1 = (prepare ring catalog key v q).1 /\
  rg_draws (prepare ring catalog key v r).2 = rg_draws (prepare ring catalog key v q).2.
Proof.
  intros E. unfold prepare. destruct (catalog !! key) as [def|]; [|done]. cbv [mbind act_mbind act_bind act_lift].
  destruct (encode def v); [|done]. by apply prepareStored_draws.
Qed.

Lemma write_rows_congr ps r q k : rg_rows r !! k = rg_rows q !! k -> rg_now r = rg_now q ->
  rg_rows (foldl (fun r u => write_row u r) r ps) !! k = rg_rows (foldl (fun r u => write_row u r) q ps) !! k.
Proof.
  revert r q. induction ps as [|p ps IH]; intros r q Hk Hn; [done|]. cbn [foldl]. apply IH.
  - rewrite !write_row_lookup, Hn. by destruct (decide _).
  - destruct (write_row_cache p r) as (_ & _ & -> & _). by destruct (write_row_cache p q) as (_ & _ & -> & _).
Qed.

(** One by one from [q], all at once from [r], which differ only in what was
    already written. *)
Lemma set_each_prepared us r q : rg_draws r = rg_draws q -> rg_now r = rg_now q ->
  match prepare_all ring catalog us r, set_each us q with
  | (Ok ps, r1), (Ok _, q1) => rg_draws r1 = rg_draws q1 /\
      (forall k, rg_rows q1 !! k = rg_rows (foldl (fun r u => write_row u r) q ps) !! k) /\
      rg_cache q1 = foldl (fun m k => delete k m) (rg_cache q) ((fun u => de_Key (pu_def u)) <$> ps)
  | (Err e, _), (Err e', _) => e = e'
  | _, _ => False
  end.
Proof.
  revert r q. induction us as [|u us IH]; intros r q Hd Hn; [done|]. cbn [prepare_all set_each].
  pose proof (prepare_draws (up_Key u) (up_Value u) r q Hd) as [E1 E2].
  pose proof (prepare_acts (up_Key u) (up_Value u) r) as P1. pose proof (prepare_acts (up_Key u) (up_Value u) q) as P2.
  unfold acts, Set_ in *. cbv [mbind act_mbind act_bind].
  destruct (prepare ring catalog (up_Key u) (up_Value u) r) as [[p|e] r1],
    (prepare ring catalog (up_Key u) (up_Value u) q) as [[p'|e'] q1]; cbn [fst snd] in *; try done; [|by injection E1 as ->].
  injection E1 as <-. destruct P1 as ((_ & _ & _ & N1) & _), P2 as ((R2 & C2 & _ & N2) & _).
  cbn [write invalidate act_modify]. set (q2 := invalidate_keys [de_Key (pu_def p)] (write_row p q1)).
  assert (rg_draws r1 = rg_draws q2) as Hd2 by (rewrite E2; symmetry; apply (write_row_cache p q1)).
  assert (rg_now q2 = rg_now q1) as Hn3 by apply (write_row_cache p q1).
  assert (rg_now r1 = rg_now q2) as Hn2 by congruence. specialize (IH r1 q2 Hd2 Hn2).
  change (act_modify (invalidate_keys [de_Key (pu_def p)]) (write_row p q1)) with (@Ok err _ tt, q2).
  cbv beta iota. destruct (prepare_all ring catalog us r1) as [[ps|e] r3], (set_each us q2) as [[[]|e'] q3]; try done.
  destruct IH as (I1 & I2 & I3). split; [done|]. split.
  - intros k. rewrite I2. cbn [foldl]. apply write_rows_congr.
    + change (rg_rows q2) with (rg_rows (write_row p q1)). rewrite !write_row_lookup, R2, N2. by destruct (decide _).
    + destruct (write_row_cache p q) as (_ & _ & -> & _). congruence.
  - rewrite I3. unfold q2. cbn. f_equal. f_equal. destruct (write_row_cache p q1) as (-> & _). done.
Qed.

Lemma prepare_all_keys us r ps r1 : prepare_all ring catalog us r = (Ok ps, r1) ->
  (fun u => de_Key (pu_def u)) <$> ps = up_Key <$> us.
Proof.
  revert r ps. induction us as [|u us IH]; intros r ps; cbn [prepare_all]; [by intros [= <- _]|].
  intros (p & r2 & Hp & H)%act_bind_ok. apply act_bind_ok in H as (qs & r3 & Hq & [= <- <-]).
  rewrite !fmap_cons, (IH _ _ Hq). f_equal. destruct (prepare_ok _ _ _ _ _ Hp) as (def & stored & Hd & _ & Hs).
  destruct (prepareStored_ok _ _ _ _ _ Hs) as (_ & -> & _). by destruct (Hfiled _ _ Hd).
Qed.

(** A batch leaves the other keys alone. *)
Lemma SetBatch_untouched us r r' k : SetBatch ring catalog us r = (Ok tt, r') -> k ∉ up_Key <$> us ->
  rg_rows r' !! k = rg_rows r !! k.
Proof.
  unfold SetBatch. intros (ps & r1 & Hp & H)%act_bind_ok Hk. rewrite <-(prepare_all_keys _ _ _ _ Hp) in Hk.
  pose proof (prepare_all_acts us r) as D. unfold acts in D. rewrite Hp in D. destruct D as ((Er & _) & _). case_decide.
  - injection H as <-. by rewrite Er.
  - apply act_bind_ok in H as ([] & r2 & [= <-] & [= <-]). change (rg_rows (invalidate_keys ?a ?b)) with (rg_rows b).
    rewrite write_rows_lookup by done. by rewrite Er.
Qed.

(** A batch succeeds when its settings succeed one by one, and leaves the same
    table and the same cache. *)
Theorem SetBatch_sequential us r :
  match SetBatch ring catalog us r, set_each us r with
  | (Ok _, r1), (Ok _, r2) => rg_rows r1 = rg_rows r2 /\ rg_cache r1 = rg_cache r2
  | (Err e, r1), (Err e', _) => e = e' /\ rg_rows r1 = rg_rows r
  | _, _ => False
  end.
Proof.
  pose proof (set_each_prepared us r r eq_refl eq_refl) as H. pose proof (prepare_all_acts us r) as P.
  unfold SetBatch, acts in *. cbv [mbind act_mbind act_bind].
  destruct (prepare_all ring catalog us r) as [[ps|e] r1], (set_each us r) as [[[]|e'] r2]; try done.
  - destruct H as (_ & H2 & H3), P as ((Er & Ec & _ & En) & _). case_decide as Hps.
    + subst. cbn in *. split; [apply map_eq; intros k; by rewrite H2, Er|congruence].
    + cbn [write_all act_modify]. unfold act_modify. split.
      * apply map_eq. intros k. change (rg_rows (invalidate_keys ?a ?b)) with (rg_rows b). rewrite H2.
        apply write_rows_congr; [by rewrite Er|done].
      * rewrite H3. unfold invalidate_keys. cbn [rg_cache upd_field]. by rewrite write_rows_cache, Ec.
  - destruct P as (Er & _). auto.
Qed.

(** The value a text stands for. *)
Definition parsed (def : Definition_) (raw : string) : result err value :=
  match de_Kind def with
  | KindInt => match parse_int64 (trim_space raw) with Some n => Ok (VInt n) | None => Err ErrInvalid end
  | KindBool => s ← raw_text def raw; match parse_bool s with Some b => Ok (VBool b) | None => Err ErrInvalid end
  | KindStringList =>
      let parts := filter (fun p => p <> "") (trim_space <$> str_split "," raw) in
      Ok (VStrings (if decide (parts = []) then None else Some parts))
  | _ => Ok (VString raw)
  end.

(** The textual form sets what the typed form sets. *)
Theorem SetRaw_Set key def raw r : catalog !! key = Some def ->
  match parsed def raw with
  | Ok v => SetRaw ring catalog key raw r = Set_ ring catalog key v r
  | Err e => SetRaw ring catalog key raw r = (Err e, r)
  end.
Proof.
  intros Hdef. assert (forall v stored, raw_text def raw = Ok stored -> encode def v = Ok stored ->
    SetRaw ring catalog key raw r = Set_ ring catalog key v r) as Hok.
  { intros v stored H1 H2. unfold SetRaw, Set_, prepare. rewrite Hdef. unfold store_. cbv [mbind act_mbind act_bind act_lift].
    rewrite H1, H2. pose proof (prepareStored_ok def stored r) as Hp.
    destruct (prepareStored ring def stored r) as [[u|e] r1]; [|done]. by destruct (Hp _ _ eq_refl) as (_ & -> & _). }
  assert (forall e, raw_text def raw = Err e -> SetRaw ring catalog key raw r = (Err e, r)) as Herr.
  { intros e H1. unfold SetRaw. rewrite Hdef. cbv [mbind act_mbind act_bind act_lift]. by rewrite H1. }
  unfold parsed. destruct (de_Kind def) eqn:K.
  - apply (Hok _ raw); unfold raw_text, encode; by rewrite K.
  - destruct (parse_int64 (trim_space raw)) as [n|] eqn:E.
    + apply (Hok _ (int_text n)); unfold raw_text, encode; rewrite K; [by rewrite E|done].
    + apply Herr. unfold raw_text. by rewrite K, E.
  - destruct (raw_text def raw) as [s|e] eqn:E; cbn [mbind result_bind rbind]; [|by apply Herr].
    assert (exists b, s = bool_text b) as [b ->].
    { unfold raw_text in E. rewrite K in E. cbv zeta in E. destruct (existsb _ _); [injection E as <-; by exists true|].
      destruct (existsb _ _); [injection E as <-; by exists false|done]. }
    rewrite parse_bool_text. apply (Hok _ (bool_text b)); [done|]. unfold encode. by rewrite K.
  - cbv zeta. apply (Hok _ (marshal_list (if decide (filter (fun p => p <> "") (trim_space <$> str_split "," raw) = []) then None
      else Some (filter (fun p => p <> "") (trim_space <$> str_split "," raw))))); unfold raw_text, encode; by rewrite K.
  - apply (Hok _ raw); unfold raw_text, encode; by rewrite K.
Qed.

Lemma prepareStored_result def stored r : (prepareStored ring def stored r).1 =
  match (if decide (de_Kind def = KindSecret) then Ok (VString stored) else decode ring def stored) with
  | Ok v => match validateValue def v with Ok _ => (prepareStored ring def stored r).1 | Err e => Err e end
  | Err e => Err e
  end /\
  (forall v, (if decide (de_Kind def = KindSecret) then Ok (VString stored) else decode ring def stored) = Ok v ->
    validateValue def v = Ok tt -> is_ok (prepareStored ring def stored r).1 = true).
Proof.
  unfold prepareStored. cbv [mbind act_mbind act_bind act_lift].
  destruct (if decide (de_Kind def = KindSecret) then _ else _) as [v|e]; [|done].
  destruct (validateValue def v) as [[]|e] eqn:E; [|split; [done|]; intros v' [= <-]; congruence].
  split; [done|]. intros v' _ _. destruct (decide _); [|done]. by destruct (String.eqb stored "").
Qed.

Lemma Set_result key v r def : catalog !! key = Some def ->
  (Set_ ring catalog key v r).1 =
  match encode def v with
  | Ok stored => match (prepareStored ring def stored r).1 with Ok _ => Ok tt | Err e => Err e end
  | Err e => Err e
  end.
Proof.
  intros Hd. unfold Set_, prepare. rewrite Hd. cbv [mbind act_mbind act_bind act_lift].
  destruct (encode def v) as [stored|]; [|done]. by destruct (prepareStored ring def stored r) as [[u|e] r1].
Qed.

(** Validating a value and setting it agree, error for error. *)
Theorem Validate_Set key v r : well_typed v -> (Set_ ring catalog key v r).1 = Validate catalog key v.
Proof.
  intros Hv. unfold Validate. destruct (catalog !! key) as [def|] eqn:Hd; [|unfold Set_, prepare; by rewrite Hd].
  rewrite (Set_result _ _ _ _ Hd). pose proof (decode_encode def v) as Hde.
  assert (forall stored w, encode def v = Ok stored ->
    (if decide (de_Kind def = KindSecret) then Ok (VString stored) else decode ring def stored) = Ok w ->
    match encode def v with
    | Ok stored => match (prepareStored ring def stored r).1 with Ok _ => Ok tt | Err e => Err e end
    | Err e => Err e
    end = validateValue def w) as Hgo.
  { intros stored w He Hw. rewrite He. destruct (prepareStored_result def stored r) as [H1 H2]. rewrite Hw in H1. specialize (H2 w Hw).
    destruct (validateValue def w) as [[]|e]; [|by rewrite H1]. specialize (H2 eq_refl). by destruct (prepareStored ring def stored r).1. }
  unfold encode in Hde, Hgo |- *. destruct (de_Kind def) eqn:K.
  - destruct v as [| | | | |s| |]; try done. apply (Hgo s); [done|]. rewrite decide_False by done. unfold decode. by rewrite K.
  - destruct (toInt v) as [n|] eqn:En; [|done]. apply (Hgo (int_text n)); [done|]. rewrite decide_False by done.
    destruct (Hde (int_text n) ltac:(done) Hv eq_refl) as [-> _]. done.
  - destruct v as [| | | |b| | |]; try done. apply (Hgo (bool_text b)); [done|]. rewrite decide_False by done.
    destruct (Hde (bool_text b) ltac:(done) Hv eq_refl) as [-> _]. done.
  - destruct v as [| | | | | |l|]; try done. apply (Hgo (marshal_list l)); [done|]. rewrite decide_False by done.
    destruct (Hde (marshal_list l) ltac:(done) Hv eq_refl) as [-> _]. done.
  - destruct v as [| | | | |s| |]; try done. apply (Hgo s); [done|]. by rewrite decide_True.
Qed.

(** A read never fails, and what it gives is accepted by the definition, the
    default being so. *)
Lemma Get_valid r key def : reg_ok r -> catalog !! key = Some def -> de_Kind def <> KindSecret ->
  validateValue def (de_Default def) = Ok tt ->
  exists v r', Get ring catalog key r = (Ok v, r') /\ validateValue def v = Ok tt.
Proof.
  intros Hr Hd Hk Hdef. destruct (Get_load r key def Hr Hd) as (e & r' & Hload & HG & _). exists (ce_val e), r'. split; [done|].
  unfold load in Hload. destruct (Hfiled _ _ Hd) as [Hkey _]. rewrite Hkey in Hload.
  destruct (rg_rows r !! key) as [[raw ts]|] eqn:Er.
  - destruct (proj1 Hr _ _ _ _ Er Hd) as (_ & v & Hv & Hok). rewrite Hv in Hload. injection Hload as <-.
    unfold redacted. by rewrite decide_False.
  - injection Hload as <-. unfold redacted. by rewrite decide_False.
Qed.

(** ** The REST handlers *)

Lemma prepare_all_refused us u r : u ∈ us ->
  (forall q, is_ok (prepare ring catalog (up_Key u) (up_Value u) q).1 = false) ->
  is_ok (prepare_all ring catalog us r).1 = false.
Proof.
  intros Hu Hbad. revert r. induction us as [|x us IH]; intros r; [by apply elem_of_nil in Hu|]. cbn [prepare_all].
  cbv [mbind act_mbind act_bind]. apply elem_of_cons in Hu as [<-|Hu].
  - specialize (Hbad r). by destruct (prepare ring catalog (up_Key u) (up_Value u) r) as [[p|e] r1].
  - destruct (prepare ring catalog (up_Key x) (up_Value x) r) as [[p|e] r1]; [|done]. specialize (IH Hu r1).
    by destruct (prepare_all ring catalog us r1) as [[ps|e] r2].
Qed.

Lemma sorted_updates_elem req key v : req !! key = Some v -> MkUpdate key v ∈ sorted_updates req.
Proof.
  intros Hk. unfold sorted_updates. apply list_elem_of_fmap. exists (key, v). split; [done|].
  rewrite merge_sort_Permutation. by apply elem_of_map_to_list.
Qed.

(** What [encoding/json] decodes into an [any]. *)
Definition json_value (v : value) : bool :=
  match v with VNil | VFloat _ _ | VBool _ | VString _ | VOther => true | _ => false end.

(** No request can change a list setting: a JSON array is never a [[]string],
    and the whole batch is refused. *)
Theorem api_refuses_lists req key v def r : reg_ok r -> req !! key = Some v -> json_value v = true ->
  catalog !! key = Some def -> de_Kind def = KindStringList ->
  exists e r', handleSettingsUpdate ring catalog req r = (Err e, r') /\ rg_rows r' = rg_rows r.
Proof.
  intros Hr Hk Hv Hdef HK. unfold handleSettingsUpdate. destruct (_ || _); [by eexists _, _|]. cbv zeta.
  assert (is_ok (SetBatch ring catalog (sorted_updates req) r).1 = false) as Hbad.
  { unfold SetBatch. cbv [mbind act_mbind act_bind].
    assert (is_ok (prepare_all ring catalog (sorted_updates req) r).1 = false) as H.
    { eapply prepare_all_refused; [by eapply sorted_updates_elem|]. intros q. cbn [up_Key up_Value]. unfold prepare. rewrite Hdef.
      cbv [mbind act_mbind act_bind act_lift]. unfold encode. rewrite HK. by destruct v. }
    by destruct (prepare_all ring catalog (sorted_updates req) r) as [[ps|e] r1]. }
  pose proof (SetBatch_keeps (sorted_updates req) r Hr) as Hkeep. unfold acts in Hkeep. cbv [mbind act_mbind act_bind].
  destruct (SetBatch ring catalog (sorted_updates req) r) as [[x|e] r1]; [done|]. exists e, r1. by destruct Hkeep.
Qed.

(** What the catalogue shows over the API of a secret is whether it is set. *)
Theorem api_hides_secrets order r items r' : handleSettingsGet ring catalog order r = (Ok items, r') ->
  Forall (fun o => so_Secret o = true -> so_Value o = VNil) items.
Proof.
  revert r items r'. induction order as [|d order IH]; intros r items r'; cbn [handleSettingsGet]; [by intros [= <- _]|].
  destruct (de_Secret d); intros (s & r1 & _ & H)%act_bind_ok; apply act_bind_ok in H as (l & r2 & Hl & [= <- _]);
    apply IH in Hl; [by constructor|]. destruct s; [by constructor|done].
Qed.
End Facts.

(** ** Witnesses *)

Definition w_positive (v : value) : result err unit := match v with VStrings _ => Ok tt | _ => Err ErrPanic end.
Definition w_defs : list Definition_ := [
  MkDef "network.mtu" KindInt (VInt 1420) 576 65535 None None "networking" false false true;
  MkDef "network.dns" KindStringList (VStrings (Some ["1.1.1.1"])) 0 0 None (Some w_positive) "networking" false false true;
  MkDef "backup.password" KindSecret (VString "") 0 0 None None "backup" true false false].
Definition w_catalog : gmap string Definition_ :=
  Eval vm_compute in match New (Some w_ring) w_defs with Ok c => c | Err _ => ∅ end.

(** The amd64 conversion. *)
#[export] Instance amd64_overflow : FloatOverflow := fun _ _ => - 2 ^ 63.

Lemma w_filed : filed w_catalog.
Proof. apply (New_filed (Some w_ring) w_defs). vm_compute. reflexivity. Qed.

Lemma w_empty_ok : reg_ok w_ring w_catalog (empty_registry 5).
Proof. apply (empty_registry_ok w_ring w_catalog 5). Qed.

Definition w_set : registry := Eval vm_compute in (Set_ w_ring w_catalog "backup.password" (VString "s3cret!!") (empty_registry 5)).2.

Lemma w_set_run : Set_ w_ring w_catalog "backup.password" (VString "s3cret!!") (empty_registry 5) = (Ok tt, w_set).
Proof. vm_compute. reflexivity. Qed.

Lemma w_set_ok : reg_ok w_ring w_catalog w_set.
Proof.
  pose proof (Set_keeps w_ring w_catalog w_filed "backup.password" (VString "s3cret!!") (empty_registry 5) w_empty_ok) as H.
  unfold acts in H. by rewrite w_set_run in H.
Qed.

Theorem Set_Get_witness : exists def, w_catalog !! "backup.password" = Some def /\
  (Get w_ring w_catalog "backup.password" w_set).1 = Ok (settled def (VString "s3cret!!")) /\
  (de_Kind def = KindSecret -> forall s, VString "s3cret!!" = VString s ->
    (GetSecret w_ring w_catalog "backup.password" w_set).1 =
      Ok (if String.eqb s "" then match de_Default def with VString d => d | _ => "" end else s)).
Proof.
  exact (Set_Get w_ring w_catalog w_filed "backup.password" (VString "s3cret!!") (empty_registry 5) w_set
    w_empty_ok I w_set_run).
Defined.


Theorem Get_redacts_witness :
  (VString "<set>" = VString "") \/ (VString "<set>" = VString "<set>").
Proof.
  apply (Get_redacts w_ring w_catalog w_filed "backup.password"
    (MkDef "backup.password" KindSecret (VString "") 0 0 None None "backup" true false false)
    (VString "<set>") w_set (Get w_ring w_catalog "backup.password" w_set).2 w_set_ok); vm_compute; reflexivity.
Defined.

Definition w_batch : list Update := [MkUpdate "network.mtu" (VInt 1400); MkUpdate "backup.password" (VString "long enough")].

Theorem SetBatch_sequential_witness :
  match SetBatch w_ring w_catalog w_batch (empty_registry 5),
        set_each w_ring w_catalog w_batch (empty_registry 5) with
  | (Ok _, r1), (Ok _, r2) => rg_rows r1 = rg_rows r2 /\ rg_cache r1 = rg_cache r2
  | (Err e, r1), (Err e', _) => e = e' /\ rg_rows r1 = rg_rows (empty_registry 5)
  | _, _ => False
  end.
Proof. exact (SetBatch_sequential w_ring w_catalog w_batch (empty_registry 5)). Defined.

Theorem SetRaw_Set_witness :
  let def := MkDef "network.mtu" KindInt (VInt 1420) 576 65535 None None "networking" false false true in
  match parsed def " 1380 " with
  | Ok v => SetRaw w_ring w_catalog "network.mtu" " 1380 " (empty_registry 5) = Set_ w_ring w_catalog "network.mtu" v (empty_registry 5)
  | Err e => SetRaw w_ring w_catalog "network.mtu" " 1380 " (empty_registry 5) = (Err e, empty_registry 5)
  end.
Proof. apply (SetRaw_Set w_ring w_catalog). vm_compute. reflexivity. Defined.

Theorem api_refuses_lists_witness :
  exists e r', handleSettingsUpdate w_ring w_catalog {[ "network.dns" := VOther; "network.mtu" := VFloat 1380 0 ]} (empty_registry 5)
    = (Err e, r') /\ rg_rows r' = rg_rows (empty_registry 5).
Proof.
  apply (api_refuses_lists w_ring w_catalog w_filed _ "network.dns" VOther
    (MkDef "network.dns" KindStringList (VStrings (Some ["1.1.1.1"])) 0 0 None (Some w_positive) "networking" false false true));
    [exact w_empty_ok|reflexivity|reflexivity|vm_compute; reflexivity|reflexivity].
Defined.

Theorem Validate_Set_witness : well_typed (VFloat 69 4) /\
  (Set_ w_ring w_catalog "network.mtu" (VFloat 69 4) (empty_registry 5)).1 = Validate w_catalog "network.mtu" (VFloat 69 4).
Proof. split; [exact I|]. apply (Validate_Set w_ring w_catalog). exact I. Defined.
