(* ===== verification/RegistryCache.v ===== *)
(** * The settings cache under concurrent use (internal/settings/settings.go)

    The locked sections of [Get] and of the writers as the steps of any number
    of goroutines: a reader looks the cache up, loads the row, then fills the
    cache; a writer prepares, commits, then invalidates. Between two steps of
    one goroutine any step of another may fall. *)
From stdpp Require Import base tactics strings gmap list.
From Stdlib Require Import ZArith Lia.
From Stdlib Require String.
From S2P Require Import Prelude GoText GoTime Domain Store Crypto Secrets Registry.

Open Scope Z_scope.

(** A reader that missed the cache at a generation, before and after its query. *)
Inductive reading :=
| Missed (def : Definition_) (generation : Z)
| Loaded (def : Definition_) (generation : Z) (e : cacheEntry).

(** What a transaction wrote. *)
Inductive commit :=
| CWrite (ps : list preparedUpdate)
| CReset (key : string).

Definition commit_keys (c : commit) : list string :=
  match c with CWrite ps => (fun u => de_Key (pu_def u)) <$> ps | CReset key => [key] end.

Definition commit_rows (c : commit) (r : registry) : registry :=
  match c with
  | CWrite ps => foldl (fun r u => write_row u r) r ps
  | CReset key => r <| rg_rows ::= delete key |>
  end.

(** The registry, the readers between two steps, and the keys of the writers
    that committed and did not invalidate yet. *)
Record world := MkWorld {
  wo_reg : registry;
  wo_readers : gmap nat reading;
  wo_writers : gmap nat (list string)
}.

Section Cache.
Context `{A : AEAD}.
Context (ring : KeyRing) (catalog : gmap string Definition_) (Hfiled : filed catalog).

Inductive step : world -> world -> Prop :=
| StMiss i key def r rs ws : catalog !! key = Some def -> rs !! i = None -> lookup_cache def r = None ->
    step (MkWorld r rs ws) (MkWorld r (<[i := Missed def (rg_generation r)]> rs) ws)
| StLoad i def g e r rs ws : rs !! i = Some (Missed def g) -> load ring def (rg_rows r) = Ok e ->
    step (MkWorld r rs ws) (MkWorld r (<[i := Loaded def g e]> rs) ws)
| StLoadErr i def g e r rs ws : rs !! i = Some (Missed def g) -> load ring def (rg_rows r) = Err e ->
    step (MkWorld r rs ws) (MkWorld r (delete i rs) ws)
| StFill i def g e r rs ws : rs !! i = Some (Loaded def g e) ->
    step (MkWorld r rs ws) (MkWorld (fill def g e r) (delete i rs) ws)
| StPrepare r r' rs ws : drew r r' -> step (MkWorld r rs ws) (MkWorld r' rs ws)
| StCommit j c r rs ws : ws !! j = None ->
    step (MkWorld r rs ws) (MkWorld (commit_rows c r) rs (<[j := commit_keys c]> ws))
| StInvalidate j keys r rs ws : ws !! j = Some keys ->
    step (MkWorld r rs ws) (MkWorld (invalidate_keys keys r) rs (delete j ws))
| StTick now r rs ws : step (MkWorld r rs ws) (MkWorld (r <| rg_now := now |>) rs ws).

Inductive steps : nat -> world -> world -> Prop :=
| steps_nil w : steps 0 w w
| steps_cons n w1 w2 w3 : steps n w1 w2 -> step w2 w3 -> steps (S n) w1 w3.

(** A write of the key is committed and not yet invalidated. *)
Definition pending (w : world) (k : string) : Prop :=
  exists j keys, wo_writers w !! j = Some keys /\ k ∈ keys.

Definition generation_of (rd : reading) : Z := match rd with Missed _ g | Loaded _ g _ => g end.

(** ** The invariant *)

Record coherent (n : nat) (w : world) : Prop := {
  co_generation : 0 <= rg_generation (wo_reg w) <= Z.of_nat n;
  co_readers i rd : wo_readers w !! i = Some rd -> generation_of rd <= rg_generation (wo_reg w);
  co_filed i rd : wo_readers w !! i = Some rd ->
    match rd with Missed def _ | Loaded def _ _ => catalog !! de_Key def = Some def end;
  co_cache k e def : rg_cache (wo_reg w) !! k = Some e -> catalog !! k = Some def -> ~ pending w k ->
    load ring def (rg_rows (wo_reg w)) = Ok e;
  co_loaded i def g e : wo_readers w !! i = Some (Loaded def g e) -> g = rg_generation (wo_reg w) ->
    ~ pending w (de_Key def) -> load ring def (rg_rows (wo_reg w)) = Ok e
}.

Lemma commit_other c r k : k ∉ commit_keys c -> rg_rows (commit_rows c r) !! k = rg_rows r !! k.
Proof.
  destruct c as [ps|key]; cbn [commit_keys commit_rows]; intros Hk; [by apply write_rows_lookup|].
  cbn [rg_rows upd_field]. apply lookup_delete_ne. set_solver.
Qed.

Lemma write_rows_frame ps r : rg_cache (foldl (fun r u => write_row u r) r ps) = rg_cache r /\
  rg_generation (foldl (fun r u => write_row u r) r ps) = rg_generation r.
Proof.
  revert r. induction ps as [|p ps IH]; intros r; [done|]. cbn [foldl]. destruct (IH (write_row p r)) as [-> ->].
  destruct (write_row_cache p r) as (-> & -> & _). done.
Qed.

Lemma commit_frame c r : rg_cache (commit_rows c r) = rg_cache r /\ rg_generation (commit_rows c r) = rg_generation r.
Proof. destruct c as [ps|key]; [apply write_rows_frame|done]. Qed.

Lemma pending_insert r rs ws j keys k : ws !! j = None ->
  ~ pending (MkWorld r rs (<[j := keys]> ws)) k -> (k ∉ keys) /\ forall r' rs', ~ pending (MkWorld r' rs' ws) k.
Proof.
  intros Hj Hp. split.
  - intros Hk. apply Hp. exists j, keys. cbn. by rewrite lookup_insert_eq.
  - intros r' rs' (j' & keys' & Hj' & Hk). apply Hp. exists j', keys'. cbn in *. rewrite lookup_insert_ne; [done|congruence].
Qed.

Lemma pending_delete r rs ws j keys k : ws !! j = Some keys -> k ∉ keys ->
  ~ pending (MkWorld r rs (delete j ws)) k -> forall r' rs', ~ pending (MkWorld r' rs' ws) k.
Proof.
  intros Hj Hk Hp r' rs' (j' & keys' & Hj' & Hk'). apply Hp. exists j', keys'. cbn in *.
  split; [|done]. rewrite lookup_delete_ne; [done|congruence].
Qed.

Lemma coherent_step n w w' : Z.of_nat (S n) < 2 ^ 64 -> step w w' -> coherent n w -> coherent (S n) w'.
Proof.
  intros Hn Hs [G Rd Fl Ca Lo]. destruct Hs as [i key def r rs ws Hd Hi Hc|i def g e r rs ws Hi He|i def g e r rs ws Hi He|
    i def g e r rs ws Hi|r r' rs ws (Er & Ec & Eg & _)|j c r rs ws Hj|j keys r rs ws Hj|now r rs ws];
    cbn [wo_reg wo_readers wo_writers] in *.
  - destruct (Hfiled _ _ Hd) as [Hk _]. constructor; cbn [wo_reg wo_readers wo_writers]; [lia| | |done|].
    + intros i' rd. rewrite lookup_insert. case_decide; [intros [= <-]; cbn; lia|apply Rd].
    + intros i' rd. rewrite lookup_insert. case_decide; [intros [= <-]; cbn; by rewrite Hk|apply Fl].
    + intros i' def' g' e'. rewrite lookup_insert. case_decide; [done|apply Lo].
  - constructor; cbn [wo_reg wo_readers wo_writers]; [lia| | |done|].
    + intros i' rd. rewrite lookup_insert. case_decide; [intros [= <-]; exact (Rd _ _ Hi)|apply Rd].
    + intros i' rd. rewrite lookup_insert. case_decide; [intros [= <-]; exact (Fl _ _ Hi)|apply Fl].
    + intros i' def' g' e'. rewrite lookup_insert. case_decide; [by intros [= <- <- <-]|apply Lo].
  - constructor; cbn [wo_reg wo_readers wo_writers]; [lia| | |done|].
    + intros i' rd [_ H]%lookup_delete_Some. by eapply Rd.
    + intros i' rd [_ H]%lookup_delete_Some. by eapply Fl.
    + intros i' def' g' e' [_ H]%lookup_delete_Some. by eapply Lo.
  - assert (rg_rows (fill def g e r) = rg_rows r /\ rg_generation (fill def g e r) = rg_generation r) as [Er Eg]
      by (unfold fill; by destruct (_ =? _)).
    constructor; cbn [wo_reg wo_readers wo_writers]; rewrite ?Er, ?Eg; [lia| | | |].
    + intros i' rd [_ H]%lookup_delete_Some. by eapply Rd.
    + intros i' rd [_ H]%lookup_delete_Some. by eapply Fl.
    + intros k e' def'. unfold fill. destruct (Z.eqb_spec (rg_generation r) g) as [Hg|]; [|by apply Ca].
      cbn [rg_cache upd_field]. rewrite lookup_insert. case_decide as Hk; [|by apply Ca].
      subst k. intros [= <-] Hd Hp. pose proof (Fl _ _ Hi) as Hf. cbn in Hf. rewrite Hf in Hd. injection Hd as <-.
      by apply (Lo i def g).
    + intros i' def' g' e' [_ H]%lookup_delete_Some. by eapply Lo.
  - constructor; cbn [wo_reg wo_readers wo_writers]; rewrite ?Er, ?Ec, ?Eg; try done. lia.
  - destruct (commit_frame c r) as [Ec Eg]. constructor; cbn [wo_reg wo_readers wo_writers]; rewrite ?Ec, ?Eg; try done; [lia| |].
    + intros k e def Hk Hd Hp. destruct (pending_insert _ _ _ _ _ _ Hj Hp) as [Hkc Hp'].
      rewrite <-(Ca k e def Hk Hd (Hp' _ _)). apply load_row. destruct (Hfiled _ _ Hd) as [-> _]. by apply commit_other.
    + intros i def g e Hi Hg Hp. destruct (pending_insert _ _ _ _ _ _ Hj Hp) as [Hkc Hp'].
      rewrite <-(Lo i def g e Hi Hg (Hp' _ _)). apply load_row. by apply commit_other.
  - assert (rg_generation (invalidate_keys keys r) = rg_generation r + 1) as Eg.
    { unfold invalidate_keys. cbn [rg_generation upd_field]. apply u64_id. unfold is_u64. lia. }
    constructor; cbn [wo_reg wo_readers wo_writers]; rewrite ?Eg; [lia| |done| |].
    + intros i rd Hi. specialize (Rd i rd Hi). lia.
    + intros k e def. unfold invalidate_keys. cbn [rg_cache rg_rows upd_field]. rewrite delete_all_lookup.
      case_decide as Hk; [done|]. intros He Hd Hp. apply (Ca k e def He Hd). by eapply pending_delete.
    + intros i def g e Hi Hg. specialize (Rd i _ Hi). cbn in Rd. lia.
  - constructor; cbn [wo_reg wo_readers wo_writers]; try done. cbn [rg_generation upd_field]. lia.
Qed.

Definition idle (r : registry) : world := MkWorld r ∅ ∅.

Lemma coherent_start r : rg_generation r = 0 -> cache_ok ring catalog r -> coherent 0 (idle r).
Proof.
  intros Hg Hc. constructor; cbn [idle wo_reg wo_readers wo_writers]; [lia|..]; try (intros i ? Hi; by rewrite lookup_empty in Hi).
  - intros k e def He Hd _. by eapply Hc.
  - intros i def g e Hi. by rewrite lookup_empty in Hi.
Qed.

Lemma coherent_steps n w w' : steps n w w' -> Z.of_nat n < 2 ^ 64 -> coherent 0 w -> coherent n w'.
Proof.
  induction 1 as [w|n w1 w2 w3 H12 IH H23]; intros Hn H0; [done|]. eapply coherent_step; [done|exact H23|]. apply IH; [lia|done].
Qed.

(** ** Theorems *)

(** C25. A cache hit is what the table holds, whatever reads and writes interleave,
    unless a write of that very key is between its commit and its invalidation.
    The generation counter has 64 bits: fewer steps than that are made. *)
Theorem cache_coherent n r w key def e :
  rg_generation r = 0 -> cache_ok ring catalog r -> steps n (idle r) w -> Z.of_nat n < 2 ^ 64 ->
  catalog !! key = Some def -> lookup_cache def (wo_reg w) = Some e -> ~ pending w key ->
  load ring def (rg_rows (wo_reg w)) = Ok e.
Proof.
  intros Hg Hc Hs Hn Hd Hl Hp. pose proof (coherent_steps _ _ _ Hs Hn (coherent_start r Hg Hc)) as [_ _ _ Ca _].
  unfold lookup_cache in Hl. destruct (String.eqb (de_Category def) "backup"); [done|].
  destruct (Hfiled _ _ Hd) as [Hk _]. rewrite Hk in Hl. by eapply Ca.
Qed.
End Cache.

Section Operations.
Context `{A : AEAD, R : Random, F : FloatOverflow}.
Context {L : AEADLaws A} {N : RandomLength R}.
Context (ring : KeyRing) (catalog : gmap string Definition_) (Hfiled : filed catalog).

Lemma steps_one w w' : step ring catalog w w' -> steps ring catalog 1 w w'.
Proof. intros H. eapply steps_cons; [constructor|done]. Qed.

(** A goroutine alone: prepare, commit, invalidate. *)
Lemma write_steps r r1 c : drew r r1 ->
  steps ring catalog 3 (idle r) (idle (invalidate_keys (commit_keys c) (commit_rows c r1))).
Proof.
  intros D. eapply steps_cons; [eapply steps_cons; [apply steps_one, StPrepare, D|]|].
  - apply (StCommit _ _ 0 c). apply lookup_empty.
  - assert (delete 0%nat (<[0%nat := commit_keys c]> (∅ : gmap nat (list string))) = ∅) as E
      by (rewrite delete_insert_eq; apply delete_empty).
    pose proof (StInvalidate ring catalog 0 (commit_keys c) (commit_rows c r1) ∅ (<[0%nat := commit_keys c]> ∅)) as H.
    rewrite E in H. apply H. apply lookup_insert_eq.
Qed.

Lemma prepareStored_one def stored r : match prepareStored ring def stored r with
  | (Ok u, r1) => drew r r1 /\ de_Key (pu_def u) = de_Key def | (Err _, r1) => drew r r1 end.
Proof.
  pose proof (prepareStored_acts ring def stored r) as H. unfold acts in H.
  destruct (prepareStored ring def stored r) as [[u|e] r1]; [|done]. by destruct H as (D & -> & _).
Qed.

Lemma prepare_one key v r : match prepare ring catalog key v r with (Ok _, r1) | (Err _, r1) => drew r r1 end.
Proof.
  pose proof (prepare_acts ring catalog key v r) as H. unfold acts in H.
  destruct (prepare ring catalog key v r) as [[u|e] r1]; [|done]. by destruct H.
Qed.

Lemma prepare_all_one us r : match prepare_all ring catalog us r with (Ok _, r1) | (Err _, r1) => drew r r1 end.
Proof.
  pose proof (prepare_all_acts ring catalog us r) as H. unfold acts in H.
  destruct (prepare_all ring catalog us r) as [[u|e] r1]; [|done]. by destruct H.
Qed.

Lemma Get_steps key r : exists n, steps ring catalog n (idle r) (idle (Get ring catalog key r).2).
Proof.
  unfold Get. destruct (catalog !! key) as [def|] eqn:Hd; [|exists 0%nat; constructor].
  cbv [mbind act_mbind act_bind act_gets act_lift]. destruct (lookup_cache def r) eqn:Hc; [exists 0%nat; constructor|].
  assert (forall m : gmap nat reading, m = ∅ -> forall x, delete 0%nat (<[0%nat := x]> m) = ∅) as E
    by (intros m -> x; rewrite delete_insert_eq; apply delete_empty).
  pose proof (StMiss ring catalog 0 key def r ∅ ∅ Hd (lookup_empty _) Hc) as S1.
  destruct (load ring def (rg_rows r)) as [e|e] eqn:He.
  - pose proof (StLoad ring catalog 0 def _ e r _ ∅ (lookup_insert_eq ∅ 0%nat (Missed def (rg_generation r))) He) as S2.
    rewrite insert_insert_eq in S2.
    pose proof (StFill ring catalog 0 def _ e r _ ∅ (lookup_insert_eq ∅ 0%nat (Loaded def (rg_generation r) e))) as S3.
    rewrite (E ∅ eq_refl) in S3. exists 3%nat. eapply steps_cons; [eapply steps_cons; [by apply steps_one|exact S2]|exact S3].
  - pose proof (StLoadErr ring catalog 0 def _ e r _ ∅ (lookup_insert_eq ∅ 0%nat (Missed def (rg_generation r))) He) as S2.
    rewrite (E ∅ eq_refl) in S2. exists 2%nat. eapply steps_cons; [by apply steps_one|exact S2].
Qed.

(** Every operation is a run of these steps by one goroutine. *)
Theorem operations_are_steps o r : exists n, steps ring catalog n (idle r) (idle (run_op ring catalog o r)).
Proof.
  assert (forall r r1, drew r r1 -> exists n, steps ring catalog n (idle r) (idle r1)) as Hdrew
    by (intros q q1 D; exists 1%nat; by apply steps_one, StPrepare).
  destruct o as [key raw|key v|us|key|key|now]; cbn [run_op].
  - unfold SetRaw. destruct (catalog !! key) as [def|] eqn:Hd; [|exists 0%nat; constructor].
    cbv [mbind act_mbind act_bind act_lift]. destruct (raw_text def raw) as [stored|]; [|exists 0%nat; constructor].
    unfold store_. cbv [mbind act_mbind act_bind]. pose proof (prepareStored_one def stored r) as Hp.
    destruct (prepareStored ring def stored r) as [[u|e] r1]; [|by apply Hdrew]. destruct Hp as [D Hk].
    exists 3%nat. rewrite <-Hk. exact (write_steps r r1 (CWrite [u]) D).
  - unfold Set_. cbv [mbind act_mbind act_bind]. pose proof (prepare_one key v r) as Hp.
    destruct (prepare ring catalog key v r) as [[u|e] r1]; [|by apply Hdrew].
    exists 3%nat. exact (write_steps r r1 (CWrite [u]) Hp).
  - unfold SetBatch. cbv [mbind act_mbind act_bind]. pose proof (prepare_all_one us r) as Hp.
    destruct (prepare_all ring catalog us r) as [[ps|e] r1]; [|by apply Hdrew].
    case_decide; [by apply Hdrew|]. exists 3%nat. exact (write_steps r r1 (CWrite ps) Hp).
  - unfold Reset. destruct (catalog !! key) as [def|] eqn:Hd; [|exists 0%nat; constructor].
    exists 3%nat. exact (write_steps r r (CReset key) (drew_refl r)).
  - apply Get_steps.
  - exists 1%nat. apply steps_one, StTick.
Qed.
End Operations.

(** ** Witnesses *)

(** One goroutine reads the default while another raises the MTU: the late fill
    is dropped, and a second read caches the new value. *)
Definition w_mtu : Definition_ := MkDef "network.mtu" KindInt (VInt 1420) 576 65535 None None "networking" false false true.
Definition w_update : preparedUpdate := MkPrepared w_mtu "1380".
Definition w_start : registry := empty_registry 5.
Definition w_written : registry := Eval vm_compute in invalidate_keys ["network.mtu"] (write_row w_update w_start).
Definition w_cached : registry := Eval vm_compute in
  fill w_mtu 1 (MkEntry (VInt 1380) (Some 5)) (fill w_mtu 0 (MkEntry (VInt 1420) None) w_written).

Lemma w_interleaving : steps w_ring w_catalog 8 (idle w_start) (idle w_cached).
Proof.
  eapply steps_cons; [eapply steps_cons; [eapply steps_cons; [eapply steps_cons; [eapply steps_cons; [eapply steps_cons;
    [eapply steps_cons; [eapply steps_cons; [constructor|]|]|]|]|]|]|]|].
  - by apply (StMiss _ _ 0 "network.mtu" w_mtu).
  - by apply (StLoad _ _ 0 w_mtu 0 (MkEntry (VInt 1420) None)).
  - by apply (StCommit _ _ 1 (CWrite [w_update])).
  - by apply (StInvalidate _ _ 1 ["network.mtu"]).
  - by apply (StFill _ _ 0 w_mtu 0 (MkEntry (VInt 1420) None)).
  - by apply (StMiss _ _ 0 "network.mtu" w_mtu).
  - by apply (StLoad _ _ 0 w_mtu 1 (MkEntry (VInt 1380) (Some 5))).
  - by apply (StFill _ _ 0 w_mtu 1 (MkEntry (VInt 1380) (Some 5))).
Qed.

Theorem cache_coherent_witness : load w_ring w_mtu (rg_rows w_cached) = Ok (MkEntry (VInt 1380) (Some 5)).
Proof.
  apply (cache_coherent w_ring w_catalog w_filed 8 w_start (idle w_cached) "network.mtu" w_mtu);
    [reflexivity|apply (empty_registry_ok w_ring w_catalog 5)|exact w_interleaving|reflexivity|vm_compute; reflexivity
    |vm_compute; reflexivity|].
  intros (j & keys & Hj & _). discriminate Hj.
Defined.

Theorem operations_are_steps_witness : exists n,
  steps w_ring w_catalog n (idle w_start) (idle (run_op w_ring w_catalog (OpSetRaw "network.mtu" "1380") w_start)).
Proof. exact (operations_are_steps w_ring w_catalog (OpSetRaw "network.mtu" "1380") w_start). Defined.
