(* ===== verification/Catalog.v ===== *)
(** * The settings of a node (internal/settings/defaults.go, internal/web/settings.go)

    The catalogue with its validators, the settings form of the panel, and what
    the other components can rely on when they read a setting. [url.Parse] is
    an interface. *)
From stdpp Require Import base tactics strings gmap list.
From Stdlib Require Import ZArith Lia Ascii.
From Stdlib Require String.
From S2P Require Import Prelude GoText GoTime Domain Awgparam JsonText Store Ipam NetText Crypto Secrets Iface Registry.

Open Scope Z_scope.

(** The parts of a parsed URL the validator looks at. *)
Record URL := MkURL { url_Scheme : string; url_Host : string; url_RawQuery : string; url_Fragment : string }.
Class UrlSyntax := ParseURL : string -> option URL.

(** ** Validators *)

Definition refuse : result err unit := Err (Plain "refused").
Definition require (b : bool) : result err unit := if b then Ok tt else refuse.

(** [v.(string)] and [v.([]string)]. *)
Definition on_string (f : string -> result err unit) (v : value) : result err unit :=
  match v with VString s => f s | _ => Err ErrPanic end.
Definition on_strings (f : list string -> result err unit) (v : value) : result err unit :=
  match v with VStrings l => f (default [] l) | _ => Err ErrPanic end.

Definition at_most (n : nat) : value -> result err unit := on_string (fun s => require (String.length s <=? n)%nat).

(** [strconv.Atoi]: the [int] is 64 bits wide. *)
Definition preset_ok (max : Z) (s : string) : bool :=
  match parse_int64 s with Some n => (0 <? n) && (n <=? max) | None => false end.

Definition dns_ok : value -> result err unit := on_strings (fun l => require (forallb ParseIP l)).
Definition pool_ok : value -> result err unit :=
  on_string (fun s => if String.eqb s "" then Ok tt else ValidSubnet s).
Definition presets_ok (max : Z) : value -> result err unit := on_strings (fun l => require (forallb (preset_ok max) l)).
Definition endpoint_ok : value -> result err unit := on_string ValidEndpoint.
Definition allowed_ips_ok : value -> result err unit :=
  on_string (fun s => require (forallb (fun p => String.eqb (trim_space p) "" || ParseCIDR (trim_space p)) (str_split "," s))).
Definition keepalive_ok : value -> result err unit :=
  on_string (fun s => match ParseU16Range s with Ok _ => Ok tt | Err _ => refuse end).
(** [s, _ := v.(string)]: any other value is the empty text. *)
Definition password_ok (v : value) : result err unit :=
  match v with
  | VString s => require (String.eqb s "" || (8 <=? String.length s)%nat)
  | _ => Ok tt
  end.
Definition chat_ok : value -> result err unit := on_string (fun s =>
  if String.eqb s "" then Ok tt
  else match parse_int64 s with
       | Some id => require (negb (id =? 0) && negb (has_prefix "+" s))
       | None => refuse
       end).

Section Catalog.
Context `{U : UrlSyntax}.

Definition base_url_ok : value -> result err unit := on_string (fun s =>
  if String.eqb s "" then Ok tt
  else match ParseURL s with
       | None => refuse
       | Some u =>
           require ((String.eqb (url_Scheme u) "http" || String.eqb (url_Scheme u) "https")
                    && negb (String.eqb (url_Host u) "") && String.eqb (url_RawQuery u) "" && String.eqb (url_Fragment u) "")
       end).

(** ** The catalogue *)

Definition int_def (key : string) (d lo hi : Z) (category : string) (persistent : bool) : Definition_ :=
  MkDef key KindInt (VInt d) lo hi None None category false false persistent.
Definition text_def (key d : string) (options : option (list string)) (f : option (value -> result err unit))
    (category : string) (persistent : bool) : Definition_ :=
  MkDef key KindString (VString d) 0 0 options f category false false persistent.
Definition list_def (key : string) (d : list string) (f : value -> result err unit) (category : string)
    (persistent : bool) : Definition_ :=
  MkDef key KindStringList (VStrings (Some d)) 0 0 None (Some f) category false false persistent.
Definition secret_def (key : string) (f : option (value -> result err unit)) : Definition_ :=
  MkDef key KindSecret (VString "") 0 0 None f "backup" true false false.

Definition Defaults : list Definition_ := [
  int_def "network.mtu" 1420 576 65535 "networking" true;
  int_def "network.port_min" 30000 1024 65535 "networking" true;
  int_def "network.port_max" 50000 1024 65535 "networking" true;
  list_def "network.dns_servers" ["1.1.1.1"; "1.0.0.1"] dns_ok "networking" true;
  text_def "network.default_pool" "" None (Some pool_ok) "networking" true;
  int_def "interfaces.max_count" 8 1 64 "interfaces" true;
  int_def "accounting.interval_seconds" 30 15 600 "accounting" false;
  int_def "accounting.online_window_seconds" 180 30 3600 "accounting" false;
  int_def "accounting.sample_flush_seconds" 300 60 3600 "accounting" false;
  int_def "accounting.sample_retention_hours" 48 24 48 "accounting" false;
  int_def "accounting.rollup_hourly_days" 30 7 90 "accounting" false;
  int_def "accounting.rollup_daily_days" 365 30 730 "accounting" false;
  text_def "drift.policy" "report" (Some ["report"; "adopt"; "remove"]) None "drift" true;
  int_def "security.session_idle_hours" 12 1 168 "security" false;
  int_def "security.session_absolute_hours" 168 1 720 "security" false;
  text_def "subscription.base_url" "" None (Some base_url_ok) "general" false;
  text_def "subscription.layout" "ticket" (Some ["ticket"; "card"; "minimal"; "portal"]) None "general" false;
  int_def "users.default_device_limit" 0 0 100 "general" false;
  text_def "users.default_iface_id" "" None (Some (at_most 64)) "general" false;
  int_def "users.default_quota_gb" 100 0 1000000 "general" false;
  int_def "users.default_duration_months" 1 0 120 "general" false;
  text_def "downloads.filename_prefix" "" None (Some (at_most 24)) "general" false;
  text_def "downloads.filename_suffix" "" None (Some (at_most 24)) "general" false;
  list_def "users.quota_presets_gb" ["20"; "50"; "70"; "100"; "150"; "200"; "300"; "500"; "700"; "1000"]
    (presets_ok 1000000) "general" false;
  list_def "users.duration_presets_months" ["1"; "3"; "6"; "12"] (presets_ok 120) "general" false;
  text_def "node.id" "" None (Some (at_most 128)) "general" false;
  text_def "node.endpoint" "" None (Some endpoint_ok) "general" false;
  text_def "network.client_allowed_ips" "0.0.0.0/0" None (Some allowed_ips_ok) "networking" false;
  text_def "network.client_persistent_keepalive" "25" None (Some keepalive_ok) "networking" false;
  int_def "webhooks.max_attempts" 12 1 50 "webhooks" false;
  int_def "api.rate_limit_per_minute" 600 0 100000 "security" false;
  secret_def "backup.password" (Some password_ok);
  secret_def "backup.telegram_token" None;
  text_def "backup.telegram_chat" "" None (Some chat_ok) "backup" false;
  int_def "backup.retention_count" 14 1 365 "backup" false].

(** The definitions by key, as [New] files them. *)
Definition catalog : gmap string Definition_ :=
  match new_defs Defaults ∅ with Ok c => c | Err _ => ∅ end.

(** ** The panel's form (internal/web/settings.go) *)

Inductive spec_kind := FInt | FList | FText.
Record setSpec := MkSpec { ss_key : string; ss_form : string; ss_kind : spec_kind }.

Definition settingSpecs : list setSpec := [
  MkSpec "node.id" "node_id" FText; MkSpec "node.endpoint" "endpoint" FText;
  MkSpec "users.quota_presets_gb" "quota_presets" FList; MkSpec "users.duration_presets_months" "dur_presets" FList;
  MkSpec "users.default_quota_gb" "default_quota_gb" FInt; MkSpec "users.default_duration_months" "default_dur_months" FInt;
  MkSpec "users.default_device_limit" "default_device_lim" FInt; MkSpec "users.default_iface_id" "default_iface_id" FText;
  MkSpec "subscription.base_url" "sub_base_url" FText; MkSpec "downloads.filename_prefix" "filename_prefix" FText;
  MkSpec "downloads.filename_suffix" "filename_suffix" FText; MkSpec "network.mtu" "mtu" FInt;
  MkSpec "network.dns_servers" "dns_servers" FList; MkSpec "network.client_allowed_ips" "allowed_ips" FText;
  MkSpec "network.client_persistent_keepalive" "keepalive" FText; MkSpec "network.port_min" "port_min" FInt;
  MkSpec "network.port_max" "port_max" FInt; MkSpec "network.default_pool" "default_pool" FText;
  MkSpec "interfaces.max_count" "iface_max" FInt; MkSpec "drift.policy" "drift_policy" FText;
  MkSpec "accounting.interval_seconds" "acct_interval" FInt; MkSpec "accounting.online_window_seconds" "online_window" FInt;
  MkSpec "accounting.sample_flush_seconds" "sample_flush" FInt; MkSpec "accounting.sample_retention_hours" "sample_retention" FInt;
  MkSpec "accounting.rollup_hourly_days" "rollup_hourly" FInt; MkSpec "accounting.rollup_daily_days" "rollup_daily" FInt;
  MkSpec "api.rate_limit_per_minute" "rate_limit" FInt; MkSpec "webhooks.max_attempts" "webhook_max" FInt;
  MkSpec "security.session_idle_hours" "session_idle" FInt; MkSpec "security.session_absolute_hours" "session_abs" FInt;
  MkSpec "backup.retention_count" "retention" FInt; MkSpec "backup.telegram_chat" "telegram_chat" FText].

(** The decoded form: [r.Form], whose fields may come from the query too, and
    the value [r.PostFormValue] reads, [""] when the body has no such field. *)
Record form := MkForm { fo_has : string -> bool; fo_post : string -> string }.

(** One field: skipped, refused, or an update. *)
Definition read_spec (f : form) (spec : setSpec) : result string (option Update) :=
  if negb (fo_has f (ss_form spec)) then Ok None
  else
    match ss_kind spec with
    | FInt =>
        let raw := trim_space (fo_post f (ss_form spec)) in
        if String.eqb raw "" then
          if String.eqb (ss_key spec) "users.default_device_limit"
          then Ok (Some (MkUpdate (ss_key spec) (VInt 0))) else Ok None
        else match parse_int64 raw with
             | Some n => Ok (Some (MkUpdate (ss_key spec) (VInt n)))
             | None => Err (ss_form spec)
             end
    | FList =>
        let parts := filter (fun p => p <> "") (trim_space <$> str_split "," (fo_post f (ss_form spec))) in
        Ok (Some (MkUpdate (ss_key spec) (VStrings (Some parts))))
    | FText => Ok (Some (MkUpdate (ss_key spec) (VString (trim_space (fo_post f (ss_form spec))))))
    end.

(** A secret field is write-only: empty keeps what is stored, the checkbox clears. *)
Definition read_secret (f : form) (key field clear : string) : list (string * Update) :=
  let v := trim_space (fo_post f field) in
  if String.eqb (fo_post f clear) "1" then [(field, MkUpdate key (VString ""))]
  else if String.eqb v "" then [] else [(field, MkUpdate key (VString v))].

Fixpoint read_specs (f : form) (specs : list setSpec) : result string (list (string * Update)) :=
  match specs with
  | [] => Ok []
  | s :: specs =>
      u ← read_spec f s; us ← read_specs f specs;
      Ok (match u with Some u => (ss_form s, u) :: us | None => us end)
  end.

Definition pending_settings (f : form) : result string (list (string * Update)) :=
  us ← read_specs f settingSpecs;
  Ok (us ++ read_secret f "backup.password" "backup_password" "backup_password_clear"
         ++ read_secret f "backup.telegram_token" "telegram_token" "telegram_token_clear").

Section Form.
Context `{A : AEAD, R : Random, F : FloatOverflow}.
Context (ring : KeyRing).

Fixpoint validate_all (us : list (string * Update)) : result (string * err) unit :=
  match us with
  | [] => Ok tt
  | (field, u) :: us =>
      match Validate catalog (up_Key u) (up_Value u) with
      | Ok _ => validate_all us
      | Err e => Err (field, e)
      end
  end.

(** [handleSettingsSave]: the field at fault and the error, or the new settings. *)
Definition handleSettingsSave (f : form) (r : registry) : result (string * err) unit * registry :=
  match pending_settings f with
  | Err field => (Err (field, E CodeInvalidRequest), r)
  | Ok pending =>
      match validate_all pending with
      | Err fe => (Err fe, r)
      | Ok _ =>
          match SetBatch ring catalog pending.*2 r with
          | (Ok _, r') => (Ok tt, r')
          | (Err e, r') => (Err ("", e), r')
          end
      end
  end.
End Form.
End Catalog.

(** The settings as the interface service reads them. *)
Definition registry_settings `{U : UrlSyntax, A : AEAD} (ring : KeyRing) (r : registry) : Iface.Settings := {|
  Iface.GetInt key := (GetInt ring catalog key r).1;
  Iface.GetString key := (GetString ring catalog key r).1;
  Iface.ValidEndpoint := NetText.ValidEndpoint |}.

(** ** Lemmas: the catalogue *)

Section Facts.
Context `{U : UrlSyntax, A : AEAD, R : Random, F : FloatOverflow}.
Context {L : AEADLaws A} {N : RandomLength R}.
Context (ring : KeyRing).

Lemma new_defs_Defaults : new_defs Defaults ∅ = Ok catalog.
Proof.
  assert (is_ok (new_defs Defaults ∅) = true) as H by (vm_compute; reflexivity).
  unfold catalog. by destruct (new_defs Defaults ∅).
Qed.

Lemma catalog_filed : filed catalog.
Proof. apply (New_filed (Some ring) Defaults). exact new_defs_Defaults. Qed.

(** A definition of the catalogue is one of the list. *)
Lemma new_defs_listed l m c k d : new_defs l m = Ok c -> c !! k = Some d -> d ∈ l \/ m !! k = Some d.
Proof.
  revert m. induction l as [|x l IH]; intros m; cbn [new_defs]; [intros [= <-]; by right|].
  destruct (_ || _); [done|]. destruct (negb _); [done|]. intros H Hk. destruct (IH _ H Hk) as [Hl|Hm]; [left; by right|].
  rewrite lookup_insert in Hm. case_decide; [injection Hm as <-; left; by left|by right].
Qed.

Lemma catalog_listed k d : catalog !! k = Some d -> d ∈ Defaults.
Proof.
  intros Hk. destruct (new_defs_listed _ _ _ _ _ new_defs_Defaults Hk) as [?|H]; [done|]. by rewrite lookup_empty in H.
Qed.

Definition sound_default (d : Definition_) : bool :=
  is_ok (validateValue d (de_Default d)) && Bool.eqb (de_Secret d) (bool_decide (de_Kind d = KindSecret)).

Lemma Defaults_checked : forallb sound_default Defaults = true.
Proof. vm_compute. reflexivity. Qed.

Lemma default_sound k d : catalog !! k = Some d ->
  validateValue d (de_Default d) = Ok tt /\ de_Secret d = bool_decide (de_Kind d = KindSecret).
Proof.
  intros Hk%catalog_listed. pose proof Defaults_checked as H. rewrite forallb_forall in H.
  apply list_elem_of_In in Hk. apply H in Hk. unfold sound_default in Hk. apply andb_prop in Hk as [H1 H2%Bool.eqb_prop].
  split; [|done]. by destruct (validateValue d (de_Default d)) as [[]|].
Qed.

(** The registry after any operations on an empty table. *)
Definition reached (ops : list op) : registry := foldl (fun r o => run_op ring catalog o r) (empty_registry 0) ops.

Lemma reached_ok ops : reg_ok ring catalog (reached ops).
Proof. apply run_ops_ok; [exact catalog_filed|apply empty_registry_ok]. Qed.

Lemma read_setting ops key d : catalog !! key = Some d -> de_Kind d <> KindSecret ->
  exists v r', Get ring catalog key (reached ops) = (Ok v, r') /\ validateValue d v = Ok tt.
Proof.
  intros Hk Hs. apply (Get_valid ring catalog catalog_filed); [apply reached_ok|done|done|by eapply default_sound].
Qed.

Lemma read_int ops key d : catalog !! key = Some d -> de_Kind d = KindInt ->
  exists n, (GetInt ring catalog key (reached ops)).1 = Ok n /\ de_Min d <= n <= de_Max d.
Proof.
  intros Hk Hi. destruct (read_setting ops key d Hk ltac:(congruence)) as (v & r' & HG & Hv).
  unfold validateValue in Hv. rewrite Hi in Hv. destruct v as [|n| | | | | |]; try discriminate.
  destruct (_ || _) eqn:E; [done|]. exists n. unfold GetInt. cbv [mbind act_mbind act_bind]. rewrite HG. split; [done|]. lia.
Qed.

(** Three forms a text setting is checked in. *)
Lemma read_text ops key d : catalog !! key = Some d -> de_Kind d = KindString ->
  (forall v, validateValue d v = Ok tt -> exists s, v = VString s) ->
  exists s, (GetString ring catalog key (reached ops)).1 = Ok s /\ validateValue d (VString s) = Ok tt.
Proof.
  intros Hk Ht Hs. destruct (read_setting ops key d Hk ltac:(congruence)) as (v & r' & HG & Hv).
  destruct (Hs v Hv) as [s ->]. exists s. unfold GetString. cbv [mbind act_mbind act_bind]. by rewrite HG.
Qed.

(** ** Theorems *)

(** Every default meets its own definition, every key of the list is filed, and
    exactly the encrypted settings are marked secret. *)
Theorem Defaults_valid : New (Some ring) Defaults = Ok catalog /\ size catalog = length Defaults /\
  forall k d, catalog !! k = Some d ->
    de_Key d = k /\ validateValue d (de_Default d) = Ok tt /\ (de_Secret d = true <-> de_Kind d = KindSecret).
Proof.
  split; [exact new_defs_Defaults|]. split; [vm_compute; reflexivity|]. intros k d Hk.
  destruct (default_sound k d Hk) as [H1 ->]. destruct (catalog_filed k d Hk) as [H2 _].
  split; [done|]. split; [done|]. by rewrite bool_decide_eq_true.
Qed.

(** Whatever was set, in whatever order, the interface service reads an MTU, a
    port window and an interface cap inside their bounds, and a default pool
    that is empty or allocatable. *)
Theorem node_settings_sound ops :
  let S := registry_settings ring (reached ops) in
  (exists n, Iface.GetInt "network.mtu" = Ok n /\ 576 <= n <= 65535) /\
  (exists n, Iface.GetInt "network.port_min" = Ok n /\ 1024 <= n <= 65535) /\
  (exists n, Iface.GetInt "network.port_max" = Ok n /\ 1024 <= n <= 65535) /\
  (exists n, Iface.GetInt "interfaces.max_count" = Ok n /\ 1 <= n <= 64) /\
  (exists p, Iface.GetString "network.default_pool" = Ok p /\ (p = "" \/ is_ok (Parse p) = true)) /\
  (forall s, NextAvailableName s <> Err (Plain "makeslice panic")).
Proof.
  intros S. assert (exists n, Iface.GetInt "interfaces.max_count" = Ok n /\ 1 <= n <= 64) as Hmax.
  { apply (read_int ops _ (int_def "interfaces.max_count" 8 1 64 "interfaces" true)); [vm_compute; reflexivity|done]. }
  split_and!; [| | |exact Hmax| |].
  - apply (read_int ops _ (int_def "network.mtu" 1420 576 65535 "networking" true)); [vm_compute; reflexivity|done].
  - apply (read_int ops _ (int_def "network.port_min" 30000 1024 65535 "networking" true)); [vm_compute; reflexivity|done].
  - apply (read_int ops _ (int_def "network.port_max" 50000 1024 65535 "networking" true)); [vm_compute; reflexivity|done].
  - destruct (read_text ops "network.default_pool" (text_def "network.default_pool" "" None (Some pool_ok) "networking" true))
      as (s & Hs & Hv); [reflexivity|reflexivity| |].
    + intros v. unfold validateValue, validator_ok. cbn. destruct v; try discriminate. eauto.
    + exists s. split; [exact Hs|]. revert Hv. unfold validateValue, validator_ok. cbn.
      destruct (String.eqb_spec s "") as [->|_]; [by left|]. intros Hv. right. apply ValidSubnet_ok.
      destruct (ValidSubnet s) as [[]|e]; [done|]. by case_decide.
  - intros s. destruct Hmax as (n & Hn & H1). unfold NextAvailableName. rewrite Hn. cbn [mbind result_bind rbind].
    rewrite (proj2 (Z.ltb_ge _ _)) by lia. by destruct (first_free _ _ _).
Qed.

(** ** The form *)

Lemma read_spec_key f spec u : read_spec f spec = Ok (Some u) -> up_Key u = ss_key spec /\ fo_has f (ss_form spec) = true.
Proof.
  unfold read_spec. destruct (fo_has f (ss_form spec)); [|done]. cbn [negb]. destruct (ss_kind spec).
  - cbv zeta. destruct (String.eqb _ ""); [destruct (String.eqb _ _); [by intros [= <-]|done]|].
    destruct (parse_int64 _); [by intros [= <-]|done].
  - cbv zeta. by intros [= <-].
  - by intros [= <-].
Qed.

Lemma read_specs_keys f specs us key : read_specs f specs = Ok us -> key ∈ up_Key <$> us.*2 ->
  exists spec, spec ∈ specs /\ ss_key spec = key /\ fo_has f (ss_form spec) = true.
Proof.
  revert us. induction specs as [|s specs IH]; intros us; cbn [read_specs]; [intros [= <-] Hk; by apply elem_of_nil in Hk|].
  intros Hr Hk. apply res_bind_ok in Hr as (o & Ho & Hr). apply res_bind_ok in Hr as (us' & Hus & [= <-]).
  assert (key ∈ up_Key <$> us'.*2 -> exists spec, spec ∈ s :: specs /\ ss_key spec = key /\ fo_has f (ss_form spec) = true) as Hrec.
  { intros H. destruct (IH _ Hus H) as (sp & H1 & H2). exists sp. split; [by right|done]. }
  destruct o as [u|]; [|by apply Hrec]. rewrite !fmap_cons in Hk. apply elem_of_cons in Hk as [->|Hk]; [|by apply Hrec].
  destruct (read_spec_key _ _ _ Ho) as [H1 H2]. exists s. split; [by left|]. cbn [snd]. by rewrite H1.
Qed.

(** A secret field that was left empty, or is not about the key, adds nothing. *)
Definition keeps_field (f : form) (field clear : string) : Prop :=
  trim_space (fo_post f field) = "" /\ fo_post f clear <> "1".

Lemma read_secret_keys f k field clear key : key ∈ up_Key <$> (read_secret f k field clear).*2 -> (key = k -> keeps_field f field clear) -> False.
Proof.
  unfold read_secret. cbv zeta. destruct (String.eqb_spec (fo_post f clear) "1") as [E1|E1].
  - cbn. intros ->%list_elem_of_singleton Hk. by destruct (Hk eq_refl).
  - destruct (String.eqb_spec (trim_space (fo_post f field)) "") as [E2|E2]; cbn; [by intros ?%elem_of_nil|].
    intros ->%list_elem_of_singleton Hk. by destruct (Hk eq_refl).
Qed.

(** The form changes all of its settings or none; a field that is absent and a
    secret that is left empty keep what is stored. *)
Theorem handleSettingsSave_effect f r : reg_ok ring catalog r ->
  match handleSettingsSave ring f r with
  | (Err _, r') => rg_rows r' = rg_rows r
  | (Ok _, r') => forall key,
      (forall spec, spec ∈ settingSpecs -> ss_key spec = key -> fo_has f (ss_form spec) = false) ->
      (key = "backup.password" -> keeps_field f "backup_password" "backup_password_clear") ->
      (key = "backup.telegram_token" -> keeps_field f "telegram_token" "telegram_token_clear") ->
      rg_rows r' !! key = rg_rows r !! key
  end.
Proof.
  intros Hr. unfold handleSettingsSave. destruct (pending_settings f) as [pending|field] eqn:Ep; [|done].
  destruct (validate_all pending) as [[]|fe]; [|done].
  pose proof (SetBatch_keeps ring catalog catalog_filed pending.*2 r Hr) as Hk. unfold acts in Hk.
  destruct (SetBatch ring catalog pending.*2 r) as [[[]|e] r'] eqn:Eb; [|by destruct Hk].
  intros key H1 H2 H3. apply (SetBatch_untouched ring catalog catalog_filed _ _ _ _ Eb).
  unfold pending_settings in Ep. apply res_bind_ok in Ep as (us & Hus & [= <-]). rewrite !fmap_app, !elem_of_app.
  intros [Hin|[Hin|Hin]].
  - destruct (read_specs_keys _ _ _ _ Hus Hin) as (spec & Hs & Hkey & Hh). rewrite (H1 spec Hs Hkey) in Hh. done.
  - by eapply read_secret_keys.
  - by eapply read_secret_keys.
Qed.
End Facts.

(** ** Witnesses *)

(** Schemes and hosts up to the next slash, enough for a base URL. *)
#[local] Instance plain_urls : UrlSyntax := fun s =>
  match strip_prefix "https://" s with
  | Some r => let '(h, _, _) := str_cut "/" r in Some (MkURL "https" h "" "")
  | None => None
  end.

Theorem Defaults_valid_witness : New (Some w_ring) Defaults = Ok catalog /\ size catalog = length Defaults /\
  forall k d, catalog !! k = Some d ->
    de_Key d = k /\ validateValue d (de_Default d) = Ok tt /\ (de_Secret d = true <-> de_Kind d = KindSecret).
Proof. exact (Defaults_valid w_ring). Defined.

Definition w_ops : list op := [OpSetRaw "network.mtu" "1380"; OpSetRaw "network.mtu" "70000"; OpGet "network.mtu";
  OpSetRaw "network.default_pool" "10.9.0.0/24"].

Theorem node_settings_sound_witness :
  let S := registry_settings w_ring (reached w_ring w_ops) in
  (exists n, Iface.GetInt "network.mtu" = Ok n /\ 576 <= n <= 65535) /\
  (exists n, Iface.GetInt "network.port_min" = Ok n /\ 1024 <= n <= 65535) /\
  (exists n, Iface.GetInt "network.port_max" = Ok n /\ 1024 <= n <= 65535) /\
  (exists n, Iface.GetInt "interfaces.max_count" = Ok n /\ 1 <= n <= 64) /\
  (exists p, Iface.GetString "network.default_pool" = Ok p /\ (p = "" \/ is_ok (Parse p) = true)) /\
  (forall s, NextAvailableName s <> Err (Plain "makeslice panic")).
Proof. exact (node_settings_sound w_ring w_ops). Defined.

Definition w_form : form := MkForm (fun k => String.eqb k "mtu") (fun k => if String.eqb k "mtu" then "1380" else "").

Theorem handleSettingsSave_effect_witness :
  match handleSettingsSave w_ring w_form (empty_registry 0) with
  | (Err _, r') => rg_rows r' = rg_rows (empty_registry 0)
  | (Ok _, r') => forall key,
      (forall spec, spec ∈ settingSpecs -> ss_key spec = key -> fo_has w_form (ss_form spec) = false) ->
      (key = "backup.password" -> keeps_field w_form "backup_password" "backup_password_clear") ->
      (key = "backup.telegram_token" -> keeps_field w_form "telegram_token" "telegram_token_clear") ->
      rg_rows r' !! key = rg_rows (empty_registry 0) !! key
  end.
Proof. exact (handleSettingsSave_effect w_ring w_form (empty_registry 0) (empty_registry_ok w_ring catalog 0)). Defined.
