(* ===== verification/Devices.v ===== *)
(** * Peers (internal/device)

    Creation inside one write transaction (eligibility, interface choice,
    device limit, address allocation, insert), renaming, credential rotation
    with retirement of the replaced keys, and deletion. *)
From stdpp Require Import base tactics strings gmap list fin_maps sets.
From Stdlib Require Import ZArith Lia Ascii.
From Stdlib Require String.
From S2P Require Import Prelude GoTime Domain Store Ipam Tunnel Users.

Open Scope Z_scope.

Record KeyMaterial := MkKeys {
  km_PublicKey : string;
  km_PrivateKeyEnc : string;
  km_PresharedEnc : option string
}.

Record Rotation := MkRotation { ro_DeviceID : string; ro_Keys : KeyMaterial }.

(** ** Address allocation *)

Definition broadcastOf (p : Prefix) : Z :=
  let base := pf_addr (Masked p) in
  let hostMask := u32 (Z.lnot (u32 (Z.shiftl 1 (host_bits p)) - 1)) in
  Z.lor base (u32 (Z.lnot hostMask)).

(** The scan of one pool from address [a]; [fuel] bounds the addresses of the
    pool that are left. *)
Fixpoint scan_pool (used : list string) (prefix : Prefix) (gateway bcast : Z)
    (fuel : nat) (a : option Z) : option Z :=
  match fuel, a with
  | S fuel, Some a =>
      if negb (Contains prefix a) then None
      else if (a =? gateway) || (a =? bcast) || existsb (String.eqb (addr_text a)) used
      then scan_pool used prefix gateway bcast fuel (Next a)
      else Some a
  | _, _ => None
  end.

Definition scan_one (used : list string) (prefix : Prefix) : option Z :=
  match Next (pf_addr (Masked prefix)) with
  | None => None
  | Some gateway => scan_pool used prefix gateway (broadcastOf prefix)
                      (Z.to_nat (2 ^ host_bits prefix)) (Some gateway)
  end.

(** The first free host address over the pools in order; [MustParsePrefix]
    panics on a text that does not parse. *)
Fixpoint scan_pools (used pools : list string) : result err string :=
  match pools with
  | [] => Err (E CodeDevicePoolExhausted)
  | subnet :: pools =>
      match ParsePrefix subnet with
      | None => Err (Plain "netip.ParsePrefix panic")
      | Some prefix =>
          match scan_one used prefix with
          | Some a => Ok (addr_text a +:+ "/32")
          | None => scan_pools used pools
          end
      end
  end.

(** The addresses held on an interface, those whose text parses. *)
Definition used_addrs (interfaceID : string) (s : store) : list string :=
  omap (fun d => if String.eqb (d_InterfaceID d) interfaceID
                 then addr_text ∘ pf_addr <$> ParsePrefix (d_IPv4 d) else None)
       (map_to_list (devices s)).*2.

Definition allocateIP (interfaceID : string) (pools : list string) (s : store)
    : result err string := scan_pools (used_addrs interfaceID s) pools.

(** ** Queries *)

Definition any_device (p : Device -> bool) (s : store) : bool :=
  existsb p (map_to_list (devices s)).*2.

Definition CountForUser (userID : string) (s : store) : Z := Z.of_nat (length (user_devices userID s)).

(** [SELECT id FROM tunnel_interfaces WHERE enabled = 1 ORDER BY name LIMIT 1]. *)
Definition first_enabled (s : store) : option string :=
  i_ID <$> fold_left (fun best i =>
    if i_Enabled i then
      match best with
      | Some b => match String.compare (i_Name i) (i_Name b) with Lt => Some i | _ => best end
      | None => Some i
      end
    else best) (map_to_list (ifaces s)).*2 None.

(** ** Creation *)

Definition insertDevice (d : Device) : Tx unit := fun s =>
  if any_device (fun e => String.eqb (d_InterfaceID e) (d_InterfaceID d)
                          && String.eqb (d_IPv4 e) (d_IPv4 d)) s
  then Err (E CodeDevicePoolExhausted)
  else if bool_decide (is_Some (devices s !! d_ID d))
          || any_device (fun e => String.eqb (d_PublicKey e) (d_PublicKey d)) s
          || any_device (fun e => String.eqb (d_UserID e) (d_UserID d)
                                  && String.eqb (d_Name e) (d_Name d)) s
  then Err (E CodeDeviceKeyExists)
  else if negb (fk (users s) (Some (d_UserID d)) && fk (ifaces s) (Some (d_InterfaceID d)))
  then Err (Plain "device: insert")
  else Ok (tt, put_device d s).

Definition device_data (d : Device) : json_obj :=
  [("device_id", JsStr (d_ID d)); ("user_id", JsStr (d_UserID d));
   ("name", JsStr (d_Name d)); ("ipv4", JsStr (d_IPv4 d))].

Definition bad_name (name : string) : bool :=
  String.eqb name "" || (64 <? Z.of_nat (String.length name)).

Definition check_keys (keys : KeyMaterial) : result err unit :=
  match ValidatePublicKey (km_PublicKey keys) with
  | Err _ => Err (E CodeInvalidRequest)
  | Ok _ => if String.eqb (km_PrivateKeyEnc keys) "" then Err (E CodeInvalidRequest) else Ok tt
  end.

(** The account may hold peers. *)
Definition eligible (userID : string) (s : store) : result err User :=
  match live_user userID s with
  | None => Err (E CodeUserNotFound)
  | Some u => if negb (u_Enabled u) then Err (E CodeForbidden)
              else if negb (PeerWanted (u_Status u)) then Err (E CodeForbidden)
              else Ok u
  end.

Definition choose_iface (u : User) (interfaceID : string) (s : store) : result err Iface :=
  ifcID ←
    (if negb (String.eqb interfaceID "") then Ok interfaceID
     else match (match u_InterfaceID u with Some i => Some i | None => first_enabled s end) with
          | Some i => if String.eqb i "" then Err (E CodeInterfaceNotFound) else Ok i
          | None => Err (E CodeInterfaceNotFound)
          end);
  match ifaces s !! ifcID with
  | Some i => if i_Enabled i then Ok i else Err (E CodeInterfaceNotFound)
  | None => Err (E CodeInterfaceNotFound)
  end.

Section Service.
Context `{Entropy} `{EventRecorder}.

Definition new_device (id : string) (now : Z) (userID ifcID name ip : string)
    (keys : KeyMaterial) : Device :=
  {| d_ID := id; d_UserID := userID; d_InterfaceID := ifcID; d_Name := name; d_IPv4 := ip;
     d_PublicKey := km_PublicKey keys; d_PrivKeyEnc := km_PrivateKeyEnc keys;
     d_PSKEnc := km_PresharedEnc keys; d_Enabled := true; d_LastHandshake := None;
     d_LastEndpoint := ""; d_RXBytes := 0; d_TXBytes := 0; d_LastRX := 0; d_LastTX := 0;
     d_CreatedAt := now; d_UpdatedAt := now |}.

(** The checks of [CreateTx] on the store, up to the insert: the interface
    and the address of the new device. *)
Definition placement (userID name interfaceID : string) (keys : KeyMaterial) (s : store)
    : result err (string * string) :=
  u ← eligible userID s;
  ifc ← choose_iface u interfaceID s;
  if match u_DeviceLimit u with Some limit => limit <=? CountForUser userID s | None => false end
  then Err (E CodeDeviceLimitReached)
  else if any_device (fun e => String.eqb (d_PublicKey e) (km_PublicKey keys)) s
  then Err (E CodeDeviceKeyExists)
  else
    pools ← Decode (i_Subnet ifc) (i_ExtraPools ifc);
    ip ← allocateIP (i_ID ifc) pools s;
    if any_device (fun e => String.eqb (d_UserID e) userID && String.eqb (d_Name e) name) s
    then Err (E CodeInvalidRequest)
    else Ok (i_ID ifc, ip).

Definition CreateTx (userID name : string) (keys : KeyMaterial) (interfaceID : string) : Tx Device :=
  let name := trim_space name in
  _ ← tx_guard (bad_name name) (E CodeInvalidRequest);
  _ ← tx_lift (check_keys keys);
  id ← new_id;
  now ← now_;
  place ← (fun s => tx_lift (placement userID name interfaceID keys s) s);
  let d := new_device id now userID place.1 name place.2 keys in
  _ ← insertDevice d;
  _ ← record "device.created" (device_data d);
  tx_ret d.

Definition Create (userID name : string) (keys : KeyMaterial) (interfaceID : string)
    : store -> result err Device * store := WithTx (CreateTx userID name keys interfaceID).

(** ** Updates *)

Definition Get (id : string) (s : store) : result err Device :=
  match devices s !! id with Some d => Ok d | None => Err (E CodeDeviceNotFound) end.

Definition update_device (id : string) (f : Device -> Device) (s : store) : store :=
  s <| devices ::= alter f id |>.

Definition SetEnabled (id : string) (enabled : bool) (s : store) : result err unit * store :=
  match devices s !! id with
  | None => (Err (E CodeDeviceNotFound), s)
  | Some _ => (Ok tt, update_device id (fun d => d <| d_Enabled := enabled |>
                                                   <| d_UpdatedAt := clock s |>) s)
  end.

(** The UNIQUE (user_id, name) constraint backs the query. *)
Definition Rename (id name : string) (s : store) : result err Device * store :=
  let name := trim_space name in
  if bad_name name then (Err (E CodeInvalidRequest), s)
  else match Get id s with
       | Err e => (Err e, s)
       | Ok d =>
           if any_device (fun e => String.eqb (d_UserID e) (d_UserID d) && String.eqb (d_Name e) name
                                   && negb (String.eqb (d_ID e) id)) s
           then (Err (E CodeInvalidRequest), s)
           else let upd d := d <| d_Name := name |> <| d_UpdatedAt := clock s |> in
                (Ok (upd d), update_device id upd s)
       end.

(** ** Credentials *)

Definition retire (ifcID key : string) (s : store) : store :=
  s <| retired_peer_keys ::= fun r => {[ (ifcID, key) ]} ∪ r |>.

Definition rekeyed (keys : KeyMaterial) (now : Z) (d : Device) : Device :=
  d <| d_PublicKey := km_PublicKey keys |> <| d_PrivKeyEnc := km_PrivateKeyEnc keys |>
    <| d_PSKEnc := km_PresharedEnc keys |> <| d_LastHandshake := None |>
    <| d_LastEndpoint := "" |> <| d_LastRX := 0 |> <| d_LastTX := 0 |> <| d_UpdatedAt := now |>.

(** The key update of one device, under UNIQUE (public_key). *)
Definition rekey (id : string) (keys : KeyMaterial) : Tx unit := fun s =>
  if any_device (fun e => String.eqb (d_PublicKey e) (km_PublicKey keys)
                          && negb (String.eqb (d_ID e) id)) s
  then Err (E CodeDeviceKeyExists)
  else Ok (tt, update_device id (rekeyed keys (clock s)) s).

Definition RegenerateTx (id : string) (keys : KeyMaterial) : Tx unit := fun s =>
  match devices s !! id with
  | None => Err (E CodeDeviceNotFound)
  | Some d =>
      if String.eqb (d_PublicKey d) (km_PublicKey keys) then Err (E CodeInvalidRequest)
      else rekey id keys (retire (d_InterfaceID d) (d_PublicKey d) s)
  end.

Definition Regenerate (id : string) (keys : KeyMaterial) (s : store) : result err unit * store :=
  match check_keys keys with
  | Err e => (Err e, s)
  | Ok _ => WithTx (RegenerateTx id keys) s
  end.

(** The requested rotations as a map, or the first refusal. *)
Fixpoint wanted_keys (rotations : list Rotation) (wanted : gmap string KeyMaterial)
    : result err (gmap string KeyMaterial) :=
  match rotations with
  | [] => Ok wanted
  | r :: rotations =>
      if String.eqb (ro_DeviceID r) "" then Err (E CodeInvalidRequest)
      else if bool_decide (is_Some (wanted !! ro_DeviceID r)) then Err (E CodeInvalidRequest)
      else _ ← check_keys (ro_Keys r); wanted_keys rotations (<[ro_DeviceID r := ro_Keys r]> wanted)
  end.

Definition rotation_matches (wanted : gmap string KeyMaterial) (d : Device) : bool :=
  match wanted !! d_ID d with
  | Some keys => negb (String.eqb (km_PublicKey keys) (d_PublicKey d))
  | None => false
  end.

Definition rotate_one (wanted : gmap string KeyMaterial) (d : Device) : Tx unit := fun s =>
  match wanted !! d_ID d with
  | Some keys => rekey (d_ID d) keys (retire (d_InterfaceID d) (d_PublicKey d) s)
  | None => Ok (tt, s)
  end.

Definition ReplaceUserCredentialsTx (userID : string) (rotations : list Rotation) : Tx unit := fun s =>
  match wanted_keys rotations ∅ with
  | Err e => Err e
  | Ok wanted =>
      let stored := user_devices userID s in
      if negb (length stored =? size wanted)%nat then Err (E CodeInvalidRequest)
      else if negb (forallb (rotation_matches wanted) stored) then Err (E CodeInvalidRequest)
      else tx_iter (rotate_one wanted) stored s
  end.

(** ** Deletion *)

Definition cascade_device (id : string) (s : store) : store :=
  s <| devices ::= delete id |>
    <| traffic_samples ::= filter (fun '(k, _) => k.1 <> id) |>
    <| traffic_rollups ::= filter (fun '(k, _) => k.1.1 <> id) |>.

Definition DeleteTx (id : string) : Tx unit := fun s =>
  match devices s !! id with
  | None => Err (E CodeDeviceNotFound)
  | Some d =>
      (_ ← tx_modify (retire (d_InterfaceID d) (d_PublicKey d));
       _ ← tx_modify (cascade_device id);
       record "device.deleted" [("device_id", JsStr id); ("user_id", JsStr (d_UserID d));
                                ("name", JsStr (d_Name d)); ("ipv4", JsStr (d_IPv4 d))]) s
  end.

Definition Delete (id : string) : store -> result err unit * store := WithTx (DeleteTx id).
End Service.

(** ** Lemmas: allocation *)

Lemma lnot_host_mask p : valid_prefix p ->
  u32 (Z.lnot (u32 (Z.lnot (u32 (Z.shiftl 1 (host_bits p)) - 1)))) =
    u32 (Z.shiftl 1 (host_bits p) - 1).
Proof.
  intros Hp. pose proof (pow_host p Hp). rewrite Z.shiftl_1_l.
  set (n := 2 ^ host_bits p) in *. clearbody n. unfold u32, Z.lnot.
  destruct (Z.eq_dec n (2 ^ 32)) as [->|]; [reflexivity|].
  rewrite (Z.mod_small n) by lia.
  replace (Z.pred (- (n - 1))) with (- n) by lia.
  replace (- n mod 2 ^ 32) with (2 ^ 32 - n) by (apply Z.mod_unique with (-1); lia).
  replace (Z.pred (- (2 ^ 32 - n))) with (-1 * 2 ^ 32 + (n - 1)) by lia.
  by rewrite Z.add_comm, Z.mod_add by lia.
Qed.

Lemma broadcastOf_Last p : valid_prefix p -> broadcastOf p = Last p.
Proof.
  intros Hp. pose proof (pow_host p Hp) as Hk. pose proof (masked_bounds p Hp) as Hm.
  pose proof (Last_eq p Hp) as HL. unfold broadcastOf. rewrite lnot_host_mask by done.
  unfold Last in *. rewrite HL. revert HL. unfold u32 at 1.
  rewrite Z.mod_small; [done|]. split.
  - apply Z.lor_nonneg. split; [lia|]. apply u32_range.
  - destruct (Z.eq_dec (Z.lor (pf_addr (Masked p)) (u32 (Z.shiftl 1 (host_bits p) - 1))) 0) as [->|Hne]; [lia|].
    assert (0 <= Z.lor (pf_addr (Masked p)) (u32 (Z.shiftl 1 (host_bits p) - 1))).
    { apply Z.lor_nonneg. split; [lia|apply u32_range]. }
    apply Z.log2_lt_pow2; [lia|]. rewrite Z.log2_lor by (lia || apply u32_range).
    assert (forall x, 0 <= x < 2 ^ 32 -> Z.log2 x < 32) as Hlog.
    { intros x Hx. destruct (Z.eq_dec x 0) as [->|]; [done|]. apply Z.log2_lt_pow2; lia. }
    apply Z.max_lub_lt; apply Hlog; [lia|apply u32_range].
Qed.

(** An address a device can be given: assignable in the pool and not held. *)
Definition free (used : list string) (p : Prefix) (a : Z) : Prop :=
  Assignable p a = true /\ addr_text a ∉ used.

Lemma held_spec used a : existsb (String.eqb a) used = true <-> a ∈ used.
Proof.
  rewrite existsb_exists. setoid_rewrite String.eqb_eq. rewrite list_elem_of_In.
  split; [intros (? & ? & <-); done|eauto].
Qed.

(** Bounds of an assignable address of a usable pool. *)
Lemma Assignable_bounds p a : valid_prefix p -> 3 <= host_bits p ->
  pf_addr (Masked p) <= a <= Last p ->
  valid_addr a /\ (Assignable p a = true <-> pf_addr (Masked p) + 2 <= a < Last p).
Proof.
  intros Hp Hk Ha. pose proof (masked_bounds p Hp). pose proof (Last_eq p Hp).
  assert (valid_addr a) by (unfold valid_addr; lia). split; [done|]. apply Assignable_spec; [done|lia|done].
Qed.

Lemma Contains_bounds p a : valid_prefix p -> valid_addr a -> Contains p a = false ->
  a < pf_addr (Masked p) \/ Last p < a.
Proof.
  intros Hp Ha Hc. destruct (Z.le_gt_cases (pf_addr (Masked p)) a); [|lia].
  destruct (Z.le_gt_cases a (Last p)); [|lia].
  assert (Contains p a = true) by (apply Contains_spec; auto). congruence.
Qed.

(** The scan ends one past the last address of the pool. *)
Lemma scan_pool_end used p g b fuel : valid_prefix p ->
  scan_pool used p g b fuel (Next (Last p)) = None.
Proof.
  intros Hp. pose proof (masked_bounds p Hp). pose proof (Last_eq p Hp). pose proof (pow_host p Hp).
  unfold Next. destruct (Z.eqb_spec (Last p) (2 ^ 32 - 1)); destruct fuel; cbn; [done..|].
  destruct (Contains p (Last p + 1)) eqn:Hc; [|done].
  apply Contains_spec in Hc; [lia|done|unfold valid_addr; lia].
Qed.

Lemma scan_pool_spec used p fuel a : valid_prefix p -> 3 <= host_bits p ->
  pf_addr (Masked p) + 1 <= a <= Last p -> Last p + 1 - a <= Z.of_nat fuel ->
  match scan_pool used p (pf_addr (Masked p) + 1) (Last p) fuel (Some a) with
  | Some x => a <= x <= Last p /\ free used p x /\ (forall y, a <= y < x -> ~ free used p y)
  | None => forall y, a <= y <= Last p -> ~ free used p y
  end.
Proof.
  intros Hp Hk. pose proof (masked_bounds p Hp) as Hm. pose proof (Last_eq p Hp) as HL.
  revert a. induction fuel as [|fuel IH]; intros a Ha Hf; [lia|]. cbn [scan_pool].
  destruct (Assignable_bounds p a Hp Hk ltac:(lia)) as [Hva HA].
  rewrite (proj2 (Contains_spec p a Hp Hva)) by lia. cbn [negb].
  destruct ((a =? _) || (a =? _) || existsb _ used) eqn:E.
  - assert (~ free used p a) as Hna.
    { intros [H1 H2]. rewrite <-held_spec, not_true_iff_false in H2. rewrite H2 in E.
      apply HA in H1. lia. }
    assert (Next a = Some (a + 1) \/ a = Last p) as Hnext.
    { unfold Next. destruct (Z.eqb_spec a (2 ^ 32 - 1)); [right; lia|by left]. }
    destruct (Z.eq_dec a (Last p)) as [->|Hlast].
    + rewrite scan_pool_end by done. intros y Hy. by replace y with (Last p) by lia.
    + destruct Hnext as [->|]; [|done]. specialize (IH (a + 1) ltac:(lia) ltac:(lia)).
      destruct (scan_pool _ _ _ _ fuel _) as [x|].
      * destruct IH as (Hx & Hfree & Hmin). split_and!; [lia|lia|done|].
        intros y Hy. destruct (Z.eq_dec y a) as [->|]; [done|]. apply Hmin. lia.
      * intros y Hy. destruct (Z.eq_dec y a) as [->|]; [done|]. apply IH. lia.
  - rewrite !orb_false_iff, !Z.eqb_neq in E. destruct E as [[E1 E2] E3].
    split_and!; [lia|lia| |intros; lia]. split; [apply HA; lia|].
    by rewrite <-held_spec, not_true_iff_false.
Qed.

(** The addresses of a pool that a device could be given, before [a]. *)
Lemma scan_one_spec used s p : Parse s = Ok p ->
  match scan_one used p with
  | Some x => valid_addr x /\ free used p x /\ (forall y, valid_addr y -> y < x -> ~ free used p y)
  | None => forall y, valid_addr y -> ~ free used p y
  end.
Proof.
  intros Hs. pose proof (Parse_host_bits _ _ Hs) as Hk. apply Parse_ok in Hs as (_ & Hp & _).
  pose proof (masked_bounds p Hp) as Hm. pose proof (Last_eq p Hp) as HL.
  assert (8 <= 2 ^ host_bits p) by (apply (Z.pow_le_mono_r 2 3); lia).
  assert (forall y, valid_addr y -> free used p y -> pf_addr (Masked p) + 2 <= y < Last p) as Hin.
  { intros y Hy [HA _]. apply Assignable_spec in HA; [done|done|lia|done]. }
  unfold scan_one, Next. rewrite (proj2 (Z.eqb_neq _ _)) by lia. rewrite broadcastOf_Last by done.
  pose proof (scan_pool_spec used p (Z.to_nat (2 ^ host_bits p)) (pf_addr (Masked p) + 1) Hp
    ltac:(lia) ltac:(lia) ltac:(lia)) as Hspec.
  destruct (scan_pool _ _ _ _ _ _) as [x|].
  - destruct Hspec as (Hx & Hfree & Hmin). split_and!; [unfold valid_addr; lia|done|].
    intros y Hy Hlt Hf. apply (Hmin y); [|done]. apply Hin in Hf; [lia|done].
  - intros y Hy Hf. apply (Hspec y); [|done]. apply Hin in Hf; [lia|done].
Qed.

(** Where an allocation lands among the pools: the pools before it have no
    free address, and in its own it is the lowest. *)
Definition first_free (used pools : list string) (ip : string) : Prop :=
  exists before c after p a, pools = before ++ c :: after /\ Parse c = Ok p /\
    ip = addr_text a +:+ "/32" /\ valid_addr a /\ free used p a /\
    (forall y, valid_addr y -> y < a -> ~ free used p y) /\
    (forall c' p' y, c' ∈ before -> Parse c' = Ok p' -> valid_addr y -> ~ free used p' y).

Lemma scan_pools_spec used pools : (forall c, c ∈ pools -> exists p, Parse c = Ok p) ->
  match scan_pools used pools with
  | Ok ip => first_free used pools ip
  | Err e => e = E CodeDevicePoolExhausted /\
      forall c p y, c ∈ pools -> Parse c = Ok p -> valid_addr y -> ~ free used p y
  end.
Proof.
  induction pools as [|c pools IH]; intros Hall; cbn [scan_pools].
  - split; [done|]. intros c p y []%elem_of_nil.
  - destruct (Hall c) as [p Hp]; [left|]. pose proof (scan_one_spec used c p Hp) as Hone.
    destruct (Parse_ok _ _ Hp) as (-> & _). destruct (scan_one used p) as [a|].
    + destruct Hone as (Hv & Hf & Hmin). exists [], c, pools, p, a. split_and!; try done.
      intros c' p' y []%elem_of_nil.
    + assert (forall c' p' y, c' = c -> Parse c' = Ok p' -> valid_addr y -> ~ free used p' y) as Hc.
      { intros ? p' y -> Hp' Hy. rewrite Hp in Hp'. injection Hp' as <-. by apply Hone. }
      specialize (IH (fun c H => Hall c (list_elem_of_further _ _ _ H))).
      destruct (scan_pools used pools) as [ip|e].
      * destruct IH as (before & c0 & after & p0 & a & -> & H1 & H2 & H3 & H4 & H5 & H6).
        exists (c :: before), c0, after, p0, a. split_and!; try done.
        intros c' p' y [->|Hin]%elem_of_cons; eauto.
      * destruct IH as [-> IH]. split; [done|]. intros c' p' y [->|Hin]%elem_of_cons; eauto.
Qed.

(** ** The devices table's invariant *)

(** Two rows that one of the table's UNIQUE constraints forbids. *)
Definition clash (d e : Device) : Prop :=
  d_PublicKey d = d_PublicKey e \/
  (d_InterfaceID d = d_InterfaceID e /\ d_IPv4 d = d_IPv4 e) \/
  (d_UserID d = d_UserID e /\ d_Name d = d_Name e).

Definition devices_wf (s : store) : Prop :=
  map_Forall (fun k d => d_ID d = k) (devices s) /\
  forall k1 k2 d1 d2, devices s !! k1 = Some d1 -> devices s !! k2 = Some d2 ->
    clash d1 d2 -> k1 = k2.

#[export] Instance clash_sym : Symmetric clash.
Proof. intros d e [?|[[? ?]|[? ?]]]; unfold clash; auto. Qed.

Lemma devices_wf_eq s s' : devices s' = devices s -> devices_wf s -> devices_wf s'.
Proof. unfold devices_wf. by intros ->. Qed.

Lemma devices_wf_put s d : devices_wf s ->
  (forall k e, devices s !! k = Some e -> clash d e -> k = d_ID d) ->
  devices_wf (put_device d s).
Proof.
  intros [Hid Hu] Hd. split; cbn.
  - by apply map_Forall_insert_2.
  - intros k1 k2 d1 d2 H1 H2 Hc.
    apply lookup_insert_Some in H1 as [[<- <-]|[_ H1]];
      apply lookup_insert_Some in H2 as [[<- <-]|[_ H2]]; [done| | |by eauto].
    + symmetry. by eapply Hd.
    + eapply Hd; [done|by symmetry].
Qed.

(** A row rewritten in place keeps the invariant when what the constraints
    read is unchanged, or does not meet another row. *)
Lemma devices_wf_update s id f : devices_wf s -> (forall d, d_ID (f d) = d_ID d) ->
  (forall d k e, devices s !! id = Some d -> devices s !! k = Some e -> clash (f d) e -> k = id) ->
  devices_wf (update_device id f s).
Proof.
  intros Hwf Hf Hc. destruct (devices s !! id) as [d|] eqn:E.
  - pose proof (proj1 Hwf _ _ E) as Hid. cbn in Hid.
    eapply devices_wf_eq, (devices_wf_put s (f d)); [|done|].
    + cbn. rewrite Hf, Hid. apply map_eq. intros k. destruct (decide (id = k)) as [->|].
      * by rewrite lookup_alter_eq, lookup_insert_eq, E.
      * by rewrite lookup_alter_ne, lookup_insert_ne.
    + rewrite Hf, Hid. eauto.
  - eapply devices_wf_eq; [|done]. cbn. apply map_eq. intros k. destruct (decide (id = k)) as [->|].
    + by rewrite lookup_alter_eq, E.
    + by rewrite lookup_alter_ne.
Qed.

Lemma devices_wf_sub s s' : devices s' ⊆ devices s -> devices_wf s -> devices_wf s'.
Proof.
  intros Hs [Hid Hu]. split.
  - intros k d Hk. eapply Hid, lookup_weaken; eauto.
  - intros k1 k2 d1 d2 H1 H2. eapply Hu; eapply lookup_weaken; eauto.
Qed.

Lemma any_device_false p s k d : any_device p s = false -> devices s !! k = Some d -> p d = false.
Proof. unfold any_device. rewrite existsb_values_false. eauto. Qed.

Lemma andb_eqb_false a b c d : String.eqb a b && String.eqb c d = false -> ~ (a = b /\ c = d).
Proof. rewrite andb_false_iff, !String.eqb_neq. tauto. Qed.

Lemma insertDevice_ok d s s' x : insertDevice d s = Ok (x, s') ->
  s' = put_device d s /\ devices s !! d_ID d = None /\
  (forall k e, devices s !! k = Some e -> ~ clash d e).
Proof.
  unfold insertDevice. destruct (any_device _ s) eqn:E1; [done|].
  destruct (_ || _) eqn:E2; [done|]. rewrite !orb_false_iff in E2. destruct E2 as [[E2 E3] E4].
  destruct (negb _); [done|]. intros [_ <-]%Ok_pair_inj. split_and!; [done| |].
  - apply bool_decide_eq_false in E2. by apply eq_None_not_Some.
  - intros k e Hk. pose proof (any_device_false _ _ _ _ E1 Hk) as F1%andb_eqb_false.
    pose proof (any_device_false _ _ _ _ E3 Hk) as F3%String.eqb_neq.
    pose proof (any_device_false _ _ _ _ E4 Hk) as F4%andb_eqb_false.
    intros [Hc|[[Hc1 Hc2]|[Hc1 Hc2]]]; [congruence|apply F1; split; congruence|apply F4; split; congruence].
Qed.

Lemma rekey_ok id keys s s' x : rekey id keys s = Ok (x, s') ->
  s' = update_device id (rekeyed keys (clock s)) s /\
  (devices_wf s -> devices_wf s').
Proof.
  unfold rekey. destruct (any_device _ s) eqn:E; [done|]. intros [_ <-]%Ok_pair_inj.
  split; [done|]. intros Hwf. apply devices_wf_update; [done|done|].
  intros d k e Hd Hk Hc.
  pose proof (any_device_false _ _ _ _ E Hk) as F. apply andb_false_iff in F as [F|F].
  - apply String.eqb_neq in F. eapply (proj2 Hwf); [exact Hk|exact Hd|].
    destruct Hc as [Hc|Hc]; [cbn in Hc; congruence|]. symmetry. by right.
  - apply negb_false_iff, String.eqb_eq in F. by rewrite <-F, (proj1 Hwf _ _ Hk).
Qed.

Section Facts.
Context `{Entropy} `{R : EventRecorder, !RecorderFrame R}.

Lemma device_CreateTx_inv userID name keys interfaceID s d s' :
  CreateTx userID name keys interfaceID s = Ok (d, s') ->
  exists s1 s2 id ifcID ip, outbox_only s s1 /\
    placement userID (trim_space name) interfaceID keys s1 = Ok (ifcID, ip) /\
    d = new_device id (clock s) userID ifcID (trim_space name) ip keys /\
    bad_name (trim_space name) = false /\ check_keys keys = Ok tt /\
    insertDevice d s1 = Ok (tt, s2) /\ outbox_only s2 s'.
Proof.
  unfold CreateTx, now_. intros Hc.
  apply tx_bind_ok in Hc as (? & ? & [Hg ->]%tx_guard_ok & Hc).
  apply tx_bind_ok in Hc as (? & s0 & Hv & Hc). unfold tx_lift in Hv.
  destruct (check_keys keys) as [[]|] eqn:E; [|done]. apply Ok_pair_inj in Hv as [_ <-].
  apply tx_bind_ok in Hc as (id & s1 & Hid & Hc). pose proof (new_id_frame _ _ _ Hid) as (_ & Hk & _).
  apply tx_bind_ok in Hc as (now & ? & [<- <-]%Ok_pair_inj & Hc).
  apply tx_bind_ok in Hc as ([ifcID ip] & s1' & Hp & Hc). unfold tx_lift in Hp.
  destruct (placement _ _ _ _ s1) as [pl|] eqn:Epl; [|done].
  apply Ok_pair_inj in Hp as [-> <-].
  apply tx_bind_ok in Hc as ([] & s2 & Hi & Hc).
  apply tx_bind_ok in Hc as (? & s3 & Hr%record_frame & [<- <-]%Ok_pair_inj).
  rewrite Hk in *. exists s1, s2, id, ifcID, ip. split_and!; try done. by eapply new_id_outbox.
Qed.

Lemma device_CreateTx_wf userID name keys interfaceID s d s' : devices_wf s ->
  CreateTx userID name keys interfaceID s = Ok (d, s') -> devices_wf s'.
Proof.
  intros Hwf (s1 & s2 & id & ifcID & ip & (_ & Ho & _)%outbox_only_tables & _ & _ & _ & _ & Hi &
    (_ & Ho2 & _)%outbox_only_tables)%device_CreateTx_inv.
  eapply devices_wf_eq; [exact Ho2|]. apply insertDevice_ok in Hi as (-> & _ & Hc).
  apply devices_wf_put; [by eapply devices_wf_eq|]. intros k e Hk Hcl. by destruct (Hc k e Hk).
Qed.

Lemma device_CreateTx_users userID name keys interfaceID s d s' :
  CreateTx userID name keys interfaceID s = Ok (d, s') -> users s' = users s.
Proof.
  intros (s1 & s2 & id & ifcID & ip & (<- & _)%outbox_only_tables & _ & _ & _ & _ & Hi &
    (-> & _)%outbox_only_tables)%device_CreateTx_inv.
  by apply insertDevice_ok in Hi as (-> & _).
Qed.

Lemma SetEnabled_wf id b s : devices_wf s -> devices_wf (SetEnabled id b s).2.
Proof.
  intros Hwf. unfold SetEnabled. destruct (devices s !! id) eqn:E; [|done].
  apply devices_wf_update; [done|done|]. intros d' k e Hd Hk Hc. by eapply (proj2 Hwf).
Qed.

Lemma Rename_wf id name s : devices_wf s -> devices_wf (Rename id name s).2.
Proof.
  intros Hwf. unfold Rename, Get. cbv zeta. destruct (bad_name _); [done|].
  destruct (devices s !! id) as [d|] eqn:E; [|done].
  destruct (any_device _ s) eqn:Ea; [done|]. apply devices_wf_update; [done|done|].
  intros d' k e Hd Hk Hc. rewrite E in Hd. injection Hd as <-.
  pose proof (any_device_false _ _ _ _ Ea Hk) as F. apply andb_false_iff in F as [F%andb_eqb_false|F].
  - eapply (proj2 Hwf); [exact Hk|exact E|]. destruct Hc as [Hc|[Hc|[Hc1 Hc2]]]; cbn in *.
    + by left.
    + right. left. destruct Hc as [? ?]. by split; symmetry.
    + destruct F. split; congruence.
  - apply negb_false_iff, String.eqb_eq in F. by rewrite <-F, (proj1 Hwf _ _ Hk).
Qed.

Lemma RegenerateTx_wf id keys s s' x : devices_wf s -> RegenerateTx id keys s = Ok (x, s') -> devices_wf s'.
Proof.
  unfold RegenerateTx. destruct (devices s !! id) as [d|]; [|done].
  destruct (String.eqb _ _); [done|]. intros Hwf [_ Hr]%rekey_ok. apply Hr.
  by eapply devices_wf_eq.
Qed.

Lemma rotate_one_wf wanted d s s' x : devices_wf s -> rotate_one wanted d s = Ok (x, s') -> devices_wf s'.
Proof.
  unfold rotate_one. destruct (wanted !! d_ID d); [|by intros ? [_ <-]%Ok_pair_inj].
  intros Hwf [_ Hr]%rekey_ok. apply Hr. by eapply devices_wf_eq.
Qed.

Lemma Replace_wf userID rs s s' x : devices_wf s ->
  ReplaceUserCredentialsTx userID rs s = Ok (x, s') -> devices_wf s'.
Proof.
  unfold ReplaceUserCredentialsTx. destruct (wanted_keys rs ∅) as [wanted|]; [|done].
  destruct (negb _); [done|]. destruct (negb _); [done|]. intros Hwf Hi.
  eapply (tx_iter_inv devices_wf); [|exact Hwf|exact Hi].
  intros y s1 u s2 _. apply rotate_one_wf.
Qed.

Lemma device_DeleteTx_inv id s s' x : DeleteTx id s = Ok (x, s') ->
  exists d, devices s !! id = Some d /\
    outbox_only (cascade_device id (retire (d_InterfaceID d) (d_PublicKey d) s)) s'.
Proof.
  unfold DeleteTx. destruct (devices s !! id) as [d|]; [|done].
  intros (? & s1 & [_ <-]%Ok_pair_inj & Hc)%tx_bind_ok.
  apply tx_bind_ok in Hc as (? & s2 & [_ <-]%Ok_pair_inj & Hr%record_frame). eauto.
Qed.

Lemma device_DeleteTx_wf id s s' x : devices_wf s -> DeleteTx id s = Ok (x, s') -> devices_wf s'.
Proof.
  intros Hwf (d & _ & (_ & Ho & _)%outbox_only_tables)%device_DeleteTx_inv.
  eapply devices_wf_sub; [|exact Hwf]. rewrite Ho. cbn. apply delete_subseteq.
Qed.

(** The operations on devices, and the deletion of an account. *)
Inductive device_step : store -> store -> Prop :=
| dstep_create userID name keys ifc s x s' :
    CreateTx userID name keys ifc s = Ok (x, s') -> device_step s s'
| dstep_enable id b s : device_step s (SetEnabled id b s).2
| dstep_rename id name s : device_step s (Rename id name s).2
| dstep_regenerate id keys s x s' : RegenerateTx id keys s = Ok (x, s') -> device_step s s'
| dstep_replace userID rs s x s' : ReplaceUserCredentialsTx userID rs s = Ok (x, s') -> device_step s s'
| dstep_delete id s x s' : DeleteTx id s = Ok (x, s') -> device_step s s'
| dstep_delete_user id s x s' : Users.DeleteTx id s = Ok (x, s') -> device_step s s'.

Lemma delete_user_devices id s s' x : Users.DeleteTx id s = Ok (x, s') ->
  devices s' = filter (fun '(_, d) => d_UserID d <> id) (devices s) /\
  retired_peer_keys s' = retired_peer_keys (retire_user_keys id s).
Proof.
  intros (s1 & _ & Ho & ->)%Users.DeleteTx_inv.
  apply outbox_only_tables in Ho as (_ & Hd & _ & _ & Hr & _). cbn in *. by rewrite Hd, Hr.
Qed.

(** *** Retirement of replaced keys *)

(** Every key a device of [s] holds is still held by that device in [s'], or
    is recorded as retired there. *)
Definition retires (s s' : store) : Prop :=
  retired_peer_keys s ⊆ retired_peer_keys s' /\
  forall k d, devices s !! k = Some d ->
    (exists d', devices s' !! k = Some d' /\ d_InterfaceID d' = d_InterfaceID d /\
                d_PublicKey d' = d_PublicKey d) \/
    (d_InterfaceID d, d_PublicKey d) ∈ retired_peer_keys s'.

#[export] Instance retires_refl : Reflexive retires.
Proof. intros s. split; [done|]. intros k d Hk. left. eauto. Qed.

#[export] Instance retires_trans : Transitive retires.
Proof.
  intros s1 s2 s3 [R1 D1] [R2 D2]. split; [by etrans|]. intros k d Hk.
  destruct (D1 k d Hk) as [(d2 & Hk2 & Hi & Hp)|Hin]; [|right; by apply R2].
  destruct (D2 k d2 Hk2) as [(d3 & Hk3 & ? & ?)|Hin]; [left|right; congruence].
  exists d3. split_and!; congruence.
Qed.

Lemma retires_tables s s' : devices s' = devices s -> retired_peer_keys s' = retired_peer_keys s ->
  retires s s'.
Proof. intros Hd Hr. unfold retires. rewrite Hd, Hr. apply retires_refl. Qed.

Lemma retires_outbox s s' : outbox_only s s' -> retires s s'.
Proof. intros (_ & ? & _ & _ & ? & _)%outbox_only_tables. by apply retires_tables. Qed.

(** A row rewritten in place, its old key retired or kept. *)
Lemma retires_update s id f :
  (forall d, devices s !! id = Some d -> d_InterfaceID (f d) = d_InterfaceID d /\
     (d_PublicKey (f d) = d_PublicKey d \/
      (d_InterfaceID d, d_PublicKey d) ∈ retired_peer_keys s)) ->
  retires s (update_device id f s).
Proof.
  intros Hf. split; [done|]. intros k d Hk. cbn. destruct (decide (id = k)) as [->|].
  - rewrite lookup_alter_eq, Hk. cbn. destruct (Hf d Hk) as [? [?|?]]; [left|by right]. eauto.
  - rewrite lookup_alter_ne by done. left. eauto.
Qed.

Lemma retires_retire ifc key s : retires s (retire ifc key s).
Proof. split; [apply union_subseteq_r|]. intros k d Hk. left. eauto. Qed.

(** Retiring a device's key before giving it another one. *)
Lemma retires_rekey id keys s s' d x :
  (forall d', devices s !! id = Some d' ->
     (d_InterfaceID d', d_PublicKey d') = (d_InterfaceID d, d_PublicKey d)) ->
  rekey id keys (retire (d_InterfaceID d) (d_PublicKey d) s) = Ok (x, s') -> retires s s'.
Proof.
  intros Hd [-> _]%rekey_ok. etrans; [apply retires_retire|]. apply retires_update.
  intros d' Hd'. split; [done|]. right. rewrite (Hd d' Hd'). cbn. by apply elem_of_union_l, elem_of_singleton.
Qed.

(** [d] is still the row it was read as, as far as its key goes. *)
Definition same_key (s : store) (d : Device) : Prop :=
  forall d', devices s !! d_ID d = Some d' ->
     (d_InterfaceID d', d_PublicKey d') = (d_InterfaceID d, d_PublicKey d).

Lemma rotate_one_devices wanted d s s' x : rotate_one wanted d s = Ok (x, s') ->
  clock s' = clock s /\
  forall k, devices s' !! k = (if decide (k = d_ID d) then
      match wanted !! k with Some keys => rekeyed keys (clock s) <$> devices s !! k
      | None => devices s !! k end else devices s !! k).
Proof.
  unfold rotate_one. destruct (wanted !! d_ID d) as [keys|] eqn:E.
  - intros [-> _]%rekey_ok. split; [done|]. intros k. cbn. destruct (decide (k = d_ID d)) as [->|].
    + by rewrite lookup_alter_eq, E.
    + by rewrite lookup_alter_ne.
  - intros [_ <-]%Ok_pair_inj. split; [done|]. intros k. destruct (decide _) as [->|]; [by rewrite E|done].
Qed.

Lemma rotate_all_retires wanted l s s' x : NoDup (d_ID <$> l) -> Forall (same_key s) l ->
  tx_iter (rotate_one wanted) l s = Ok (x, s') -> retires s s'.
Proof.
  revert s. induction l as [|d l IH]; intros s Hnd Hk Hi; cbn in Hi.
  { by apply Ok_pair_inj in Hi as [_ <-]. }
  apply NoDup_cons in Hnd as [Hd Hnd]. apply Forall_cons in Hk as [Hkd Hk].
  apply tx_bind_ok in Hi as (u & s1 & H1 & Hi).
  pose proof (rotate_one_devices _ _ _ _ _ H1) as [_ Hdev].
  etrans; [|eapply IH; [exact Hnd| |exact Hi]].
  - unfold rotate_one in H1. destruct (wanted !! d_ID d); [by eapply retires_rekey|].
    by apply Ok_pair_inj in H1 as [_ <-].
  - rewrite Forall_forall in Hk |- *. intros e Hin d'. rewrite Hdev.
    destruct (decide _) as [E|]; [|by apply Hk].
    exfalso. apply Hd. rewrite <-E. by apply list_elem_of_fmap_2.
Qed.

(** *** Users' devices, read as rows *)

Lemma user_devices_NoDup id s : devices_wf s -> NoDup (d_ID <$> user_devices id s).
Proof.
  intros [Hid _]. unfold user_devices.
  assert (NoDup (d_ID <$> (map_to_list (devices s)).*2)) as Hall.
  { rewrite <-list_fmap_compose.
    replace (list_fmap _ _ (d_ID ∘ snd) (map_to_list (devices s)))
      with ((map_to_list (devices s)).*1); [apply NoDup_fst_map_to_list|].
    apply list_fmap_ext. intros i [k d] Hk. cbn.
    apply list_elem_of_lookup_2, elem_of_map_to_list in Hk. by apply Hid in Hk. }
  eapply sublist_NoDup; [exact Hall|]. apply fmap_sublist, sublist_filter.
Qed.

Lemma user_devices_same id s : devices_wf s -> Forall (same_key s) (user_devices id s).
Proof.
  intros [Hid _]. apply Forall_forall. intros d (k & Hk & _)%elem_of_user_devices d' Hd'.
  pose proof (Hid _ _ Hk) as E. cbn in E. subst k. congruence.
Qed.

Lemma Replace_retires userID rs s s' x : devices_wf s ->
  ReplaceUserCredentialsTx userID rs s = Ok (x, s') -> retires s s'.
Proof.
  unfold ReplaceUserCredentialsTx. intros Hwf Hc. destruct (wanted_keys rs ∅) as [w|]; [|done].
  repeat (destruct (negb _); [done|]).
  eapply rotate_all_retires; [by apply user_devices_NoDup|by apply user_devices_same|exact Hc].
Qed.

Lemma device_step_retires s s' : devices_wf s -> device_step s s' -> retires s s'.
Proof.
  intros Hwf Hstep. destruct Hstep as [userID name keys ifc s0 x s1 Hc|id b s0|id name s0|id keys s0 x s1 Hc
    |userID rs s0 x s1 Hc|id s0 x s1 Hc|id s0 x s1 Hc].
  - apply device_CreateTx_inv in Hc as (s2 & s3 & _ & _ & _ & Ho & _ & _ & _ & _ & Hi & Ho2).
    etrans; [by apply retires_outbox|]. etrans; [|by apply retires_outbox].
    apply insertDevice_ok in Hi as (-> & Hn & _). split; [done|]. intros k d Hk. left.
    exists d. cbn. rewrite lookup_insert_ne; [done|]. intros <-. congruence.
  - unfold SetEnabled. destruct (devices s0 !! id) as [d|]; [|done]. apply retires_update. eauto.
  - unfold Rename, Get. cbv zeta. repeat case_match; try done. apply retires_update. eauto.
  - unfold RegenerateTx in Hc. destruct (devices s0 !! id) as [d|] eqn:E; [|done].
    destruct (String.eqb _ _); [done|]. eapply retires_rekey; [|exact Hc]. congruence.
  - by eapply Replace_retires.
  - apply device_DeleteTx_inv in Hc as (d & Hd & Ho). etrans; [|by apply retires_outbox].
    split; [apply union_subseteq_r|]. intros k e Hk. destruct (decide (k = id)) as [->|].
    + right. assert (e = d) as -> by congruence. cbn. by apply elem_of_union_l, elem_of_singleton.
    + left. exists e. cbn. by rewrite lookup_delete_ne.
  - apply delete_user_devices in Hc as [Hd Hr]. unfold retires. rewrite Hd, Hr.
    split; [apply union_subseteq_r|]. intros k d Hk. destruct (decide (d_UserID d = id)).
    + right. apply elem_of_union_l, elem_of_list_to_set, list_elem_of_fmap. exists d.
      split; [done|]. apply elem_of_user_devices. eauto.
    + left. exists d. split; [|done]. by apply map_lookup_filter_Some.
Qed.

Lemma device_step_wf s s' : devices_wf s -> device_step s s' -> devices_wf s'.
Proof.
  intros Hwf Hstep. destruct Hstep as [userID name keys ifc s0 x s1 Hc|id b s0|id name s0|id keys s0 x s1 Hc
    |userID rs s0 x s1 Hc|id s0 x s1 Hc|id s0 x s1 Hc].
  - by eapply device_CreateTx_wf.
  - by apply SetEnabled_wf.
  - by apply Rename_wf.
  - by eapply RegenerateTx_wf.
  - by eapply Replace_wf.
  - by eapply device_DeleteTx_wf.
  - apply delete_user_devices in Hc as [Hd _]. eapply devices_wf_sub; [|exact Hwf].
    rewrite Hd. apply map_filter_subseteq.
Qed.

Lemma rotate_all_devices wanted l s s' x : NoDup (d_ID <$> l) ->
  tx_iter (rotate_one wanted) l s = Ok (x, s') ->
  forall k, devices s' !! k = (if decide (k ∈ d_ID <$> l) then
      match wanted !! k with Some keys => rekeyed keys (clock s) <$> devices s !! k
      | None => devices s !! k end else devices s !! k).
Proof.
  revert s. induction l as [|d l IH]; intros s Hnd Hi k; cbn in Hi.
  { apply Ok_pair_inj in Hi as [_ <-]. rewrite decide_False; [done|]. apply not_elem_of_nil. }
  apply NoDup_cons in Hnd as [Hd Hnd].
  apply tx_bind_ok in Hi as (u & s1 & [Hck Hdev]%rotate_one_devices & Hi).
  rewrite (IH _ Hnd Hi), Hck, (Hdev k). cbn [fmap list_fmap].
  destruct (decide (k = d_ID d)) as [->|Hne].
  - rewrite decide_False by done. rewrite decide_True by (by left). done.
  - destruct (decide (k ∈ d_ID <$> l)) as [Hin|Hnin].
    + rewrite decide_True by (by right). done.
    + rewrite decide_False; [done|]. by intros [|]%elem_of_cons.
Qed.

(** The rotations that [wanted_keys] accepts, and no other, are in its map. *)
Lemma wanted_keys_ok rs w w' : wanted_keys rs w = Ok w' ->
  forall k keys, w' !! k = Some keys <->
    w !! k = Some keys \/ MkRotation k keys ∈ rs.
Proof.
  revert w. induction rs as [|[id ks] rs IH]; intros w H1 k keys; cbn in H1.
  - apply Ok_inj in H1 as ->. split; [by left|]. by intros [|[]%elem_of_nil].
  - destruct (String.eqb id ""); [done|]. case_bool_decide as Hn; [done|].
    destruct (check_keys ks) as [[]|]; [|done]. rewrite (IH _ H1 k keys), elem_of_cons.
    apply eq_None_not_Some in Hn. destruct (decide (id = k)) as [->|].
    + rewrite lookup_insert_eq, Hn. split; intros [E|E]; [|by auto|done|destruct E as [[= ->]|]; auto].
      right. left. congruence.
    + rewrite lookup_insert_ne by done. split; intros [E|E]; auto. destruct E as [[=]|]; auto. congruence.
Qed.
End Facts.

(** *** Creation *)

Lemma placement_outbox userID name ifc keys s s' : outbox_only s s' ->
  placement userID name ifc keys s' = placement userID name ifc keys s.
Proof. by intros (? & ? & ? & ->). Qed.

Lemma placement_ok userID name ifc keys s ifcID ip :
  placement userID name ifc keys s = Ok (ifcID, ip) ->
  exists u i pools, live_user userID s = Some u /\ u_Enabled u = true /\
    PeerWanted (u_Status u) = true /\ i_ID i = ifcID /\ i_Enabled i = true /\
    (exists k, ifaces s !! k = Some i) /\
    Decode (i_Subnet i) (i_ExtraPools i) = Ok pools /\ allocateIP (i_ID i) pools s = Ok ip /\
    (forall limit, u_DeviceLimit u = Some limit -> CountForUser userID s < limit).
Proof.
  unfold placement, eligible. destruct (live_user userID s) as [u|]; [|done].
  destruct (u_Enabled u) eqn:Een; cbn [negb]; [|done].
  destruct (PeerWanted _) eqn:Epw; cbn [negb]; [|done].
  cbn [mbind result_bind rbind].
  destruct (choose_iface u ifc s) as [i|] eqn:Ei; cbn [mbind result_bind rbind]; [|done].
  destruct (match u_DeviceLimit u with Some _ => _ | None => _ end) eqn:El; [done|].
  destruct (any_device _ s); [done|].
  destruct (Decode _ _) as [pools|] eqn:Ed; cbn [mbind result_bind rbind]; [|done].
  destruct (allocateIP _ _ s) as [ip'|] eqn:Ea; cbn [mbind result_bind rbind]; [|done].
  destruct (any_device _ s); [done|]. intros [= <- <-].
  assert (i_Enabled i = true /\ exists k, ifaces s !! k = Some i) as [Hi1 Hi2].
  { revert Ei. unfold choose_iface. destruct (if negb _ then _ else _) as [k|]; cbn; [|done].
    destruct (ifaces s !! k) as [i'|] eqn:Ek; [|done]. destruct (i_Enabled i') eqn:Ee; [|done].
    intros [= <-]. eauto. }
  exists u, i, pools. split_and!; try done. intros limit El'. rewrite El' in El. lia.
Qed.

Lemma CountForUser_put d s : devices s !! d_ID d = None ->
  CountForUser (d_UserID d) (put_device d s) = CountForUser (d_UserID d) s + 1.
Proof.
  intros Hn. unfold CountForUser, user_devices. cbn [put_device upd_field devices].
  change (devices (put_device d s)) with (<[d_ID d := d]> (devices s)).
  rewrite map_to_list_insert, fmap_cons, filter_cons_True by done. cbn [length]. lia.
Qed.

(** ** Properties *)

Section Properties.
Context `{Entropy} `{R : EventRecorder, !RecorderFrame R}.

(** C31. Over usable pools the allocation returns the lowest host address of the
    earliest pool that has one nobody holds, never a network, gateway or
    broadcast address, and fails only when every assignable address of every
    pool is held. *)
Theorem allocateIP_first_free ifcID pools s : Validate pools = Ok tt ->
  match allocateIP ifcID pools s with
  | Ok ip => first_free (used_addrs ifcID s) pools ip
  | Err e => e = E CodeDevicePoolExhausted /\
      forall c p a, c ∈ pools -> Parse c = Ok p -> valid_addr a ->
        Assignable p a = true -> addr_text a ∈ used_addrs ifcID s
  end.
Proof.
  intros Hv. unfold allocateIP.
  assert (forall c, c ∈ pools -> exists p, Parse c = Ok p) as Hall.
  { unfold Validate in Hv. cbv zeta in Hv. destruct (_ || _); [done|].
    apply validate_go_ok in Hv as (ps & Hps & _). intros c Hc.
    apply list_elem_of_lookup in Hc as [i Hi].
    destruct (Forall2_lookup_l _ _ _ _ _ Hps Hi) as (p & _ & Hp). eauto. }
  pose proof (scan_pools_spec (used_addrs ifcID s) pools Hall) as Hs.
  destruct (scan_pools _ _) as [ip|e]; [done|]. destruct Hs as [-> Hs]. split; [done|].
  intros c p a Hc Hp Ha HA. destruct (decide (addr_text a ∈ used_addrs ifcID s)); [done|].
  destruct (Hs c p a Hc Hp Ha). by split.
Qed.

(** A device is only created for a live, enabled account whose status wants
    peers, within its device limit (the limit holds after the insert as well),
    on an enabled interface, at the first free address of its pools. *)
Theorem CreateTx_spec userID name keys interfaceID s d s' :
  CreateTx userID name keys interfaceID s = Ok (d, s') ->
  exists u i pools, live_user userID s = Some u /\ u_Enabled u = true /\
    PeerWanted (u_Status u) = true /\
    i_ID i = d_InterfaceID d /\ i_Enabled i = true /\ (exists k, ifaces s !! k = Some i) /\
    Decode (i_Subnet i) (i_ExtraPools i) = Ok pools /\
    allocateIP (i_ID i) pools s = Ok (d_IPv4 d) /\
    devices s !! d_ID d = None /\ devices s' = <[d_ID d := d]> (devices s) /\
    CountForUser userID s' = CountForUser userID s + 1 /\
    (forall limit, u_DeviceLimit u = Some limit -> CountForUser userID s' <= limit).
Proof.
  intros (s1 & s2 & id & ifcID & ip & Ho & Hp & -> & _ & _ & Hi & Ho2)%device_CreateTx_inv.
  rewrite (placement_outbox _ _ _ _ _ _ Ho) in Hp.
  apply placement_ok in Hp as (u & i & pools & Hl & He & Hpw & Hid & Hie & Hik & Hd & Ha & Hlim).
  set (d := new_device _ _ _ _ _ _ _) in *.
  apply outbox_only_tables in Ho as (_ & Hd1 & _), Ho2 as (_ & Hd2 & _).
  apply insertDevice_ok in Hi as (-> & Hn & _). cbn in Hd2. rewrite Hd1 in Hn, Hd2.
  assert (CountForUser userID s' = CountForUser userID s + 1) as Hcount.
  { etrans; [|exact (CountForUser_put d s Hn)]. unfold CountForUser, user_devices. by rewrite Hd2. }
  exists u, i, pools. split_and!; try done. intros limit Hlimit%Hlim. lia.
Qed.

(** C12. No sequence of device operations and account deletions files a device
    under a foreign id, or gives two devices the same public key, the same
    address on one interface, or the same name under one account. *)
Theorem devices_wf_invariant s s' : devices_wf s -> rtc device_step s s' -> devices_wf s'.
Proof. intros Hwf Hr. induction Hr as [|s1 s2 s3 Hs _ IH]; [done|]. by apply IH, (device_step_wf s1). Qed.

(** C14. Revocation is never forgotten: across any sequence of device operations
    and account deletions, a key a device once held is either still that
    device's key or in the retired list of its interface. *)
Theorem replaced_keys_retired s s' : devices_wf s -> rtc device_step s s' -> retires s s'.
Proof.
  intros Hwf Hr. induction Hr as [|s1 s2 s3 Hs _ IH]; [done|].
  etrans; [by apply device_step_retires|]. by apply IH, (device_step_wf s1).
Qed.

(** A coordinated rotation that succeeds has replaced the key of every device
    of the account by the one requested for it, different from the old one,
    and has touched no other device; the rotations named exactly the account's
    devices. *)
Lemma Replace_exact userID rs s x s' : devices_wf s ->
  ReplaceUserCredentialsTx userID rs s = Ok (x, s') ->
  (forall k d, devices s !! k = Some d -> d_UserID d <> userID -> devices s' !! k = Some d) /\
  (forall k d, devices s !! k = Some d -> d_UserID d = userID -> exists keys,
     MkRotation k keys ∈ rs /\ km_PublicKey keys <> d_PublicKey d /\
     devices s' !! k = Some (rekeyed keys (clock s) d)) /\
  (forall r, r ∈ rs -> exists d, devices s !! ro_DeviceID r = Some d /\ d_UserID d = userID).
Proof.
  intros Hwf. unfold ReplaceUserCredentialsTx.
  destruct (wanted_keys rs ∅) as [w|] eqn:Ew; [|done].
  destruct (Nat.eqb_spec (length (user_devices userID s)) (size w)) as [Hsize|]; cbn [negb]; [|done].
  destruct (forallb _ _) eqn:Hm; cbn [negb]; [|done].
  rewrite forallb_forall in Hm. intros Hi.
  pose proof (wanted_keys_ok _ _ _ Ew) as Hw.
  pose proof (user_devices_NoDup userID s Hwf) as Hnd.
  pose proof (rotate_all_devices _ _ _ _ _ Hnd Hi) as Hdev.
  assert (forall k d, devices s !! k = Some d -> (k ∈ d_ID <$> user_devices userID s <-> d_UserID d = userID)) as Hmem.
  { intros k d Hk. rewrite list_elem_of_fmap. split.
    - intros (e & -> & (k' & Hk' & <-)%elem_of_user_devices).
      rewrite (proj1 Hwf _ _ Hk') in Hk. congruence.
    - intros <-. exists d. split; [by rewrite (proj1 Hwf _ _ Hk)|]. apply elem_of_user_devices. eauto. }
  split_and!.
  - intros k d Hk Hne. rewrite Hdev, decide_False; [done|]. by rewrite (Hmem _ _ Hk).
  - intros k d Hk He. pose proof (proj2 (Hmem _ _ Hk) He) as Hin. rewrite Hdev, decide_True by done.
    assert (rotation_matches w d = true) as Hmd.
    { apply Hm, list_elem_of_In, elem_of_user_devices. eauto. }
    unfold rotation_matches in Hmd. rewrite (proj1 Hwf _ _ Hk) in Hmd.
    destruct (w !! k) as [keys|] eqn:Ek; [|done]. apply negb_true_iff, String.eqb_neq in Hmd.
    exists keys. rewrite Hk. split_and!; [|done|done].
    apply Hw in Ek as [E|]; [by rewrite lookup_empty in E|done].
  - intros [k keys] Hr. cbn. assert (k ∈ dom w) as Hk.
    { apply elem_of_dom. exists keys. apply Hw. by right. }
    assert (dom w = list_to_set (d_ID <$> user_devices userID s)) as Hdom.
    { symmetry. apply set_subseteq_size_eq.
      - intros i Hi2%elem_of_list_to_set. apply list_elem_of_fmap in Hi2 as (d & -> & Hd).
        apply list_elem_of_In, Hm in Hd. unfold rotation_matches in Hd. apply elem_of_dom.
        destruct (w !! d_ID d); [eauto|done].
      - rewrite size_dom, size_list_to_set by done. rewrite length_fmap. lia. }
    rewrite Hdom in Hk. apply elem_of_list_to_set, list_elem_of_fmap in Hk as (d & -> & Hd).
    apply elem_of_user_devices in Hd as (k & Hk & <-). exists d.
    by rewrite (proj1 Hwf _ _ Hk).
Qed.
End Properties.

(** ** Witnesses *)

Section Witnesses.
#[local] Existing Instance counting_entropy.
#[local] Instance no_recorder : EventRecorder := None.

Definition w_key (n : Z) : KeyMaterial := MkKeys (EncodeToString (List.repeat n 32)) "sealed" None.
Definition w_iface : Iface := MkIface "if0" "awg0" 51820 "10.8.0.0/29" (Some []) 1420
  "pub" "enc" plain_columns "plain" true BackendKernel None 0 0.
Definition w_s0 : store := w_alice <| ifaces := {[ "if0" := w_iface ]} |>.
Definition w_s1 : store := (Create w_alice_id "phone" (w_key 1) "" w_s0).2.
Definition w_phone : string := NewID 1700000000000 (rand 1%nat).

Lemma w_s0_wf : devices_wf w_s0.
Proof.
  assert (devices w_s0 = ∅) as E by (vm_compute; reflexivity).
  unfold devices_wf. rewrite E. split; [apply map_Forall_empty|].
  intros k1 k2 d1 d2 H1. by rewrite lookup_empty in H1.
Qed.

Lemma w_s1_runs : exists d, CreateTx w_alice_id "phone" (w_key 1) "" w_s0 = Ok (d, w_s1).
Proof. eexists. vm_compute. reflexivity. Qed.

Lemma w_s1_wf : devices_wf w_s1.
Proof. destruct w_s1_runs as [d Hd]. exact (device_CreateTx_wf _ _ _ _ _ _ _ w_s0_wf Hd). Qed.

Lemma w_s1_users_eq : users w_s1 = users w_alice.
Proof.
  transitivity (users w_s0); [|unfold w_s0; generalize w_alice; reflexivity].
  destruct w_s1_runs as [d Hd]. exact (device_CreateTx_users _ _ _ _ _ _ _ Hd).
Qed.

Theorem allocateIP_first_free_witness :
  allocateIP "if0" ["10.8.0.0/29"] w_s1 = Ok "10.8.0.3/32" /\
  first_free (used_addrs "if0" w_s1) ["10.8.0.0/29"] "10.8.0.3/32".
Proof.
  split; [vm_compute; reflexivity|].
  pose proof (allocateIP_first_free "if0" ["10.8.0.0/29"] w_s1 ltac:(vm_compute; reflexivity)) as H.
  replace (allocateIP "if0" ["10.8.0.0/29"] w_s1) with (@Ok err string "10.8.0.3/32") in H
    by (vm_compute; reflexivity).
  exact H.
Defined.

Theorem CreateTx_spec_witness : exists d s', CreateTx w_alice_id "phone" (w_key 1) "" w_s0 = Ok (d, s')
  /\ CountForUser w_alice_id s' = CountForUser w_alice_id w_s0 + 1.
Proof.
  destruct (CreateTx w_alice_id "phone" (w_key 1) "" w_s0) as [[d s']|] eqn:E;
    [|vm_compute in E; discriminate].
  destruct (CreateTx_spec _ _ _ _ _ _ _ E) as (u & i & pools & _ & _ & _ & _ & _ & _ & _ & _ & _ & _ & Hc & _).
  exists d, s'. split; [reflexivity|exact Hc].
Defined.

Lemma w_created : rtc device_step w_s0 w_s1.
Proof.
  eapply rtc_once, (dstep_create w_alice_id "phone" (w_key 1) ""). vm_compute. reflexivity.
Qed.

Theorem devices_wf_invariant_witness : devices_wf w_s1.
Proof. exact (devices_wf_invariant w_s0 w_s1 w_s0_wf w_created). Defined.

Theorem replaced_keys_retired_witness :
  ("if0", km_PublicKey (w_key 1)) ∈ retired_peer_keys (Delete w_phone w_s1).2.
Proof.
  destruct (DeleteTx w_phone w_s1) as [[x s']|] eqn:E; [|vm_compute in E; discriminate].
  assert (rtc device_step w_s1 s') as Hr by (eapply rtc_once, dstep_delete; exact E).
  destruct (replaced_keys_retired w_s1 s' w_s1_wf Hr) as [_ Hret].
  unfold Delete, WithTx. rewrite E. cbn [snd].
  destruct (devices w_s1 !! w_phone) as [d|] eqn:Ed; [|vm_compute in Ed; discriminate].
  destruct (Hret w_phone d Ed) as [(d' & Hd' & _)|Hin].
  - exfalso. replace s' with (WithTx (DeleteTx w_phone) w_s1).2 in Hd' by (unfold WithTx; by rewrite E).
    vm_compute in Hd'. discriminate.
  - replace (d_InterfaceID d) with "if0" in Hin; [|vm_compute in Ed; by injection Ed as <-].
    replace (d_PublicKey d) with (km_PublicKey (w_key 1)) in Hin; [done|].
    vm_compute in Ed. by injection Ed as <-.
Defined.

End Witnesses.
