(* ===== verification/ClientConf.v ===== *)
(** * Client configurations (internal/clientconf/clientconf.go)

    The configuration file a device downloads: a function of the device, its
    interface and the node's settings; and how the importer reads a block of
    printed settings. QR images and archive names are not modelled. *)
From stdpp Require Import base tactics strings gmap list.
From Stdlib Require Import ZArith Lia Ascii.
From Stdlib Require String.
From S2P Require Import Prelude GoText GoTime Domain Awgparam JsonText Store Ipam NetText NetAddr Crypto Tunnel Profile Secrets Sealing Auth Accounts Matchers ImportConfig Devices Iface Registry Catalog.

Open Scope Z_scope.

(** The settings as the renderer reads them. *)
Class NodeSettings := {
  NodeString : string -> result err string;
  NodeStrings : string -> result err (option (list string))
}.

Definition registry_node_settings `{U : UrlSyntax, A : AEAD} (ring : KeyRing) (r : registry) : NodeSettings := {|
  NodeString key := (GetString ring catalog key r).1;
  NodeStrings key := (GetStringList ring catalog key r).1 |}.

(** ** Pieces *)

(** [fmt.Fprintf(&b, "Key = %s\n", value)]. *)
Definition nl : string := String (char_of 10) "".
Definition setting_text (kv : string * string) : string := kv.1 +:+ " = " +:+ kv.2.
Fixpoint write_settings (l : list (string * string)) (rest : string) : string :=
  match l with [] => rest | kv :: l => setting_text kv +:+ nl +:+ write_settings l rest end.

Definition opt {A} (b : bool) (x : A) : list A := if b then [x] else [].

(** [device.Service.PrivateKey], [PresharedKey]. *)
Definition device_private `{AEAD} (ring : KeyRing) (d : Device) : result err string :=
  match ring_Decrypt ring (d_PrivKeyEnc d) with Ok pt => Ok pt | Err _ => Err (Plain "device: decrypt private key") end.
Definition device_psk `{AEAD} (ring : KeyRing) (d : Device) : result err string :=
  match d_PSKEnc d with
  | None => Ok ""
  | Some sealed => match ring_Decrypt ring sealed with Ok pt => Ok pt | Err _ => Err (Plain "device: decrypt psk") end
  end.

Fixpoint canonical_parts (l : list string) : result err (list string) :=
  match l with
  | [] => Ok []
  | part :: l =>
      let part := trim_space part in
      if String.eqb part "" then canonical_parts l
      else if negb (ParseCIDR part) then Err (Plain "clientconf: stored allowed IP is invalid")
      else parts ← canonical_parts l; Ok (part :: parts)
  end.

Definition canonicalAllowedIPs (text : string) : result err string :=
  parts ← canonical_parts (str_split "," text); Ok (str_join ", " parts).

(** The endpoint with the listen port, unless it has a port of its own. *)
Definition WithPort (endpoint : string) (port : Z) : string :=
  if has_char "]" endpoint then (if has_suffix "]" endpoint then endpoint +:+ ":" +:+ int_text port else endpoint)
  else if (str_count ":" endpoint =? 1)%nat then endpoint
  else if has_char ":" endpoint then "[" +:+ endpoint +:+ "]:" +:+ int_text port
  else endpoint +:+ ":" +:+ int_text port.

(** The parameters of an enabled profile. *)
Definition profile_settings (o : Obfuscation) : list (string * string) :=
  let timer key r := opt (negb (IsZero r)) (key, range_text r) in
  let signature key v := opt (negb (String.eqb v "")) (key, v) in
  [("Jc", int_text (ob_Jc o)); ("Jmin", int_text (ob_Jmin o)); ("Jmax", int_text (ob_Jmax o));
   ("S1", int_text (ob_S1 o)); ("S2", int_text (ob_S2 o))]
  ++ opt (negb (ob_S3 o =? 0)) ("S3", int_text (ob_S3 o)) ++ opt (negb (ob_S4 o =? 0)) ("S4", int_text (ob_S4 o))
  ++ [("H1", range_text (ob_H1 o)); ("H2", range_text (ob_H2 o)); ("H3", range_text (ob_H3 o)); ("H4", range_text (ob_H4 o))]
  ++ signature "I1" (ob_I1 o) ++ signature "I2" (ob_I2 o) ++ signature "I3" (ob_I3 o) ++ signature "I4" (ob_I4 o)
  ++ signature "I5" (ob_I5 o)
  ++ opt (negb (String.eqb (ob_HeaderProtectionKey o) "")) ("HeaderProtectionKey", ob_HeaderProtectionKey o)
  ++ timer "ContentPaddingAddition" (ob_ContentPaddingAddition o) ++ timer "RekeyAfterTime" (ob_RekeyAfterTime o)
  ++ timer "RekeyTimeout" (ob_RekeyTimeout o) ++ timer "RejectAfterTime" (ob_RejectAfterTime o)
  ++ timer "KeepaliveTimeout" (ob_KeepaliveTimeout o) ++ timer "MaxHandshakeAttempts" (ob_MaxHandshakeAttempts o)
  ++ opt (ob_RandomTrailers o) ("RandomTrailers", "on") ++ opt (ob_DisableCookies o) ("DisableCookies", "on").

(** What a configuration is made of. *)
Record client := MkClient {
  cl_Private : string;
  cl_PSK : string;
  cl_IPv4 : string;
  cl_DNS : list string;
  cl_MTU : Z;
  cl_Obf : Obfuscation;
  cl_Public : string;
  cl_Allowed : string;
  cl_Endpoint : string;
  cl_Port : Z;
  cl_Keepalive : Range
}.

#[export] Instance eta_client : Eta client := fun c =>
  MkClient (cl_Private c) (cl_PSK c) (cl_IPv4 c) (cl_DNS c) (cl_MTU c) (cl_Obf c) (cl_Public c) (cl_Allowed c) (cl_Endpoint c)
    (cl_Port c) (cl_Keepalive c).

Definition interface_settings (c : client) : list (string * string) :=
  [("PrivateKey", cl_Private c); ("Address", cl_IPv4 c)]
  ++ opt (bool_decide (cl_DNS c <> [])) ("DNS", str_join ", " (cl_DNS c))
  ++ opt (0 <? cl_MTU c) ("MTU", int_text (cl_MTU c))
  ++ (if ob_Enabled (cl_Obf c) then profile_settings (cl_Obf c) else []).

Definition peer_settings (c : client) : list (string * string) :=
  [("PublicKey", cl_Public c)]
  ++ opt (negb (String.eqb (cl_PSK c) "")) ("PresharedKey", cl_PSK c)
  ++ opt (negb (String.eqb (cl_Allowed c) "")) ("AllowedIPs", cl_Allowed c)
  ++ opt (negb (String.eqb (cl_Endpoint c) "")) ("Endpoint", WithPort (cl_Endpoint c) (cl_Port c))
  ++ opt (negb (IsZero (cl_Keepalive c))) ("PersistentKeepalive", range_text (cl_Keepalive c)).

Definition client_text (c : client) : string :=
  "[Interface]" +:+ nl +:+ write_settings (interface_settings c) (nl +:+ "[Peer]" +:+ nl +:+ write_settings (peer_settings c) "").

(** ** Render *)

Section Render.
Context `{A : AEAD, N : NodeSettings} (ring : KeyRing).

(** The key material is opened last. *)
Definition client_of (deviceID : string) (s : store) : result err client :=
  d ← Devices.Get deviceID s;
  ifc ← Iface.Get (d_InterfaceID d) s;
  _ ← (if is_ok (ValidateConfigText (if_Obfuscation ifc)) then Ok tt else Err (Plain "clientconf: stored obfuscation profile is invalid"));
  endpoint ← (if String.eqb (if_EndpointOverride ifc) "" then NodeString "node.endpoint" else Ok (if_EndpointOverride ifc));
  _ ← (if is_ok (NetText.ValidEndpoint endpoint) then Ok tt else Err (Plain "clientconf: stored endpoint is invalid"));
  dns ← NodeStrings "network.dns_servers";
  let dns := default [] dns in
  _ ← (if forallb ParseIP dns then Ok tt else Err (Plain "clientconf: stored DNS server is invalid"));
  allowedText ← NodeString "network.client_allowed_ips";
  allowed ← canonicalAllowedIPs allowedText;
  keepaliveText ← NodeString "network.client_persistent_keepalive";
  keepalive ← ParseU16Range keepaliveText;
  priv ← device_private ring d;
  psk ← device_psk ring d;
  Ok (MkClient priv psk (d_IPv4 d) dns (if_MTU ifc) (if_Obfuscation ifc) (if_PublicKey ifc) allowed endpoint (if_ListenPort ifc) keepalive).

Definition Render (deviceID : string) (s : store) : result err string :=
  c ← client_of deviceID s; Ok (client_text c).
End Render.

(** ** Lemmas: lines of printable text *)

(** A printable character that starts no comment; one that is not a blank. *)
Definition line_char (c : ascii) : bool := (32 <=? byte_of c) && (byte_of c <=? 126) && negb (Ascii.eqb c "#").
Definition edge (c : ascii) : bool := line_char c && negb (Ascii.eqb c " ").
Definition starts_edge (s : string) : bool := match s with String c _ => edge c | EmptyString => false end.

(** A value on one line: printable, without blanks at either end. *)
Definition one_line (v : string) : bool := str_all line_char v && starts_edge v && starts_edge (str_rev v).
Definition word (v : string) : bool := negb (String.eqb v "") && str_all edge v.

Lemma edge_no_space c r : edge c = true ->
  strip_any space_runes (String c r) = None /\ strip_any (List.map str_rev space_runes) (String c r) = None.
Proof.
  intros H. apply andb_prop in H as [H Hb]. apply andb_prop in H as [H _].
  destruct c as [[] [] [] [] [] [] [] []]; first [discriminate H|discriminate Hb|split; reflexivity].
Qed.

Lemma starts_edge_app a b : a <> "" -> starts_edge (a +:+ b) = starts_edge a.
Proof. by destruct a. Qed.

Lemma str_rev_nil a : str_rev a = "" -> a = "".
Proof. intros H. by rewrite <- (str_rev_rev a), H. Qed.

Lemma trim_left_edge ps s fuel : (forall c r, edge c = true -> strip_any ps (String c r) = None) -> starts_edge s = true ->
  trim_left fuel ps s = s.
Proof. intros Hps Hs. destruct fuel, s as [|c s]; try done. cbn. by rewrite Hps. Qed.

Lemma trim_line s : starts_edge s = true -> starts_edge (str_rev s) = true -> trim_space s = s.
Proof.
  intros H1 H2. unfold trim_space. cbv zeta. rewrite (trim_left_edge space_runes); [|intros c r Hc; exact (proj1 (edge_no_space c r Hc))|done].
  rewrite trim_left_edge; [apply str_rev_rev|intros c r Hc; exact (proj2 (edge_no_space c r Hc))|done].
Qed.

Lemma trim_blank v : starts_edge v = true -> starts_edge (str_rev v) = true -> trim_space (String " " v) = v.
Proof.
  intros H1 H2. unfold trim_space. cbv zeta.
  assert (trim_left (String.length (String " " v)) space_runes (String " " v) = v) as ->.
  { change (trim_left (String.length (String " " v)) space_runes (String " " v)) with (trim_left (String.length v) space_runes v).
    apply trim_left_edge; [intros c r Hc; exact (proj1 (edge_no_space c r Hc))|done]. }
  rewrite trim_left_edge; [apply str_rev_rev|intros c r Hc; exact (proj2 (edge_no_space c r Hc))|done].
Qed.

Lemma word_one_line v : word v = true -> one_line v = true.
Proof.
  unfold word, one_line. intros [Hn%negb_true_iff%String.eqb_neq Ha]%andb_prop. rewrite !andb_true_iff.
  assert (forall s, s <> "" -> str_all edge s = true -> starts_edge s = true) as Hs.
  { intros [|c s]; [done|]. cbn. intros _ [? _]%andb_prop. done. }
  split_and!; [|by apply Hs|apply Hs; [by intros ?%str_rev_nil|by rewrite str_all_rev]].
  revert Ha. apply str_all_weaken. intros c. unfold edge. by intros [? _]%andb_prop.
Qed.

Lemma fields_go_word w s fuel : (String.length s <= fuel)%nat -> str_all edge s = true ->
  fields_go fuel w s = if String.eqb (w +:+ s) "" then [] else [w +:+ s].
Proof.
  revert w fuel. induction s as [|c s IH]; intros w fuel Hf Hs.
  - rewrite str_app_nil. by destruct fuel.
  - cbn in Hf. destruct fuel as [|fuel]; [lia|]. cbn [fields_go]. cbn [str_all] in Hs. apply andb_prop in Hs as [Hc Hs].
    rewrite (proj1 (edge_no_space c s Hc)), IH by (done || lia). by rewrite string_app_assoc.
Qed.

Lemma squeeze_word v : word v = true -> squeeze v = v.
Proof.
  unfold word, squeeze, fields. intros [Hn%negb_true_iff Ha]%andb_prop. rewrite fields_go_word by done.
  cbn [String.append]. by rewrite Hn.
Qed.

(** A key and the blank after it. *)
Lemma squeeze_key k : word k = true -> squeeze (k +:+ " ") = k.
Proof.
  unfold word, squeeze, fields. intros [Hn%negb_true_iff Ha]%andb_prop.
  assert (forall s w fuel, str_all edge s = true -> (String.length (s +:+ " ") <= fuel)%nat ->
    fields_go fuel w (s +:+ " ") = if String.eqb (w +:+ s) "" then [] else [w +:+ s]) as Hg.
  { induction s as [|c s IH]; intros w fuel Hs Hf.
    - cbn in Hf. destruct fuel as [|fuel]; [lia|]. rewrite str_app_nil. cbn. by destruct fuel, (String.eqb w "").
    - cbn in Hf. destruct fuel as [|fuel]; [lia|]. cbn [fields_go String.append]. cbn [str_all] in Hs. apply andb_prop in Hs as [Hc Hs].
      rewrite (proj1 (edge_no_space c (s +:+ " ") Hc)), IH by (done || lia). by rewrite string_app_assoc. }
  rewrite Hg by done. cbn [String.append]. by rewrite Hn.
Qed.

(** ** Lemmas: reading back a block of settings *)

(** A key: letters and digits. *)
Definition key_letter (c : ascii) : bool := in_range "a" "z" c || in_range "A" "Z" c || is_digit c.

Lemma key_letter_facts c : key_letter c = true ->
  edge c = true /\ Ascii.eqb c "=" = false /\ Ascii.eqb c "#" = false /\ Ascii.eqb c ";" = false /\ Ascii.eqb c "[" = false.
Proof. intros H. destruct c as [[] [] [] [] [] [] [] []]; first [discriminate H|split_and!; reflexivity]. Qed.

Lemma key_word k : k <> "" -> str_all key_letter k = true -> word k = true.
Proof.
  intros Hn Hk. unfold word. apply String.eqb_neq in Hn. rewrite Hn. cbn. revert Hk. apply str_all_weaken.
  intros c Hc. by apply key_letter_facts.
Qed.

(** A block of settings, line by line. *)
Definition set_key (section : section_kind) (key value : string) (p : configParser) : result err configParser :=
  let key := ToLower key in
  let value := if isSignatureKey key then value else squeeze value in
  match section with SInterface => interfaceKey key value p | SPeer => peerKey key value p | NoSection => reject "config_invalid" end.

Fixpoint run_settings (section : section_kind) (l : list (string * string)) (p : configParser) : result err configParser :=
  match l with [] => Ok p | (k, v) :: l => p ← set_key section k v p; run_settings section l p end.

Definition setting_ok (kv : string * string) : Prop := kv.1 <> "" /\ str_all key_letter kv.1 = true /\ one_line kv.2 = true.

Lemma one_line_parts v : one_line v = true -> str_all line_char v = true /\ starts_edge v = true /\ starts_edge (str_rev v) = true.
Proof. unfold one_line. rewrite !andb_true_iff. tauto. Qed.

Lemma setting_line k v : setting_ok (k, v) -> let line := setting_text (k, v) in
  str_all line_char line = true /\ config_line line = line /\ line <> "" /\
  has_prefix ";" line = false /\ has_prefix "[" line = false /\ str_cut "=" line = (k +:+ " ", String " " v, true).
Proof.
  intros (Hn & Hk & Hv). cbn [fst snd] in *. apply one_line_parts in Hv as (Hv & Hs & He). unfold setting_text. cbn [fst snd].
  set (line := k +:+ " = " +:+ v). assert (str_all line_char line = true) as Hl.
  { assert (str_all line_char k = true) as Hk'.
    { revert Hk. apply str_all_weaken. intros c Hc%key_letter_facts. destruct Hc as [Hc _]. unfold edge in Hc. by apply andb_prop in Hc as [? _]. }
    unfold line. by rewrite !str_all_app, Hk', Hv. }
  split; [done|]. split.
  { unfold config_line, before. rewrite str_cut_none; cbn [fst].
    - apply trim_line.
      + destruct k as [|c k]; [done|]. cbn in Hk |- *. apply andb_prop in Hk as [Hc _]. by apply key_letter_facts.
      + unfold line. rewrite !str_rev_app. rewrite !starts_edge_app; [done|..].
        * intros E%str_rev_nil. by subst v.
        * intros E. destruct (str_rev v); [done|]. discriminate E.
    - revert Hl. apply str_all_weaken. intros c. unfold line_char. by intros [_ ?]%andb_prop. }
  unfold line. destruct k as [|c k]; [done|]. cbn [str_all] in Hk. apply andb_prop in Hk as [Hc Hk].
  apply key_letter_facts in Hc as (_ & Hc1 & _ & Hc2 & Hc3). split; [done|]. unfold has_prefix. cbn [strip_prefix String.append].
  rewrite Ascii.eqb_sym, Hc2, Ascii.eqb_sym, Hc3. split_and!; [done..|].
  pose proof (str_cut_app "=" (String c k +:+ " ") (String " " v)) as Hcut. rewrite string_app_assoc in Hcut. apply Hcut.
  rewrite str_all_app. cbn [str_all]. rewrite Hc1. cbn. rewrite andb_true_r. revert Hk. apply str_all_weaken.
  intros d (_ & Hd & _)%key_letter_facts. by rewrite Hd.
Qed.

Lemma read_printed k v lines section peers p : setting_ok (k, v) ->
  read_lines (setting_text (k, v) :: lines) section peers p = (p' ← set_key section k v p; read_lines lines section peers p').
Proof.
  intros Hkv. destruct (setting_line k v Hkv) as (_ & Hc & Hn & H1 & H2 & Hcut). destruct Hkv as (Hk & Hkc & Hv).
  cbn [fst snd] in *. apply one_line_parts in Hv as (_ & Hs & He).
  cbn [read_lines]. rewrite Hc. apply String.eqb_neq in Hn. rewrite Hn, H1, H2. cbn [orb andb].
  rewrite Hcut. cbn [negb]. rewrite squeeze_key by (by apply key_word). rewrite trim_blank by done. by destruct section.
Qed.

Lemma no_newline s : str_all line_char s = true -> str_all (fun c => negb (Ascii.eqb c (char_of 10))) s = true.
Proof.
  apply str_all_weaken. intros c H. destruct c as [[] [] [] [] [] [] [] []]; first [discriminate H|reflexivity].
Qed.

Lemma split_line a rest : str_all line_char a = true -> str_split (char_of 10) (a +:+ nl +:+ rest) = a :: str_split (char_of 10) rest.
Proof. intros H. apply (str_split_head (char_of 10) a rest). by apply no_newline. Qed.

Lemma read_settings l rest section peers p : Forall setting_ok l ->
  read_lines (str_split (char_of 10) (write_settings l rest)) section peers p =
  (p' ← run_settings section l p; read_lines (str_split (char_of 10) rest) section peers p').
Proof.
  intros Hl. revert p. induction Hl as [|[k v] l Hkv Hl IH]; intros p; [done|]. cbn [write_settings run_settings].
  rewrite split_line by apply (setting_line k v Hkv). rewrite read_printed by done.
  destruct (set_key section k v p) as [p'|]; [|done]. cbn. apply IH.
Qed.

Lemma run_settings_app section l1 l2 p :
  run_settings section (l1 ++ l2) p = (p' ← run_settings section l1 p; run_settings section l2 p').
Proof.
  revert p. induction l1 as [|[k v] l1 IH]; intros p; [done|]. cbn. destruct (set_key section k v p); [|done]. cbn. apply IH.
Qed.
