(* ===== verification/ClientImport.v ===== *)
(** * A rendered configuration can be imported

    The text a device downloads (internal/clientconf) is one another node reads
    back as an outbound (internal/egress/wgconf.go): the round trip composes the
    address allocation, the profile validation, the endpoint grammar, the
    renderer and the importer. *)
From stdpp Require Import base tactics strings gmap list.
From Stdlib Require Import ZArith Lia Ascii.
From Stdlib Require String.
From S2P Require Import Prelude GoText GoTime Domain Awgparam JsonText Store Ipam NetText NetAddr Crypto Tunnel Profile Secrets Sealing Auth Accounts Matchers ImportConfig Devices Iface Registry Catalog ClientConf.

Open Scope Z_scope.

(** ** Lemmas: the values *)

Lemma dec_word n : 0 <= n -> word (dec n) = true.
Proof.
  intros Hn. unfold word. destruct (String.eqb_spec (dec n) "") as [E|]; [by apply dec_not_empty in E|]. cbn.
  pose proof (str_all_dec n Hn) as Hd. revert Hd. apply str_all_weaken.
  intros c H. destruct c as [[] [] [] [] [] [] [] []]; first [discriminate H|reflexivity].
Qed.

Lemma int_text_dec n : 0 <= n -> int_text n = dec n.
Proof. intros Hn. unfold int_text. by rewrite (proj2 (Z.ltb_ge n 0) Hn). Qed.

Lemma range_word r : 0 <= low r -> 0 <= high r -> word (range_text r) = true.
Proof.
  intros Hl Hh. unfold word. destruct (String.eqb_spec (range_text r) "") as [E|].
  { unfold range_text in E. destruct (low r =? high r); [by apply dec_not_empty in E|].
    destruct (dec (low r)) as [|c s] eqn:Ed; [by apply dec_not_empty in Ed|discriminate E]. }
  cbn. pose proof (range_text_plain r Hl Hh) as Hd. revert Hd. apply str_all_weaken.
  intros c H. destruct c as [[] [] [] [] [] [] [] []]; first [discriminate H|reflexivity].
Qed.

(** A key in its canonical base64 form. *)
Definition encoded (k : string) : Prop := ValidateEncodedKey k = Ok tt.

Definition key_text_char (c : ascii) : bool := b64_alpha c || Ascii.eqb c "=".

Lemma encode_chars l : Forall byte_range l -> str_all key_text_char (EncodeToString l) = true.
Proof.
  assert (forall v, 0 <= v < 64 -> key_text_char (b64_char v) = true) as Hb.
  { intros v Hv. unfold key_text_char, b64_alpha. by rewrite (b64_val_char_some v Hv). }
  assert (byte_range 0) as H0 by (unfold byte_range; lia).
  induction l as [|x|x y|x y z l IH] using list_ind3; intros Hr; [done|..].
  - apply Forall_cons in Hr as [Hx _]. cbn [EncodeToString str_all].
    destruct (sextets x 0 0) as ((? & ? & ? & ? & ? & ?) & _); [done..|]. rewrite !Hb by done. done.
  - apply Forall_cons in Hr as [Hx [Hy _]%Forall_cons]. cbn [EncodeToString str_all].
    destruct (sextets x y 0) as ((? & ? & ? & ? & ? & ?) & _); [done..|]. rewrite !Hb by done. done.
  - apply Forall_cons in Hr as [Hx [Hy [Hz Hr]%Forall_cons]%Forall_cons]. cbn [EncodeToString str_all].
    destruct (sextets x y z) as ((? & ? & ? & ? & ? & ?) & _); [done..|]. rewrite !Hb by done. rewrite IH by done. done.
Qed.

Lemma encoded_facts k : encoded k -> word k = true /\ k <> "" /\ key_ok k /\ is_ok (ValidatePrivateKey k) = true /\
  is_ok (ValidatePublicKey k) = true /\ protection_key k = Some k.
Proof.
  unfold encoded, ValidateEncodedKey. destruct (DecodeString k) as [raw|] eqn:E; [|done].
  destruct (length raw =? 32)%nat eqn:El; [|done]. destruct (String.eqb_spec (EncodeToString raw) k) as [Ek|]; [|done]. intros _.
  pose proof (DecodeString_bytes _ _ E) as Hr.
  assert (k <> "") as Hn by (intros ->; injection E as <-; done). split_and!; [|done|..].
  - unfold word. apply String.eqb_neq in Hn. rewrite Hn. cbn. pose proof (encode_chars raw Hr) as Hc. rewrite Ek in Hc. revert Hc.
    apply str_all_weaken. intros c H. destruct c as [[] [] [] [] [] [] [] []]; first [discriminate H|reflexivity].
  - unfold key_ok, ValidatePublicKey. by rewrite E, El.
  - unfold ValidatePrivateKey. by rewrite E, El.
  - unfold ValidatePublicKey. by rewrite E, El.
  - unfold protection_key. rewrite E. cbn. by rewrite El, Ek.
Qed.

(** ** Lemmas: the lines of a profile *)

(** A line of a profile: whether it is written, and what reading it sets. *)
Record entry := MkEnt {
  en_on : bool;
  en_key : string;
  en_value : string;
  en_set : Obfuscation -> Obfuscation
}.

Definition entry_settings (es : list entry) : list (string * string) := es ≫= (fun e => opt (en_on e) (en_key e, en_value e)).

Definition entry_ok (e : entry) : Prop := en_on e = true ->
  assoc (ToLower (en_key e)) ignoredInterfaceKeys = None /\
  existsb (String.eqb (ToLower (en_key e))) ["privatekey"; "address"; "mtu"] = false /\
  forall o, profile_key (ToLower (en_key e)) (if isSignatureKey (ToLower (en_key e)) then en_value e else squeeze (en_value e)) o
            = Some (Ok (en_set e o)).

Definition apply_entries (es : list entry) (o : Obfuscation) : Obfuscation :=
  foldl (fun o e => if en_on e then en_set e o else o) o es.

Lemma run_entries es p : Forall entry_ok es -> NoDup (ToLower ∘ en_key <$> es) ->
  (forall k, k ∈ ToLower ∘ en_key <$> es -> k ∉ cp_seen p) ->
  exists seen, run_settings SInterface (entry_settings es) p = Ok (p <| cp_obf := apply_entries es (cp_obf p) |> <| cp_seen := seen |>) /\
    (forall k, k ∈ cp_seen p -> k ∈ seen) /\ (forall k, k ∈ seen -> k ∈ cp_seen p \/ k ∈ ToLower ∘ en_key <$> es).
Proof.
  intros He. revert p. induction He as [|e es He Hes IH]; intros p Hn Hs.
  { exists (cp_seen p). split; [by destruct p|]. split; [done|by left]. }
  rewrite fmap_cons in Hn, Hs. apply NoDup_cons in Hn as [Hk Hn]. unfold entry_settings. cbn [mbind list_bind]. fold (entry_settings es).
  unfold apply_entries. cbn [foldl]. fold (apply_entries es). destruct (en_on e) eqn:Eon; cbn [opt app].
  - destruct (He Eon) as (Hi & Hx & Hp). cbn [existsb] in Hx. rewrite !orb_false_iff in Hx. destruct Hx as (H1 & H2 & H3 & _).
    cbn [run_settings]. unfold set_key. cbv zeta. unfold interfaceKey. rewrite Hi.
    assert (member (ToLower (en_key e)) (cp_seen p) = false) as ->.
    { apply not_true_is_false. rewrite member_iff. apply Hs. by left. }
    cbn [andb]. rewrite H1, H2, H3. cbn. rewrite Hp. cbn.
    edestruct (IH (MkParser (cp_Tunnel p) (cp_Secret p) (cp_Ignored p) (en_set e (cp_obf p)) (ToLower (en_key e) :: cp_seen p)))
      as (seen & -> & Ha & Hb); [done| |].
    { intros k Hin [->|Hin']%elem_of_cons; [done|]. eapply Hs; [by right|done]. }
    exists seen. split; [done|]. cbn in Ha, Hb. split; [intros k Hin; apply Ha; by right|].
    intros k [[->|?]%elem_of_cons|?]%Hb; [right; by left|by left|right; by right].
  - edestruct (IH p) as (seen & -> & Ha & Hb); [done|intros k Hin; apply Hs; by right|]. exists seen. split; [done|]. split; [done|].
    intros k [?|?]%Hb; [by left|right; by right].
Qed.

Definition number_entry (on : bool) (key : string) (n : Z) : entry := MkEnt on key (int_text n) (set_number (ToLower key) n).
Definition header_entry (key : string) (r : Range) : entry := MkEnt true key (range_text r) (set_header (ToLower key) r).
Definition signature_entry (key v : string) : entry := MkEnt (negb (String.eqb v "")) key v (set_signature (ToLower key) v).
Definition timer_entry (key : string) (r : Range) : entry := MkEnt (negb (IsZero r)) key (range_text r) (set_timer (ToLower key) r).

Definition profile_entries (o : Obfuscation) : list entry :=
  [number_entry true "Jc" (ob_Jc o); number_entry true "Jmin" (ob_Jmin o); number_entry true "Jmax" (ob_Jmax o);
   number_entry true "S1" (ob_S1 o); number_entry true "S2" (ob_S2 o);
   number_entry (negb (ob_S3 o =? 0)) "S3" (ob_S3 o); number_entry (negb (ob_S4 o =? 0)) "S4" (ob_S4 o);
   header_entry "H1" (ob_H1 o); header_entry "H2" (ob_H2 o); header_entry "H3" (ob_H3 o); header_entry "H4" (ob_H4 o);
   signature_entry "I1" (ob_I1 o); signature_entry "I2" (ob_I2 o); signature_entry "I3" (ob_I3 o); signature_entry "I4" (ob_I4 o);
   signature_entry "I5" (ob_I5 o);
   MkEnt (negb (String.eqb (ob_HeaderProtectionKey o) "")) "HeaderProtectionKey" (ob_HeaderProtectionKey o)
     (fun q => q <| ob_HeaderProtectionKey := ob_HeaderProtectionKey o |>);
   timer_entry "ContentPaddingAddition" (ob_ContentPaddingAddition o); timer_entry "RekeyAfterTime" (ob_RekeyAfterTime o);
   timer_entry "RekeyTimeout" (ob_RekeyTimeout o); timer_entry "RejectAfterTime" (ob_RejectAfterTime o);
   timer_entry "KeepaliveTimeout" (ob_KeepaliveTimeout o); timer_entry "MaxHandshakeAttempts" (ob_MaxHandshakeAttempts o);
   MkEnt (ob_RandomTrailers o) "RandomTrailers" "on" (fun q => q <| ob_RandomTrailers := true |>);
   MkEnt (ob_DisableCookies o) "DisableCookies" "on" (fun q => q <| ob_DisableCookies := true |>)].

(** A profile another node can read: valid, its headers without the zero
    value, and signature packets of printable text the importer knows. *)
Record exportable (o : Obfuscation) : Prop := {
  ex_valid : ValidateObfuscation o = Ok tt;
  ex_widths : profile_wf o;
  ex_headers : Forall (fun r => 0 < low r) (headers o);
  ex_signatures : Forall (fun v => v = "" \/ one_line v = true /\ validSignature v = true) (signatures o)
}.

Lemma profile_settings_entries o : entry_settings (profile_entries o) = profile_settings o.
Proof.
  unfold profile_settings. rewrite <- (app_nil_r (opt (ob_DisableCookies o) _)).
  reflexivity.
Qed.

(** One line: written, or the value that is there already. *)
Lemma apply_entry e es q q' : (en_on e = true -> en_set e q = q') -> (en_on e = false -> q = q') ->
  apply_entries (e :: es) q = apply_entries es q'.
Proof. intros H1 H2. unfold apply_entries. cbn [foldl]. by destruct (en_on e); [rewrite H1|rewrite <- H2]. Qed.

Lemma apply_set {A} on key value (f : A -> Obfuscation -> Obfuscation) (v d : A) es q :
  f d q = q -> (on = false -> v = d) ->
  apply_entries (MkEnt on key value (f v) :: es) q = apply_entries es (f v q).
Proof. intros Hd Hv. apply apply_entry; cbn; [done|]. intros E. by rewrite (Hv E). Qed.

Lemma apply_profile o : ob_Enabled o = true -> apply_entries (profile_entries o) no_obf = o <| ob_Enabled := false |>.
Proof.
  intros He. destruct o as [en jc jmin jmax s1 s2 h1 h2 h3 h4 i1 i2 i3 i4 i5 s3 s4 hpk p1 p2 p3 p4 p5 p6 tr ck]. cbn in He. subst en.
  assert (forall n, negb (n =? 0) = false -> n = 0) as Hz by (intros n ?%negb_false_iff%Z.eqb_eq; done).
  assert (forall v, negb (String.eqb v "") = false -> v = "") as Ht by (intros v ?%negb_false_iff%String.eqb_eq; done).
  assert (forall r, negb (IsZero r) = false -> r = zero_range) as Hr.
  { intros [x y] H%negb_false_iff. unfold IsZero in H. cbn in H. by apply andb_prop in H as [->%Z.eqb_eq ->%Z.eqb_eq]. }
  unfold profile_entries, number_entry, header_entry, signature_entry, timer_entry.
  cbn [ob_Jc ob_Jmin ob_Jmax ob_S1 ob_S2 ob_H1 ob_H2 ob_H3 ob_H4 ob_I1 ob_I2 ob_I3 ob_I4 ob_I5 ob_S3 ob_S4 ob_HeaderProtectionKey
       ob_ContentPaddingAddition ob_RekeyAfterTime ob_RekeyTimeout ob_RejectAfterTime ob_KeepaliveTimeout ob_MaxHandshakeAttempts
       ob_RandomTrailers ob_DisableCookies].
  do 7 (rewrite (apply_set _ _ _ (set_number _) _ 0); [|vm_compute; reflexivity|first [done|apply Hz]]).
  do 4 (rewrite (apply_set _ _ _ (set_header _) _ zero_range); [|vm_compute; reflexivity|done]).
  do 5 (rewrite (apply_set _ _ _ (set_signature _) _ ""); [|vm_compute; reflexivity|apply Ht]).
  rewrite (apply_set _ _ _ (fun v q => q <| ob_HeaderProtectionKey := v |>) _ ""); [|vm_compute; reflexivity|apply Ht].
  do 6 (rewrite (apply_set _ _ _ (set_timer _) _ zero_range); [|vm_compute; reflexivity|apply Hr]).
  rewrite (apply_entry _ _ _ (MkObf false jc jmin jmax s1 s2 h1 h2 h3 h4 i1 i2 i3 i4 i5 s3 s4 hpk p1 p2 p3 p4 p5 p6 tr false));
    [|intros E; change (tr = true) in E; rewrite E; vm_compute; reflexivity|intros E; change (tr = false) in E; rewrite E; vm_compute; reflexivity].
  rewrite (apply_entry _ _ _ (MkObf false jc jmin jmax s1 s2 h1 h2 h3 h4 i1 i2 i3 i4 i5 s3 s4 hpk p1 p2 p3 p4 p5 p6 tr ck));
    [|intros E; change (ck = true) in E; rewrite E; vm_compute; reflexivity|intros E; change (ck = false) in E; rewrite E; vm_compute; reflexivity].
  vm_compute. reflexivity.
Qed.

(** An entry that is written as one line and read back. *)
Definition entry_good (e : entry) : Prop := entry_ok e /\ (en_on e = true -> setting_ok (en_key e, en_value e)).

(** What is decided by the name of a key alone. *)
Definition key_name (keys : list string) (signature : bool) (key : string) : bool :=
  bool_decide (assoc (ToLower key) ignoredInterfaceKeys = None)
  && negb (existsb (String.eqb (ToLower key)) ["privatekey"; "address"; "mtu"])
  && member (ToLower key) keys && Bool.eqb (isSignatureKey (ToLower key)) signature
  && negb (String.eqb key "") && str_all key_letter key.

Lemma key_name_facts keys b key : key_name keys b key = true ->
  assoc (ToLower key) ignoredInterfaceKeys = None /\
  existsb (String.eqb (ToLower key)) ["privatekey"; "address"; "mtu"] = false /\
  member (ToLower key) keys = true /\ isSignatureKey (ToLower key) = b /\ key <> "" /\ str_all key_letter key = true.
Proof.
  unfold key_name. rewrite !andb_true_iff, !negb_true_iff, bool_decide_eq_true, Bool.eqb_true_iff, String.eqb_neq. tauto.
Qed.

Lemma number_entry_good on key n : key_name numberKeys false key = true -> 0 <= n < 2 ^ 16 -> entry_good (number_entry on key n).
Proof.
  intros (H1 & H2 & H3 & H4 & H5 & H6)%key_name_facts Hn. pose proof (dec_word n) as Hw. split; intros _; cbn [en_key en_value number_entry].
  - split; [done|]. split; [done|]. intros o. rewrite H4. rewrite int_text_dec, squeeze_word by (try apply Hw; lia). unfold profile_key.
    cbv zeta. rewrite H3, parse_uint_dec by done. done.
  - split_and!; [done..|]. cbn. rewrite int_text_dec by lia. apply word_one_line, Hw. lia.
Qed.

Lemma range_nonneg bits r : range_ok bits r -> 0 <= low r /\ 0 <= high r.
Proof. unfold range_ok. lia. Qed.

Lemma header_entry_good key r : key_name headerKeys false key = true -> member (ToLower key) numberKeys = false ->
  range_ok 32 r -> 0 < low r -> entry_good (header_entry key r).
Proof.
  intros (H1 & H2 & H3 & H4 & H5 & H6)%key_name_facts Hnum Hr Hl. destruct (range_nonneg _ _ Hr) as [Hlo Hhi].
  pose proof (range_word r Hlo Hhi) as Hw. split; intros _; cbn [en_key en_value header_entry].
  - split; [done|]. split; [done|]. intros o. rewrite H4, squeeze_word by done. unfold profile_key. cbv zeta. rewrite Hnum, H3.
    unfold ParseU32Range. rewrite ParseRange_text by done. destruct (Z.eqb_spec (low r) 0); [lia|done].
  - split_and!; [done..|]. cbn. by apply word_one_line.
Qed.

Lemma signature_entry_good key v : key_name signatureKeys true key = true -> member (ToLower key) numberKeys = false ->
  member (ToLower key) headerKeys = false -> v = "" \/ one_line v = true /\ validSignature v = true -> entry_good (signature_entry key v).
Proof.
  intros (H1 & H2 & H3 & H4 & H5 & H6)%key_name_facts Hnum Hh Hv.
  split; intros Hon; cbn [en_on en_key en_value signature_entry] in *; apply negb_true_iff, String.eqb_neq in Hon;
    (destruct Hv as [|[Hv Hs]]; [done|]).
  - split; [done|]. split; [done|]. intros o. rewrite H4. unfold profile_key. cbv zeta. rewrite Hnum, Hh, H3, Hs. done.
  - by split_and!.
Qed.

Lemma timer_entry_good key r : key_name timerKeys false key = true -> member (ToLower key) numberKeys = false ->
  member (ToLower key) headerKeys = false -> member (ToLower key) signatureKeys = false ->
  String.eqb (ToLower key) "headerprotectionkey" = false -> range_ok 16 r -> entry_good (timer_entry key r).
Proof.
  intros (H1 & H2 & H3 & H4 & H5 & H6)%key_name_facts Hnum Hh Hs Hk Hr. destruct (range_nonneg _ _ Hr) as [Hlo Hhi].
  pose proof (range_word r Hlo Hhi) as Hw. split; intros _; cbn [en_key en_value timer_entry].
  - split; [done|]. split; [done|]. intros o. rewrite H4, squeeze_word by done. unfold profile_key. cbv zeta. rewrite Hnum, Hh, Hs, Hk, H3.
    unfold ParseU16Range. rewrite ParseRange_text by done. done.
  - split_and!; [done..|]. cbn. by apply word_one_line.
Qed.

Lemma flag_entry_good on key set : key_name [ToLower key] false key = true ->
  (forall o, profile_key (ToLower key) "on" o = Some (Ok (set o))) -> entry_good (MkEnt on key "on" set).
Proof.
  intros (H1 & H2 & _ & H4 & H5 & H6)%key_name_facts Hp. split; intros _; cbn [en_key en_value].
  - split; [done|]. split; [done|]. intros o. rewrite H4. apply Hp.
  - by split_and!.
Qed.

(** The bounds a valid enabled profile meets. *)
Lemma valid_bounds o : ValidateObfuscation o = Ok tt -> ob_Enabled o = true ->
  Forall (fun n => 0 <= n < 2 ^ 16) (numbers o) /\ ob_Jc o <= JcMax /\ ob_Jmin o <= ob_Jmax o /\
  protection_key_ok o = true /\ headers_ok (headers o) = Ok tt.
Proof.
  unfold ValidateObfuscation. intros H He. rewrite He in H. cbn [negb] in H.
  repeat match type of H with (if ?b then _ else _) = _ => destruct b eqn:?; [discriminate H|] end.
  repeat match goal with
  | H : _ || _ = false |- _ => apply orb_false_elim in H as [? ?]
  | H : outside _ _ _ = false |- _ => apply outside_spec in H
  | H : (_ <? _) = false |- _ => apply Z.ltb_ge in H
  | H : (_ <=? _) = false |- _ => apply Z.leb_gt in H
  end.
  unfold JcMax, JmaxMax, S1Max, S2Max in *. destruct (ValidateConfigText o); [|discriminate H].
  split_and!; [|lia..|by apply negb_false_iff|done]. unfold numbers. repeat apply Forall_cons_2; try apply Forall_nil_2; lia.
Qed.

Lemma profile_entries_good o : exportable o -> ob_Enabled o = true -> Forall entry_good (profile_entries o).
Proof.
  intros [Hv [Hw Ht] Hh Hs] He. destruct (valid_bounds o Hv He) as (Hn & _ & _ & Hk & _).
  unfold numbers, headers, signatures, timers in *. forall_cons. unfold profile_entries.
  repeat (apply Forall_cons; split); try apply Forall_nil_2.
  1-7: apply number_entry_good; [reflexivity|done].
  1-4: apply header_entry_good; [reflexivity|reflexivity|done|done].
  1-5: apply signature_entry_good; [reflexivity|reflexivity|reflexivity|done].
  - unfold protection_key_ok in Hk. destruct (String.eqb_spec (ob_HeaderProtectionKey o) "") as [E|En].
    { split; cbn [en_on]; rewrite E; intros [=]. }
    apply andb_prop in Hk as [Hk _]. destruct (encoded_facts (ob_HeaderProtectionKey o)) as (Hkw & _ & _ & _ & _ & Hp).
    { unfold encoded. by destruct (ValidateEncodedKey _) as [[]|]. }
    split; intros _; cbn [en_key en_value].
    + split; [reflexivity|]. split; [reflexivity|]. intros q. change (isSignatureKey (ToLower "HeaderProtectionKey")) with false. cbv iota.
      rewrite squeeze_word by done. change (Some match protection_key (ob_HeaderProtectionKey o) with
        Some k => Ok (q <| ob_HeaderProtectionKey := k |>) | None => reject "config_obfuscation" end =
        Some (Ok (q <| ob_HeaderProtectionKey := ob_HeaderProtectionKey o |>))). by rewrite Hp.
    + split_and!; [done|done|]. by apply word_one_line.
  - apply timer_entry_good; try reflexivity; done.
  - apply timer_entry_good; try reflexivity; done.
  - apply timer_entry_good; try reflexivity; done.
  - apply timer_entry_good; try reflexivity; done.
  - apply timer_entry_good; try reflexivity; done.
  - apply timer_entry_good; try reflexivity; done.
  - apply flag_entry_good; [reflexivity|]. intros q. reflexivity.
  - apply flag_entry_good; [reflexivity|]. intros q. reflexivity.
Qed.

(** ** Lemmas: endpoints *)

Lemma int_port_text port : 1 <= port <= 65535 -> port_text (int_text port).
Proof.
  intros Hp. split; [rewrite int_text_dec by lia; apply str_all_dec; lia|]. exists port. split; [|lia].
  apply parse_int64_text. unfold is_i64. lia.
Qed.

(** What the importer asks of an endpoint, from its form. *)
Lemma validEndpoint_host h p : plain_host h -> port_text p -> zone_free h -> validEndpoint (h +:+ String ":" p) = Ok tt.
Proof.
  intros Hh Hp Hz. destruct (plain_host_chars h Hh) as (Hc & Hco & Hb & Hb' & Hne). destruct (port_text_chars p Hp) as (Hd & Hco' & Hb1 & _ & Hpne).
  unfold validEndpoint. rewrite endpoint_complete; [|by constructor|].
  - destruct h as [|c h]; [done|]. cbn [String.append]. change (String.eqb (String c _) "") with false. cbn [orb is_ok negb].
    rewrite has_prefix_plain.
    + change (String c (h +:+ String ":" p)) with (String c h +:+ String ":" p). rewrite str_count_app'.
      pose proof (str_count_has ":" (String c h)) as E1. rewrite Hco in E1. apply Nat.eqb_eq in E1. rewrite E1.
      pose proof (str_count_has ":" p) as E2. rewrite Hco' in E2. apply Nat.eqb_eq in E2. cbn. by rewrite E2.
    + change (String c (h +:+ String ":" p)) with (String c h +:+ String ":" p). by rewrite has_char_app, Hb, has_char_cons, Hb1.
  - unfold zone_free in *. rewrite has_char_app, Hz, has_char_cons. cbn. by eapply has_char_none; [|exact Hd].
Qed.

Lemma str_contains_app a b k : str_contains k (a +:+ k +:+ b) = true.
Proof. apply str_contains_spec. by exists a, b. Qed.

Lemma validEndpoint_bracket a p : ipv6 a -> port_text p -> zone_free a ->
  validEndpoint (String "[" (a +:+ String "]" (String ":" p))) = Ok tt.
Proof.
  intros Ha Hp Hz. destruct (port_text_chars p Hp) as (Hd & _). unfold validEndpoint. rewrite endpoint_complete; [|by constructor|].
  - change (String.eqb (String "[" _) "") with false. cbn [orb is_ok negb].
    assert (has_prefix "[" (String "[" (a +:+ String "]" (String ":" p))) = true) as -> by done.
    change (String "[" (a +:+ String "]" (String ":" p))) with (String "[" a +:+ "]:" +:+ p). by rewrite str_contains_app.
  - unfold zone_free in *. rewrite has_char_cons, has_char_app, Hz, !has_char_cons. cbn. by eapply has_char_none; [|exact Hd].
Qed.

Lemma endpoint_char_word s : s <> "" -> str_all endpoint_char s = true -> word s = true.
Proof.
  intros Hn Hs. unfold word. apply String.eqb_neq in Hn. rewrite Hn. cbn. revert Hs. apply str_all_weaken.
  intros c H. destruct c as [[] [] [] [] [] [] [] []]; first [discriminate H|reflexivity].
Qed.

Lemma WithPort_imports e port : endpoint e -> e <> "" -> zone_free e -> 1 <= port <= 65535 ->
  validEndpoint (WithPort e port) = Ok tt /\ word (WithPort e port) = true.
Proof.
  intros He Hn Hz Hport. pose proof (int_port_text port Hport) as Hp. pose proof (endpoint_chars e He Hz) as Hc.
  assert (forall s, str_all endpoint_char s = true -> validEndpoint s = Ok tt -> validEndpoint s = Ok tt /\ word s = true) as Hw.
  { intros s Hs Hv. split; [done|]. apply endpoint_char_word; [|done]. intros ->. discriminate Hv. }
  assert (str_all endpoint_char (int_text port) = true) as Hpc.
  { destruct Hp as [Hd _]. revert Hd. apply str_all_weaken. intros c. every_char c. }
  assert (forall a, ipv6 a -> zone_free a -> has_char "]" a = false) as H6.
  { intros a Ha Hza. eapply has_char_none; [|by apply ipv6_chars]. done. }
  unfold WithPort. destruct He as [|h Hh|h p Hh Hhp|a Ha|a Ha|a p Ha Hap]; [done|..].
  - destruct (plain_host_chars h Hh) as (_ & Hco & _ & Hb & _). pose proof (str_count_has ":" h) as E. rewrite Hco in E. apply Nat.eqb_eq in E.
    rewrite Hb, E, Hco. cbn [Nat.eqb]. apply Hw; [by rewrite str_all_app, Hc|]. by apply validEndpoint_host.
  - destruct (plain_host_chars h Hh) as (_ & Hco & _ & Hb & _). destruct (port_text_chars p Hhp) as (_ & Hco' & _ & Hb' & _).
    rewrite has_char_app, Hb, has_char_cons, Hb'. cbn [orb Ascii.eqb Bool.eqb].
    pose proof (str_count_has ":" h) as E. rewrite Hco in E. apply Nat.eqb_eq in E.
    pose proof (str_count_has ":" p) as E'. rewrite Hco' in E'. apply Nat.eqb_eq in E'.
    rewrite str_count_app', E. cbn [str_count]. rewrite E'. cbn. apply Hw; [done|]. apply validEndpoint_host; [done..|].
    unfold zone_free in *. rewrite has_char_app in Hz. by apply orb_false_elim in Hz as [? _].
  - rewrite (H6 a Ha Hz). pose proof (ipv6_colons a Ha Hz) as Hcol. pose proof (str_count_has ":" a) as E.
    destruct (Nat.eqb_spec (str_count ":" a) 1); [lia|]. assert (has_char ":" a = true) as ->.
    { destruct (has_char ":" a); [done|]. apply Nat.eqb_eq in E. lia. }
    apply Hw; [|by apply validEndpoint_bracket]. cbn [String.append str_all]. by rewrite str_all_app, Hc.
  - assert (has_char "]" (String "[" (a +:+ "]")) = true) as ->.
    { rewrite has_char_cons, has_char_app. by rewrite has_char_cons, !orb_true_r. }
    rewrite (has_suffix_last "]" (String "[" a) : has_suffix "]" (String "[" (a +:+ "]")) = true).
    assert (String "[" (a +:+ "]") +:+ ":" +:+ int_text port = String "[" (a +:+ String "]" (String ":" (int_text port)))) as ->.
    { cbn [String.append]. by rewrite string_app_assoc. }
    unfold zone_free in Hz. rewrite has_char_cons, has_char_app in Hz. apply orb_false_elim in Hz as [_ [Hz _]%orb_false_elim].
    cbn [str_all] in Hc. rewrite str_all_app in Hc. apply andb_prop in Hc as [_ [Hc _]%andb_prop].
    apply Hw; [|by apply validEndpoint_bracket]. cbn [str_all]. by rewrite str_all_app, Hc.
  - assert (has_char "]" (String "[" (a +:+ String "]" (String ":" p))) = true) as ->.
    { rewrite has_char_cons, has_char_app. by rewrite has_char_cons, !orb_true_r. }
    destruct (port_text_chars p Hap) as (_ & Hco' & _ & Hb' & Hpne).
    assert (has_suffix "]" (String "[" (a +:+ String "]" (String ":" p))) = false) as ->.
    { replace (String "[" (a +:+ String "]" (String ":" p))) with ((String "[" a +:+ "]:") +:+ p) by (cbn; by rewrite string_app_assoc).
      by apply has_suffix_other. }
    unfold zone_free in Hz. rewrite has_char_cons, has_char_app in Hz. apply orb_false_elim in Hz as [_ [Hz _]%orb_false_elim].
    apply Hw; [done|]. by apply validEndpoint_bracket.
Qed.

(** ** Lemmas: addresses and lists *)

Lemma parse_addr_text a : valid_addr a -> parse_addr (addr_text a) = Some (V4 a).
Proof.
  intros Ha. pose proof (ParseAddr_text a Ha) as Hp. pose proof (ParseAddr_dotted _ _ Hp) as Hd.
  assert (has_char "." (addr_text a) = true) as Hc.
  { unfold addr_text. rewrite has_char_app, (has_char_app "." "."), has_char_cons. cbn. by rewrite !orb_true_r. }
  assert (forall s, str_all (fun c => is_digit c || Ascii.eqb c ".") s = true -> has_char "." s = true -> family s = Some "."%char) as Hf.
  { induction s as [|c s IH]; [done|]. cbn [str_all family]. intros [Hx Hs]%andb_prop. rewrite has_char_cons.
    destruct (Ascii.eqb_spec c ".") as [->|]; [done|]. rewrite orb_false_r in Hx. cbn [orb]. intros Hs'.
    assert (Ascii.eqb c ":" = false /\ Ascii.eqb c "%" = false) as [-> ->].
    { destruct c as [[] [] [] [] [] [] [] []]; first [discriminate Hx|split; reflexivity]. }
    cbn. by apply IH. }
  unfold parse_addr. rewrite Hf by done. by rewrite Hp.
Qed.

Lemma host_address_facts s : host_address s -> word s = true /\ s <> "" /\
  forall t, tc_Address t = "" -> read_addresses (str_split "," s) t = Ok (t <| tc_Address := s |>).
Proof.
  intros (a & Ha & ->). set (s := prefix_text (MkPrefix a 32)).
  assert (str_all (fun c => is_digit c || Ascii.eqb c "." || Ascii.eqb c "/") s = true) as Hc.
  { unfold s, prefix_text. cbn [pf_addr pf_bits]. rewrite !str_all_app. change (dec 32) with "32". cbn. rewrite andb_true_r.
    pose proof (ParseAddr_dotted _ _ (ParseAddr_text a Ha)) as Hd. revert Hd. apply str_all_weaken. by intros c ->. }
  assert (s <> "") as Hn. { unfold s, prefix_text. by destruct (addr_text _). }
  assert (str_all edge s = true /\ str_all (fun c => negb (Ascii.eqb c ",")) s = true) as [He Hco].
  { split; revert Hc; apply str_all_weaken; intros c H; destruct c as [[] [] [] [] [] [] [] []]; first [discriminate H|reflexivity]. }
  split_and!; [unfold word; apply String.eqb_neq in Hn; by rewrite Hn, He|done|].
  intros t Ht. rewrite str_split_single by done. cbn [read_addresses]. apply String.eqb_neq in Hn. rewrite Hn.
  assert (parse_prefix s = Some (V4 a, addr_text a, 32)) as ->.
  { unfold parse_prefix. change s with (addr_text a +:+ String "/" "32"). rewrite str_cut_last_here by done. cbn [mbind option_bind].
    rewrite parse_addr_text by done. reflexivity. }
  rewrite Ht. reflexivity.
Qed.

(** Words with commas between them. *)
Lemma join_one_line l : l <> [] -> Forall (fun v => word v = true) l -> one_line (str_join ", " l) = true.
Proof.
  intros Hn Hl. induction Hl as [|v l Hv Hl IH]; [done|]. destruct l as [|v' l]; [by apply word_one_line|].
  change (str_join ", " (v :: v' :: l)) with (v +:+ ", " +:+ str_join ", " (v' :: l)). specialize (IH ltac:(done)).
  apply word_one_line, one_line_parts in Hv as (Ha & Hb & _). apply one_line_parts in IH as (Hc & _ & Hd).
  unfold one_line. rewrite !andb_true_iff. split_and!.
  - by rewrite !str_all_app, Ha, Hc.
  - rewrite starts_edge_app; [done|]. by intros ->.
  - rewrite !str_rev_app, !starts_edge_app; [done|..].
    + intros E%str_rev_nil. by rewrite E in Hd.
    + intros E. destruct (str_rev (str_join ", " (v' :: l))); [done|discriminate E].
Qed.

Lemma addr_char_word s : s <> "" -> str_all (fun c => addr_char c || Ascii.eqb c "/") s = true -> word s = true.
Proof.
  intros Hn Hs. unfold word. apply String.eqb_neq in Hn. rewrite Hn. cbn. revert Hs. apply str_all_weaken.
  intros c H. destruct c as [[] [] [] [] [] [] [] []]; first [discriminate H|reflexivity].
Qed.

Lemma zoneless_chars s a : parse_addr s = Some a -> zone_of a = "" -> str_all addr_char s = true /\ s <> "".
Proof.
  intros Ha Hz. split; [|by intros ->]. destruct (has_char "%" s) eqn:E; [|by eapply parse_addr_chars].
  exfalso. unfold parse_addr in Ha. destruct (family s) as [c|]; [|done].
  destruct (ascii_dec c ".") as [->|Hd].
  - destruct (ParseAddr s) as [b|] eqn:Eb; [|done]. apply ParseAddr_chars in Eb.
    assert (has_char "%" s = false) by (by eapply has_char_none; [|exact Eb]). congruence.
  - destruct (ascii_dec c ":") as [->|Hc]; [|destruct c as [[] [] [] [] [] [] [] []]; done].
    unfold parse_ipv6 in Ha. destruct (str_cut "%" s) as [[x z] ok] eqn:Ec. pose proof (str_cut_has _ _ _ _ _ Ec) as ->.
    rewrite E in Ha. cbn [andb] in Ha. destruct (String.eqb_spec z "") as [|Hne]; [done|]. destruct (ipv6_ok x); [|done].
    injection Ha as <-. by cbn in Hz.
Qed.

Lemma ParseIP_word s : ParseIP s = true -> word s = true.
Proof.
  unfold ParseIP. destruct (parse_addr s) as [a|] eqn:E; [|done]. intros Hz%String.eqb_eq.
  destruct (zoneless_chars s a E Hz) as [Hc Hn]. apply addr_char_word; [done|]. revert Hc. apply str_all_weaken. by intros c ->.
Qed.

Lemma ParseCIDR_word s : ParseCIDR s = true -> word s = true.
Proof.
  unfold ParseCIDR. destruct (str_cut "/" s) as [[ad mask] found] eqn:Ec. intros [-> H]%andb_prop.
  destruct (parse_addr ad) as [a|] eqn:E; [|done]. rewrite !andb_true_iff in H. destruct H as [[Hz%String.eqb_eq Hm] Hu].
  destruct (undec_go mask 0) as [n|] eqn:En; [|done]. apply undec_digits in En. destruct (zoneless_chars ad a E Hz) as [Hc Hn].
  apply str_cut_spec in Ec. rewrite Ec. apply addr_char_word; [by destruct ad|].
  rewrite str_all_app. cbn [str_all]. apply andb_true_intro. split; [revert Hc; apply str_all_weaken; by intros c ->|].
  cbn. revert En. apply str_all_weaken. intros c H. destruct c as [[] [] [] [] [] [] [] []]; first [discriminate H|reflexivity].
Qed.

Lemma canonical_words text allowed : canonicalAllowedIPs text = Ok allowed -> allowed = "" \/ one_line allowed = true.
Proof.
  unfold canonicalAllowedIPs. intros (parts & Hp & [= <-])%res_bind_ok.
  assert (Forall (fun v => word v = true) parts) as Hw.
  { revert parts Hp. generalize (str_split "," text) as l. induction l as [|x l IH]; intros parts; cbn [canonical_parts]; [intros [= <-]; apply Forall_nil_2|].
    cbv zeta. destruct (String.eqb (trim_space x) ""); [apply IH|]. destruct (ParseCIDR (trim_space x)) eqn:E; [|done]. cbn [negb].
    intros (q & Hq & [= <-])%res_bind_ok. apply Forall_cons. split; [by apply ParseCIDR_word|by apply IH]. }
  destruct parts as [|p parts]; [by left|]. right. by apply join_one_line.
Qed.

(** ** Lemmas: one setting outside the profile *)

Lemma set_key_word section k lk v p : ToLower k = lk -> isSignatureKey lk = false -> word v = true ->
  set_key section k v p =
  match section with SInterface => interfaceKey lk v p | SPeer => peerKey lk v p | NoSection => reject "config_invalid" end.
Proof. intros <- Hs Hv. unfold set_key. cbv zeta. by rewrite Hs, squeeze_word. Qed.

Lemma set_private v p : encoded v -> member "privatekey" (cp_seen p) = false ->
  set_key SInterface "PrivateKey" v p =
  Ok (p <| cp_seen ::= cons "privatekey" |> <| cp_Secret ::= fun x => x <| sc_PrivateKey := v |> |>).
Proof.
  intros (Hw & _ & _ & Hp & _)%encoded_facts Hs. rewrite (set_key_word _ _ "privatekey") by done.
  unfold interfaceKey. change (assoc "privatekey" ignoredInterfaceKeys) with (@None string). cbv iota zeta. rewrite Hs. cbn [andb].
  change (String.eqb "privatekey" "privatekey") with true. cbv iota. by rewrite Hp.
Qed.

Lemma set_address v p : host_address v -> tc_Address (cp_Tunnel p) = "" ->
  set_key SInterface "Address" v p =
  Ok (p <| cp_seen ::= cons "address" |> <| cp_Tunnel ::= fun t => t <| tc_Address := v |> |>).
Proof.
  intros (Hw & _ & Hr)%host_address_facts Ha. rewrite (set_key_word _ _ "address") by done.
  unfold interfaceKey. change (assoc "address" ignoredInterfaceKeys) with (@None string). cbv iota zeta.
  rewrite andb_false_r. change (String.eqb "address" "privatekey") with false. change (String.eqb "address" "address") with true. cbv iota.
  cbn [cp_Tunnel]. by rewrite Hr.
Qed.

Lemma set_dns v p : set_key SInterface "DNS" v p = Ok (ignore "DNS" p).
Proof. reflexivity. Qed.

Lemma set_mtu n p : 576 <= n <= 1500 -> member "mtu" (cp_seen p) = false ->
  set_key SInterface "MTU" (int_text n) p = Ok (p <| cp_seen ::= cons "mtu" |> <| cp_Tunnel ::= fun t => t <| tc_MTU := n |> |>).
Proof.
  intros Hn Hs. rewrite (set_key_word _ _ "mtu"); [|done|done|rewrite int_text_dec by lia; apply dec_word; lia].
  unfold interfaceKey. change (assoc "mtu" ignoredInterfaceKeys) with (@None string). cbv iota zeta. rewrite Hs. cbn [andb].
  change (String.eqb "mtu" "privatekey") with false. change (String.eqb "mtu" "address") with false. change (String.eqb "mtu" "mtu") with true.
  cbv iota. rewrite parse_int64_text by (unfold is_i64; lia).
  rewrite (proj2 (Z.ltb_ge n 576)), (proj2 (Z.ltb_ge 1500 n)) by lia. done.
Qed.

Lemma set_public v p : encoded v -> member "publickey" (cp_seen p) = false ->
  set_key SPeer "PublicKey" v p = Ok (p <| cp_seen ::= cons "publickey" |> <| cp_Tunnel ::= fun t => t <| tc_PeerPublicKey := v |> |>).
Proof.
  intros (Hw & _ & _ & _ & Hp & _)%encoded_facts Hs. rewrite (set_key_word _ _ "publickey") by done.
  unfold peerKey. change (String.eqb "publickey" "allowedips") with false. change (String.eqb "publickey" "advancedsecurity") with false.
  cbv iota zeta. rewrite Hs. change (String.eqb "publickey" "publickey") with true. cbv iota. by rewrite Hp.
Qed.

Lemma set_psk v p : encoded v -> member "presharedkey" (cp_seen p) = false ->
  set_key SPeer "PresharedKey" v p =
  Ok (p <| cp_seen ::= cons "presharedkey" |> <| cp_Secret ::= fun x => x <| sc_PresharedKey := v |> |>).
Proof.
  intros (Hw & _ & _ & Hp & _)%encoded_facts Hs. rewrite (set_key_word _ _ "presharedkey") by done.
  unfold peerKey. change (String.eqb "presharedkey" "allowedips") with false.
  change (String.eqb "presharedkey" "advancedsecurity") with false. cbv iota zeta. rewrite Hs.
  change (String.eqb "presharedkey" "publickey") with false. change (String.eqb "presharedkey" "presharedkey") with true. cbv iota. by rewrite Hp.
Qed.

Lemma set_allowed v p : set_key SPeer "AllowedIPs" v p = Ok (ignore "AllowedIPs" p).
Proof. reflexivity. Qed.

Lemma set_endpoint v p : word v = true -> validEndpoint v = Ok tt -> member "endpoint" (cp_seen p) = false ->
  set_key SPeer "Endpoint" v p = Ok (p <| cp_seen ::= cons "endpoint" |> <| cp_Tunnel ::= fun t => t <| tc_Endpoint := v |> |>).
Proof.
  intros Hw Hv Hs. rewrite (set_key_word _ _ "endpoint") by done.
  unfold peerKey. change (String.eqb "endpoint" "allowedips") with false. change (String.eqb "endpoint" "advancedsecurity") with false.
  cbv iota zeta. rewrite Hs. change (String.eqb "endpoint" "publickey") with false. change (String.eqb "endpoint" "presharedkey") with false.
  change (String.eqb "endpoint" "endpoint") with true. cbv iota. by rewrite Hv.
Qed.

(** A keepalive the importer reads: off, a number, or an interval that does
    not start at zero. *)
Definition keepalive_bounds (r : Range) : Z * Z := if low r =? high r then (low r, 0) else (low r, high r).

Lemma set_keepalive r p : range_ok 16 r -> 0 < low r -> member "persistentkeepalive" (cp_seen p) = false ->
  set_key SPeer "PersistentKeepalive" (range_text r) p =
  Ok (p <| cp_seen ::= cons "persistentkeepalive" |>
        <| cp_Tunnel ::= fun t => t <| tc_Keepalive := (keepalive_bounds r).1 |> <| tc_KeepaliveMax := (keepalive_bounds r).2 |> |>).
Proof.
  intros Hr Hl Hs. destruct (range_nonneg _ _ Hr) as [Hlo Hhi]. rewrite (set_key_word _ _ "persistentkeepalive"); [|done|done|by apply range_word].
  unfold peerKey. change (String.eqb "persistentkeepalive" "allowedips") with false.
  change (String.eqb "persistentkeepalive" "advancedsecurity") with false. cbv iota zeta. rewrite Hs.
  change (String.eqb "persistentkeepalive" "publickey") with false. change (String.eqb "persistentkeepalive" "presharedkey") with false.
  change (String.eqb "persistentkeepalive" "endpoint") with false. change (String.eqb "persistentkeepalive" "persistentkeepalive") with true.
  cbv iota.
  assert (parseKeepalive (range_text r) = Some (keepalive_bounds r)) as ->.
  { unfold parseKeepalive, keepalive_bounds. destruct (String.eqb_spec (str_lower (range_text r)) "off") as [E|].
    - exfalso. pose proof (range_text_plain r Hlo Hhi) as Hp. destruct (range_text r) as [|c s]; [done|]. cbn in E, Hp. injection E as E _.
      apply andb_prop in Hp as [Hp _]. destruct c as [[] [] [] [] [] [] [] []]; first [discriminate Hp|discriminate E].
    - unfold ParseU16Range. rewrite ParseRange_text by done. destruct (low r =? high r); [done|]. destruct (Z.eqb_spec (low r) 0); [lia|done]. }
  by destruct (keepalive_bounds r).
Qed.

(** ** Lemmas: the whole configuration *)

Lemma headers_ok_disjoint hs : headers_ok hs = Ok tt -> pairwise_disjoint hs = true.
Proof.
  induction hs as [|h hs IH]; [done|]. cbn [headers_ok pairwise_disjoint]. destruct (IsZero h); [done|].
  destruct (existsb _ hs) eqn:E; [done|]. intros H. by rewrite IH.
Qed.

Lemma stock_defaults_set i hs : Forall (fun r => 0 < low r) hs -> stock_defaults i hs = hs.
Proof.
  intros H. revert i. induction H as [|h hs Hh Hs IH]; intros i; [done|]. cbn [stock_defaults]. unfold IsZero.
  rewrite (proj2 (Z.eqb_neq (low h) 0)) by lia. cbn [andb]. by rewrite IH.
Qed.

Lemma imported_valid o : exportable o -> ob_Enabled o = true -> importedObfuscation (o <| ob_Enabled := false |>) = Ok o.
Proof.
  intros [Hv Hw Hh Hs] He. destruct (valid_bounds o Hv He) as (_ & Hj & Hm & Hk & Hd). apply headers_ok_disjoint in Hd.
  unfold importedObfuscation. change (headers (o <| ob_Enabled := false |>)) with (headers o). rewrite stock_defaults_set by done.
  assert (set_headers (headers o) (o <| ob_Enabled := false |>) = o <| ob_Enabled := false |>) as -> by done. cbv zeta.
  change (headers (o <| ob_Enabled := false |>)) with (headers o). rewrite Hd. cbn [negb].
  change (ob_Jc (o <| ob_Enabled := false |>)) with (ob_Jc o). rewrite (proj2 (Z.ltb_ge JcMax (ob_Jc o))) by done.
  change (ob_Jmin (o <| ob_Enabled := false |>)) with (ob_Jmin o). change (ob_Jmax (o <| ob_Enabled := false |>)) with (ob_Jmax o).
  rewrite (proj2 (Z.ltb_ge (ob_Jmax o) (ob_Jmin o))) by done. rewrite andb_false_r.
  assert (negb (String.eqb (ob_HeaderProtectionKey o) "")
          && ((ob_S1 o <? 12) || (ob_S2 o <? 12) || (ob_S3 o <? 12) || (ob_S4 o <? 12)) = false) as Hp.
  { unfold protection_key_ok in Hk. destruct (String.eqb _ ""); [done|]. apply andb_prop in Hk as [_ Hk%negb_true_iff]. done. }
  match goal with |- (if ?b then _ else _) = _ => change b with (negb (String.eqb (ob_HeaderProtectionKey o) "")
          && ((ob_S1 o <? 12) || (ob_S2 o <? 12) || (ob_S3 o <? 12) || (ob_S4 o <? 12))) end.
  rewrite Hp. change (PlainEquivalent (Tunnel (o <| ob_Enabled := false |>))) with (PlainEquivalent o).
  rewrite (valid_profile_observable o Hv), He. cbn [negb]. f_equal. destruct o. cbn in He. by subst.
Qed.

(** A configuration another node can import. *)
Record importable (c : client) : Prop := {
  im_keys : encoded (cl_Private c) /\ encoded (cl_Public c) /\ (cl_PSK c = "" \/ encoded (cl_PSK c));
  im_address : host_address (cl_IPv4 c);
  im_dns : Forall (fun v => word v = true) (cl_DNS c);
  im_mtu : 576 <= cl_MTU c <= 1500;
  im_obf : if ob_Enabled (cl_Obf c) then exportable (cl_Obf c) else cl_Obf c = no_obf;
  im_allowed : cl_Allowed c = "" \/ one_line (cl_Allowed c) = true;
  im_endpoint : endpoint (cl_Endpoint c) /\ cl_Endpoint c <> "" /\ zone_free (cl_Endpoint c) /\ 1 <= cl_Port c <= 65535;
  im_keepalive : range_ok 16 (cl_Keepalive c) /\ (low (cl_Keepalive c) = 0 -> high (cl_Keepalive c) = 0)
}.

Lemma opt_setting b k v : k <> "" -> str_all key_letter k = true -> (b = true -> one_line v = true) -> Forall setting_ok (opt b (k, v)).
Proof. intros H1 H2 H3. destruct b; [|apply Forall_nil_2]. apply Forall_singleton. split_and!; auto. Qed.

Lemma interface_settings_ok c : importable c -> Forall setting_ok (interface_settings c).
Proof.
  intros [(Hk & _ & _) Ha Hd Hm Ho _ _ _]. unfold interface_settings.
  apply (encoded_facts (cl_Private c)) in Hk as [Hk _]. destruct (host_address_facts _ Ha) as [Hw _].
  repeat (apply Forall_app; split).
  - apply Forall_cons. split; [split_and!; [done|done|by apply word_one_line]|]. apply Forall_singleton. split_and!; [done|done|by apply word_one_line].
  - apply opt_setting; [done|done|]. intros Hn%bool_decide_eq_true. by apply join_one_line.
  - apply opt_setting; [done|done|]. intros _. rewrite int_text_dec by lia. apply word_one_line, dec_word. lia.
  - destruct (ob_Enabled (cl_Obf c)) eqn:He; [|apply Forall_nil_2]. rewrite <- profile_settings_entries.
    pose proof (profile_entries_good _ Ho He) as Hg. unfold entry_settings. apply Forall_forall. intros kv (e & Hkv & Hin)%list_elem_of_bind.
    rewrite Forall_forall in Hg. destruct (Hg e Hin) as [_ Hs]. destruct (en_on e); [|by apply elem_of_nil in Hkv].
    apply list_elem_of_singleton in Hkv as ->. by apply Hs.
Qed.

Lemma keepalive_positive r : range_ok 16 r -> (low r = 0 -> high r = 0) -> IsZero r = false -> 0 < low r.
Proof. unfold range_ok, IsZero. intros Hr Hz Hi. destruct (Z.eqb_spec (low r) 0), (Z.eqb_spec (high r) 0); try lia; try done. Qed.

Lemma peer_settings_ok c : importable c -> Forall setting_ok (peer_settings c).
Proof.
  intros [(_ & Hk & Hp) _ _ _ _ Hal (He & Hne & Hz & Hport) [Hka _]]. unfold peer_settings.
  apply (encoded_facts (cl_Public c)) in Hk as [Hk _]. destruct (WithPort_imports _ _ He Hne Hz Hport) as [_ Hw].
  repeat (apply Forall_app; split).
  - apply Forall_singleton. split_and!; [done|done|by apply word_one_line].
  - apply opt_setting; [done|done|]. intros Hn%negb_true_iff%String.eqb_neq. destruct Hp as [|Hp]; [done|].
    apply encoded_facts in Hp as [Hp _]. by apply word_one_line.
  - apply opt_setting; [done|done|]. intros Hn%negb_true_iff%String.eqb_neq. by destruct Hal.
  - apply opt_setting; [done|done|]. intros _. by apply word_one_line.
  - apply opt_setting; [done|done|]. intros _. destruct (range_nonneg _ _ Hka). by apply word_one_line, range_word.
Qed.

(** The interface block leaves the address, the packet size, the key and the
    profile, and no key of the peer block seen. *)
Lemma run_interface c : importable c ->
  exists seen, run_settings SInterface (interface_settings c) new_parser =
    Ok (MkParser (no_tunnel <| tc_Address := cl_IPv4 c |> <| tc_MTU := cl_MTU c |>) (no_secret <| sc_PrivateKey := cl_Private c |>)
          (opt (bool_decide (cl_DNS c <> [])) "DNS") ((cl_Obf c) <| ob_Enabled := false |>) seen) /\
    "privatekey" ∈ seen /\ "address" ∈ seen /\
    (forall k, k ∈ ["publickey"; "presharedkey"; "endpoint"; "persistentkeepalive"] -> k ∉ seen).
Proof.
  intros [(Hk & _ & _) Ha _ Hm Ho _ _ _].
  set (p1 := MkParser (no_tunnel <| tc_Address := cl_IPv4 c |>) (no_secret <| sc_PrivateKey := cl_Private c |>) [] no_obf ["address"; "privatekey"]).
  assert (run_settings SInterface [("PrivateKey", cl_Private c); ("Address", cl_IPv4 c)] new_parser = Ok p1) as H1.
  { cbn [run_settings]. rewrite set_private by done. cbn [mbind result_bind rbind]. by rewrite set_address. }
  assert (run_settings SInterface (opt (bool_decide (cl_DNS c <> [])) ("DNS", str_join ", " (cl_DNS c))) p1 =
    Ok (p1 <| cp_Ignored := opt (bool_decide (cl_DNS c <> [])) "DNS" |>)) as H2.
  { destruct (bool_decide _); [|done]. cbn [opt run_settings]. by rewrite set_dns. }
  set (p2 := MkParser (no_tunnel <| tc_Address := cl_IPv4 c |> <| tc_MTU := cl_MTU c |>) (no_secret <| sc_PrivateKey := cl_Private c |>)
    (opt (bool_decide (cl_DNS c <> [])) "DNS") no_obf ["mtu"; "address"; "privatekey"]).
  assert (run_settings SInterface (opt (0 <? cl_MTU c) ("MTU", int_text (cl_MTU c))) (p1 <| cp_Ignored := opt (bool_decide (cl_DNS c <> [])) "DNS" |>) =
    Ok p2) as H3.
  { assert ((0 <? cl_MTU c) = true) as -> by (apply Z.ltb_lt; lia). cbn [opt run_settings]. by rewrite set_mtu. }
  unfold interface_settings. rewrite run_settings_app, H1. cbn [mbind result_bind rbind]. rewrite run_settings_app, H2.
  cbn [mbind result_bind rbind]. rewrite run_settings_app, H3. cbn [mbind result_bind rbind]. clear H1 H2 H3.
  destruct (ob_Enabled (cl_Obf c)) eqn:He.
  - rewrite <- profile_settings_entries. pose proof (profile_entries_good _ Ho He) as Hg.
    destruct (run_entries (profile_entries (cl_Obf c)) p2) as (seen & Hrun & Hin & Hout).
    + eapply Forall_impl; [exact Hg|]. by intros e [? _].
    + apply (bool_decide_unpack _). vm_compute. exact I.
    + assert (forallb (fun k => negb (member k ["mtu"; "address"; "privatekey"])) (ToLower ∘ en_key <$> profile_entries (cl_Obf c)) = true) as Hd
        by (vm_compute; reflexivity).
      rewrite forallb_forall in Hd. intros k Hk'%list_elem_of_In%Hd. intros Hk2. apply negb_true_iff in Hk'.
      change (cp_seen p2) with ["mtu"; "address"; "privatekey"] in Hk2. apply member_iff in Hk2. congruence.
    + exists seen. change (cp_obf p2) with no_obf in Hrun. rewrite apply_profile in Hrun by done. split; [exact Hrun|].
      split; [apply Hin; right; right; by left|]. split; [apply Hin; right; by left|].
      intros k Hk' Hs. apply Hout in Hs.
      assert (forallb (fun k => negb (member k (["mtu"; "address"; "privatekey"] ++ (ToLower ∘ en_key <$> profile_entries (cl_Obf c)))))
        ["publickey"; "presharedkey"; "endpoint"; "persistentkeepalive"] = true) as Hd by (vm_compute; reflexivity).
      rewrite forallb_forall in Hd. apply list_elem_of_In, Hd, negb_true_iff in Hk'. apply not_true_iff_false in Hk'. apply Hk', member_iff.
      apply elem_of_app. by destruct Hs; [left|right].
  - rewrite Ho. eexists. split; [reflexivity|]. cbn. split_and!; [set_solver|set_solver|].
    intros k Hk'. assert (forallb (fun k => negb (member k ["mtu"; "address"; "privatekey"]))
      ["publickey"; "presharedkey"; "endpoint"; "persistentkeepalive"] = true) as Hd by reflexivity.
    rewrite forallb_forall in Hd. apply list_elem_of_In, Hd, negb_true_iff in Hk'. rewrite <- member_iff. congruence.
Qed.

Lemma run_peer c t sec ign o seen : importable c -> (forall k, k ∈ ["publickey"; "presharedkey"; "endpoint"; "persistentkeepalive"] -> k ∉ seen) ->
  "AllowedIPs" ∉ ign -> sc_PresharedKey sec = "" -> tc_Keepalive t = 0 -> tc_KeepaliveMax t = 0 ->
  let bounds := if IsZero (cl_Keepalive c) then (0, 0) else keepalive_bounds (cl_Keepalive c) in
  exists seen', run_settings SPeer (peer_settings c) (MkParser t sec ign o seen) =
    Ok (MkParser (t <| tc_PeerPublicKey := cl_Public c |> <| tc_Endpoint := WithPort (cl_Endpoint c) (cl_Port c) |>
                    <| tc_Keepalive := bounds.1 |> <| tc_KeepaliveMax := bounds.2 |>)
          (sec <| sc_PresharedKey := cl_PSK c |>) (ign ++ opt (negb (String.eqb (cl_Allowed c) "")) "AllowedIPs") o seen') /\
    (forall k, k ∈ seen -> k ∈ seen') /\ "publickey" ∈ seen' /\ "endpoint" ∈ seen' /\
    member "persistentkeepalive" seen' = negb (IsZero (cl_Keepalive c)).
Proof.
  intros [(_ & Hk & Hp) _ _ _ _ _ (He & Hne & Hz & Hport) [Hka Hka0]] Hs Hi Hsec Ht1 Ht2. cbv zeta.
  destruct (WithPort_imports _ _ He Hne Hz Hport) as [Hv Hw].
  assert (forall k, k ∈ ["publickey"; "presharedkey"; "endpoint"; "persistentkeepalive"] -> member k seen = false) as Hm.
  { intros k Hk'%Hs. apply not_true_is_false. by rewrite member_iff. }
  set (s1 := "publickey" :: seen). set (t1 := t <| tc_PeerPublicKey := cl_Public c |>).
  assert (run_settings SPeer [("PublicKey", cl_Public c)] (MkParser t sec ign o seen) = Ok (MkParser t1 sec ign o s1)) as H1.
  { cbn [run_settings]. rewrite set_public; [done|done|]. apply Hm. by left. }
  set (s2 := if negb (String.eqb (cl_PSK c) "") then "presharedkey" :: s1 else s1).
  assert (run_settings SPeer (opt (negb (String.eqb (cl_PSK c) "")) ("PresharedKey", cl_PSK c)) (MkParser t1 sec ign o s1) =
    Ok (MkParser t1 (sec <| sc_PresharedKey := cl_PSK c |>) ign o s2)) as H2.
  { unfold s2. destruct (String.eqb_spec (cl_PSK c) "") as [E|E]; cbn [negb opt run_settings].
    - rewrite E, <- Hsec. by destruct sec.
    - destruct Hp as [|Hp]; [done|]. rewrite set_psk; [done|done|]. apply (Hm "presharedkey"). set_solver. }
  set (ign' := ign ++ opt (negb (String.eqb (cl_Allowed c) "")) "AllowedIPs").
  assert (forall t s, run_settings SPeer (opt (negb (String.eqb (cl_Allowed c) "")) ("AllowedIPs", cl_Allowed c)) (MkParser t s ign o s2) =
    Ok (MkParser t s ign' o s2)) as H3.
  { intros t' s'. unfold ign'. destruct (String.eqb (cl_Allowed c) ""); cbn [negb opt run_settings]; [by rewrite app_nil_r|].
    rewrite set_allowed. unfold ignore. cbn [cp_Ignored].
    assert (member "AllowedIPs" ign = false) as -> by (apply not_true_is_false; by rewrite member_iff). done. }
  set (s3 := "endpoint" :: s2). set (t3 := t1 <| tc_Endpoint := WithPort (cl_Endpoint c) (cl_Port c) |>).
  assert (member "endpoint" s2 = false /\ member "persistentkeepalive" s3 = false) as [Hs2 Hs3].
  { assert (member "endpoint" seen = false /\ member "persistentkeepalive" seen = false) as [E1 E2] by (split; apply Hm; set_solver).
    unfold s3, s2, s1. destruct (negb _); unfold member in *; cbn [existsb]; rewrite ?E1, ?E2; done. }
  assert (run_settings SPeer (opt (negb (String.eqb (cl_Endpoint c) "")) ("Endpoint", WithPort (cl_Endpoint c) (cl_Port c)))
    (MkParser t1 (sec <| sc_PresharedKey := cl_PSK c |>) ign' o s2) = Ok (MkParser t3 (sec <| sc_PresharedKey := cl_PSK c |>) ign' o s3)) as H4.
  { apply String.eqb_neq in Hne. rewrite Hne. cbn [negb opt run_settings]. by rewrite set_endpoint. }
  unfold peer_settings. rewrite run_settings_app, H1. cbn [mbind result_bind rbind]. rewrite run_settings_app, H2.
  cbn [mbind result_bind rbind]. rewrite run_settings_app, H3. cbn [mbind result_bind rbind]. rewrite run_settings_app, H4.
  cbn [mbind result_bind rbind]. clear H1 H2 H3 H4.
  assert ((forall k, k ∈ seen -> k ∈ s3) /\ "publickey" ∈ s3 /\ "endpoint" ∈ s3) as (Ha & Hb & Hc).
  { unfold s3, s2, s1. destruct (negb _); split_and!; set_solver. }
  destruct (IsZero (cl_Keepalive c)) eqn:Ez; cbn [negb opt run_settings].
  - exists s3. split_and!; [|done..]. unfold t3, t1. clear -Ht1 Ht2. destruct t; cbn in Ht1, Ht2. by subst.
  - rewrite set_keepalive by (done || by apply keepalive_positive). exists ("persistentkeepalive" :: s3).
    split_and!; [done|set_solver..|done].
Qed.

(** The importer's view of a configuration. A keepalive that is off prints no line,
    and the importer takes 25 seconds for a line that is absent. *)
Definition imported (c : client) : ParsedConfig :=
  let bounds := if IsZero (cl_Keepalive c) then (25, 0) else keepalive_bounds (cl_Keepalive c) in
  MkParsed (MkTunnel (cl_IPv4 c) (cl_MTU c) (cl_Public c) (WithPort (cl_Endpoint c) (cl_Port c)) bounds.1 bounds.2 (cl_Obf c) "" "" false)
    (MkSecret (cl_Private c) (cl_PSK c) "" "")
    (opt (bool_decide (cl_DNS c <> [])) "DNS" ++ opt (negb (String.eqb (cl_Allowed c) "")) "AllowedIPs").

Definition plain_text (s : string) : bool := str_all (fun c => line_char c || Ascii.eqb c (char_of 10)) s.

Lemma unix_lines_plain s : plain_text s = true -> unix_lines s = s.
Proof.
  unfold plain_text. induction s as [|c s IH]; [done|]. cbn [str_all]. intros [Hc Hs]%andb_prop. specialize (IH Hs).
  destruct s as [|d s]; [done|]. change (unix_lines (String c (String d s))) with
    (if Ascii.eqb c (char_of 13) && Ascii.eqb d (char_of 10) then unix_lines (String d s) else String c (unix_lines (String d s))).
  assert (Ascii.eqb c (char_of 13) = false) as -> by (destruct c as [[] [] [] [] [] [] [] []]; first [discriminate Hc|reflexivity]).
  cbn [andb]. by rewrite IH.
Qed.

Lemma write_plain l rest : Forall setting_ok l -> plain_text rest = true -> plain_text (write_settings l rest) = true.
Proof.
  intros Hl Hr. induction Hl as [|[k v] l Hkv Hl IH]; [done|]. cbn [write_settings]. unfold plain_text in *. rewrite !str_all_app, IH.
  destruct (setting_line k v Hkv) as [Hc _]. rewrite (str_all_weaken line_char _ (setting_text (k, v))); [done| |done]. by intros x ->.
Qed.

Lemma client_imports c : importable c -> (String.length (client_text c) <= MaxConfigBytes)%nat ->
  ParseClientConfig (client_text c) = Ok (imported c).
Proof.
  intros Hc Hlen. pose proof (interface_settings_ok c Hc) as Hi. pose proof (peer_settings_ok c Hc) as Hp.
  set (peer := nl +:+ "[Peer]" +:+ nl +:+ write_settings (peer_settings c) "").
  assert (plain_text (client_text c) = true) as Hpl.
  { unfold client_text. fold peer. change (plain_text (write_settings (interface_settings c) peer) = true). apply write_plain; [done|].
    unfold peer. change (plain_text (write_settings (peer_settings c) "") = true). by apply write_plain. }
  unfold ParseClientConfig. rewrite (proj2 (Nat.ltb_ge _ _) Hlen). cbv zeta.
  assert (trim_prefix byte_order_mark (client_text c) = client_text c) as -> by reflexivity. rewrite unix_lines_plain by done.
  assert (read_lines (str_split (char_of 10) (client_text c)) NoSection 0 new_parser =
    (p ← run_settings SInterface (interface_settings c) new_parser; p ← run_settings SPeer (peer_settings c) p; Ok (1%nat, p))) as ->.
  { unfold client_text. fold peer. rewrite split_line by done.
    change (read_lines (str_split (char_of 10) (write_settings (interface_settings c) peer)) SInterface 0 new_parser =
      (p ← run_settings SInterface (interface_settings c) new_parser; p ← run_settings SPeer (peer_settings c) p; Ok (1%nat, p))).
    rewrite read_settings by done. destruct (run_settings SInterface _ _) as [p|]; [|done]. cbn [mbind result_bind rbind].
    change (read_lines (str_split (char_of 10) ("[Peer]" +:+ nl +:+ write_settings (peer_settings c) "")) SInterface 0 p =
      (p ← run_settings SPeer (peer_settings c) p; Ok (1%nat, p))).
    rewrite split_line by done.
    change (read_lines (str_split (char_of 10) (write_settings (peer_settings c) "")) SPeer 1 p =
      (p ← run_settings SPeer (peer_settings c) p; Ok (1%nat, p))).
    rewrite read_settings by done. by destruct (run_settings SPeer _ p). }
  destruct (run_interface c Hc) as (seen & -> & Hk1 & Hk2 & Hn). cbn [mbind result_bind rbind].
  destruct (run_peer c (no_tunnel <| tc_Address := cl_IPv4 c |> <| tc_MTU := cl_MTU c |>) (no_secret <| sc_PrivateKey := cl_Private c |>)
    (opt (bool_decide (cl_DNS c <> [])) "DNS") ((cl_Obf c) <| ob_Enabled := false |>) seen) as (seen' & -> & Hin & Hpub & Hep & Hka); try done.
  { destruct (bool_decide _); [|by apply not_elem_of_nil]. by intros ?%list_elem_of_singleton. }
  cbn [mbind result_bind rbind]. change ((1 =? 0)%nat) with false. cbv iota.
  assert (forallb (fun k => member k seen') requiredKeys = true) as Hreq.
  { cbn [forallb requiredKeys]. rewrite !andb_true_iff, !member_iff. auto 6. }
  cbn [cp_seen]. rewrite Hreq. cbn [negb]. cbn [cp_Tunnel cp_obf cp_Secret cp_Ignored]. rewrite Hka.
  destruct (host_address_facts _ (im_address c Hc)) as (_ & Hne & _). apply String.eqb_neq in Hne.
  match goal with |- context [String.eqb (tc_Address ?t) ""] => change (tc_Address t) with (cl_IPv4 c) end. rewrite Hne.
  match goal with |- context [tc_MTU ?t =? 0] => change (tc_MTU t) with (cl_MTU c) end.
  pose proof (im_mtu c Hc) as Hmtu. rewrite (proj2 (Z.eqb_neq (cl_MTU c) 0)) by lia. pose proof (im_obf c Hc) as Ho.
  assert (importedObfuscation ((cl_Obf c) <| ob_Enabled := false |>) = Ok (cl_Obf c)) as ->.
  { destruct (ob_Enabled (cl_Obf c)) eqn:Ee; [by apply imported_valid|]. by rewrite Ho. }
  cbn [mbind result_bind rbind]. unfold imported. by destruct (IsZero (cl_Keepalive c)).
Qed.

(** ** The theorem *)

(** A profile that is off prints nothing, whatever else it holds. *)
Definition effective (o : Obfuscation) : Obfuscation := if ob_Enabled o then o else no_obf.

Lemma client_text_effective c : client_text (c <| cl_Obf := effective (cl_Obf c) |>) = client_text c.
Proof.
  unfold effective. destruct (ob_Enabled (cl_Obf c)) eqn:E; [by destruct c|]. unfold client_text, interface_settings.
  cbn. by rewrite E.
Qed.

(** What the checks of the renderer do not settle: the keys are keys and the
    address is a host's, the packet size fits the importer, an endpoint is
    set, the profile has no header range from 0 and no signature packet out of
    the importer's grammar, the keepalive does not range from 0. *)
Record shareable (c : client) : Prop := {
  sh_keys : encoded (cl_Private c) /\ encoded (cl_Public c) /\ (cl_PSK c = "" \/ encoded (cl_PSK c));
  sh_address : host_address (cl_IPv4 c);
  sh_mtu : cl_MTU c <= 1500;
  sh_headers : ob_Enabled (cl_Obf c) = true -> Forall (fun r => 0 < low r) (headers (cl_Obf c));
  sh_signatures : ob_Enabled (cl_Obf c) = true ->
    Forall (fun v => v = "" \/ one_line v = true /\ validSignature v = true) (signatures (cl_Obf c));
  sh_endpoint : cl_Endpoint c <> "" /\ zone_free (cl_Endpoint c);
  sh_keepalive : low (cl_Keepalive c) = 0 -> high (cl_Keepalive c) = 0;
  sh_size : (String.length (client_text c) <= MaxConfigBytes)%nat
}.

Section Exported.
Context `{A : AEAD, N : NodeSettings} (ring : KeyRing).

Lemma client_of_checked id s c : ifaces_wf s -> client_of ring id s = Ok c ->
  Forall (fun v => word v = true) (cl_DNS c) /\ 576 <= cl_MTU c /\ 1 <= cl_Port c <= 65535 /\
  ValidateObfuscation (cl_Obf c) = Ok tt /\ profile_wf (cl_Obf c) /\
  (cl_Allowed c = "" \/ one_line (cl_Allowed c) = true) /\ endpoint (cl_Endpoint c) /\ range_ok 16 (cl_Keepalive c).
Proof.
  intros Hwf. unfold client_of. intros (d & _ & H)%res_bind_ok. apply res_bind_ok in H as (ifc & Hi & H).
  apply (Get_row _ _ _) in Hi as (row & Hrow & Hi); [|done].
  destruct (iface_lookup _ _ _ Hwf Hrow) as [_ Hok]. destruct (scan_row_ok _ _ Hok Hi) as (V1 & V2 & V3 & V4 & _).
  apply res_bind_ok in H as (_ & _ & H). apply res_bind_ok in H as (e & _ & H). apply res_bind_ok in H as ([] & He & H).
  apply res_bind_ok in H as (dns & _ & H). cbv zeta in H. apply res_bind_ok in H as ([] & Hd & H).
  apply res_bind_ok in H as (al & _ & H). apply res_bind_ok in H as (allowed & Hal & H).
  apply res_bind_ok in H as (kt & _ & H). apply res_bind_ok in H as (ka & Hka & H).
  apply res_bind_ok in H as (priv & _ & H). apply res_bind_ok in H as (psk & _ & [= <-]). cbn.
  split_and!; try done; try lia.
  - apply Forall_forall. intros v Hv. apply ParseIP_word. destruct (forallb ParseIP _) eqn:Ef; [|done].
    rewrite forallb_forall in Ef. by apply Ef, list_elem_of_In.
  - by apply canonical_words in Hal.
  - apply endpoint_sound. destruct (NetText.ValidEndpoint e) as [[]|]; done.
  - by apply ParseRange_range in Hka.
Qed.

End Exported.

(** ** Witness *)

(** The first interface of a node, a device on it, and a node whose endpoint is
    set. *)
Definition w_export_ring : KeyRing := w_ring.
Definition w_nonce : string := str_repeat NonceSize "n".
Definition w_sealed : string := seal_with w_nonce (kr_current w_export_ring) w_zero_key.
Definition w_device : Device :=
  MkDevice "d0" "u0" (match iface_rows w_after with row :: _ => i_ID row | [] => "" end) "phone" "10.8.0.2/32" w_zero_key
    w_sealed (Some w_sealed) true None "" 0 0 0 0 0 0.
Definition w_export_store : store := w_after <| devices := {[ "d0" := w_device ]} |>.

#[local] Existing Instance plain_urls.
Definition w_export_registry : registry := Eval vm_compute in reached w_export_ring [OpSetRaw "node.endpoint" "vpn.example.org"].
#[local] Instance w_node_settings : NodeSettings := registry_node_settings w_export_ring w_export_registry.

Definition w_client : client := Eval vm_compute in
  match client_of w_export_ring "d0" w_export_store with Ok c => c | Err _ => MkClient "" "" "" [] 0 no_obf "" "" "" 0 (MkRange 0 0) end.

Lemma w_range bits r : (0 <=? low r) && (low r <=? high r) && (high r <? 2 ^ bits) = true -> range_ok bits r.
Proof. unfold range_ok. rewrite !andb_true_iff, !Z.leb_le, Z.ltb_lt. lia. Qed.

Lemma w_export_wf : ifaces_wf w_export_store.
Proof.
  apply (ifaces_wf_eq w_after); [reflexivity|]. apply (insertWithChecks_wf w_input w_mid w_stored w_after); [vm_compute; reflexivity| |exact (proj1 w_no_profiles)].
  unfold profile_ok. split; [split; apply Z.leb_le; reflexivity|]. split; [split; apply Z.leb_le; reflexivity|].
  do 2 (split; [vm_compute; reflexivity|]). split; [|split; vm_compute; reflexivity].
  split; repeat (apply Forall_cons; split; [apply w_range; vm_compute; reflexivity|]); constructor.
Qed.

