(* ===== verification/Reconcile.v ===== *)
(** * Reconciliation (internal/reconcile)

    One pass makes the tunnel backend match the database: enabled interfaces
    and the devices of entitled accounts are applied, everything else goes
    from the interfaces the node owns, peers it has never seen follow the
    drift policy, and interfaces it does not know are left alone.

    The backend is any implementation of [Backend]; the theorems use only its
    laws. Errors are kept as texts, as the report does; the run time of a pass
    is not modelled. A Go map is visited in an order of the runtime's choice
    ([MapOrder]); the final order of the report's drift items follows the
    interface names and is otherwise that of [sort.Slice]. *)
From stdpp Require Import base tactics strings gmap list fin_maps sets sorting.
From Stdlib Require Import ZArith Lia Ascii.
From Stdlib Require String.
From S2P Require Import Prelude GoText GoTime Domain Awgparam Store Ipam Crypto Tunnel Profile Backend Secrets.
From S2P Require Import Iface Devices.

Open Scope Z_scope.

(** ** Data *)

(** Any other text of the setting reads as [report]. *)
Inductive Policy := PolicyReport | PolicyAdopt | PolicyRemove | PolicyOther (raw : string).

#[export] Instance Policy_eq_dec : EqDecision Policy.
Proof. solve_decision. Defined.

Record DriftItem := MkDrift {
  dr_Interface : string;
  dr_Kind : string;
  dr_Detail : string;
  dr_Action : string
}.

Record InterfaceError := MkInterfaceError { ie_Interface : string; ie_Err : string }.

Record Report := MkReport {
  rp_InterfacesCreated : Z;
  rp_InterfacesUpdated : Z;
  rp_InterfacesRemoved : Z;
  rp_PeersAdded : Z;
  rp_PeersRemoved : Z;
  rp_PeersUpdated : Z;
  rp_Drift : list DriftItem;
  rp_Errors : list InterfaceError
}.

#[export] Instance eta_Report : Eta Report := fun r =>
  MkReport (rp_InterfacesCreated r) (rp_InterfacesUpdated r) (rp_InterfacesRemoved r)
    (rp_PeersAdded r) (rp_PeersRemoved r) (rp_PeersUpdated r) (rp_Drift r) (rp_Errors r).

Definition empty_report : Report := MkReport 0 0 0 0 0 0 [] [].

Record dbInterface := MkDb {
  db_ID : string;
  db_Name : string;
  db_BackendMode : string;
  db_ListenPort : Z;
  db_Subnet : string;
  db_Pools : list string;
  db_MTU : Z;
  db_Obf : Obfuscation;
  db_Enabled : bool;
  db_PrivateKey : string
}.

Record peerDesire := MkDesire {
  pd_PublicKey : string;
  pd_PresharedKey : string;
  pd_AllowedIP : string;
  pd_DeviceName : string
}.

(** The order in which the runtime visits a map, and SQLite the rows of an
    unordered query. *)
Class MapOrder := {
  visit : forall {V}, gmap string V -> list (string * V);
  visit_perm : forall {V} (m : gmap string V), visit m ≡ₚ map_to_list m
}.

(** ** Texts *)

Fixpoint joined (l : list string) : string :=
  match l with [] => "" | [s] => s | s :: l => s +:+ " " +:+ joined l end.
(** [%v] of a list of texts. *)
Definition list_text (l : list string) : string := "[" +:+ joined l +:+ "]".

Definition error_text (e : tunnel_error) : string :=
  match e with ErrInterfaceNotFound => "tunnel: interface not found" | TunnelFailed msg => msg end.

Definition ellipsis : string := text_of [226; 128; 166].

Definition describe (key : string) (st : PeerState) : string :=
  match ps_AllowedIPs st with
  | ip :: _ => ip
  | [] => if (12 <? String.length key)%nat then str_take 12 key +:+ ellipsis else key
  end.

Definition sameAllowedIPs (a b : list string) : bool := bool_decide (a = b).

(** The first address after the stated one; a text that does not parse gives
    nothing, and creation fails later. *)
Definition gatewayAddress (subnet : string) : string :=
  match ParsePrefix subnet with
  | None => ""
  | Some p => match Next (pf_addr p) with
              | Some g => prefix_text (MkPrefix g (pf_bits p))
              | None => "invalid Prefix"
              end
  end.

(** ** Loading the desired state *)

Section Load.
Context `{A : AEAD} `{O : MapOrder} (ring : KeyRing).

Definition load_row (row : Iface) : result err dbInterface :=
  obf ← scan_obf (i_Obf row);
  pools ← Decode (i_Subnet row) (i_ExtraPools row);
  if negb (BackendMode_Valid (i_BackendMode row)) then Err (Plain "reconcile: invalid stored backend mode")
  else
    _ ← ValidateObfuscation obf;
    pt ← ring_Decrypt ring (i_PrivKeyEnc row);
    Ok (MkDb (i_ID row) (i_Name row) (mode_text (i_BackendMode row)) (i_ListenPort row) (i_Subnet row)
          pools (i_MTU row) obf (i_Enabled row) pt).

Definition loadInterfaces (s : store) : result err (list dbInterface) :=
  scan_rows load_row (rows_by_name s).

(** [desiredPeerWhere]: an enabled device of an enabled, live account whose
    status wants peers. *)
Definition desired_device (s : store) (d : Device) : bool :=
  match users s !! d_UserID d with
  | Some u => bool_decide (u_DeletedAt u = None) && u_Enabled u && d_Enabled d && PeerWanted (u_Status u)
  | None => false
  end.

Definition device_rows (s : store) : list Device :=
  filter (fun d => desired_device s d = true) (visit (devices s)).*2.

Definition DesiredPeerKeys (ifaceName : string) (s : store) : gset string :=
  list_to_set (d_PublicKey <$> filter (fun d =>
    match ifaces s !! d_InterfaceID d with Some row => String.eqb (i_Name row) ifaceName | None => false end = true)
    (device_rows s)).

Definition desire (d : Device) : result err peerDesire :=
  psk ← match d_PSKEnc d with
        | Some enc => if String.eqb enc "" then Ok "" else ring_Decrypt ring enc
        | None => Ok ""
        end;
  Ok (MkDesire (d_PublicKey d) psk (d_IPv4 d) (d_Name d)).

(** Appends each device's peer to its interface's list. *)
Fixpoint group_desired (ds : list Device) (out : gmap string (list peerDesire))
    : result err (gmap string (list peerDesire)) :=
  match ds with
  | [] => Ok out
  | d :: ds =>
      p ← desire d;
      group_desired ds (<[d_InterfaceID d := default [] (out !! d_InterfaceID d) ++ [p]]> out)
  end.

Definition known_keys (s : store) : gset string := list_to_set (d_PublicKey <$> (map_to_list (devices s)).*2).

(** [retiredKeys[id]]. *)
Definition retired_of (s : store) (id : string) : gset string :=
  set_map snd (filter (fun r : string * string => r.1 = id) (retired_peer_keys s)).

Definition loadDesiredPeers (s : store) : result err (gmap string (list peerDesire)) :=
  group_desired (device_rows s) ∅.
End Load.

(** ** The engine *)

Section Engine.
Context {R : Type} `{B : Backend R} `{A : AEAD} `{O : MapOrder}.
Context (ring : KeyRing) (policy : Policy).

(** What a pass works on: the database, the runtime, the report. *)
Record pass := MkPass { pa_db : store; pa_rt : R; pa_rep : Report }.

#[export] Instance eta_pass : Eta pass := fun p => MkPass (pa_db p) (pa_rt p) (pa_rep p).

Definition rt_try {T} (m : act R tunnel_error T) : act pass string (result tunnel_error T) := fun p =>
  let '(r, rt) := m (pa_rt p) in (Ok r, p <| pa_rt := rt |>).

(** [fmt.Errorf("<prefix>: %w", err)]. *)
Definition rt {T} (prefix : string) (m : act R tunnel_error T) : act pass string T :=
  r ← rt_try m;
  match r with Ok a => mret a | Err e => act_fail (prefix +:+ ": " +:+ error_text e) end.

Definition report (f : Report -> Report) : act pass string unit := act_modify (fun p => p <| pa_rep ::= f |>).

Definition drift (item : DriftItem) : act pass string unit := report (fun r => r <| rp_Drift ::= fun l => l ++ [item] |>).

Definition spec_of (ifc : dbInterface) : InterfaceSpec :=
  MkSpec (db_Name ifc) (db_BackendMode ifc) (db_PrivateKey ifc) (db_ListenPort ifc) "" (db_MTU ifc)
    (gatewayAddress (db_Subnet ifc)) (List.map Gateway (db_Pools ifc)) (Profile.Tunnel (db_Obf ifc)).

Definition config_of (ifc : dbInterface) : InterfaceConfig :=
  MkConfig (db_PrivateKey ifc) (db_ListenPort ifc) "" (Profile.Tunnel (db_Obf ifc)) [].

Definition backendChanged (st : InterfaceState) (spec : InterfaceSpec) : bool :=
  negb (String.eqb (st_BackendMode st) "") && negb (String.eqb (st_BackendMode st) (is_BackendMode spec)).
Definition modeChanged (st : InterfaceState) (spec : InterfaceSpec) : bool :=
  negb (Bool.eqb (ob_Enabled (st_Obfuscation st)) (ob_Enabled (is_Obfuscation spec))).
Definition hpkRemoved (st : InterfaceState) (spec : InterfaceSpec) : bool :=
  negb (String.eqb (ob_HeaderProtectionKey (st_Obfuscation st)) "")
  && String.eqb (ob_HeaderProtectionKey (is_Obfuscation spec)) "".
Definition paramDrift (st : InterfaceState) (spec : InterfaceSpec) : bool :=
  negb (st_ListenPort st =? is_ListenPort spec) || negb (bool_decide (st_Obfuscation st = is_Obfuscation spec)).

(** Brings the link itself to its stored profile; the result is whether the
    link is a new one, and the state that was dumped. *)
Definition ensure_link (ifc : dbInterface) : act pass string (bool * InterfaceState) :=
  let spec := spec_of ifc in
  let name := db_Name ifc in
  dumped ← rt_try (Dump name);
  match dumped with
  | Err ErrInterfaceNotFound =>
      _ ← rt "create" (CreateInterface spec);
      _ ← rt "apply" (ApplyInterfaceConfig name (config_of ifc));
      _ ← report (fun r => r <| rp_InterfacesCreated ::= Z.add 1 |>);
      _ ← drift (MkDrift name "missing_interface" "recreated from DB" "created");
      mret (true, no_state)
  | Err e => act_fail ("dump: " +:+ error_text e)
  | Ok st =>
      let bc := backendChanged st spec in
      let mc := modeChanged st spec in
      let hr := hpkRemoved st spec in
      if bc || mc || hr then
        _ ← rt "recreate remove" (RemoveInterface name);
        _ ← rt "recreate create" (CreateInterface spec);
        _ ← report (fun r => r <| rp_InterfacesUpdated ::= Z.add 1 |>);
        let kind := if bc then "backend_transition" else if negb mc && hr then "hpk_removal" else "mode_transition" in
        _ ← drift (MkDrift name kind
              ("configuration required link recreation (backend changed=" +:+ bool_text bc +:+ ", mode changed="
               +:+ bool_text mc +:+ ", HPK removed=" +:+ bool_text hr +:+ "); peers re-synced") "recreated");
        mret (true, st)
      else if paramDrift st spec then
        _ ← rt "apply" (ApplyInterfaceConfig name (config_of ifc));
        _ ← report (fun r => r <| rp_InterfacesUpdated ::= Z.add 1 |>);
        _ ← drift (MkDrift name "param_drift"
              ("port/params corrected (backend port " +:+ int_text (st_ListenPort st) +:+ ", DB port "
               +:+ int_text (db_ListenPort ifc) +:+ ")") "applied");
        mret (false, st)
      else mret (false, st)
  end.

Definition ensure_addresses (ifc : dbInterface) : act pass string unit :=
  match EnsureAddresses with
  | Some ensure => rt "addresses" (ensure (db_Name ifc) (is_Addresses (spec_of ifc)))
  | None => mret tt
  end.

(** [have]: the observed peers by key. *)
Definition observed_peers (st : InterfaceState) : gmap string PeerState :=
  fold_left (fun m p => <[ps_PublicKey p := p]> m) (st_Peers st) ∅.

Definition peer_config (d : peerDesire) : PeerConfig :=
  MkPeerConfig (pd_PublicKey d) (pd_PresharedKey d) [pd_AllowedIP d] "" zero_range.

(** One desired peer of a link that was there: whether it has to be applied. *)
Definition desired_peer (name : string) (created : bool) (have : gmap string PeerState) (d : peerDesire)
    : act pass string bool :=
  if created then _ ← report (fun r => r <| rp_PeersAdded ::= Z.add 1 |>); mret false
  else
    match have !! pd_PublicKey d with
    | None =>
        _ ← report (fun r => r <| rp_PeersAdded ::= Z.add 1 |>);
        _ ← drift (MkDrift name "missing_peer"
              ("device " +:+ pd_DeviceName d +:+ " (" +:+ pd_AllowedIP d +:+ ") missing in backend") "added");
        mret true
    | Some existing =>
        if sameAllowedIPs (ps_AllowedIPs existing) [pd_AllowedIP d] then mret false
        else
          _ ← report (fun r => r <| rp_PeersUpdated ::= Z.add 1 |>);
          _ ← drift (MkDrift name "missing_peer"
                ("device " +:+ pd_DeviceName d +:+ " allowed-IPs corrected (backend "
                 +:+ list_text (ps_AllowedIPs existing) +:+ ", DB " +:+ pd_AllowedIP d +:+ ")") "added");
          mret true
    end.

Fixpoint desired_peers (name : string) (created : bool) (have : gmap string PeerState) (ds : list peerDesire)
    (dirty : bool) : act pass string bool :=
  match ds with
  | [] => mret dirty
  | d :: ds => b ← desired_peer name created have d; desired_peers name created have ds (dirty || b)
  end.

(** An observed peer that is not desired: whether it makes the set dirty, and
    the configuration that keeps it. *)
Definition keep_config (key : string) (st : PeerState) : PeerConfig :=
  MkPeerConfig key "" (ps_AllowedIPs st) "" (ps_PersistentKeepalive st).

Definition other_peer (name : string) (gone : gset string) (key : string) (st : PeerState)
    : act pass string (bool * list PeerConfig) :=
  if decide (key ∈ gone) then
    _ ← report (fun r => r <| rp_PeersRemoved ::= Z.add 1 |>);
    _ ← drift (MkDrift name "stale_peer"
          ("device peer " +:+ describe key st +:+ " removed (not peer-eligible in DB)") "removed");
    mret (true, [])
  else
    match policy with
    | PolicyRemove =>
        _ ← report (fun r => r <| rp_PeersRemoved ::= Z.add 1 |>);
        _ ← drift (MkDrift name "unknown_peer"
              ("unknown peer " +:+ describe key st +:+ " removed (drift policy)") "removed");
        mret (true, [])
    | PolicyAdopt =>
        _ ← drift (MkDrift name "unknown_peer"
              ("unknown peer " +:+ describe key st +:+ " adopted (drift policy)") "adopt");
        mret (false, [keep_config key st])
    | _ =>
        _ ← drift (MkDrift name "unknown_peer"
              ("unknown peer " +:+ describe key st +:+ " reported (drift policy)") "reported");
        mret (false, [keep_config key st])
    end.

Fixpoint other_peers (name : string) (want gone : gset string) (have : list (string * PeerState))
    (acc : bool * list PeerConfig) : act pass string (bool * list PeerConfig) :=
  match have with
  | [] => mret acc
  | (key, st) :: have =>
      if decide (key ∈ want) then other_peers name want gone have acc
      else '(b, cfg) ← other_peer name gone key st;
           other_peers name want gone have (acc.1 || b, acc.2 ++ cfg)
  end.

Definition reconcileInterface (ifc : dbInterface) (desired : list peerDesire) (known retired : gset string)
    : act pass string unit :=
  let name := db_Name ifc in
  link ← ensure_link ifc;
  let created : bool := link.1 in
  let state : InterfaceState := link.2 in
  _ ← act_when (negb created) (ensure_addresses ifc);
  let want : gset string := list_to_set (List.map pd_PublicKey desired) in
  let have := observed_peers state in
  dirty ← desired_peers name created have desired created;
  others ← (if created then act_ret (dirty, [])
            else other_peers name want (known ∪ retired) (visit have) (dirty, []));
  act_when others.1 (rt "sync" (SyncPeers name (List.map peer_config desired ++ others.2))).

(** Only keys observed absent after a successful step are acknowledged. *)
Definition ackRetiredKeys (id : string) (keys : gset string) : act pass string unit :=
  act_modify (fun p => p <| pa_db ::= fun s =>
    s <| retired_peer_keys ::= fun r => r ∖ set_map (pair id) keys |> |>).

Definition interface_error (name msg : string) : act pass string unit :=
  report (fun r => r <| rp_Errors ::= fun l => l ++ [MkInterfaceError name msg] |>).

(** A disabled interface that is still in the backend goes. *)
Definition remove_disabled (ifc : dbInterface) (retired : gset string) : act pass string unit :=
  let name := db_Name ifc in
  dumped ← rt_try (Dump name);
  match dumped with
  | Ok _ =>
      removed ← rt_try (RemoveInterface name);
      match removed with
      | Err (TunnelFailed msg) => interface_error name msg
      | _ =>
          _ ← report (fun r => r <| rp_InterfacesRemoved ::= Z.add 1 |>);
          _ ← drift (MkDrift name "unwanted_interface" "profile disabled in panel" "removed");
          ackRetiredKeys (db_ID ifc) retired
      end
  | Err ErrInterfaceNotFound => ackRetiredKeys (db_ID ifc) retired
  | Err (TunnelFailed msg) => interface_error name msg
  end.

Definition reconcile_one (desired : gmap string (list peerDesire)) (known : gset string)
    (retired : string -> gset string) (ifc : dbInterface) : act pass string unit :=
  if db_Enabled ifc then
    r ← act_try (reconcileInterface ifc (default [] (desired !! db_ID ifc)) known (retired (db_ID ifc)));
    match r with
    | Err msg => interface_error (db_Name ifc) msg
    | Ok _ => ackRetiredKeys (db_ID ifc) (retired (db_ID ifc))
    end
  else remove_disabled ifc (retired (db_ID ifc)).

(** [egress.IsLinkName]: [wgo1] to [wgo63], links owned by egress routing. *)
Definition IsLinkName (name : string) : bool :=
  match strip_prefix "wgo" name with
  | None => false
  | Some rest =>
      match rest with
      | EmptyString => false
      | String c _ =>
          if (2 <? String.length rest)%nat || Ascii.eqb c "0" then false
          else match undec_go rest 0 with Some n => (1 <=? n) && (n <=? 63) | None => false end
      end
  end.

Definition foreign_item (name : string) : DriftItem :=
  MkDrift name "foreign_interface" "exists in backend but not in WG-Guard's database" "none".

Definition report_foreign (owned : list string) (names : list string) : act pass string unit :=
  act_iter (fun name => act_when (negb (existsb (String.eqb name) owned || IsLinkName name))
                          (drift (foreign_item name))) names.

Definition drift_le (a b : DriftItem) : Prop := String.leb (dr_Interface a) (dr_Interface b) = true.
#[export] Instance drift_le_dec a b : Decision (drift_le a b) :=
  decide (String.leb (dr_Interface a) (dr_Interface b) = true).

(** [Run] on a database and a runtime. *)
Definition Run : act (store * R) err Report := fun w =>
  match loadInterfaces ring w.1, loadDesiredPeers ring w.1 with
  | Err e, _ => (Err e, w)
  | _, Err e => (Err e, w)
  | Ok ifs, Ok desired =>
      let loop := act_iter (reconcile_one desired (known_keys w.1) (retired_of w.1)) ifs in
      let '(_, p) := loop (MkPass w.1 w.2 empty_report) in
      let '(listed, p) := rt_try ListInterfaces p in
      match listed with
      | Ok (Ok names) =>
          let '(_, p) := report_foreign (List.map db_Name ifs) names p in
          (Ok ((pa_rep p) <| rp_Drift ::= merge_sort drift_le |>), (pa_db p, pa_rt p))
      | _ => (Err (Plain "reconcile: list backend interfaces"), (pa_db p, pa_rt p))
      end
  end.
End Engine.
Arguments pass : clear implicits.
