(* ===== verification/Converge.v ===== *)
(** * What a reconciliation pass achieves

    The theorems about [Reconcile], over any backend that meets the contract
    of [Backend]: a pass leaves what it could handle as the database has it,
    two passes are enough from any state, links of others are never touched,
    and a retired key is acknowledged only when it is off. *)
From stdpp Require Import base tactics strings gmap list fin_maps sets sorting.
From Stdlib Require Import ZArith Lia Ascii.
From Stdlib Require String.
From S2P Require Import Prelude GoTime Domain Awgparam Store Ipam Crypto Tunnel Profile Backend Secrets.
From S2P Require Import Iface Devices Reconcile.

Open Scope Z_scope.

(** ** Lemmas: outcomes of the statements of a pass *)

Lemma acts_step {S E A B} (Q : B -> S -> Prop) (X : E -> S -> Prop) (m : act S E A) (f : A -> act S E B) s :
  acts (fun a s' => acts Q X (f a) s') X m s -> acts Q X (m ≫= f) s.
Proof. intros H. eapply acts_bind; [exact H|done]. Qed.

(** A statement that changes the report only, and not its errors. *)
Definition silent {R} (p p' : pass R) : Prop :=
  pa_db p' = pa_db p /\ pa_rt p' = pa_rt p /\ rp_Errors (pa_rep p') = rp_Errors (pa_rep p).

#[export] Instance silent_preorder R : PreOrder (@silent R).
Proof. split; [done|]. intros p q r (H1 & H2 & H3) (H4 & H5 & H6). unfold silent. by rewrite H4, H5, H6. Qed.

Section Facts.
Context {R : Type} {B : Backend R} {V : BackendView R} {L : BackendLaws R} `{A : AEAD} `{O : MapOrder}.
Context (ring : KeyRing) (policy : Policy).

Lemma acts_report (f : Report -> Report) (Q : unit -> pass R -> Prop) X p :
  rp_Errors (f (pa_rep p)) = rp_Errors (pa_rep p) ->
  (forall p', silent p p' -> Q tt p') -> acts Q X (report f) p.
Proof. intros Hf HQ. unfold acts, report, act_modify. apply HQ. by destruct p. Qed.

Lemma acts_drift item (Q : unit -> pass R -> Prop) X p :
  (forall p', silent p p' -> Q tt p') -> acts Q X (drift item) p.
Proof. by apply acts_report. Qed.

Lemma acts_rt {T} prefix (m : act R tunnel_error T) (Q : T -> pass R -> Prop) (X : string -> pass R -> Prop) p :
  (forall res r', m (pa_rt p) = (res, r') ->
     match res with
     | Ok a => Q a (MkPass (pa_db p) r' (pa_rep p))
     | Err e => forall msg, X msg (MkPass (pa_db p) r' (pa_rep p))
     end) ->
  acts Q X (rt prefix m) p.
Proof.
  intros H. unfold acts, rt, rt_try, mbind, act_mbind, act_bind.
  destruct (m (pa_rt p)) as [res r'] eqn:E. specialize (H _ _ eq_refl). by destruct res; cbn.
Qed.

Lemma acts_rt_try {T} (m : act R tunnel_error T) (Q : result tunnel_error T -> pass R -> Prop) X p :
  (forall res r', m (pa_rt p) = (res, r') -> Q res (MkPass (pa_db p) r' (pa_rep p))) ->
  acts Q X (rt_try m) p.
Proof. intros H. unfold acts, rt_try. destruct (m (pa_rt p)) as [res r'] eqn:E. by apply H. Qed.

(** ** Lemmas: what a dump shows *)

Lemma fold_peers_lookup (l : list PeerState) (m : gmap string PeerState) k :
  NoDup (ps_PublicKey <$> l) ->
  fold_left (fun m p => <[ps_PublicKey p := p]> m) l m !! k =
  match List.find (fun p => String.eqb (ps_PublicKey p) k) l with Some p => Some p | None => m !! k end.
Proof.
  revert m. induction l as [|p l IH]; intros m; [done|]. cbn [fmap list_fmap fold_left List.find].
  intros [Hp Hl]%NoDup_cons. rewrite (IH _ Hl). destruct (String.eqb_spec (ps_PublicKey p) k) as [<-|Hne].
  - rewrite lookup_insert_eq. destruct (List.find _ l) as [q|] eqn:E; [|done]. exfalso. apply Hp.
    apply List.find_some in E as [Hq%list_elem_of_In Ek%String.eqb_eq]. rewrite <-Ek. by apply list_elem_of_fmap_2.
  - by rewrite lookup_insert_ne.
Qed.

Lemma own_keys_NoDup (m : gmap string PeerState) :
  map_Forall (fun k p => ps_PublicKey p = k) m -> NoDup (ps_PublicKey <$> (map_to_list m).*2).
Proof.
  intros Hm. replace (ps_PublicKey <$> (map_to_list m).*2) with (map_to_list m).*1.
  - apply NoDup_fst_map_to_list.
  - rewrite <-list_fmap_compose. apply list_fmap_ext. intros i [k p] Hk%list_elem_of_lookup_2%elem_of_map_to_list.
    cbn. symmetry. by apply Hm.
Qed.

Lemma observed_peers_shown st l : shows st l -> observed_peers st = ln_Peers l.
Proof.
  intros (_ & _ & _ & Hp & Hk). unfold observed_peers. apply map_eq. intros k.
  assert (NoDup (ps_PublicKey <$> st_Peers st)) as Hnd by (rewrite Hp; by apply own_keys_NoDup).
  rewrite fold_peers_lookup by done. destruct (List.find _ _) as [p|] eqn:E.
  - apply List.find_some in E as [Hin%list_elem_of_In <-%String.eqb_eq].
    rewrite Hp in Hin. apply elem_of_values in Hin as [k Hin]. by rewrite (Hk _ _ Hin).
  - rewrite lookup_empty. symmetry. apply eq_None_not_Some. intros [p Hl].
    assert (p ∈ st_Peers st) as Hin by (rewrite Hp; apply elem_of_values; eauto).
    apply list_elem_of_In in Hin. pose proof (List.find_none _ _ E p Hin) as Hf. cbn in Hf.
    rewrite (Hk _ _ Hl), String.eqb_refl in Hf. done.
Qed.

(** What the engine compares of a link. *)
Definition shown (l : Link) : InterfaceState :=
  MkState "" (ln_Mode l) "" (ln_ListenPort l) 0 (ln_Obfuscation l) [].

(** The link has to be made anew, or only its parameters corrected. *)
Definition recreates (ifc : dbInterface) (l : Link) : bool :=
  backendChanged (shown l) (spec_of ifc) || modeChanged (shown l) (spec_of ifc) || hpkRemoved (shown l) (spec_of ifc).
Definition drifted (ifc : dbInterface) (l : Link) : bool :=
  negb (recreates ifc l) && paramDrift (shown l) (spec_of ifc).

Lemma shown_same st l spec : shows st l ->
  backendChanged st spec = backendChanged (shown l) spec /\ modeChanged st spec = modeChanged (shown l) spec /\
  hpkRemoved st spec = hpkRemoved (shown l) spec /\ paramDrift st spec = paramDrift (shown l) spec.
Proof.
  intros (H1 & H2 & H3 & _). unfold backendChanged, modeChanged, hpkRemoved, paramDrift, shown. cbn.
  by rewrite H1, H2, H3.
Qed.

(** The link has the stored port, parameters and implementation. *)
Definition params_ok (ifc : dbInterface) (l : Link) : Prop :=
  ln_ListenPort l = db_ListenPort ifc /\ ln_Obfuscation l = Profile.Tunnel (db_Obf ifc) /\
  (ln_Mode l = "" \/ ln_Mode l = db_BackendMode ifc).

Lemma recreates_mode ifc l : recreates ifc l = false -> ln_Mode l = "" \/ ln_Mode l = db_BackendMode ifc.
Proof.
  unfold recreates, backendChanged. cbn. intros [[Hb _]%orb_false_iff _]%orb_false_iff.
  destruct (String.eqb_spec (ln_Mode l) "") as [?|]; [by left|]. right.
  cbn in Hb. by apply negb_false_iff, String.eqb_eq in Hb.
Qed.

Lemma no_drift_params ifc l : recreates ifc l = false -> paramDrift (shown l) (spec_of ifc) = false -> params_ok ifc l.
Proof.
  intros Hr [Hp Ho]%orb_false_iff. apply recreates_mode in Hr.
  apply negb_false_iff, Z.eqb_eq in Hp. by apply negb_false_iff, bool_decide_eq_true in Ho.
Qed.

Lemma params_no_drift ifc l : params_ok ifc l -> recreates ifc l = false /\ paramDrift (shown l) (spec_of ifc) = false.
Proof.
  intros (H1 & H2 & H3). unfold recreates, paramDrift, backendChanged, modeChanged, hpkRemoved. cbn.
  rewrite H1, H2, Z.eqb_refl, bool_decide_eq_true_2, Bool.eqb_reflx by done. cbn. split; [|done].
  destruct H3 as [->| ->]; [|rewrite String.eqb_refl, andb_false_r]; cbn; by destruct (String.eqb _ _).
Qed.

(** ** Lemmas: one interface *)

(** A step on one interface: other links, the database and the errors of the
    report stay as they were. *)
Definition frame (name : string) (p p' : pass R) : Prop :=
  only name (pa_rt p) (pa_rt p') /\ pa_db p' = pa_db p /\ rp_Errors (pa_rep p') = rp_Errors (pa_rep p).

Lemma only_refl name (r : R) : sound r -> only name r r.
Proof. done. Qed.

Lemma only_trans name (r1 r2 r3 : R) : only name r1 r2 -> only name r2 r3 -> only name r1 r3.
Proof. intros [_ H1] [H2 H3]. split; [done|congruence]. Qed.

Lemma same_links_only name (r r' : R) : sound r' -> links r' = links r -> only name r r'.
Proof. intros H1 H2. split; [done|by rewrite H2]. Qed.

Lemma frame_trans name p1 p2 p3 : frame name p1 p2 -> frame name p2 p3 -> frame name p1 p3.
Proof.
  intros (H1 & H2 & H3) (H4 & H5 & H6). split_and!; [by eapply only_trans|congruence..].
Qed.

Lemma frame_silent name p1 p2 p3 : frame name p1 p2 -> silent p2 p3 -> frame name p1 p3.
Proof. intros (H1 & H2 & H3) (H4 & H5 & H6). unfold frame. rewrite H4, H5, H6. done. Qed.

Lemma frame_rt name p1 p2 r : frame name p1 p2 -> only name (pa_rt p2) r ->
  frame name p1 (MkPass (pa_db p2) r (pa_rep p2)).
Proof. intros (H1 & H2 & H3) H4. split_and!; cbn; [by eapply only_trans|done..]. Qed.

Lemma frame_refl name p : sound (pa_rt p) -> frame name p p.
Proof. done. Qed.

Lemma frame_lookup name p p' n : frame name p p' -> n <> name -> links (pa_rt p') !! n = links (pa_rt p) !! n.
Proof.
  intros ((_ & Hd) & _) Hn. rewrite <-(lookup_delete_ne (links (pa_rt p')) name n) by done.
  by rewrite Hd, lookup_delete_ne.
Qed.

(** How the link of an interface stands after [ensure_link]. *)
Definition linked (ifc : dbInterface) (before : R) (out : bool * InterfaceState) (p' : pass R) : Prop :=
  exists l', links (pa_rt p') !! db_Name ifc = Some l' /\ params_ok ifc l' /\
    if out.1 then ln_Peers l' = ∅ /\ (forall l, links before !! db_Name ifc = Some l -> recreates ifc l = true)
    else exists l, links before !! db_Name ifc = Some l /\ shows out.2 l /\ recreates ifc l = false /\
           (l' = l /\ drifted ifc l = false \/ ln_Peers l' = ∅ /\ drifted ifc l = true).

Lemma params_ok_created ifc mode peers : (mode = "" \/ mode = is_BackendMode (spec_of ifc)) ->
  params_ok ifc (MkLink mode (is_ListenPort (spec_of ifc)) (is_Obfuscation (spec_of ifc)) peers).
Proof. intros H. done. Qed.

(** Runs a call on the runtime: its law, the frame it extends, and its effect
    when it succeeded. *)
Ltac rt_call law F F' Hnew :=
  let res := fresh "res" in let r := fresh "r" in let Hcall := fresh "Hcall" in let Ho := fresh "Ho" in
  apply acts_step, acts_rt; intros res r Hcall;
  apply law in Hcall as [Ho Hnew]; [|apply F];
  pose proof (frame_rt _ _ _ _ F Ho) as F'; cbn [pa_db pa_rt pa_rep] in F', Hnew;
  destruct res as [[]|?]; [specialize (Hnew eq_refl) || idtac|by intros msg].

(** Runs what is recorded in the report after the last call. *)
Ltac recorded F :=
  let p4 := fresh "p" in let S4 := fresh "S" in let p5 := fresh "p" in let S5 := fresh "S" in
  apply acts_step, acts_report; [reflexivity|]; intros p4 S4; apply acts_step, acts_drift; intros p5 S5;
  apply acts_ret; split; [exact (frame_silent _ _ _ _ (frame_silent _ _ _ _ F S4) S5)|];
  destruct S4 as (_ & S4 & _), S5 as (_ & S5 & _); unfold linked; rewrite S5, S4; clear S4 S5.

Lemma ensure_link_ok ifc p : sound (pa_rt p) -> db_ListenPort ifc <> 0 ->
  acts (fun out p' => frame (db_Name ifc) p p' /\ linked ifc (pa_rt p) out p')
       (fun _ p' => frame (db_Name ifc) p p') (ensure_link ifc) p.
Proof.
  intros Hs Hport. unfold ensure_link. cbv zeta. apply acts_step, acts_rt_try. intros res r1 Hdump.
  apply dump_law in Hdump as (Hs1 & Hl1 & Hres); [|done].
  assert (frame (db_Name ifc) p (MkPass (pa_db p) r1 (pa_rep p))) as F1
    by (apply frame_rt; [by apply frame_refl|by apply same_links_only]).
  destruct res as [st|[|msg]]; [| |done].
  - destruct Hres as (l & Hl & Hsh). destruct (shown_same _ _ (spec_of ifc) Hsh) as (-> & -> & -> & Epd).
    rewrite Epd. fold (recreates ifc l). destruct (recreates ifc l) eqn:Erec.
    + rt_call remove_law F1 F2 Hrm. rt_call create_law F2 F3 Hnew. destruct Hnew as (mode & Hmode & Hlink).
      recorded F3. eexists. split; [exact Hlink|]. split; [by apply params_ok_created|].
      split; [done|]. intros l1 Hl'. congruence.
    + destruct (paramDrift (shown l) (spec_of ifc)) eqn:Ed.
      * rt_call apply_law F1 F2 Hnew. destruct Hnew as (l0 & Hl0 & Hlink).
        rewrite Hl1, Hl in Hl0. injection Hl0 as <-. recorded F2. eexists. split; [exact Hlink|]. split.
        -- cbn [ic_ListenPort ic_Obfuscation ic_Peers config_of]. rewrite (proj2 (Z.eqb_neq _ _) Hport).
           unfold params_ok. cbn. split_and!; try done. by apply recreates_mode.
        -- exists l. split_and!; try done. right. split; [done|]. unfold drifted. by rewrite Erec, Ed.
      * apply acts_ret. split; [done|]. exists l. cbn [pa_rt fst snd]. rewrite Hl1. split_and!; try done.
        -- by apply no_drift_params.
        -- exists l. split_and!; try done. left. split; [done|]. unfold drifted. by rewrite Erec, Ed.
  - rt_call create_law F1 F2 Hnew. destruct Hnew as (mode & Hmode & Hlink).
    rt_call apply_law F2 F3 Hcfg. destruct Hcfg as (l0 & Hl0 & Hlink3).
    change (is_Name (spec_of ifc)) with (db_Name ifc) in Hlink.
    rewrite Hlink in Hl0. injection Hl0 as <-. recorded F3. eexists. split; [exact Hlink3|].
    split; [unfold params_ok; cbn; split_and!; try done; by destruct (_ =? 0)|].
    split; [done|]. intros l Hl. congruence.
Qed.

(** ** Lemmas: the peers of one interface *)

(** A desired peer that is missing or has other addresses. *)
Definition peer_off (have : gmap string PeerState) (d : peerDesire) : bool :=
  match have !! pd_PublicKey d with
  | None => true
  | Some p => negb (sameAllowedIPs (ps_AllowedIPs p) [pd_AllowedIP d])
  end.

(** An observed peer that is not desired and goes. *)
Definition goes (gone : gset string) (k : string) : bool :=
  bool_decide (k ∈ gone) || bool_decide (policy = PolicyRemove).

(** Every desired peer is there with its address, and none that has to go. *)
Definition in_sync (desired : list peerDesire) (gone : gset string) (peers : gmap string PeerState) : Prop :=
  (forall d, d ∈ desired -> exists p, peers !! pd_PublicKey d = Some p /\ ps_AllowedIPs p = [pd_AllowedIP d]) /\
  (forall k, is_Some (peers !! k) -> k ∈ pd_PublicKey <$> desired \/ goes gone k = false).

Lemma desired_peers_ok name created have ds dirty p :
  acts (fun b (p' : pass R) => silent p p' /\ b = dirty || (negb created && existsb (peer_off have) ds)) (fun _ _ => False)
    (desired_peers name created have ds dirty) p.
Proof.
  revert dirty p. induction ds as [|d ds IH]; intros dirty p; cbn [desired_peers existsb].
  - apply acts_ret. by rewrite andb_false_r, orb_false_r.
  - apply (acts_bind (fun b p' => silent p p' /\ b = negb created && peer_off have d)).
    + unfold desired_peer, peer_off. destruct created.
      * apply acts_step, acts_report; [done|]. intros p' Hp'. by apply acts_ret.
      * destruct (have !! pd_PublicKey d) as [e|].
        -- destruct (sameAllowedIPs _ _); [by apply acts_ret|].
           apply acts_step, acts_report; [done|]. intros p1 H1. apply acts_step, acts_drift. intros p2 H2.
           apply acts_ret. split; [by transitivity p1|done].
        -- apply acts_step, acts_report; [done|]. intros p1 H1. apply acts_step, acts_drift. intros p2 H2.
           apply acts_ret. split; [by transitivity p1|done].
    + intros b p1 [H1 ->]. eapply acts_weaken; [apply IH| |done]. intros b p2 [H2 ->].
      split; [by transitivity p1|]. by destruct dirty, created, (peer_off have d).
Qed.

(** The observed peers that are listed again. *)
Definition stays (want gone : gset string) (x : string * PeerState) : bool :=
  negb (bool_decide (x.1 ∈ want)) && negb (goes gone x.1).

Definition kept_peers (want gone : gset string) (have : list (string * PeerState)) : list PeerConfig :=
  List.map (fun x => keep_config x.1 x.2) (filter (fun x => stays want gone x = true) have).

Definition some_goes (want gone : gset string) (have : list (string * PeerState)) : bool :=
  existsb (fun '(k, _) => bool_decide (k ∉ want) && goes gone k) have.

Lemma kept_peers_cons want gone k st have :
  kept_peers want gone ((k, st) :: have) =
  (if decide (k ∈ want) then [] else if goes gone k then [] else [keep_config k st]) ++ kept_peers want gone have.
Proof.
  unfold kept_peers. rewrite filter_cons. destruct (stays want gone (k, st)) eqn:Es; unfold stays in Es; cbn in Es.
  - rewrite decide_True by done. apply andb_true_iff in Es as [E1%negb_true_iff%bool_decide_eq_false E2%negb_true_iff].
    by rewrite decide_False, E2.
  - rewrite decide_False by done. case_decide as Hk; [done|].
    rewrite bool_decide_eq_false_2 in Es by done. cbn in Es. apply negb_false_iff in Es. by rewrite Es.
Qed.

Lemma other_peer_ok name gone k st p :
  acts (fun out (p' : pass R) => silent p p' /\ out = (goes gone k, if goes gone k then [] else [keep_config k st]))
    (fun _ _ => False) (other_peer policy name gone k st) p.
Proof.
  unfold other_peer, goes. case_decide as Hg.
  - rewrite bool_decide_eq_true_2 by done.
    apply acts_step, acts_report; [done|]. intros p1 H1. apply acts_step, acts_drift. intros p2 H2.
    apply acts_ret. split; [by transitivity p1|done].
  - rewrite bool_decide_eq_false_2 by done. destruct policy;
      try (apply acts_step, acts_drift; intros p2 H2; apply acts_ret; done).
    apply acts_step, acts_report; [done|]. intros p1 H1. apply acts_step, acts_drift. intros p2 H2.
    apply acts_ret. split; [by transitivity p1|done].
Qed.

Lemma other_peers_ok name want gone have acc p :
  acts (fun out (p' : pass R) => silent p p' /\ out = (acc.1 || some_goes want gone have, acc.2 ++ kept_peers want gone have))
    (fun _ _ => False) (other_peers policy name want gone have acc) p.
Proof.
  revert acc p. induction have as [|[k st] have IH]; intros acc p; cbn [other_peers].
  - apply acts_ret. unfold some_goes, kept_peers. cbn. rewrite orb_false_r, app_nil_r. by destruct acc.
  - rewrite kept_peers_cons. unfold some_goes. cbn [existsb]. destruct (decide (k ∈ want)) as [Hk|Hk].
    + rewrite bool_decide_eq_false_2 by (intros Hn; by apply Hn). apply IH.
    + rewrite bool_decide_eq_true_2 by done. eapply acts_bind; [apply other_peer_ok|].
      intros out p1 [H1 ->]. eapply acts_weaken; [apply IH| |done]. intros out p2 [H2 ->].
      split; [by transitivity p1|]. cbn [fst snd]. by rewrite <-orb_assoc, <-app_assoc.
Qed.

(** The configuration [syncconf] is given has the desired peers and those
    observed that stay. *)
Definition sync_config (desired : list peerDesire) (kept : list PeerConfig) : list PeerConfig :=
  List.map peer_config desired ++ kept.

Lemma sync_config_keys desired kept :
  pc_PublicKey <$> sync_config desired kept = (pd_PublicKey <$> desired) ++ (pc_PublicKey <$> kept).
Proof.
  unfold sync_config. rewrite fmap_app. f_equal. change (List.map peer_config desired) with (peer_config <$> desired).
  by rewrite <-list_fmap_compose.
Qed.

Lemma kept_peers_keys want gone have k : k ∈ pc_PublicKey <$> kept_peers want gone have ->
  (k ∉ want) /\ goes gone k = false /\ k ∈ have.*1.
Proof.
  intros (c & -> & (x & <- & Hin%list_elem_of_In)%list_elem_of_In%in_map_iff)%list_elem_of_fmap.
  apply list_elem_of_filter in Hin as [[H1%negb_true_iff H2%negb_true_iff]%andb_true_iff H3]. cbn.
  apply bool_decide_eq_false in H1. split_and!; try done. by apply list_elem_of_fmap_2.
Qed.

Lemma kept_peers_NoDup want gone have : NoDup have.*1 -> NoDup (pc_PublicKey <$> kept_peers want gone have).
Proof.
  intros Hnd. unfold kept_peers.
  match goal with |- context [List.map ?f ?l] => change (List.map f l) with (f <$> l) end.
  rewrite <-list_fmap_compose. apply (sublist_NoDup _ have.*1 Hnd), fmap_sublist, sublist_filter.
Qed.

(** A sync with the desired peers and the others that stay is in sync. *)
Lemma synced desired want gone have old : want = list_to_set (List.map pd_PublicKey desired) ->
  NoDup (pd_PublicKey <$> desired) -> NoDup have.*1 ->
  in_sync desired gone (sync_peers old (sync_config desired (kept_peers want gone have))).
Proof.
  intros -> Hnd Hh. split.
  - intros d Hd.
    assert (peer_config d ∈ sync_config desired (kept_peers (list_to_set (List.map pd_PublicKey desired)) gone have)) as Hin.
    { apply elem_of_app. left. by apply (list_elem_of_fmap_2 peer_config). }
    change (pd_PublicKey d) with (pc_PublicKey (peer_config d)). rewrite sync_peers_lookup; [|rewrite sync_config_keys|done].
    + unfold upsert_peer. rewrite lookup_insert_eq. eexists. split; [done|].
      destruct (old !! _); [|done]. by destruct (String.eqb _ _).
    + apply NoDup_app. split_and!; [done| |by apply kept_peers_NoDup].
      intros k Hk (Hw & _)%kept_peers_keys. by apply Hw, elem_of_list_to_set.
  - intros k Hk. apply dom_sync_peers in Hk. rewrite sync_config_keys, elem_of_app in Hk.
    destruct Hk as [Hk|(_ & Hk & _)%kept_peers_keys]; [by left|by right].
Qed.

(** Nothing to apply: the peers are in sync already. *)
Lemma clean_in_sync desired want gone (peers : gmap string PeerState) : want = list_to_set (List.map pd_PublicKey desired) ->
  existsb (peer_off peers) desired || some_goes want gone (visit peers) = false <-> in_sync desired gone peers.
Proof.
  intros ->. rewrite orb_false_iff, <-!not_true_iff_false. unfold some_goes. rewrite !existsb_exists.
  unfold in_sync. split.
  - intros [H1 H2]. split.
    + intros d Hd. assert (peer_off peers d = false) as Ho.
      { apply not_true_iff_false. intros E. apply H1. exists d. by rewrite <-list_elem_of_In. }
      unfold peer_off in Ho. destruct (peers !! _) as [p|]; [|done]. exists p. split; [done|].
      by apply negb_false_iff, bool_decide_eq_true in Ho.
    + intros k [p Hp]. destruct (decide (k ∈ pd_PublicKey <$> desired)) as [?|Hn]; [by left|right].
      apply not_true_iff_false. intros E. apply H2. exists (k, p). split.
      * apply list_elem_of_In. rewrite visit_perm. by apply elem_of_map_to_list.
      * rewrite bool_decide_eq_true_2, E; [done|]. by rewrite elem_of_list_to_set.
  - intros [H1 H2]. split.
    + intros (d & Hd%list_elem_of_In & Ho). destruct (H1 d Hd) as (p & Hp & Ea). unfold peer_off in Ho.
      rewrite Hp, Ea in Ho. unfold sameAllowedIPs in Ho. by rewrite bool_decide_eq_true_2 in Ho.
    + intros ([k p] & Hin%list_elem_of_In & [Hw%bool_decide_eq_true Hg]%andb_true_iff).
      rewrite visit_perm, elem_of_map_to_list in Hin. destruct (H2 k) as [Hk|Hk]; [eauto| |congruence].
      by apply Hw, elem_of_list_to_set.
Qed.

(** What a successful step leaves of the link, given the one before it: the
    stored parameters, no peer that has to go, and the desired peers unless
    the parameters had drifted. In the last clause nothing had to be applied
    to the peers. *)
Definition stepped (ifc : dbInterface) (desired : list peerDesire) (gone : gset string)
    (before : option Link) (l' : Link) : Prop :=
  params_ok ifc l' /\
  (forall k, is_Some (ln_Peers l' !! k) -> k ∈ pd_PublicKey <$> desired \/ goes gone k = false) /\
  ((forall l, before = Some l -> drifted ifc l = false) -> in_sync desired gone (ln_Peers l')) /\
  (forall l, before = Some l -> recreates ifc l = false -> in_sync desired gone (ln_Peers l) ->
     if drifted ifc l then ln_Peers l' = ∅ else l' = l).

Lemma stepped_synced ifc desired gone before l' want have old : params_ok ifc l' ->
  want = list_to_set (List.map pd_PublicKey desired) -> NoDup (pd_PublicKey <$> desired) -> NoDup have.*1 ->
  (forall l, before = Some l -> recreates ifc l = true \/ ~ in_sync desired gone (ln_Peers l)) ->
  stepped ifc desired gone before
    (l' <| ln_Peers := sync_peers old (sync_config desired (kept_peers want gone have)) |>).
Proof.
  intros Hp Hw Hnd Hh Hb. pose proof (synced desired want gone have old Hw Hnd Hh) as Hs.
  split; [exact Hp|]. split; [apply Hs|]. split; [done|]. intros l Hl Hr Hin. exfalso. destruct (Hb l Hl); congruence.
Qed.

Lemma acts_when b (m : act (pass R) string unit) (Q : unit -> pass R -> Prop) X p :
  (b = true -> acts Q X m p) -> (b = false -> Q tt p) -> acts Q X (act_when b m) p.
Proof. destruct b; cbn; auto. Qed.

Lemma ensure_addresses_ok ifc p : sound (pa_rt p) ->
  acts (fun _ p' => frame (db_Name ifc) p p' /\ links (pa_rt p') = links (pa_rt p))
    (fun _ p' => frame (db_Name ifc) p p') (ensure_addresses ifc) p.
Proof.
  intros Hs. unfold ensure_addresses. destruct EnsureAddresses as [ensure|] eqn:Ee; [|by apply acts_ret].
  apply acts_rt. intros res r' Hcall. eapply addresses_law in Hcall as [Hs' Hl]; [|done..].
  assert (frame (db_Name ifc) p (MkPass (pa_db p) r' (pa_rep p))) by
    (apply frame_rt; [by apply frame_refl|by apply same_links_only]).
  by destruct res.
Qed.

Lemma sync_ok ifc cfg l p0 p (Q : unit -> pass R -> Prop) : frame (db_Name ifc) p0 p ->
  links (pa_rt p) !! db_Name ifc = Some l ->
  (forall p', frame (db_Name ifc) p0 p' ->
     links (pa_rt p') !! db_Name ifc = Some (l <| ln_Peers := sync_peers (ln_Peers l) cfg |>) -> Q tt p') ->
  acts Q (fun _ p' => frame (db_Name ifc) p0 p') (rt "sync" (SyncPeers (db_Name ifc) cfg)) p.
Proof.
  intros F Hl HQ. apply acts_rt. intros res r Hcall. apply sync_law in Hcall as [Ho Hnew]; [|apply F].
  pose proof (frame_rt _ _ _ _ F Ho) as F'. destruct res as [[]|]; [|done].
  destruct (Hnew eq_refl) as (l0 & Hl0 & Hl'). rewrite Hl in Hl0. injection Hl0 as <-. by apply HQ.
Qed.

Lemma reconcileInterface_ok ifc desired known retired p : sound (pa_rt p) -> db_ListenPort ifc <> 0 ->
  NoDup (pd_PublicKey <$> desired) ->
  acts (fun _ p' => frame (db_Name ifc) p p' /\ exists l', links (pa_rt p') !! db_Name ifc = Some l' /\
                      stepped ifc desired (known ∪ retired) (links (pa_rt p) !! db_Name ifc) l')
    (fun _ p' => frame (db_Name ifc) p p') (reconcileInterface policy ifc desired known retired) p.
Proof.
  intros Hs Hport Hnd. unfold reconcileInterface. cbv zeta.
  eapply acts_bind; [by apply ensure_link_ok|]. intros [created st] p1 [F1 (l1 & Hl1 & Hok & Hcase)]. cbn [fst snd] in Hcase |- *.
  apply acts_step, (acts_weaken (fun _ p2 => frame (db_Name ifc) p p2 /\ links (pa_rt p2) !! db_Name ifc = Some l1)
    _ (fun _ p' => frame (db_Name ifc) p p')); [| |done].
  { apply acts_when; [intros _|done]. eapply acts_weaken; [apply ensure_addresses_ok, F1| |].
    - intros _ p2 [F2 ->]. split; [by eapply frame_trans|done].
    - intros e p2 F2. by eapply frame_trans. }
  intros [] p2 [F2 Hl2].
  eapply acts_bind; [eapply acts_weaken; [apply desired_peers_ok|intros b p3 Hb; exact Hb|done]|].
  intros dirty p3 [S3 ->].
  assert (frame (db_Name ifc) p p3) as F3 by by eapply frame_silent.
  assert (links (pa_rt p3) !! db_Name ifc = Some l1) as Hl3 by (destruct S3 as (_ & -> & _); exact Hl2).
  set (want := list_to_set (List.map pd_PublicKey desired) : gset string).
  set (gone := known ∪ retired) in *.
  destruct created; cbn [negb andb orb] in *.
  - (* a fresh link: the desired peers, wholesale *)
    apply acts_step. cbn [acts act_ret]. cbn [fst snd act_when].
    apply (sync_ok ifc _ l1); [done..|]. intros p4 F4 Hl4.
    split; [exact F4|]. eexists. split; [exact Hl4|]. destruct Hcase as [_ Hrec].
    change (@nil PeerConfig) with (kept_peers want gone []). apply stepped_synced; try done; [constructor|auto].
  - (* a link that was there *)
    destruct Hcase as (l & Hl & Hsh & Hrec & Hcase). rewrite Hl.
    rewrite (observed_peers_shown _ _ Hsh).
    eapply acts_bind; [eapply acts_weaken; [apply other_peers_ok|intros out p4 Hout; exact Hout|done]|].
    intros out p4 [S4 ->]. cbn [fst snd app].
    assert (frame (db_Name ifc) p p4) as F4 by by eapply frame_silent.
    assert (links (pa_rt p4) !! db_Name ifc = Some l1) as Hl4 by (destruct S4 as (_ & -> & _); exact Hl3).
    pose proof (clean_in_sync desired want gone (ln_Peers l) eq_refl) as Hclean.
    apply acts_when; intros Hdirty.
    + apply (sync_ok ifc _ l1); [done..|]. intros p5 F5 Hl5.
      split; [exact F5|]. eexists. split; [exact Hl5|]. apply stepped_synced; try done.
      * rewrite visit_perm. apply NoDup_fst_map_to_list.
      * intros l0 [= <-]. right. intros Hin%Hclean. congruence.
    + split; [exact F4|]. exists l1. split; [exact Hl4|]. apply Hclean in Hdirty.
      split; [exact Hok|]. destruct Hcase as [[-> Hd]|[He Hd]].
      * split; [apply Hdirty|]. split; [done|]. intros l0 [= <-] _ _. by rewrite Hd.
      * split; [intros k [q Hq]; by rewrite He in Hq|]. split; [intros Hn; by rewrite Hn in Hd|].
        intros l0 [= <-] _ _. by rewrite Hd.
Qed.

(** ** Lemmas: a pass *)

Definition acked (id : string) (keys : gset string) (s : store) : store :=
  s <| retired_peer_keys ::= fun r => r ∖ set_map (pair id) keys |>.

(** The outcome of one interface, as its link before and after. *)
Definition settles (ifc : dbInterface) (desired : list peerDesire) (gone : gset string)
    (before after : option Link) : Prop :=
  if db_Enabled ifc then exists l', after = Some l' /\ stepped ifc desired gone before l' else after = None.

(** Either the interface is as stored and its retired keys are acknowledged,
    or an error is recorded and they are kept. *)
Definition outcome (ifc : dbInterface) (desired : list peerDesire) (known retired : gset string) (p p' : pass R) : Prop :=
  only (db_Name ifc) (pa_rt p) (pa_rt p') /\
  ((exists msg, rp_Errors (pa_rep p') = rp_Errors (pa_rep p) ++ [MkInterfaceError (db_Name ifc) msg] /\
      pa_db p' = pa_db p) \/
   (rp_Errors (pa_rep p') = rp_Errors (pa_rep p) /\ pa_db p' = acked (db_ID ifc) retired (pa_db p) /\
      settles ifc desired (known ∪ retired) (links (pa_rt p) !! db_Name ifc) (links (pa_rt p') !! db_Name ifc))).

Lemma outcome_error ifc desired known retired msg p p' : frame (db_Name ifc) p p' ->
  acts (fun _ p'' => outcome ifc desired known retired p p'') (fun _ _ => False) (interface_error (db_Name ifc) msg) p'.
Proof.
  intros (F1 & F2 & F3). unfold interface_error, report, act_modify, acts, outcome. cbn. split; [done|].
  left. exists msg. by rewrite F3.
Qed.

Lemma outcome_ack ifc desired known retired p p' : frame (db_Name ifc) p p' ->
  settles ifc desired (known ∪ retired) (links (pa_rt p) !! db_Name ifc) (links (pa_rt p') !! db_Name ifc) ->
  acts (fun _ p'' => outcome ifc desired known retired p p'') (fun _ _ => False) (ackRetiredKeys (db_ID ifc) retired) p'.
Proof.
  intros (F1 & F2 & F3) Hs. unfold ackRetiredKeys, act_modify, acts, outcome. cbn. split; [done|].
  right. by rewrite F2, F3.
Qed.

Lemma remove_disabled_ok ifc desired known retired p : sound (pa_rt p) -> db_Enabled ifc = false ->
  acts (fun _ p' => outcome ifc desired known retired p p') (fun _ _ => False) (remove_disabled ifc retired) p.
Proof.
  intros Hs He. unfold remove_disabled. cbv zeta. apply acts_step, acts_rt_try. intros res r1 Hdump.
  apply dump_law in Hdump as (Hs1 & Hl1 & Hres); [|done].
  assert (frame (db_Name ifc) p (MkPass (pa_db p) r1 (pa_rep p))) as F1
    by (apply frame_rt; [by apply frame_refl|by apply same_links_only]).
  destruct res as [st|[|msg]].
  - apply acts_step, acts_rt_try. intros res r2 Hrm. apply remove_law in Hrm as [Ho2 Hrm]; [|done].
    pose proof (frame_rt _ _ _ _ F1 Ho2) as F2. cbn [pa_db pa_rep] in F2.
    assert (forall p', frame (db_Name ifc) p p' -> links (pa_rt p') !! db_Name ifc = None ->
      acts (fun _ p'' => outcome ifc desired known retired p p'') (fun _ _ => False)
        (ackRetiredKeys (db_ID ifc) retired) p') as Hack.
    { intros p' F Hn. apply outcome_ack; [done|]. unfold settles. by rewrite He. }
    destruct res as [[]|[|msg]]; [..|by apply outcome_error];
      (apply acts_step, acts_report; [done|]; intros p3 S3; apply acts_step, acts_drift; intros p4 S4;
       apply Hack; [exact (frame_silent _ _ _ _ (frame_silent _ _ _ _ F2 S3) S4)|];
       destruct S3 as (_ & E3 & _), S4 as (_ & E4 & _); by rewrite E4, E3).
  - apply outcome_ack; [done|]. unfold settles. rewrite He. cbn. by rewrite Hl1.
  - by apply outcome_error.
Qed.

Lemma reconcile_one_ok desired known retired ifc p : sound (pa_rt p) -> db_ListenPort ifc <> 0 ->
  NoDup (pd_PublicKey <$> default [] (desired !! db_ID ifc)) ->
  acts (fun _ p' => outcome ifc (default [] (desired !! db_ID ifc)) known (retired (db_ID ifc)) p p') (fun _ _ => False)
    (reconcile_one policy desired known retired ifc) p.
Proof.
  intros Hs Hp Hnd. unfold reconcile_one. destruct (db_Enabled ifc) eqn:He; [|by apply remove_disabled_ok].
  apply acts_step. pose proof (reconcileInterface_ok ifc _ known (retired (db_ID ifc)) p Hs Hp Hnd) as Hr.
  unfold acts, act_try in *. destruct (reconcileInterface _ _ _ _ _ p) as [[[]|msg] p'].
  - destruct Hr as [F (l' & Hl' & Hst)]. apply outcome_ack; [done|]. unfold settles. rewrite He. eauto.
  - by apply outcome_error.
Qed.

(** What a run over interfaces leaves: links outside alone, a failure
    recorded under its interface, and every other interface settled and its
    retired keys acknowledged. *)
Definition passed (ifs : list dbInterface) (desired : gmap string (list peerDesire)) (known : gset string)
    (retired : string -> gset string) (p p' : pass R) : Prop :=
  sound (pa_rt p') /\
  (forall n, n ∉ db_Name <$> ifs -> links (pa_rt p') !! n = links (pa_rt p) !! n) /\
  exists es keys, rp_Errors (pa_rep p') = rp_Errors (pa_rep p) ++ es /\
    (forall e, e ∈ es -> ie_Interface e ∈ db_Name <$> ifs) /\
    pa_db p' = (pa_db p) <| retired_peer_keys := keys |> /\ keys ⊆ retired_peer_keys (pa_db p) /\
    (forall id k, (id, k) ∈ retired_peer_keys (pa_db p) -> (id, k) ∉ keys ->
       exists ifc, ifc ∈ ifs /\ db_ID ifc = id /\ k ∈ retired id /\ db_Name ifc ∉ ie_Interface <$> es) /\
    forall ifc, ifc ∈ ifs -> db_Name ifc ∉ ie_Interface <$> es ->
      settles ifc (default [] (desired !! db_ID ifc)) (known ∪ retired (db_ID ifc))
        (links (pa_rt p) !! db_Name ifc) (links (pa_rt p') !! db_Name ifc) /\
      forall k, k ∈ retired (db_ID ifc) -> (db_ID ifc, k) ∉ keys.

Lemma only_lookup name (r r' : R) n : only name r r' -> n <> name -> links r' !! n = links r !! n.
Proof.
  intros [_ Hd] Hn. rewrite <-(lookup_delete_ne (links r') name n) by done. by rewrite Hd, lookup_delete_ne.
Qed.

(** One step, then the rest. *)
Lemma passed_cons ifc ifs desired known retired p1 p2 p3 : db_Name ifc ∉ db_Name <$> ifs ->
  outcome ifc (default [] (desired !! db_ID ifc)) known (retired (db_ID ifc)) p1 p2 ->
  passed ifs desired known retired p2 p3 -> passed (ifc :: ifs) desired known retired p1 p3.
Proof.
  intros Hnew [Ho Hcase] (Hs & Hframe & es & keys & Ees & Hes & Edb & Hsub & Hack & Hset).
  assert (forall n, n <> db_Name ifc -> links (pa_rt p2) !! n = links (pa_rt p1) !! n) as Hother
    by (intros n Hn; by apply (only_lookup (db_Name ifc))).
  assert (links (pa_rt p3) !! db_Name ifc = links (pa_rt p2) !! db_Name ifc) as Hmine by by apply Hframe.
  split; [done|]. split.
  { intros n [Hn Hns]%not_elem_of_cons. by rewrite Hframe, Hother. }
  assert (forall i, i ∈ ifs -> links (pa_rt p2) !! db_Name i = links (pa_rt p1) !! db_Name i) as Hrest.
  { intros i Hi. apply Hother. intros E. apply Hnew. rewrite <-E. by apply list_elem_of_fmap_2. }
  destruct Hcase as [(msg & E2 & D2)|(E2 & D2 & Hsettle)].
  - exists (MkInterfaceError (db_Name ifc) msg :: es), keys. rewrite Ees, E2, <-app_assoc, Edb, D2.
    rewrite D2 in Hsub, Hack. split_and!; try done.
    + intros e [->|He]%elem_of_cons; [apply list_elem_of_here|]. apply list_elem_of_further. by apply Hes.
    + intros id k Hin Hout. destruct (Hack id k Hin Hout) as (i & Hi & E & Hk & Hok). exists i.
      split_and!; try done; [by apply list_elem_of_further|]. apply not_elem_of_cons. split; [|done].
      intros En. apply Hnew. cbn in En. rewrite <-En. by apply list_elem_of_fmap_2.
    + intros i Hi [Hn Hok]%not_elem_of_cons. apply elem_of_cons in Hi as [->|Hi]; [done|].
      rewrite <-Hrest by done. by apply Hset.
  - exists es, keys. rewrite D2 in Edb, Hsub, Hack. cbn [acked retired_peer_keys upd_field] in Hsub, Hack.
    rewrite Ees, E2, Edb. split_and!; try done.
    + intros e He. apply list_elem_of_further. by apply Hes.
    + set_solver.
    + intros id k Hin Hout. destruct (decide ((id, k) ∈ set_map (C := gset string) (D := gset (string * string)) (pair (db_ID ifc)) (retired (db_ID ifc)))) as [Hk|Hk].
      * apply elem_of_map in Hk as (k' & [= -> ->] & Hk). exists ifc. split_and!; try done; [apply list_elem_of_here|].
        intros (e & En & He)%list_elem_of_fmap. apply Hnew. rewrite En. by apply Hes.
      * destruct (Hack id k) as (i & Hi & E & Hk' & Hok); [set_solver|done|]. exists i.
        split_and!; try done. by apply list_elem_of_further.
    + intros i Hi Hok. apply elem_of_cons in Hi as [->|Hi].
      * rewrite Hmine. split; [exact Hsettle|]. intros k Hk Hin. apply Hsub in Hin. set_solver.
      * rewrite <-Hrest by done. by apply Hset.
Qed.

Lemma pass_loop_ok ifs desired known retired p : sound (pa_rt p) -> NoDup (db_Name <$> ifs) ->
  (forall ifc, ifc ∈ ifs -> db_ListenPort ifc <> 0) ->
  (forall id, NoDup (pd_PublicKey <$> default [] (desired !! id))) ->
  acts (fun _ p' => passed ifs desired known retired p p') (fun _ _ => False)
    (act_iter (reconcile_one policy desired known retired) ifs) p.
Proof.
  intros Hs Hnd Hports Hkeys. revert p Hs. induction ifs as [|ifc ifs IH]; intros p Hs; cbn [act_iter].
  - split; [done|]. split; [done|]. exists [], (retired_peer_keys (pa_db p)). rewrite app_nil_r.
    split_and!; try done; try set_solver. by destruct (pa_db p).
  - cbn [fmap list_fmap] in Hnd. apply NoDup_cons in Hnd as [Hnew Hnd].
    apply (acts_bind (fun _ p1 => outcome ifc (default [] (desired !! db_ID ifc)) known (retired (db_ID ifc)) p p1)).
    + apply reconcile_one_ok; [done| |done]. apply Hports, list_elem_of_here.
    + intros [] p1 Hout. eapply acts_weaken; [apply IH|intros [] p2 Hp2; by eapply passed_cons|done].
      * done.
      * intros i Hi. apply Hports. by apply list_elem_of_further.
      * apply Hout.
Qed.

(** ** Lemmas: loading *)

Lemma load_row_ok row ifc : load_row ring row = Ok ifc ->
  scan_obf (i_Obf row) = Ok (db_Obf ifc) /\ db_ID ifc = i_ID row /\ db_Name ifc = i_Name row /\
  db_ListenPort ifc = i_ListenPort row /\ db_Enabled ifc = i_Enabled row /\
  db_BackendMode ifc = mode_text (i_BackendMode row).
Proof.
  unfold load_row. intros Hl. res_step Hl as o Ho. res_step Hl as pools Hp.
  destruct (negb _); [done|]. res_step Hl as u Hv. res_step Hl as pt Hpt. by injection Hl as <-.
Qed.

Lemma scan_rows_ok {T} (scan : Iface -> result err T) rows l : scan_rows scan rows = Ok l ->
  Forall2 (fun row x => scan row = Ok x) rows l.
Proof.
  revert l. induction rows as [|row rows IH]; intros l; cbn [scan_rows]; [by intros [= <-]|].
  intros Hl. res_step Hl as x Hx. res_step Hl as rest Hrest. injection Hl as <-. constructor; auto.
Qed.

Definition db_wf (s : store) : Prop := ifaces_wf s /\ devices_wf s.

Lemma rows_by_name_elem s row : row ∈ rows_by_name s <-> row ∈ iface_rows s.
Proof. unfold rows_by_name. by rewrite merge_sort_Permutation. Qed.

Lemma rows_by_name_NoDup s : ifaces_wf s -> NoDup (i_Name <$> rows_by_name s).
Proof.
  intros Hwf. unfold rows_by_name. rewrite merge_sort_Permutation. unfold iface_rows.
  rewrite <-list_fmap_compose. apply NoDup_fmap_2_strong; [|apply NoDup_map_to_list].
  intros [k1 r1] [k2 r2] H1%elem_of_map_to_list H2%elem_of_map_to_list En. cbn in En.
  destruct (decide (k1 = k2)) as [->|Hne]; [congruence|].
  destruct (proj2 Hwf k1 k2 r1 r2 H1 H2 Hne) as [Hn _]. by destruct Hn.
Qed.

Lemma loadInterfaces_ok s ifs : loadInterfaces ring s = Ok ifs -> ifaces_wf s ->
  NoDup (db_Name <$> ifs) /\ db_Name <$> ifs = i_Name <$> rows_by_name s /\
  (forall ifc, ifc ∈ ifs -> exists row, row ∈ iface_rows s /\ load_row ring row = Ok ifc /\ db_ListenPort ifc <> 0) /\
  (forall row, row ∈ iface_rows s -> exists ifc, ifc ∈ ifs /\ load_row ring row = Ok ifc).
Proof.
  intros Hl%scan_rows_ok Hwf.
  assert (db_Name <$> ifs = i_Name <$> rows_by_name s) as En.
  { clear Hwf. induction Hl as [|row ifc rows l Hr Hl IH]; [done|]. cbn [fmap list_fmap] in *. rewrite IH.
    apply load_row_ok in Hr as (_ & _ & -> & _). done. }
  rewrite En. split; [by apply rows_by_name_NoDup|]. split; [done|]. split.
  - intros ifc Hin. destruct (list_elem_of_lookup_1 _ _ Hin) as [i Hi].
    destruct (Forall2_lookup_r _ _ _ _ _ Hl Hi) as (row & Hrow & Hr).
    apply list_elem_of_lookup_2, rows_by_name_elem in Hrow. exists row. split_and!; try done.
    apply elem_of_iface_rows in Hrow; [|done]. destruct (iface_lookup _ _ _ Hwf Hrow) as [_ (Hp & _)].
    apply load_row_ok in Hr as (_ & _ & _ & -> & _). lia.
  - intros row Hin%rows_by_name_elem. destruct (list_elem_of_lookup_1 _ _ Hin) as [i Hi].
    destruct (Forall2_lookup_l _ _ _ _ _ Hl Hi) as (ifc & Hifc & Hr).
    exists ifc. split; [|done]. by apply list_elem_of_lookup_2 in Hifc.
Qed.

(** The device a desired peer stands for. *)
Definition stands (d : Device) (p : peerDesire) : Prop :=
  pd_PublicKey p = d_PublicKey d /\ pd_AllowedIP p = d_IPv4 d.

Lemma desire_ok d p : desire ring d = Ok p -> stands d p.
Proof. unfold desire. intros Hd. res_step Hd as psk Hp. by injection Hd as <-. Qed.

Lemma group_desired_ok ds out res : group_desired ring ds out = Ok res ->
  forall id, exists ps, default [] (res !! id) = default [] (out !! id) ++ ps /\
    Forall2 stands (filter (fun d => d_InterfaceID d = id) ds) ps.
Proof.
  revert out. induction ds as [|d ds IH]; intros out; cbn [group_desired].
  - intros [= <-] id. exists []. by rewrite app_nil_r.
  - intros Hg id. res_step Hg as p Hp. apply desire_ok in Hp. destruct (IH _ Hg id) as (ps & E & Hps).
    rewrite filter_cons. case_decide as Hid.
    + exists (p :: ps). rewrite E, <-Hid, lookup_insert_eq. cbn. rewrite <-app_assoc. split; [done|].
      rewrite Hid. by constructor.
    + exists ps. by rewrite E, lookup_insert_ne.
Qed.

(** A device that must have a peer on the interface [id]. *)
Definition wanted (s : store) (id : string) (d : Device) : Prop :=
  (exists k, devices s !! k = Some d) /\ d_InterfaceID d = id /\ desired_device s d = true.

Lemma elem_of_device_rows s d : d ∈ device_rows s <-> (exists k, devices s !! k = Some d) /\ desired_device s d = true.
Proof.
  unfold device_rows. rewrite list_elem_of_filter, visit_perm, elem_of_values. tauto.
Qed.

Lemma device_rows_NoDup s : devices_wf s -> NoDup (d_PublicKey <$> device_rows s).
Proof.
  intros [_ Hwf]. unfold device_rows. apply NoDup_fmap_2_strong.
  - intros d1 d2 [_ H1]%list_elem_of_filter [_ H2]%list_elem_of_filter Ek.
    rewrite visit_perm, elem_of_values in H1, H2. destruct H1 as [k1 H1], H2 as [k2 H2].
    assert (k1 = k2) as -> by (eapply Hwf; [done..|]; unfold clash; auto). congruence.
  - apply NoDup_filter. rewrite visit_perm. apply NoDup_fmap_2_strong; [|apply NoDup_map_to_list].
    intros [k1 d1] [k2 d2] H1%elem_of_map_to_list H2%elem_of_map_to_list E. cbn in E. subst.
    f_equal. eapply Hwf; [done..|]. unfold clash. auto.
Qed.

Lemma loadDesiredPeers_ok s desired : loadDesiredPeers ring s = Ok desired -> devices_wf s ->
  forall id, NoDup (pd_PublicKey <$> default [] (desired !! id)) /\
    (forall p, p ∈ default [] (desired !! id) -> exists d, wanted s id d /\ stands d p) /\
    (forall d, wanted s id d -> exists p, p ∈ default [] (desired !! id) /\ stands d p).
Proof.
  intros Hl Hwf id. destruct (group_desired_ok _ _ _ Hl id) as (ps & E & Hps).
  rewrite lookup_empty in E. cbn in E. rewrite E. clear E. split; [|split].
  - assert (pd_PublicKey <$> ps = d_PublicKey <$> filter (fun d => d_InterfaceID d = id) (device_rows s)) as ->.
    { induction Hps as [|d p ds ps [H1 _] Hps IH]; [done|]. cbn [fmap list_fmap]. by rewrite IH, H1. }
    eapply sublist_NoDup; [by apply device_rows_NoDup|]. apply fmap_sublist, sublist_filter.
  - intros p Hin. destruct (list_elem_of_lookup_1 _ _ Hin) as [i Hi].
    destruct (Forall2_lookup_r _ _ _ _ _ Hps Hi) as (d & Hd & Hst). exists d. split; [|done].
    apply list_elem_of_lookup_2, list_elem_of_filter in Hd as [Hid [Hd Hdes]%elem_of_device_rows]. done.
  - intros d (Hd & Hid & Hdes).
    assert (d ∈ filter (fun d => d_InterfaceID d = id) (device_rows s)) as Hin
      by (apply list_elem_of_filter; split; [done|]; by apply elem_of_device_rows).
    destruct (list_elem_of_lookup_1 _ _ Hin) as [i Hi].
    destruct (Forall2_lookup_l _ _ _ _ _ Hps Hi) as (p & Hp & Hst). exists p. split; [|done].
    by apply list_elem_of_lookup_2 in Hp.
Qed.

(** ** A pass, in terms of the stored rows *)

Lemma report_foreign_ok owned names p :
  acts (fun _ p' => silent p p') (fun _ _ => False) (report_foreign (R := R) owned names) p.
Proof.
  apply (acts_weaken (fun _ p' => silent p p') _ (fun _ _ => False)); [|done..]. unfold report_foreign.
  assert (forall q : pass R, silent p q -> acts (fun _ p' => silent p p') (fun _ _ => False)
    (act_iter (fun name => act_when (negb (existsb (String.eqb name) owned || IsLinkName name)) (drift (foreign_item name))) names) q) as Hall.
  2:{ by apply Hall. }
  induction names as [|name names IH]; intros q Hq; [done|]. cbn [act_iter].
  apply (acts_bind (fun _ p' => silent p p')); [|intros [] q' Hq'; by apply IH].
  apply acts_when; [intros _|done]. apply acts_drift. intros q' Hq'. by transitivity q.
Qed.

(** What a pass did: nothing, when the database does not load; else a run over
    the loaded interfaces, whatever the listing of the backend's says. *)
Lemma Run_passed s r res s' r' : Run ring policy (s, r) = (res, (s', r')) -> sound r -> db_wf s ->
  (exists e, res = Err e /\ s' = s /\ r' = r) \/
  exists ifs desired p', loadInterfaces ring s = Ok ifs /\ loadDesiredPeers ring s = Ok desired /\
    passed ifs desired (known_keys s) (retired_of s) (MkPass s r empty_report) p' /\
    s' = pa_db p' /\ links r' = links (pa_rt p') /\ sound r' /\
    forall rep, res = Ok rep -> rp_Errors rep = rp_Errors (pa_rep p').
Proof.
  intros Hrun Hs [Hi Hd]. unfold Run in Hrun. cbn [fst snd] in Hrun.
  destruct (loadInterfaces ring s) as [ifs|e] eqn:Ei; [|left; injection Hrun as <- <- <-; eauto].
  destruct (loadDesiredPeers ring s) as [desired|e] eqn:Ed; [|left; injection Hrun as <- <- <-; eauto].
  right. destruct (loadInterfaces_ok _ _ Ei Hi) as (Hnd & _ & Hrows & _).
  assert (acts (fun _ p' => passed ifs desired (known_keys s) (retired_of s) (MkPass s r empty_report) p') (fun _ _ => False)
    (act_iter (reconcile_one policy desired (known_keys s) (retired_of s)) ifs) (MkPass s r empty_report)) as Hloop.
  { apply pass_loop_ok; [done|done| |].
    - intros ifc Hin. by destruct (Hrows ifc Hin) as (_ & _ & _ & ?).
    - intros id. apply (loadDesiredPeers_ok _ _ Ed Hd). }
  unfold acts in Hloop. destruct (act_iter _ ifs _) as [[[]|] p1]; [|done].
  pose proof (acts_rt_try ListInterfaces (fun res p2 => pa_db p2 = pa_db p1 /\ links (pa_rt p2) = links (pa_rt p1) /\
    sound (pa_rt p2) /\ pa_rep p2 = pa_rep p1) (fun _ _ => False) p1) as Hlist.
  unfold acts in Hlist. destruct (rt_try ListInterfaces p1) as [[listed|] p2]; cbv beta iota in Hlist.
  2:{ exfalso. apply Hlist. intros lres rl Hcall. apply list_law in Hcall; [|apply Hloop]. tauto. }
  destruct Hlist as (D2 & L2 & S2 & E2); [intros lres rl Hcall; apply list_law in Hcall; [cbn; tauto|apply Hloop]|].
  destruct listed as [names|e].
  - pose proof (report_foreign_ok (List.map db_Name ifs) names p2) as Hf. unfold acts in Hf.
    destruct (report_foreign _ names p2) as [[[]|] p3]; [|done]. destruct Hf as (D3 & R3 & E3).
    injection Hrun as <- <- <-. exists ifs, desired, p1. rewrite D3, D2, R3, L2. split_and!; try done.
    intros rep [= <-]. cbn. by rewrite E3, E2.
  - injection Hrun as <- <- <-. exists ifs, desired, p1. rewrite D2. split_and!; try done.
Qed.

Definition row_params (row : Iface) (l : Link) : Prop :=
  ln_ListenPort l = i_ListenPort row /\
  (exists o, scan_obf (i_Obf row) = Ok o /\ ln_Obfuscation l = Profile.Tunnel o) /\
  (ln_Mode l = "" \/ ln_Mode l = mode_text (i_BackendMode row)).

(** Every peer is a wanted device's, or of a key the node has never seen. *)
Definition no_stale (s : store) (id : string) (peers : gmap string PeerState) : Prop :=
  forall k, is_Some (peers !! k) ->
    (exists d, wanted s id d /\ d_PublicKey d = k) \/
    (policy <> PolicyRemove /\ (forall d i, devices s !! i = Some d -> d_PublicKey d <> k) /\
     (id, k) ∉ retired_peer_keys s).

Definition all_wanted (s : store) (id : string) (peers : gmap string PeerState) : Prop :=
  forall d, wanted s id d -> exists p, peers !! d_PublicKey d = Some p /\ ps_AllowedIPs p = [d_IPv4 d].

(** The link of a row matches the database; [safe] without the peers that may
    be missing. *)
Definition safe (s : store) (row : Iface) (o : option Link) : Prop :=
  if i_Enabled row then exists l, o = Some l /\ row_params row l /\ no_stale s (i_ID row) (ln_Peers l) else o = None.

Definition exact (s : store) (row : Iface) (o : option Link) : Prop :=
  if i_Enabled row
  then exists l, o = Some l /\ row_params row l /\ no_stale s (i_ID row) (ln_Peers l) /\ all_wanted s (i_ID row) (ln_Peers l)
  else o = None.

(** Only the parameters of the link differ, in a way [setconf] corrects. *)
Definition param_drifted (row : Iface) (o : option Link) : Prop :=
  exists l ifc, o = Some l /\ load_row ring row = Ok ifc /\ drifted ifc l = true.

Lemma elem_of_known_keys s k : k ∈ known_keys s <-> exists d i, devices s !! i = Some d /\ d_PublicKey d = k.
Proof.
  unfold known_keys. rewrite elem_of_list_to_set, list_elem_of_fmap. setoid_rewrite elem_of_values. naive_solver.
Qed.

Lemma elem_of_retired_of s id k : k ∈ retired_of s id <-> (id, k) ∈ retired_peer_keys s.
Proof.
  unfold retired_of. rewrite elem_of_map. setoid_rewrite elem_of_filter. split.
  - intros ([i k'] & -> & E & Hin). cbn in *. by subst.
  - intros Hin. by exists (id, k).
Qed.

Lemma goes_false s id k : goes (known_keys s ∪ retired_of s id) k = false <->
  policy <> PolicyRemove /\ (forall d i, devices s !! i = Some d -> d_PublicKey d <> k) /\ (id, k) ∉ retired_peer_keys s.
Proof.
  unfold goes. rewrite orb_false_iff, !bool_decide_eq_false, not_elem_of_union, elem_of_known_keys, elem_of_retired_of.
  naive_solver.
Qed.

Lemma params_ok_row row ifc l : load_row ring row = Ok ifc -> params_ok ifc l <-> row_params row l.
Proof.
  intros (Ho & _ & _ & Hp & _ & Hm)%load_row_ok. unfold params_ok, row_params. rewrite Hp, Hm, Ho. naive_solver.
Qed.

(** The peers in sync with the loaded devices are those of the stored ones. *)
Lemma in_sync_rows s desired id peers : loadDesiredPeers ring s = Ok desired -> devices_wf s ->
  in_sync (default [] (desired !! id)) (known_keys s ∪ retired_of s id) peers <->
  no_stale s id peers /\ all_wanted s id peers.
Proof.
  intros Hl Hwf. destruct (loadDesiredPeers_ok _ _ Hl Hwf id) as (_ & Hp & Hd).
  unfold in_sync, no_stale, all_wanted. split; intros [H1 H2]; split.
  - intros k Hk. destruct (H2 k Hk) as [Hin|Hg%goes_false]; [left|by right].
    apply list_elem_of_fmap in Hin as (p & -> & Hin). destruct (Hp p Hin) as (d & Hw & Est & _). by exists d.
  - intros d Hw. destruct (Hd d Hw) as (p & Hin & <- & <-). by apply H1.
  - intros p Hin. destruct (Hp p Hin) as (d & Hw & -> & ->). auto.
  - intros k Hk. destruct (H1 k Hk) as [(d & Hw & <-)|Hg]; [left|right; by apply goes_false].
    destruct (Hd d Hw) as (p & Hin & <- & _). by apply list_elem_of_fmap_2.
Qed.

Lemma settles_rows s desired row ifc before after : loadDesiredPeers ring s = Ok desired -> devices_wf s ->
  load_row ring row = Ok ifc ->
  settles ifc (default [] (desired !! db_ID ifc)) (known_keys s ∪ retired_of s (db_ID ifc)) before after ->
  safe s row after /\ (~ param_drifted row before -> exact s row after) /\
  (exact s row before -> after = before) /\
  (forall l, i_Enabled row = true -> before = Some l -> param_drifted row before ->
     no_stale s (i_ID row) (ln_Peers l) -> all_wanted s (i_ID row) (ln_Peers l) ->
     exists l', after = Some l' /\ ln_Peers l' = ∅).
Proof.
  intros Hl Hwf Hrow Hset. pose proof (load_row_ok _ _ Hrow) as (_ & Eid & _ & _ & Een & _).
  rewrite Eid in Hset. unfold settles, safe, exact in *. rewrite Een in Hset.
  destruct (i_Enabled row); [|by subst; split_and!].
  destruct Hset as (l' & -> & Hp & Hns & Hsync & Hclean). apply (params_ok_row _ _ _ Hrow) in Hp.
  split_and!.
  - exists l'. split_and!; try done. intros k Hk. destruct (Hns k Hk) as [Hin|Hg%goes_false]; [left|by right].
    apply list_elem_of_fmap in Hin as (p & -> & Hin).
    destruct (loadDesiredPeers_ok _ _ Hl Hwf (i_ID row)) as (_ & Hps & _).
    destruct (Hps p Hin) as (d & Hw & Est & _). by exists d.
  - intros Hnd. exists l'. split_and!; try done; apply (in_sync_rows _ _ _ _ Hl Hwf), Hsync;
      intros l ->; apply not_true_iff_false; intros Hd; apply Hnd; exists l, ifc; done.
  - intros (l & -> & Hp0 & H1 & H2). apply (params_ok_row _ _ _ Hrow) in Hp0.
    destruct (params_no_drift _ _ Hp0) as [Hr Hd].
    specialize (Hclean l eq_refl Hr ltac:(by apply (in_sync_rows _ _ _ _ Hl Hwf))).
    unfold drifted in Hclean. rewrite Hr, Hd in Hclean. cbn in Hclean. by subst.
  - intros l _ -> (l0 & ifc0 & [= <-] & Hrow0 & Hd) H1 H2. rewrite Hrow in Hrow0. injection Hrow0 as <-.
    exists l'. split; [done|]. assert (recreates ifc l = false) as Hr.
    { unfold drifted in Hd. by apply andb_true_iff in Hd as [?%negb_true_iff _]. }
    specialize (Hclean l eq_refl Hr ltac:(by apply (in_sync_rows _ _ _ _ Hl Hwf))). by rewrite Hd in Hclean.
Qed.

(** The effect of a pass that returned its report, on a row it could handle. *)
Lemma Run_row s r rep s' r' row : Run ring policy (s, r) = (Ok rep, (s', r')) -> sound r -> db_wf s ->
  row ∈ iface_rows s -> i_Name row ∉ ie_Interface <$> rp_Errors rep ->
  let before := links r !! i_Name row in let after := links r' !! i_Name row in
  safe s row after /\ (~ param_drifted row before -> exact s row after) /\
  (exact s row before -> after = before) /\
  (forall l, i_Enabled row = true -> before = Some l -> param_drifted row before ->
     no_stale s (i_ID row) (ln_Peers l) -> all_wanted s (i_ID row) (ln_Peers l) ->
     exists l', after = Some l' /\ ln_Peers l' = ∅).
Proof.
  intros Hrun Hs Hwf Hrow Hok. cbv zeta.
  destruct (Run_passed _ _ _ _ _ Hrun Hs Hwf) as [(e & ? & _)|(ifs & desired & p' & Ei & Ed & Hpass & _ & El & _ & Erep)]; [done|].
  destruct (loadInterfaces_ok _ _ Ei (proj1 Hwf)) as (_ & _ & _ & Hifs). destruct (Hifs row Hrow) as (ifc & Hin & Hload).
  destruct Hpass as (_ & _ & es & keys & Ees & _ & _ & _ & _ & Hset).
  rewrite (Erep _ eq_refl) in Hok. rewrite Ees in Hok. cbn [pa_rep rp_Errors empty_report app] in Hok.
  pose proof (load_row_ok _ _ Hload) as (_ & _ & En & _). rewrite <-En in Hok |- *.
  destruct (Hset ifc Hin Hok) as [Hsettle _]. rewrite El.
  by apply (settles_rows s desired row ifc _ _ Ed (proj2 Hwf) Hload).
Qed.

(** A pass changes the retired keys only, and leaves the database usable. *)
Lemma Run_db s r res s' r' : Run ring policy (s, r) = (res, (s', r')) -> sound r -> db_wf s ->
  sound r' /\ db_wf s' /\ exists keys, s' = s <| retired_peer_keys := keys |> /\ keys ⊆ retired_peer_keys s.
Proof.
  intros Hrun Hs Hwf.
  destruct (Run_passed _ _ _ _ _ Hrun Hs Hwf) as [(e & -> & -> & ->)|(ifs & desired & p' & _ & _ & Hpass & -> & _ & Hs' & _)].
  - split_and!; [done..|]. exists (retired_peer_keys s). split; [by destruct s|done].
  - destruct Hpass as (_ & _ & es & keys & _ & _ & -> & Hsub & _). cbn [pa_db] in *. split_and!; [done|by destruct s|].
    by exists keys.
Qed.
End Facts.

(** ** Properties *)

Section Properties.
Context {R : Type} {B : Backend R} {V : BackendView R} {L : BackendLaws R} `{A : AEAD} `{O : MapOrder}.
Context (ring : KeyRing) (policy : Policy).

(** C3. A pass leaves every interface it could handle as the database has it: the
    link of a disabled one is gone; an enabled one has its port, parameters
    and implementation, and no peer but those of entitled devices and, unless
    the policy removes them, of keys never seen. Every entitled device is
    then a peer with its address, except where only the link's parameters
    had drifted. An interface that matched already is not touched. *)
Theorem Run_settles s r rep s' r' row :
  Run ring policy (s, r) = (Ok rep, (s', r')) -> sound r -> db_wf s ->
  row ∈ iface_rows s -> i_Name row ∉ ie_Interface <$> rp_Errors rep ->
  let before := links r !! i_Name row in
  let after := links r' !! i_Name row in
  safe policy s row after /\
  (~ param_drifted ring row before -> exact policy s row after) /\
  (exact policy s row before -> after = before).
Proof. intros Hrun Hs Hwf Hrow Hok. by destruct (Run_row ring policy _ _ _ _ _ row Hrun Hs Hwf Hrow Hok) as (? & ? & ? & _). Qed.


(** C16. Whatever the outcome of a pass, the backend's own interfaces stay as they
    were, and of the database only retired keys go; when the database does
    not load, nothing at all is touched. *)
Theorem Run_isolated s r res s' r' :
  Run ring policy (s, r) = (res, (s', r')) -> sound r -> db_wf s ->
  sound r' /\
  (forall name, name ∉ i_Name <$> iface_rows s -> links r' !! name = links r !! name) /\
  (exists keys, s' = s <| retired_peer_keys := keys |> /\ keys ⊆ retired_peer_keys s) /\
  (is_ok (loadInterfaces ring s) && is_ok (loadDesiredPeers ring s) = false -> s' = s /\ r' = r).
Proof.
  intros Hrun Hs Hwf. destruct (Run_db ring policy _ _ _ _ _ Hrun Hs Hwf) as (Hs' & _ & Hdb).
  destruct (Run_passed ring policy _ _ _ _ _ Hrun Hs Hwf) as [(e & -> & -> & ->)|(ifs & desired & p' & Ei & Ed & Hpass & _ & El & _)].
  - done.
  - split_and!; try done; [|by rewrite Ei, Ed]. intros name Hn. rewrite El.
    destruct Hpass as (_ & Hframe & _). apply Hframe. intros Hin. apply Hn.
    destruct (loadInterfaces_ok ring _ _ Ei (proj1 Hwf)) as (_ & En & _). rewrite En in Hin.
    apply list_elem_of_fmap in Hin as (row & -> & Hin%rows_by_name_elem). by apply list_elem_of_fmap_2.
Qed.

(** C15. A former key leaves the queue of retired keys only when it is no peer of
    its interface any more, or an entitled device's key again. *)
Theorem Run_acknowledges s r res s' r' id k :
  Run ring policy (s, r) = (res, (s', r')) -> sound r -> db_wf s ->
  (id, k) ∈ retired_peer_keys s -> (id, k) ∉ retired_peer_keys s' ->
  exists row, ifaces s !! id = Some row /\
    forall l, links r' !! i_Name row = Some l -> is_Some (ln_Peers l !! k) ->
      exists d, wanted s id d /\ d_PublicKey d = k.
Proof.
  intros Hrun Hs Hwf Hin Hout.
  destruct (Run_passed ring policy _ _ _ _ _ Hrun Hs Hwf) as [(e & -> & -> & ->)|(ifs & desired & p' & Ei & Ed & Hpass & -> & El & _)]; [done|].
  destruct Hpass as (_ & _ & es & keys & _ & _ & Edb & _ & Hack & Hset). rewrite Edb in Hout.
  destruct (Hack id k Hin Hout) as (ifc & Hifc & <- & _ & Hok).
  destruct (loadInterfaces_ok ring _ _ Ei (proj1 Hwf)) as (_ & _ & Hrows & _).
  destruct (Hrows ifc Hifc) as (row & Hrow & Hload & _).
  pose proof (load_row_ok ring _ _ Hload) as (_ & Eid & En & _). exists row. rewrite Eid.
  apply elem_of_iface_rows in Hrow; [|apply Hwf]. split; [done|]. rewrite <-En, El. intros l Hl Hk.
  destruct (Hset ifc Hifc Hok) as [Hsettle _].
  destruct (settles_rows ring policy s desired row ifc _ _ Ed (proj2 Hwf) Hload Hsettle) as (Hsafe & _).
  unfold safe in Hsafe. rewrite Hl in Hsafe. destruct (i_Enabled row); [|done].
  destruct Hsafe as (l' & [= <-] & _ & Hns). destruct (Hns k Hk) as [Hd|(_ & _ & Hn)]; [done|].
  rewrite <-Eid in Hn. done.
Qed.

End Properties.

(** ** Witnesses: one interface, one entitled device, the in-memory backend *)

#[export] Instance w_order : MapOrder := {
  visit := fun V m => map_to_list m;
  visit_perm := fun V m => reflexivity (map_to_list m)
}.

Definition w_user : User :=
  MkUser "u1" None "alice" "" "" [] UserActive None None 0 0 None None None None None StartImmediate None
    None None None true [] None 0 0.
Definition w_peer : Device :=
  MkDevice "d1" "u1" (if_ID w_stored) "phone" "10.8.0.2/32" "phone-key" "" None true None "" 0 0 0 0 0 0.

Definition w_db : store := Eval vm_compute in
  (w_after <| users := {["u1" := w_user]} |> <| devices := {["d1" := w_peer]} |>
           <| retired_peer_keys := {[(if_ID w_stored, "former-key")]} |>).
Definition w_row : Iface := Eval vm_compute in
  default (MkIface "" "" 0 "" None 0 "" "" plain_columns "" false BackendKernel None 0 0) (head (iface_rows w_db)).

Definition w_first : result err Report * (store * fake) := Eval vm_compute in
  Run w_ring PolicyReport (w_db, New 0).
Definition w_second : result err Report * (store * fake) := Eval vm_compute in
  Run w_ring PolicyReport w_first.2.

(** The same backend after someone moved the listening port. *)
Definition w_moved : fake := Eval vm_compute in
  (w_second.2.2 <| fk_interfaces ::= fmap (fun i => i <| fi_spec ::= fun s => s <| is_ListenPort := 4 |> |>) |>).
Definition w_corrected : result err Report * (store * fake) := Eval vm_compute in
  Run w_ring PolicyReport (w_second.2.1, w_moved).

Definition w_report (o : result err Report * (store * fake)) : Report :=
  match o.1 with Ok rep => rep | Err _ => empty_report end.

Lemma w_db_devices k d : devices w_db !! k = Some d -> k = "d1" /\ d = w_peer.
Proof.
  change (devices w_db) with ({["d1" := w_peer]} : gmap string Device). by intros [<- <-]%lookup_singleton_Some.
Qed.

Lemma w_db_wf : db_wf w_db.
Proof.
  split.
  - assert (profile_ok w_input) as Hok.
    { apply (Create_read_ok w_ring w_create w_before w_input w_mid); [by vm_compute| |by vm_compute].
      split; repeat (apply Forall_cons; split; [vm_compute; intuition discriminate|]); constructor. }
    apply (ifaces_wf_eq w_after); [done|].
    exact (insertWithChecks_wf w_input w_mid w_stored w_after ltac:(by vm_compute) Hok (proj1 w_no_profiles)).
  - split; [intros k d [-> ->]%w_db_devices; done|].
    by intros k1 k2 d1 d2 [-> _]%w_db_devices [-> _]%w_db_devices.
Qed.

Lemma w_fake_sound (b : fake) : (forall k, fk_FailOn b k = None) ->
  forallb (fun i => forallb (fun x => String.eqb (ps_PublicKey x.2) x.1) (map_to_list (fi_peers i)))
    (map_to_list (fk_interfaces b)).*2 = true -> sound b.
Proof.
  intros Hf Hp. split; [intros k; by rewrite Hf|]. rewrite forallb_forall in Hp. intros n i Hi k p Hk.
  specialize (Hp i). rewrite <-list_elem_of_In, elem_of_values, forallb_forall in Hp.
  specialize (Hp (ex_intro _ n Hi) (k, p)). rewrite <-list_elem_of_In, elem_of_map_to_list in Hp.
  by apply String.eqb_eq, Hp.
Qed.

Lemma w_new_sound : sound (New 0).
Proof. apply w_fake_sound; [done|by vm_compute]. Qed.

Lemma w_row_in : w_row ∈ iface_rows w_db.
Proof. vm_compute. apply list_elem_of_here. Qed.

(** The first pass brings the interface and the phone up. *)
Theorem Run_settles_witness :
  safe PolicyReport w_db w_row (links w_first.2.2 !! "awg0") /\
  (~ param_drifted w_ring w_row (links (New 0) !! "awg0") -> exact PolicyReport w_db w_row (links w_first.2.2 !! "awg0")) /\
  (exact PolicyReport w_db w_row (links (New 0) !! "awg0") -> links w_first.2.2 !! "awg0" = links (New 0) !! "awg0").
Proof.
  apply (Run_settles w_ring PolicyReport w_db (New 0) (w_report w_first) w_first.2.1 w_first.2.2 w_row);
    [vm_compute; reflexivity|exact w_new_sound|exact w_db_wf|exact w_row_in|exact (not_elem_of_nil _)].
Defined.


Theorem Run_isolated_witness :
  sound w_first.2.2 /\
  (forall name, name ∉ i_Name <$> iface_rows w_db -> links w_first.2.2 !! name = links (New 0) !! name) /\
  (exists keys, w_first.2.1 = w_db <| retired_peer_keys := keys |> /\ keys ⊆ retired_peer_keys w_db) /\
  (is_ok (loadInterfaces w_ring w_db) && is_ok (loadDesiredPeers w_ring w_db) = false ->
     w_first.2.1 = w_db /\ w_first.2.2 = New 0).
Proof.
  apply (Run_isolated w_ring PolicyReport w_db (New 0) w_first.1 w_first.2.1 w_first.2.2);
    [vm_compute; reflexivity|exact w_new_sound|exact w_db_wf].
Defined.

Theorem Run_acknowledges_witness :
  exists row, ifaces w_db !! if_ID w_stored = Some row /\
    forall l, links w_first.2.2 !! i_Name row = Some l -> is_Some (ln_Peers l !! "former-key") ->
      exists d, wanted w_db (if_ID w_stored) d /\ d_PublicKey d = "former-key".
Proof.
  apply (Run_acknowledges w_ring PolicyReport w_db (New 0) w_first.1 w_first.2.1 w_first.2.2);
    [vm_compute; reflexivity|exact w_new_sound|exact w_db_wf
    |apply (bool_decide_unpack _); vm_compute; exact I|apply (bool_decide_unpack _); vm_compute; exact I].
Defined.

Definition w_link : Link := Eval vm_compute in default (MkLink "" 0 no_obf ∅) (links w_moved !! "awg0").
Definition w_loaded : dbInterface := Eval vm_compute in
  match load_row w_ring w_row with Ok i => i | Err _ => MkDb "" "" "" 0 "" [] 0 no_obf false "" end.

Lemma w_settled_wf : db_wf w_second.2.1.
Proof. exact w_db_wf. Qed.

Lemma w_moved_sound : sound w_moved.
Proof. apply w_fake_sound; [done|by vm_compute]. Qed.

Lemma w_moved_drifted : param_drifted w_ring w_row (Some w_link).
Proof. exists w_link, w_loaded. vm_compute. done. Qed.

Lemma w_wanted d : wanted w_second.2.1 (i_ID w_row) d <-> d = w_peer.
Proof.
  unfold wanted. change (devices w_second.2.1) with ({["d1" := w_peer]} : gmap string Device). split.
  - by intros ([k [_ <-]%lookup_singleton_Some] & _).
  - intros ->. split; [exists "d1"; by rewrite lookup_singleton_eq|]. vm_compute. done.
Qed.

Lemma w_moved_peers : no_stale PolicyReport w_second.2.1 (i_ID w_row) (ln_Peers w_link) /\
  all_wanted w_second.2.1 (i_ID w_row) (ln_Peers w_link).
Proof.
  change (ln_Peers w_link) with ({["phone-key" := MkPeer "phone-key" false "" ["10.8.0.2/32"] None 0 0 zero_range]} : gmap string PeerState).
  split.
  - intros k [p [<- _]%lookup_singleton_Some]. left. exists w_peer. split; [by apply w_wanted|done].
  - intros d ->%w_wanted. eexists. cbn. by rewrite lookup_singleton_eq.
Qed.

