(* ===== verification/RuntimeApply.v ===== *)
(** * Serialized application of the desired state (internal/runtimeapply)

    [Attempt] is what the web and the API make of a pass. The [Coordinator]
    runs the passes of concurrent callers one at a time and keeps the
    observation that the node's status shows; it is a step relation, each
    step one critical section of the mutex or one operation of the gate.

    With them, an interface's deletion is composed with the engine. *)
From stdpp Require Import base tactics strings gmap list fin_maps sets.
From Stdlib Require Import ZArith Lia.
From Stdlib Require String.
From S2P Require Import Prelude GoTime Domain Awgparam Store Ipam Crypto Tunnel Profile Backend Secrets.
From S2P Require Import Iface Devices Reconcile Converge.

Open Scope Z_scope.

Inductive Status := NotConfigured | Applied | Pending.

#[export] Instance Status_eq_dec : EqDecision Status.
Proof. solve_decision. Defined.

Record Outcome := MkOutcome { oc_Status : Status; oc_Report : option Report; oc_Err : option err }.

Definition first_error (rep : Report) : option err :=
  match rp_Errors rep with
  | [] => None
  | e :: _ => Some (Plain ("reconcile interface " +:+ ie_Interface e +:+ ": " +:+ ie_Err e))
  end.

(** The report comes with no error of its own; a first recorded interface
    error becomes the error of the attempt. *)
Definition Attempt {W} (runner : option (act W err Report)) (w : W) : Outcome * W :=
  match runner with
  | None => (MkOutcome NotConfigured None None, w)
  | Some run =>
      match run w with
      | (Err e, w) => (MkOutcome Pending None (Some e), w)
      | (Ok rep, w) =>
          match first_error rep with
          | Some e => (MkOutcome Pending (Some rep) (Some e), w)
          | None => (MkOutcome Applied (Some rep) None, w)
          end
      end
  end.

(** [runReconcile] of the panel and [reconcile] of the API: [Attempt(...).Err]. *)
Definition runReconcile {W} (runner : option (act W err Report)) : act W err unit := fun w =>
  let '(o, w) := Attempt runner w in
  (match oc_Err o with Some e => Err e | None => Ok tt end, w).

(** ** The coordinator *)

Record Observation := MkObservation {
  ob_Status : Status;
  ob_Desired : Z;     (* uint64 *)
  ob_Applied : Z;     (* uint64 *)
  ob_InFlight : bool;
  ob_LastFailed : bool
}.

#[export] Instance eta_Observation : Eta Observation := fun o =>
  MkObservation (ob_Status o) (ob_Desired o) (ob_Applied o) (ob_InFlight o) (ob_LastFailed o).

(** Where a call of [Run] stands. [Running] keeps the revision it read and the
    version of the database its pass sees, which is read after that. *)
Inductive position :=
| Waiting
| Holding
| Revised (revision : Z)
| Running (revision : Z) (version : nat)
| Leaving
| Finished.

(** [co_gate] holds the caller that has the one slot of the channel;
    [co_ready] is the last value the callback was given. The versions of the
    database, of the last request announced and of the last good pass are
    what the observation is about, and are not kept by the code. *)
Record Coordinator := MkCoordinator {
  co_last : Observation;
  co_ready : bool;
  co_gate : option nat;
  co_calls : gmap nat position;
  co_version : nat;
  co_requested : nat;
  co_applied : nat
}.

#[export] Instance eta_Coordinator : Eta Coordinator := fun c =>
  MkCoordinator (co_last c) (co_ready c) (co_gate c) (co_calls c) (co_version c) (co_requested c) (co_applied c).

Definition NewCoordinator (ready : bool) (version : nat) : Coordinator :=
  MkCoordinator (MkObservation NotConfigured 0 0 false false) ready None ∅ version version 0.

(** The request is counted before the gate. *)
Definition announce (o : Observation) : Observation :=
  o <| ob_Desired := u64 (ob_Desired o + 1) |> <| ob_Status := Pending |>.

(** The end of a pass that applied [revision], good or not. *)
Definition conclude (revision : Z) (good : bool) (o : Observation) : Observation :=
  let o := o <| ob_InFlight := false |> <| ob_LastFailed := negb good |> in
  let o := if good then o <| ob_Applied := revision |> else o in
  o <| ob_Status := if good && (ob_Desired o =? revision) then Applied else Pending |>.

Definition at_ (c : Coordinator) (i : nat) (p : position) : Prop := co_calls c !! i = Some p.
Definition move (i : nat) (p : position) (c : Coordinator) : Coordinator := c <| co_calls ::= <[i := p]> |>.

Inductive event := Committed | Announced (i : nat) | Cancelled (i : nat) | Entered (i : nat) | Abandoned (i : nat)
| ReadRevision (i : nat) | Started (i : nat) | Concluded (i : nat) (good : bool) | Left (i : nat).

Inductive co_step : event -> Coordinator -> Coordinator -> Prop :=
| co_commit c : co_step Committed c (c <| co_version := S (co_version c) |>)
| co_announce c i : co_calls c !! i = None ->
    co_step (Announced i) c
      (move i Waiting (c <| co_last := announce (co_last c) |> <| co_ready := false |>
                         <| co_requested := co_version c |>))
| co_cancel c i : at_ c i Waiting -> co_step (Cancelled i) c (move i Finished c)
| co_enter c i : at_ c i Waiting -> co_gate c = None ->
    co_step (Entered i) c (move i Holding (c <| co_gate := Some i |>))
| co_abandon c i : at_ c i Holding -> co_step (Abandoned i) c (move i Finished (c <| co_gate := None |>))
| co_revise c i : at_ c i Holding -> co_step (ReadRevision i) c (move i (Revised (ob_Desired (co_last c))) c)
| co_start c i revision : at_ c i (Revised revision) ->
    co_step (Started i) c
      (move i (Running revision (co_version c)) (c <| co_last ::= fun o => o <| ob_InFlight := true |> |>))
| co_conclude c i revision version good : at_ c i (Running revision version) ->
    co_step (Concluded i good) c
      (move i Leaving (c <| co_last ::= conclude revision good |>
         <| co_ready := good && (ob_Desired (co_last c) =? revision) |>
         <| co_applied := if good then version else co_applied c |>))
| co_leave c i : at_ c i Leaving -> co_step (Left i) c (move i Finished (c <| co_gate := None |>)).

Inductive co_run : list event -> Coordinator -> Coordinator -> Prop :=
| co_run_nil c : co_run [] c c
| co_run_snoc l e c1 c2 c3 : co_run l c1 c2 -> co_step e c2 c3 -> co_run (l ++ [e]) c1 c3.

Definition Snapshot (c : Coordinator) : Observation := co_last c.

(** ** The invariant *)

(** The number of requests of a run. *)
Definition requests (l : list event) : Z :=
  Z.of_nat (length (filter (fun e => match e with Announced _ => true | _ => false end = true) l)).

(** Past the gate, and what a caller there knows: nobody else is, its revision
    is the count of requests it read, and a current one means that its pass
    saw the database of the last request. *)
Definition inside (c : Coordinator) (i : nat) (p : position) : Prop :=
  match p with
  | Waiting | Finished => True
  | Holding | Leaving => co_gate c = Some i
  | Revised r => co_gate c = Some i /\ 0 < r <= ob_Desired (co_last c) /\
                 (r < ob_Desired (co_last c) -> ob_Status (co_last c) = Pending)
  | Running r v => co_gate c = Some i /\ 0 < r <= ob_Desired (co_last c) /\
                 (r < ob_Desired (co_last c) -> ob_Status (co_last c) = Pending) /\
                 (r = ob_Desired (co_last c) -> (co_requested c <= v)%nat)
  end.

Definition co_wf (c : Coordinator) : Prop :=
  map_Forall (inside c) (co_calls c) /\
  0 <= ob_Applied (co_last c) <= ob_Desired (co_last c) /\
  (co_requested c <= co_version c)%nat /\
  (ob_Status (co_last c) = Applied ->
     0 < ob_Applied (co_last c) /\ ob_Applied (co_last c) = ob_Desired (co_last c) /\ (co_requested c <= co_applied c)%nat) /\
  (ob_Status (co_last c) = NotConfigured -> ob_Desired (co_last c) = 0) /\
  (co_ready c = true -> ob_Status (co_last c) <> Pending) /\
  (co_calls c <> ∅ -> 0 < ob_Desired (co_last c)).

Lemma inside_move c c' i p : map_Forall (inside c) (co_calls c) -> inside c' i p ->
  (forall j q, j <> i -> co_calls c !! j = Some q -> inside c j q -> inside c' j q) ->
  map_Forall (inside c') (<[i := p]> (co_calls c)).
Proof.
  intros Hc Hi Hother j q Hj. destruct (decide (j = i)) as [->|Hne].
  - rewrite lookup_insert_eq in Hj. by injection Hj as <-.
  - rewrite lookup_insert_ne in Hj by done. apply Hother; [done..|]. by apply Hc.
Qed.

Lemma inside_gate c i p : inside c i p -> p <> Waiting -> p <> Finished -> co_gate c = Some i.
Proof. destruct p; cbn; tauto. Qed.

(** While [i] is inside, every other caller is outside. *)
Lemma gate_excludes c i j q : co_gate c = Some i -> j <> i -> inside c j q -> q = Waiting \/ q = Finished.
Proof.
  intros Hg Hne Hq. destruct q; [by left| | | | |by right];
    (assert (co_gate c = Some j) by (by eapply inside_gate); congruence).
Qed.

(** A change that only concerns the caller at the gate. *)
Lemma inside_alone c c' i p0 p : map_Forall (inside c) (co_calls c) -> at_ c i p0 -> p0 <> Waiting -> p0 <> Finished ->
  inside c' i p -> map_Forall (inside c') (<[i := p]> (co_calls c)).
Proof.
  intros Hc Hi Hw Hf Hp. apply inside_move; [done..|]. intros j q Hne Hj Hq.
  assert (co_gate c = Some i) as Hg by by apply (inside_gate c i p0 (Hc i p0 Hi)).
  by destruct (gate_excludes c i j q Hg Hne Hq) as [->| ->].
Qed.

Lemma insert_pos {V} (m : gmap nat V) i p : <[i := p]> m <> ∅.
Proof. apply insert_non_empty. Qed.

(** The observation's part of the invariant, for the steps that leave it alone. *)
Definition observed (c c' : Coordinator) : Prop :=
  co_last c' = co_last c /\ co_ready c' = co_ready c /\ co_requested c' = co_requested c /\
  co_applied c' = co_applied c /\ (co_version c <= co_version c')%nat.

Lemma observed_wf c c' : observed c c' -> co_wf c -> map_Forall (inside c') (co_calls c') ->
  (co_calls c' <> ∅ -> co_calls c <> ∅) -> co_wf c'.
Proof.
  intros (E1 & E2 & E3 & E4 & E5) (Hin & Happ & Hver & Hst & Hnc & Hready & Hcalls) Hin' Hne. unfold co_wf.
  rewrite E1, E2, E3, E4. split_and!; auto; try lia.
Qed.

Lemma at_nonempty c i p : at_ c i p -> co_calls c <> ∅.
Proof. unfold at_. intros Hi E. by rewrite E in Hi. Qed.

Lemma co_step_wf e c c' : co_step e c c' -> co_wf c -> ob_Desired (co_last c) + 1 < 2 ^ 64 -> co_wf c'.
Proof.
  intros Hstep Hwf Hmax. pose proof Hwf as (Hin & Happ & Hver & Hst & Hnc & Hready & Hcalls).
  destruct Hstep as [c|c i Hi|c i Hi|c i Hi Hg|c i Hi|c i Hi|c i r Hi|c i r v good Hi|c i Hi].
  - apply (observed_wf c); [by unfold observed; cbn; split_and!; try lia|done| |done].
    intros j q Hj. specialize (Hin j q Hj). by destruct q.
  - assert (u64 (ob_Desired (co_last c) + 1) = ob_Desired (co_last c) + 1) as Eu by (apply u64_id; unfold is_u64; lia).
    unfold co_wf, move, announce. cbn. rewrite Eu. split_and!; try done; try lia.
    apply (inside_move c); [done..|]. intros j q Hne Hj Hq. destruct q; cbn in Hq |- *; rewrite ?Eu; try done.
    + destruct Hq as (? & ? & ?). split_and!; try done; lia.
    + destruct Hq as (? & ? & ? & ?). split_and!; try done; lia.
  - apply (observed_wf c); [done|done| |intros _; by eapply at_nonempty].
    apply (inside_move c); [done..|]. intros j q _ _ Hq. by destruct q.
  - apply (observed_wf c); [done|done| |intros _; by eapply at_nonempty].
    apply (inside_move c); [done..|]. intros j q _ _ Hq.
    destruct q; [done|..|done]; (assert (co_gate c = Some j) by (by eapply inside_gate); congruence).
  - apply (observed_wf c); [done|done| |intros _; by eapply at_nonempty]. by apply (inside_alone c _ i Holding).
  - apply (observed_wf c); [done|done| |intros _; by eapply at_nonempty]. apply (inside_alone c _ i Holding); try done.
    cbn. split; [apply (Hin i _ Hi)|]. specialize (Hcalls (at_nonempty _ _ _ Hi)). lia.
  - pose proof (Hin i _ Hi) as (Hg & Hr & Hp). unfold co_wf, move. cbn. split_and!; try done; try lia.
    by apply (inside_alone c _ i (Revised r)).
  - pose proof (Hin i _ Hi) as (Hg & Hr & Hp & Hv). unfold co_wf, move, conclude. cbn.
    destruct good; cbn; [destruct (Z.eqb_spec (ob_Desired (co_last c)) r) as [Er|Er]|]; split_and!; try done; try lia;
      try (by intros _; lia); try (by apply (inside_alone c _ i (Running r v))).
  - apply (observed_wf c); [done|done| |intros _; by eapply at_nonempty]. by apply (inside_alone c _ i Leaving).
Qed.

Lemma requests_snoc l e : requests (l ++ [e]) = requests l + match e with Announced _ => 1 | _ => 0 end.
Proof.
  unfold requests. rewrite filter_app, length_app, Nat2Z.inj_add. f_equal. by destruct e.
Qed.

Lemma co_step_desired e c c' : co_step e c c' -> ob_Desired (co_last c) + 1 < 2 ^ 64 -> 0 <= ob_Desired (co_last c) ->
  ob_Desired (co_last c') = ob_Desired (co_last c) + match e with Announced _ => 1 | _ => 0 end.
Proof.
  intros Hstep H1 H2. destruct Hstep; cbn; try lia.
  - apply u64_id. unfold is_u64. lia.
  - unfold conclude. destruct good; cbn; lia.
Qed.

Lemma co_run_wf l b v c : co_run l (NewCoordinator b v) c -> requests l + 1 < 2 ^ 64 ->
  co_wf c /\ ob_Desired (co_last c) = requests l.
Proof.
  remember (NewCoordinator b v) as c0 eqn:E0. intros Hrun. induction Hrun as [c|l e c1 c2 c3 Hrun IH Hstep].
  - subst. intros _. split; [|done]. unfold co_wf, NewCoordinator. cbn. split_and!; try done; lia.
  - rewrite requests_snoc. intros Hmax.
    assert (0 <= requests l) by (unfold requests; lia).
    destruct IH as [Hwf Hd]; [done|by destruct e; lia|]. rewrite <-Hd in *.
    assert (ob_Desired (co_last c2) + 1 < 2 ^ 64) by (destruct e; lia).
    split; [by eapply co_step_wf|]. by apply co_step_desired.
Qed.

(** ** Liveness *)

(** A caller whose pass will cover every request so far. *)
Definition covers (c : Coordinator) (p : position) : Prop :=
  match p with
  | Waiting | Holding => True
  | Revised r | Running r _ => r = ob_Desired (co_last c)
  | Leaving | Finished => False
  end.

Definition pending_covered (c : Coordinator) : Prop :=
  ob_Status (co_last c) = Pending -> exists i p, at_ c i p /\ covers c p.

Definition undisturbed (e : event) : bool :=
  match e with Cancelled _ | Abandoned _ | Concluded _ false => false | _ => true end.

Lemma covered_move c c' i p : co_calls c' = <[i := p]> (co_calls c) -> co_last c' = co_last c ->
  (forall p0, at_ c i p0 -> covers c p0 -> covers c p) -> pending_covered c -> pending_covered c'.
Proof.
  intros Ec El Hp Hc. unfold pending_covered, at_. rewrite El. intros Hs. destruct (Hc Hs) as (j & q & Hj & Hq).
  rewrite Ec. assert (forall p, covers c' p = covers c p) as Hcov by (intros []; cbn; by rewrite ?El).
  destruct (decide (j = i)) as [->|Hne].
  - exists i, p. rewrite lookup_insert_eq, Hcov. eauto.
  - exists j, q. by rewrite lookup_insert_ne, Hcov.
Qed.

Lemma co_step_covered e c c' : co_step e c c' -> undisturbed e = true -> co_wf c -> pending_covered c -> pending_covered c'.
Proof.
  intros Hstep Hund (Hin & _ & _ & _ & _ & _ & _) Hc.
  assert (forall i p p', at_ c i p -> at_ c i p' -> p' = p) as Huniq by (unfold at_; congruence).
  destruct Hstep as [c|c i Hi|c i Hi|c i Hi Hg|c i Hi|c i Hi|c i r Hi|c i r v good Hi|c i Hi]; try discriminate Hund.
  - exact Hc.
  - intros _. exists i, Waiting. split; [apply lookup_insert_eq|done].
  - by apply (covered_move c _ i Holding).
  - by apply (covered_move c _ i (Revised (ob_Desired (co_last c)))).
  - intros Hs. cbn in Hs. destruct (Hc Hs) as (j & q & Hj & Hq). destruct (decide (j = i)) as [->|Hne].
    + exists i, (Running r (co_version c)). split; [apply lookup_insert_eq|]. by rewrite (Huniq _ _ _ Hi Hj) in Hq.
    + exists j, q. split; [by unfold at_, move; cbn; rewrite lookup_insert_ne|]. by destruct q.
  - destruct good; [|done]. pose proof (Hin i _ Hi) as (Hg & Hr & Hp & _).
    unfold pending_covered, move, conclude. cbn. destruct (Z.eqb_spec (ob_Desired (co_last c)) r) as [Er|Er]; [done|].
    intros _. destruct (Hc (Hp ltac:(lia))) as (j & q & Hj & Hq).
    assert (j <> i) as Hne. { intros ->. rewrite (Huniq _ _ _ Hi Hj) in Hq. cbn in Hq. lia. }
    exists j, q. split; [by unfold at_; cbn; rewrite lookup_insert_ne|].
    destruct (gate_excludes c i j q Hg Hne (Hin j q Hj)) as [->| ->]; done.
  - apply (covered_move c _ i Finished); try done. intros p Hp Hcov. by rewrite (Huniq _ _ _ Hi Hp) in Hcov.
Qed.

(** ** Lemmas: an attempt over the engine *)

Lemma runReconcile_ok {W} (run : act W err Report) w w' : runReconcile (Some run) w = (Ok tt, w') ->
  exists rep, run w = (Ok rep, w') /\ rp_Errors rep = [].
Proof.
  unfold runReconcile, Attempt, first_error. destruct (run w) as [[rep|e] w1]; [|done].
  destruct (rp_Errors rep) as [|e es] eqn:Ee; [|done]. cbn. intros [= <-]. eauto.
Qed.

Section Deletion.
Context {R : Type} {B : Backend R} {V : BackendView R} {L : BackendLaws R} `{A : AEAD} `{O : MapOrder}.
Context (ring : KeyRing) (policy : Policy).

Definition reconcile_now : act (store * R) err unit := runReconcile (Some (Run ring policy)).

Lemma SetEnabled_rows id b s row : ifaces s !! id = Some row -> ifaces_wf s ->
  (Iface.SetEnabled id b s).1 = Ok tt /\ devices (Iface.SetEnabled id b s).2 = devices s /\
  ifaces (Iface.SetEnabled id b s).2 = <[id := row <| i_Enabled := b |> <| i_UpdatedAt := clock s |>]> (ifaces s).
Proof.
  intros Hrow Hwf. destruct (iface_lookup _ _ _ Hwf Hrow) as [Hid _].
  unfold Iface.SetEnabled. rewrite Hrow. cbn. by rewrite Hid.
Qed.

Lemma SetEnabled_db_wf id b s : db_wf s -> db_wf (Iface.SetEnabled id b s).2.
Proof.
  intros [H1 H2]. split; [by apply profile_SetEnabled_wf|]. apply (devices_wf_eq s); [|done].
  unfold Iface.SetEnabled. by destruct (ifaces s !! id).
Qed.

(** After an attempt that succeeded, the link of a disabled row is gone. *)
Lemma reconcile_now_gone s r s' r' row : reconcile_now (s, r) = (Ok tt, (s', r')) -> sound r -> db_wf s ->
  row ∈ iface_rows s -> i_Enabled row = false -> links r' !! i_Name row = None.
Proof.
  intros (rep & Hrun & He)%runReconcile_ok Hs Hwf Hin Hen.
  destruct (Run_row ring policy _ _ _ _ _ row Hrun Hs Hwf Hin) as [Hsafe _]; [rewrite He; apply not_elem_of_nil|].
  unfold safe in Hsafe. by rewrite Hen in Hsafe.
Qed.

Lemma reconcile_now_db s r res s' r' : reconcile_now (s, r) = (res, (s', r')) -> sound r -> db_wf s ->
  sound r' /\ db_wf s' /\ ifaces s' = ifaces s /\ devices s' = devices s.
Proof.
  intros Hr Hs Hwf. unfold reconcile_now, runReconcile, Attempt in Hr.
  destruct (Run ring policy (s, r)) as [o [s1 r1]] eqn:Hrun.
  destruct (Run_db ring policy _ _ _ _ _ Hrun Hs Hwf) as (Hs1 & Hwf1 & keys & -> & _).
  destruct o as [rep|e]; [destruct (first_error rep)|]; injection Hr as _ <- <-; done.
Qed.

(** The rows but for the time of the last change of one. *)
Definition same_rows (id : string) (s s' : store) : Prop :=
  (forall k, k <> id -> ifaces s' !! k = ifaces s !! k) /\
  forall row, ifaces s !! id = Some row -> exists t, ifaces s' !! id = Some (row <| i_UpdatedAt := t |>).

Lemma same_rows_refl id s s' : ifaces s' = ifaces s -> same_rows id s s'.
Proof. intros E. split; rewrite E; [done|]. intros row Hrow. exists (i_UpdatedAt row). rewrite Hrow. by destruct row. Qed.

(** The row disabled and enabled again. *)
Lemma same_rows_restored id row s s1 s2 t1 t2 : ifaces s !! id = Some row -> i_Enabled row = true ->
  ifaces s1 = <[id := row <| i_Enabled := false |> <| i_UpdatedAt := t1 |>]> (ifaces s) ->
  ifaces s2 = <[id := row <| i_Enabled := false |> <| i_UpdatedAt := t1 |> <| i_Enabled := true |> <| i_UpdatedAt := t2 |>]> (ifaces s1) ->
  same_rows id s s2.
Proof.
  intros Hrow Hen E1 E2. split.
  - intros k Hk. by rewrite E2, lookup_insert_ne, E1, lookup_insert_ne.
  - intros row' Hrow'. rewrite Hrow in Hrow'. injection Hrow' as <-. exists t2. rewrite E2, lookup_insert_eq.
    destruct row. cbn in Hen. by subst.
Qed.

Lemma rollback_rows (ifc : Interface) row s s1 r1 cause res s' r' :
  rollback ifc (Some reconcile_now) cause (s1, r1) = (res, (s', r')) ->
  ifaces s !! if_ID ifc = Some row -> if_Enabled ifc = i_Enabled row -> sound r1 -> db_wf s1 ->
  (if i_Enabled row then exists t, ifaces s1 = <[if_ID ifc := row <| i_Enabled := false |> <| i_UpdatedAt := t |>]> (ifaces s)
   else ifaces s1 = ifaces s) ->
  res = Err cause /\ same_rows (if_ID ifc) s s'.
Proof.
  intros Hrb Hrow Hen Hs Hwf Hrows. unfold rollback in Hrb. rewrite Hen in Hrb.
  destruct (i_Enabled row) eqn:Ee; cbn [negb] in Hrb.
  2:{ injection Hrb as <- <- _. split; [done|by apply same_rows_refl]. }
  destruct Hrows as [t Ht].
  assert (ifaces s1 !! if_ID ifc = Some (row <| i_Enabled := false |> <| i_UpdatedAt := t |>)) as Hrow1
    by (by rewrite Ht, lookup_insert_eq).
  destruct (SetEnabled_rows _ true _ _ Hrow1 (proj1 Hwf)) as (Hok & _ & E2).
  pose proof (SetEnabled_db_wf (if_ID ifc) true s1 Hwf) as Hwf2.
  unfold mbind, act_mbind, act_bind, act_try, on_db in Hrb. cbn [fst snd] in Hrb.
  destruct (Iface.SetEnabled (if_ID ifc) true s1) as [o s2]. cbn [fst snd] in *. subst o.
  destruct (reconcile_now (s2, r1)) as [o [s3 r3]] eqn:Erec.
  destruct (reconcile_now_db _ _ _ _ _ Erec Hs Hwf2) as (_ & _ & E3 & _).
  injection Hrb as <- <- _. split; [done|].
  eapply (same_rows_restored _ row s s1); [done..|]. by rewrite E3, E2.
Qed.
End Deletion.

(** The statements of a deletion, in order. *)
Lemma DeleteReconciled_run {R} id (run : act (store * R) err unit) s r :
  DeleteReconciled id (Some run) (s, r) =
  match Iface.Get id s, ensureNoDevices id s with
  | Err e, _ => (Err e, (s, r))
  | _, Err e => (Err e, (s, r))
  | Ok ifc, Ok _ =>
      match (if if_Enabled ifc then Iface.SetEnabled id false s else (Ok tt, s)) with
      | (Err e, s1) => (Err e, (s1, r))
      | (Ok _, s1) =>
          match run (s1, r) with
          | (Err e, w) => rollback ifc (Some run) e w
          | (Ok _, w) =>
              match Iface.Delete id w.1 with
              | (Err e, s2) => rollback ifc (Some run) e (s2, w.2)
              | (Ok _, s2) => (Ok tt, (s2, w.2))
              end
          end
      end
  end.
Proof.
  unfold DeleteReconciled, mbind, act_mbind, act_bind, on_db, act_when, act_try. cbn [fst snd].
  destruct (Iface.Get id s) as [ifc|]; [|done]. cbn [fst snd]. destruct (ensureNoDevices id s) as [u|]; [|done].
  destruct (if_Enabled ifc); cbn [fst snd].
  - destruct (Iface.SetEnabled id false s) as [[v|] s1]; [|done].
    destruct (run (s1, r)) as [[x|] w]; [|done]. by destruct (Iface.Delete id w.1) as [[y|] s2].
  - cbn [act_ret]. destruct (run (s, r)) as [[x|] w]; [|done]. by destruct (Iface.Delete id w.1) as [[y|] s2].
Qed.

Lemma Delete_rows id s res s' : Iface.Delete id s = (res, s') ->
  match res with Ok _ => ifaces s' = delete id (ifaces s) | Err _ => s' = s end.
Proof.
  unfold Iface.Delete, delete_row. destruct (ensureNoDevices id s); [|by intros [= <- <-]].
  destruct (ifaces s !! id); [|by intros [= <- <-]]. destruct (negb _); intros [= <- <-]; done.
Qed.

(** ** Properties *)

(** C22. What the observation of a coordinator means, after any interleaving of
    requests, passes, failures and cancelled waiters: it counts the requests
    and never claims more applied than desired; one caller at most is past
    the gate; [applied] says that a pass without failure began after the last
    request was committed, and readiness is never reported while a request is
    pending. *)
Theorem coordinator_sound l b v c : co_run l (NewCoordinator b v) c -> requests l + 1 < 2 ^ 64 ->
  let o := Snapshot c in
  0 <= ob_Applied o <= ob_Desired o /\ ob_Desired o = requests l /\
  (forall i j p q, at_ c i p -> at_ c j q -> p <> Waiting -> p <> Finished -> q <> Waiting -> q <> Finished -> i = j) /\
  (ob_Status o = Applied -> ob_Applied o = ob_Desired o /\ (co_requested c <= co_applied c)%nat) /\
  (co_ready c = true -> ob_Status o <> Pending).
Proof.
  intros Hrun Hmax. destruct (co_run_wf _ _ _ _ Hrun Hmax) as [(Hin & Happ & Hver & Hst & Hnc & Hready & _) Hd].
  cbv zeta. unfold Snapshot. split_and!; try done; try lia.
  - intros i j p q Hi Hj Hp1 Hp2 Hq1 Hq2.
    pose proof (inside_gate c i p (Hin i p Hi) Hp1 Hp2). pose proof (inside_gate c j q (Hin j q Hj) Hq1 Hq2). congruence.
  - intros Ha. destruct (Hst Ha) as (_ & ? & ?). done.
Qed.

(** Left to itself the coordinator settles: once every caller has returned,
    none cancelled and no pass failed, all that was requested is applied. *)
Theorem coordinator_settles l b v c : co_run l (NewCoordinator b v) c -> requests l + 1 < 2 ^ 64 ->
  forallb undisturbed l = true -> 0 < requests l -> (forall i p, at_ c i p -> p = Finished) ->
  ob_Status (Snapshot c) = Applied /\ (co_requested c <= co_applied c)%nat.
Proof.
  intros Hrun Hmax Hund Hpos Hdone.
  destruct (co_run_wf _ _ _ _ Hrun Hmax) as [(_ & _ & _ & Hst & Hnc & _) Hd].
  assert (pending_covered c) as Hc.
  { clear Hdone Hpos Hst Hnc Hd. remember (NewCoordinator b v) as c0 eqn:E0.
    induction Hrun as [c|l e c1 c2 c3 Hrun IH Hstep]; [by subst|].
    rewrite forallb_app in Hund. apply andb_true_iff in Hund as [Hl He]. cbn in He. rewrite andb_true_r in He.
    rewrite requests_snoc in Hmax. subst c1.
    assert (requests l + 1 < 2 ^ 64) as Hm by (destruct e; lia).
    eapply co_step_covered; [done|done|by eapply co_run_wf|by apply IH]. }
  unfold Snapshot. destruct (ob_Status (co_last c)) eqn:Es.
  - specialize (Hnc eq_refl). lia.
  - split; [done|]. by apply Hst.
  - destruct (Hc Es) as (i & p & Hi & Hp). by rewrite (Hdone i p Hi) in Hp.
Qed.

(** C21. Deleting an interface over the engine leaves no orphan: on success its
    row is gone and so is its link; on any failure every row is as before,
    the interface enabled if it was, so that a retry finds the same
    desired state. *)
Theorem DeleteReconciled_complete {R} `{BackendLaws R} `{AEAD, MapOrder} ring policy id s (r : R) res s' r' :
  DeleteReconciled id (Some (reconcile_now ring policy)) (s, r) = (res, (s', r')) -> sound r -> db_wf s ->
  match res with
  | Ok _ => exists row, ifaces s !! id = Some row /\ ifaces s' = delete id (ifaces s) /\ links r' !! i_Name row = None
  | Err _ => same_rows id s s'
  end.
Proof.
  intros Hdel Hs Hwf. rewrite DeleteReconciled_run in Hdel.
  destruct (Iface.Get id s) as [ifc|e] eqn:Eg; [|injection Hdel as <- <- _; by apply same_rows_refl].
  destruct (ensureNoDevices id s) as [u|e]; [|injection Hdel as <- <- _; by apply same_rows_refl].
  destruct (Iface.Get_row _ _ _ Eg (proj1 Hwf)) as (row & Hrow & Hscan).
  destruct (iface_lookup _ _ _ (proj1 Hwf) Hrow) as [Hid _].
  apply scanIface_ok in Hscan as (_ & _ & Eid & _ & _ & _ & _ & _ & _ & Een). rewrite Hid in Eid.
  set (off := (if if_Enabled ifc then Iface.SetEnabled id false s else (Ok tt, s))) in Hdel.
  assert (off.1 = Ok tt /\ db_wf off.2 /\ exists row1, ifaces off.2 !! id = Some row1 /\ i_Enabled row1 = false /\
    i_Name row1 = i_Name row /\
    (if i_Enabled row then exists t, ifaces off.2 = <[id := row <| i_Enabled := false |> <| i_UpdatedAt := t |>]> (ifaces s)
     else ifaces off.2 = ifaces s) /\ delete id (ifaces off.2) = delete id (ifaces s)) as (Hok1 & Hwf1 & row1 & Hrow1 & Hen1 & En1 & Hrows1 & Hdel1).
  { unfold off. rewrite Een. destruct (i_Enabled row) eqn:E.
    - destruct (SetEnabled_rows id false s row Hrow (proj1 Hwf)) as (Hok & _ & ->). split_and!; [done|by apply SetEnabled_db_wf|].
      eexists. rewrite lookup_insert_eq. split_and!; try done; [by eexists|]. by rewrite delete_insert_eq.
    - split_and!; [done..|]. by exists row. }
  destruct off as [o s1]. cbn [fst snd] in *. subst o.
  destruct (reconcile_now ring policy (s1, r)) as [down [s2 r2]] eqn:Erec.
  destruct (reconcile_now_db ring policy _ _ _ _ _ Erec Hs Hwf1) as (Hs2 & Hwf2 & Ei2 & _).
  assert (if i_Enabled row then exists t, ifaces s2 = <[if_ID ifc := row <| i_Enabled := false |> <| i_UpdatedAt := t |>]> (ifaces s)
          else ifaces s2 = ifaces s) as Hrows2 by (rewrite Eid, Ei2; exact Hrows1).
  rewrite <-Eid in Hrow.
  destruct down as [[]|e]; cbn [fst snd] in Hdel.
  - destruct (Iface.Delete id s2) as [gone s3] eqn:Edel. pose proof (Delete_rows _ _ _ _ Edel) as Hd.
    destruct gone as [y|e].
    + injection Hdel as <- <- <-. rewrite Eid in Hrow. exists row. split_and!; [done|by rewrite Hd, Ei2|]. rewrite <-En1.
      apply (reconcile_now_gone ring policy _ _ _ _ row1 Erec Hs Hwf1); [|done].
      apply elem_of_iface_rows; [apply Hwf1|]. destruct (iface_lookup _ _ _ (proj1 Hwf1) Hrow1) as [-> _]. done.
    + subst s3. destruct (rollback_rows ring policy ifc row s s2 r2 e res s' r' Hdel Hrow Een Hs2 Hwf2 Hrows2) as [-> Hsame].
      by rewrite Eid in Hsame.
  - destruct (rollback_rows ring policy ifc row s s2 r2 e res s' r' Hdel Hrow Een Hs2 Hwf2 Hrows2) as [-> Hsame].
    by rewrite Eid in Hsame.
Qed.

(** ** Witnesses *)

(** The step of an event, computed. *)
Definition co_next (e : event) (c : Coordinator) : option Coordinator :=
  match e with
  | Committed => Some (c <| co_version := S (co_version c) |>)
  | Announced i =>
      match co_calls c !! i with
      | None => Some (move i Waiting (c <| co_last := announce (co_last c) |> <| co_ready := false |>
                                        <| co_requested := co_version c |>))
      | Some _ => None
      end
  | Cancelled i => match co_calls c !! i with Some Waiting => Some (move i Finished c) | _ => None end
  | Entered i =>
      match co_calls c !! i, co_gate c with
      | Some Waiting, None => Some (move i Holding (c <| co_gate := Some i |>))
      | _, _ => None
      end
  | Abandoned i =>
      match co_calls c !! i with Some Holding => Some (move i Finished (c <| co_gate := None |>)) | _ => None end
  | ReadRevision i =>
      match co_calls c !! i with Some Holding => Some (move i (Revised (ob_Desired (co_last c))) c) | _ => None end
  | Started i =>
      match co_calls c !! i with
      | Some (Revised r) =>
          Some (move i (Running r (co_version c)) (c <| co_last ::= fun o => o <| ob_InFlight := true |> |>))
      | _ => None
      end
  | Concluded i good =>
      match co_calls c !! i with
      | Some (Running r v) =>
          Some (move i Leaving (c <| co_last ::= conclude r good |>
             <| co_ready := good && (ob_Desired (co_last c) =? r) |>
             <| co_applied := if good then v else co_applied c |>))
      | _ => None
      end
  | Left i => match co_calls c !! i with Some Leaving => Some (move i Finished (c <| co_gate := None |>)) | _ => None end
  end.

Lemma co_next_step e c c' : co_next e c = Some c' -> co_step e c c'.
Proof.
  destruct e as [|i|i|i|i|i|i|i good|i]; cbn [co_next]; intros Hn; [injection Hn as <-; apply co_commit|..];
    destruct (co_calls c !! i) as [p|] eqn:Hi; try discriminate Hn; try (destruct p; try discriminate Hn).
  - injection Hn as <-. by apply co_announce.
  - injection Hn as <-. by apply co_cancel.
  - destruct (co_gate c) eqn:Hg; [discriminate Hn|]. injection Hn as <-. by apply co_enter.
  - injection Hn as <-. by apply co_abandon.
  - injection Hn as <-. by apply co_revise.
  - injection Hn as <-. by apply co_start.
  - injection Hn as <-. by eapply co_conclude.
  - injection Hn as <-. by apply co_leave.
Qed.

Lemma co_runs l1 l2 c1 c2 c3 : co_run l1 c1 c2 ->
  fold_left (fun o e => o ≫= co_next e) l2 (Some c2) = Some c3 -> co_run (l1 ++ l2) c1 c3.
Proof.
  revert l1 c2. induction l2 as [|e l2 IH]; intros l1 c2 Hrun; cbn [fold_left].
  - intros [= <-]. by rewrite app_nil_r.
  - intros Hf. destruct (co_next e c2) as [c|] eqn:E; cbn in Hf; rewrite ?E in Hf.
    + rewrite (app_assoc l1 [e] l2 : l1 ++ e :: l2 = _). apply (IH _ c); [|done].
      econstructor; [done|by apply co_next_step].
    + exfalso. clear -Hf. induction l2; cbn in Hf; auto. discriminate.
Qed.

(** Two requests, the second served first; a commit in between. *)
Definition w_events : list event :=
  [Committed; Announced 0; Committed; Announced 1; Entered 1; ReadRevision 1; Started 1; Concluded 1 true; Left 1;
   Entered 0; ReadRevision 0; Started 0; Concluded 0 true; Left 0].
Definition w_coordinator : Coordinator := Eval vm_compute in
  default (NewCoordinator false 0) (fold_left (fun o e => o ≫= co_next e) w_events (Some (NewCoordinator false 0))).

Lemma w_co_run : co_run w_events (NewCoordinator false 0) w_coordinator.
Proof. apply (co_runs [] w_events _ (NewCoordinator false 0)); [constructor|by vm_compute]. Qed.

Lemma w_all_done i p : at_ w_coordinator i p -> p = Finished.
Proof.
  unfold at_. change (co_calls w_coordinator) with ({[1%nat := Finished; 0%nat := Finished]} : gmap nat position).
  by intros [[_ <-]|[_ [_ <-]%lookup_singleton_Some]]%lookup_insert_Some.
Qed.

Theorem coordinator_sound_witness :
  let o := Snapshot w_coordinator in
  0 <= ob_Applied o <= ob_Desired o /\ ob_Desired o = requests w_events /\
  (forall i j p q, at_ w_coordinator i p -> at_ w_coordinator j q -> p <> Waiting -> p <> Finished ->
     q <> Waiting -> q <> Finished -> i = j) /\
  (ob_Status o = Applied -> ob_Applied o = ob_Desired o /\ (co_requested w_coordinator <= co_applied w_coordinator)%nat) /\
  (co_ready w_coordinator = true -> ob_Status o <> Pending).
Proof. apply (coordinator_sound w_events false 0 w_coordinator); [exact w_co_run|by vm_compute]. Defined.

Theorem coordinator_settles_witness : ob_Status (Snapshot w_coordinator) = Applied /\
  (co_requested w_coordinator <= co_applied w_coordinator)%nat.
Proof.
  apply (coordinator_settles w_events false 0 w_coordinator);
    [exact w_co_run|by vm_compute|by vm_compute|by vm_compute|exact w_all_done].
Defined.

(** The interface of a node without devices, up and then deleted. *)
Definition w_idle : store := Eval vm_compute in w_after.
Definition w_up : store * fake := Eval vm_compute in (Run w_ring PolicyReport (w_idle, New 0)).2.
Definition w_deleted : result err unit * (store * fake) := Eval vm_compute in
  DeleteReconciled (if_ID w_stored) (Some (reconcile_now w_ring PolicyReport)) w_up.

Lemma w_up_wf : db_wf w_up.1.
Proof.
  split; [|split; [intros k d Hk; discriminate Hk|intros k1 k2 d1 d2 Hk; discriminate Hk]].
  exact (proj1 w_db_wf).
Qed.

Lemma w_up_sound : sound w_up.2.
Proof. apply w_fake_sound; [done|by vm_compute]. Qed.

Theorem DeleteReconciled_complete_witness :
  exists row, ifaces w_up.1 !! if_ID w_stored = Some row /\
    ifaces w_deleted.2.1 = delete (if_ID w_stored) (ifaces w_up.1) /\ links w_deleted.2.2 !! i_Name row = None.
Proof.
  apply (DeleteReconciled_complete w_ring PolicyReport (if_ID w_stored) w_up.1 w_up.2 (Ok tt) w_deleted.2.1 w_deleted.2.2);
    [vm_compute; reflexivity|exact w_up_sound|exact w_up_wf].
Defined.
