(* ===== verification/Accounting.v ===== *)
(** * Traffic accounting (internal/accounting)

    One cycle reads the counters of every enabled interface, charges the
    deltas to devices and their owners, and makes the lifecycle transitions
    that fresh usage calls for; the expiry pass and the operators' meter and
    quota corrections follow.

    Counters are [uint64], the stored columns and the charged counters
    [int64]; Go's map iterations are explicit lists, in whatever order. *)
From stdpp Require Import base tactics strings gmap list fin_maps sets sorting.
From Stdlib Require Import ZArith Lia.
From Stdlib Require String.
From S2P Require Import Prelude GoTime Domain Store Backend.

Open Scope Z_scope.

(** ** The sample buffer (samples.go) *)

Abbreviation accumulator := (gmap (string * Z) (Z * Z)).

Definition push (deviceID : string) (at_ interval rx tx : Z) (a : accumulator) : accumulator :=
  if (rx =? 0) && (tx =? 0) then a
  else
    let k := (deviceID, if 0 <? interval then truncate at_ interval else at_) in
    let v := default (0, 0) (a !! k) in
    <[k := (u64 (v.1 + rx), u64 (v.2 + tx))]> a.

Definition clearDevices (ids : list string) (a : accumulator) : accumulator :=
  filter (fun '(k, _) => k.1 ∉ ids) a.

(** ** One cycle *)

Record CycleError := MkCycleError { ce_Interface : string; ce_Err : string }.

Record CycleReport := MkReport {
  cr_Interfaces : Z;
  cr_Deltas : Z;
  cr_RX : Z;
  cr_TX : Z;
  cr_Activated : Z;
  cr_QuotaTripped : Z;
  cr_NextPlanActivated : Z;
  cr_ShaperApplied : bool;
  cr_ShaperError : string;
  cr_Errors : list CycleError;
  cr_Reconciled : bool
}.

#[export] Instance eta_CycleReport : Eta CycleReport := fun r =>
  MkReport (cr_Interfaces r) (cr_Deltas r) (cr_RX r) (cr_TX r) (cr_Activated r)
    (cr_QuotaTripped r) (cr_NextPlanActivated r) (cr_ShaperApplied r) (cr_ShaperError r)
    (cr_Errors r) (cr_Reconciled r).

Definition empty_report : CycleReport := MkReport 0 0 0 0 0 0 0 false "" [] false.

Definition ReconcileNeeded (r : CycleReport) : bool :=
  (0 <? cr_Activated r) || (0 <? cr_QuotaTripped r) || (0 <? cr_NextPlanActivated r).

Inductive transition := TNone | TActivated | TQuotaTripped.
#[export] Instance transition_eq_dec : EqDecision transition.
Proof. solve_decision. Defined.

Record cycleDevice := MkCycleDevice {
  cd_id : string;
  cd_pubkey : string;
  cd_lastRX : Z;
  cd_lastTX : Z;
  cd_rx : Z;
  cd_tx : Z;
  cd_handshake : option Z;
  cd_endpoint : string;
  cd_userID : string
}.

Record cycleUser := MkCycleUser {
  cu_id : string;
  cu_username : string;
  cu_status : UserStatus;
  cu_reason : option DisableReason;
  cu_limit : option Z;
  cu_usedRX : Z;
  cu_usedTX : Z;
  cu_activity : option Z;
  cu_activatedAt : option Z;
  cu_expiresAt : option Z;
  cu_duration : option Z;
  cu_policy : StartPolicy;
  cu_deleted : bool;
  cu_deltaRX : Z;
  cu_deltaTX : Z;
  cu_transition : transition;
  cu_activityObserved : bool
}.

#[export] Instance eta_cycleUser : Eta cycleUser := fun u =>
  MkCycleUser (cu_id u) (cu_username u) (cu_status u) (cu_reason u) (cu_limit u)
    (cu_usedRX u) (cu_usedTX u) (cu_activity u) (cu_activatedAt u) (cu_expiresAt u)
    (cu_duration u) (cu_policy u) (cu_deleted u) (cu_deltaRX u) (cu_deltaTX u)
    (cu_transition u) (cu_activityObserved u).

(** The accounting invariant: a decreasing counter is a reset, counted from
    zero. *)
Definition delta (last cur : Z) : Z := if cur <? last then cur else cur - last.

Definition cycle_device (d : Device) : cycleDevice :=
  MkCycleDevice (d_ID d) (d_PublicKey d) (d_LastRX d) (d_LastTX d) (d_RXBytes d) (d_TXBytes d)
    (d_LastHandshake d) (d_LastEndpoint d) (d_UserID d).

Definition cycle_user (u : User) : cycleUser :=
  MkCycleUser (u_ID u) (u_Username u) (u_Status u) (u_DisableReason u) (u_TrafficLimitBytes u)
    (u_TrafficUsedRX u) (u_TrafficUsedTX u) (u_LastActivityAt u) (u_ActivatedAt u)
    (u_ExpiresAt u) (u_DurationSeconds u) (u_StartPolicy u)
    (match u_DeletedAt u with Some _ => true | None => false end) 0 0 TNone false.

(** A column that [Scan] refuses for a [uint64] field. *)
Definition bad_counters (d : Device) : bool :=
  (d_LastRX d <? 0) || (d_LastTX d <? 0) || (d_RXBytes d <? 0) || (d_TXBytes d <? 0).

(** The devices by public key, and the users that own one. *)
Definition load_devices (s : store) : gmap string cycleDevice :=
  fold_left (fun m d => <[d_PublicKey d := cycle_device d]> m) (map_to_list (devices s)).*2 ∅.

Definition load_users (s : store) : gmap string cycleUser :=
  cycle_user <$> filter (fun '(id, _) => Exists (fun d => d_UserID d = id)
                                           (map_to_list (devices s)).*2) (users s).

Definition loadRows (s : store) : result err (gmap string cycleDevice * gmap string cycleUser) :=
  if existsb bad_counters (map_to_list (devices s)).*2 then Err (Plain "accounting: scan row")
  else Ok (load_devices s, load_users s).

(** A handshake that is newer than the stored one, if any. *)
Definition newer (h : Z) (old : option Z) : bool :=
  match old with None => true | Some o => o <? h end.

(** What the device loop changes: the devices table, the users being
    computed, the report and the sample buffer. *)
Record loop_state := MkLoop {
  ls_devices : gmap string Device;
  ls_users : gmap string cycleUser;
  ls_rep : CycleReport;
  ls_samples : accumulator
}.

Definition device_changed (d : cycleDevice) (p : PeerState) : bool :=
  negb (delta (cd_lastRX d) (ps_RXBytes p) =? 0) || negb (delta (cd_lastTX d) (ps_TXBytes p) =? 0)
  || match ps_LastHandshake p with Some h => newer h (cd_handshake d) | None => false end
  || (negb (String.eqb (ps_Endpoint p) "") && negb (String.eqb (ps_Endpoint p) (cd_endpoint d))).

(** The device row the cycle writes. *)
Definition metered_row (now : Z) (d : cycleDevice) (p : PeerState) (row : Device) : Device :=
  row <| d_RXBytes := i64 (u64 (cd_rx d + delta (cd_lastRX d) (ps_RXBytes p))) |>
      <| d_TXBytes := i64 (u64 (cd_tx d + delta (cd_lastTX d) (ps_TXBytes p))) |>
      <| d_LastRX := i64 (ps_RXBytes p) |>
      <| d_LastTX := i64 (ps_TXBytes p) |>
      <| d_LastHandshake :=
           match ps_LastHandshake p with
           | Some h => if newer h (cd_handshake d) then Some h else cd_handshake d
           | None => cd_handshake d
           end |>
      <| d_LastEndpoint := if negb (String.eqb (ps_Endpoint p) "") then ps_Endpoint p
                           else cd_endpoint d |>
      <| d_UpdatedAt := now |>.

Definition charge_user (d : cycleDevice) (p : PeerState) (u : cycleUser) : cycleUser :=
  let u := u <| cu_deltaRX ::= fun v => i64 (v + i64 (delta (cd_lastRX d) (ps_RXBytes p))) |>
             <| cu_deltaTX ::= fun v => i64 (v + i64 (delta (cd_lastTX d) (ps_TXBytes p))) |> in
  match ps_LastHandshake p with
  | Some h => if newer h (cu_activity u)
              then u <| cu_activity := Some h |> <| cu_activityObserved := true |>
              else u
  | None => u
  end.

(** One observed peer. *)
Definition observe (devs : gmap string cycleDevice) (now interval : Z) (l : loop_state)
    (o : string * PeerState) : loop_state :=
  let '(pubkey, p) := o in
  match devs !! pubkey with
  | None => l
  | Some d =>
      if negb (device_changed d p) then l
      else
        let dRX := delta (cd_lastRX d) (ps_RXBytes p) in
        let dTX := delta (cd_lastTX d) (ps_TXBytes p) in
        let counted := negb (dRX =? 0) || negb (dTX =? 0) in
        {| ls_devices := alter (metered_row now d p) (cd_id d) (ls_devices l);
           ls_users := alter (charge_user d p) (cd_userID d) (ls_users l);
           ls_rep := if counted
                     then (ls_rep l) <| cr_Deltas ::= Z.add 1 |>
                                   <| cr_RX ::= fun v => u64 (v + dRX) |>
                                   <| cr_TX ::= fun v => u64 (v + dTX) |>
                     else ls_rep l;
           ls_samples := if counted then push (cd_id d) now interval dRX dTX (ls_samples l)
                         else ls_samples l |}
  end.

(** *** Lifecycle of one user *)

Definition used_total (u : cycleUser) : Z :=
  i64 (cu_usedRX u + cu_deltaRX u + cu_usedTX u + cu_deltaTX u).

Definition activates (u : cycleUser) : bool :=
  negb (cu_deleted u) && bool_decide (cu_status u = UserWaitingFirstConnection)
  && cu_activityObserved u.

Definition activate (now : Z) (u : cycleUser) : cycleUser :=
  let u := u <| cu_status := UserActive |> <| cu_activatedAt := Some now |>
             <| cu_transition := TActivated |> in
  match cu_duration u with
  | Some d => u <| cu_expiresAt := Some (time_add now (seconds d)) |>
  | None => u
  end.

Definition trips (u : cycleUser) : bool :=
  negb (cu_deleted u) && match cu_limit u with Some l => l <=? used_total u | None => false end
  && (bool_decide (cu_status u = UserActive)
      || bool_decide (cu_status u = UserWaitingFirstConnection)).

Definition trip (u : cycleUser) : cycleUser :=
  u <| cu_status := UserTrafficExceeded |> <| cu_reason := Some DisableTrafficLimit |>
    <| cu_transition := TQuotaTripped |>.

Definition lifecycle (now : Z) (u : cycleUser) : cycleUser :=
  let u := if activates u then activate now u else u in
  if trips u then trip u else u.

(** [user.first_connected] and [user.traffic_exceeded], in this order. *)
Definition ActorSystem : string := "system".

Definition system_audit (action : string) (u : cycleUser) (extra : json_obj) : AuditEntry :=
  MkAudit ActorSystem "" action (cu_id u) (("username", JsStr (cu_username u)) :: extra).

Definition user_data (u : cycleUser) : json_obj :=
  [("user_id", JsStr (cu_id u)); ("username", JsStr (cu_username u))].

Definition usage_data (u : cycleUser) : json_obj :=
  [("used_bytes", JsNum (used_total u)); ("limit_bytes", js_opt_num (cu_limit u))].

(** The [UPDATE users] of the cycle. *)
Definition write_user (now : Z) (u : cycleUser) (row : User) : User :=
  row <| u_TrafficUsedRX := i64 (cu_usedRX u + cu_deltaRX u) |>
      <| u_TrafficUsedTX := i64 (cu_usedTX u + cu_deltaTX u) |>
      <| u_LastActivityAt := cu_activity u |>
      <| u_Status := cu_status u |>
      <| u_DisableReason := cu_reason u |>
      <| u_ActivatedAt := cu_activatedAt u |>
      <| u_ExpiresAt := cu_expiresAt u |>
      <| u_UpdatedAt := now |>.

Definition untouched (u : cycleUser) : bool :=
  (cu_deltaRX u =? 0) && (cu_deltaTX u =? 0) && bool_decide (cu_transition u = TNone)
  && negb (cu_activityObserved u).

Section Service.
Context `{EventRecorder}.

(** The report and the pending audit entries travel through the user loop. *)
Definition settle (now : Z) (u : cycleUser) (acc : CycleReport * list AuditEntry)
    : Tx (CycleReport * list AuditEntry) :=
  let '(rep, pending) := acc in
  let u1 := if activates u then activate now u else u in
  let u2 := if trips u1 then trip u1 else u1 in
  _ ← tx_when (activates u) (record "user.first_connected" (user_data u));
  _ ← tx_when (trips u1) (record "user.traffic_exceeded" (user_data u1 ++ usage_data u1));
  _ ← tx_when (negb (untouched u2))
        (tx_modify (fun s => s <| users ::= alter (write_user now u2) (cu_id u2) |>));
  tx_ret (rep <| cr_Activated ::= Z.add (if activates u then 1 else 0) |>
              <| cr_QuotaTripped ::= Z.add (if trips u1 then 1 else 0) |>,
          pending ++ (if activates u then [system_audit "user.activated" u []] else [])
                  ++ (if trips u1 then [system_audit "user.traffic_exceeded" u1 (usage_data u1)]
                      else [])).

Fixpoint settle_all (now : Z) (us : list cycleUser) (acc : CycleReport * list AuditEntry)
    : Tx (CycleReport * list AuditEntry) :=
  match us with
  | [] => tx_ret acc
  | u :: us => acc ← settle now u acc; settle_all now us acc
  end.

(** The users in the order [uorder] names them. *)
Definition in_order {A} (uorder : list string) (m : gmap string A) : list A :=
  omap (fun id => m !! id) uorder.

(** [cycleTx] over the observed peers and the users in the given orders. The
    sample buffer is not part of the transaction. *)
Definition cycleTx (observed : list (string * PeerState)) (uorder : list string) (interval : Z)
    (rep : CycleReport) (samples : accumulator) (s : store)
    : result err (CycleReport * list AuditEntry * store) * accumulator :=
  match loadRows s with
  | Err e => (Err e, samples)
  | Ok (devs, us) =>
      if bool_decide (devs = ∅) then (Ok (rep, [], s), samples)
      else
        let now := clock s in
        let l := fold_left (observe devs now interval) observed (MkLoop (devices s) us rep samples) in
        (match settle_all now (in_order uorder (ls_users l)) (ls_rep l, [])
                 (s <| devices := ls_devices l |>) with
         | Ok ((rep, pending), s') => Ok (rep, pending, s')
         | Err e => Err e
         end, ls_samples l)
  end.

(** *** The whole cycle *)

Definition append_audit (entries : list AuditEntry) (s : store) : store :=
  s <| audit_log ::= fun l => l ++ entries |>.

(** Enabled interfaces in name order. *)
Definition name_le (a b : Iface) : Prop := String.leb (i_Name a) (i_Name b) = true.
#[local] Instance name_le_dec a b : Decision (name_le a b).
Proof. unfold name_le. apply _. Defined.

Definition loadEnabledInterfaces (s : store) : list (string * string) :=
  (fun i => (i_ID i, i_Name i)) <$>
    merge_sort name_le
      (filter (fun i => i_Enabled i = true) (map_to_list (ifaces s)).*2).

(** The dumps: peers by public key (a later interface's peer replaces an
    earlier one's), whether metering was complete, and the failures. *)
Fixpoint dump_all (Dump : string -> result tunnel_error (list PeerState))
    (ifs : list (string * string)) (acc : gmap string PeerState * bool * list CycleError)
    : gmap string PeerState * bool * list CycleError :=
  match ifs with
  | [] => acc
  | (_, name) :: ifs =>
      let '(observed, complete, errors) := acc in
      dump_all Dump ifs
        match Dump name with
        | Ok peers => (fold_left (fun m p => <[ps_PublicKey p := p]> m) peers observed,
                       complete, errors)
        | Err ErrInterfaceNotFound => (observed, false, errors)
        | Err (TunnelFailed msg) => (observed, false, errors ++ [MkCycleError name msg])
        end
  end.

(** [applyShaper] from the shaper's answers: loading the groups, then one
    [Ensure] per interface. *)
Definition applyShaper (LoadGroups : option string) (Ensure : string -> bool * option string)
    (ifs : list (string * string)) (rep : CycleReport) : CycleReport :=
  match LoadGroups with
  | Some e => rep <| cr_ShaperError := e |>
  | None =>
      fold_left (fun rep '(_, name) =>
          match Ensure name with
          | (_, Some e) => rep <| cr_ShaperError := e |>
          | (applied, None) => rep <| cr_ShaperApplied ::= fun b => b || applied |>
          end) ifs rep
  end.

(** What the cycle calls outside the package. [rc_AfterMetering] returns the
    number of successors activated, an error and the store it leaves. *)
Record cycle_env := MkEnv {
  rc_Dump : string -> result tunnel_error (list PeerState);
  rc_Shaper : option (option string * (string -> bool * option string));
  rc_Audit : bool;
  rc_AfterMetering : option (store -> Z * option string * store);
  rc_Reconciler : option (store -> option string)
}.

Definition star_error (prefix msg : string) : CycleError := MkCycleError "*" (prefix +:+ msg).

Definition after_metering (env : cycle_env) (complete : bool) (rep : CycleReport) (s : store)
    : CycleReport * store :=
  match rc_AfterMetering env with
  | Some f =>
      if complete then
        let '(count, e, s') := f s in
        (let rep := rep <| cr_NextPlanActivated := count |> in
         match e with
         | Some msg => rep <| cr_Errors ::= fun l => l ++ [star_error "next-plan activation: " msg] |>
         | None => rep
         end, s')
      else (rep, s)
  | None => (rep, s)
  end.

Definition reconcile_after (env : cycle_env) (rep : CycleReport) (s : store) : CycleReport :=
  match rc_Reconciler env with
  | Some run =>
      if ReconcileNeeded rep then
        match run s with
        | Some msg => rep <| cr_Errors ::= fun l => l ++ [star_error "reconcile after enforcement: " msg] |>
        | None => rep <| cr_Reconciled := true |>
        end
      else rep
  | None => rep
  end.

Definition RunCycle (env : cycle_env) (interval : Z) (samples : accumulator) (s : store)
    : result err CycleReport * accumulator * store :=
  let ifs := loadEnabledInterfaces s in
  let '(observed, complete, errors) := dump_all (rc_Dump env) ifs (∅, true, []) in
  let rep := empty_report <| cr_Interfaces := Z.of_nat (length ifs) |> <| cr_Errors := errors |> in
  let rep := match rc_Shaper env with Some (lg, ens) => applyShaper lg ens ifs rep | None => rep end in
  match cycleTx (map_to_list observed) (map_to_list (users s)).*1 interval rep samples s with
  | (Err e, samples) => (Err e, samples, s)
  | (Ok (rep, pending, s'), samples) =>
      let s1 := if rc_Audit env then append_audit pending s' else s' in
      let '(rep, s2) := after_metering env complete rep s1 in
      (Ok (reconcile_after env rep s2), samples, s2)
  end.
End Service.
