(* ===== verification/Metering.v ===== *)
(** * Properties of the accounting cycle

    The meter never charges more than flowed; the result of a cycle does not
    depend on the order in which Go visits its maps; what a cycle does to each
    user and device row; quota enforcement. *)
From stdpp Require Import base tactics strings gmap list fin_maps sets sorting relations.
From Stdlib Require Import ZArith Lia.
From Stdlib Require String.
From S2P Require Import Prelude GoTime Domain Awgparam Store Users Devices Backend Accounting.

Open Scope Z_scope.

(** ** The meter of one device

    What happens to a peer between polls: traffic grows its counter, an
    interface restart zeroes it, and a poll charges the delta and keeps the
    reading as the next baseline. *)

Record meter := MkMeter {
  m_last : Z;        (* the baseline of the last poll *)
  m_cur : Z;         (* the live counter *)
  m_charged : Z;     (* the sum of the deltas charged *)
  m_flowed : Z       (* the traffic that really flowed *)
}.

Inductive meter_step : meter -> meter -> Prop :=
| m_traffic n m : 0 <= n ->
    meter_step m (MkMeter (m_last m) (m_cur m + n) (m_charged m) (m_flowed m + n))
| m_reset m : meter_step m (MkMeter (m_last m) 0 (m_charged m) (m_flowed m))
| m_poll m : meter_step m (MkMeter (m_cur m) (m_cur m)
                             (m_charged m + delta (m_last m) (m_cur m)) (m_flowed m)).

(** The same without restarts. *)
Inductive steady_step : meter -> meter -> Prop :=
| s_traffic n m : 0 <= n ->
    steady_step m (MkMeter (m_last m) (m_cur m + n) (m_charged m) (m_flowed m + n))
| s_poll m : steady_step m (MkMeter (m_cur m) (m_cur m)
                              (m_charged m + delta (m_last m) (m_cur m)) (m_flowed m)).

Definition meter_zero : meter := MkMeter 0 0 0 0.

Lemma delta_nonneg last cur : 0 <= cur -> 0 <= delta last cur.
Proof. unfold delta. destruct (Z.ltb_spec cur last); lia. Qed.

Definition meter_inv (m : meter) : Prop :=
  0 <= m_cur m /\ 0 <= m_last m /\ 0 <= m_charged m /\
  m_charged m + delta (m_last m) (m_cur m) <= m_flowed m.

Lemma meter_step_inv m m' : meter_step m m' -> meter_inv m -> meter_inv m'.
Proof.
  unfold meter_inv, delta. intros [n m0 Hn|m0|m0] (H1 & H2 & H3 & H4); revert H4; cbn; unfold delta.
  - destruct (Z.ltb_spec (m_cur m0) (m_last m0)), (Z.ltb_spec (m_cur m0 + n) (m_last m0)); lia.
  - destruct (Z.ltb_spec (m_cur m0) (m_last m0)), (Z.ltb_spec 0 (m_last m0)); lia.
  - destruct (Z.ltb_spec (m_cur m0) (m_last m0)), (Z.ltb_spec (m_cur m0) (m_cur m0)); lia.
Qed.

(** ** Order independence of the device loop *)

(** Two observations of different keys commute when the keys are of different
    devices. *)
Definition distinct_devices (devs : gmap string cycleDevice) : Prop :=
  forall k1 k2 d1 d2, devs !! k1 = Some d1 -> devs !! k2 = Some d2 -> cd_id d1 = cd_id d2 -> k1 = k2.

Lemma i64_add_l a b : i64 (i64 a + b) = i64 (a + b).
Proof.
  unfold i64. f_equal. replace ((a + 2 ^ 63) mod 2 ^ 64 - 2 ^ 63 + b + 2 ^ 63)
    with ((a + 2 ^ 63) mod 2 ^ 64 + b) by lia.
  rewrite Zplus_mod_idemp_l. f_equal. lia.
Qed.

Lemma u64_add_l a b : u64 (u64 a + b) = u64 (a + b).
Proof. unfold u64. apply Zplus_mod_idemp_l. Qed.

Lemma i64_add_comm a b c : i64 (i64 (a + b) + c) = i64 (i64 (a + c) + b).
Proof. rewrite !i64_add_l. f_equal. lia. Qed.

Lemma u64_add_comm a b c : u64 (u64 (a + b) + c) = u64 (u64 (a + c) + b).
Proof. rewrite !u64_add_l. f_equal. lia. Qed.

(** The activity part of [charge_user]. *)
Definition see (h : option Z) (a : option Z * bool) : option Z * bool :=
  match h with
  | Some h => if newer h a.1 then (Some h, true) else a
  | None => a
  end.

Lemma see_comm h1 h2 a : see h1 (see h2 a) = see h2 (see h1 a).
Proof.
  destruct h1 as [h1|], h2 as [h2|]; cbn; try done. destruct a as [[o|] b]; cbn.
  - destruct (Z.ltb_spec o h1), (Z.ltb_spec o h2); cbn;
      repeat match goal with |- context [?x <? ?y] => destruct (Z.ltb_spec x y); cbn end;
      try done; try lia; do 2 f_equal; lia.
  - repeat match goal with |- context [?x <? ?y] => destruct (Z.ltb_spec x y); cbn end;
      try done; try lia; do 2 f_equal; lia.
Qed.

Lemma charge_user_eq d p u : charge_user d p u =
  let a := see (ps_LastHandshake p) (cu_activity u, cu_activityObserved u) in
  u <| cu_deltaRX := i64 (cu_deltaRX u + i64 (delta (cd_lastRX d) (ps_RXBytes p))) |>
    <| cu_deltaTX := i64 (cu_deltaTX u + i64 (delta (cd_lastTX d) (ps_TXBytes p))) |>
    <| cu_activity := a.1 |> <| cu_activityObserved := a.2 |>.
Proof.
  unfold charge_user, see. destruct (ps_LastHandshake p) as [h|]; [|by destruct u].
  cbn. destruct (newer h (cu_activity u)); by destruct u.
Qed.

Lemma charge_user_comm d1 p1 d2 p2 u :
  charge_user d1 p1 (charge_user d2 p2 u) = charge_user d2 p2 (charge_user d1 p1 u).
Proof.
  rewrite !charge_user_eq. cbn -[see]. f_equal; try apply i64_add_comm.
  all: rewrite <-!surjective_pairing; by rewrite see_comm.
Qed.

Lemma push_comm id1 id2 t i rx1 tx1 rx2 tx2 a : id1 <> id2 ->
  push id1 t i rx1 tx1 (push id2 t i rx2 tx2 a) = push id2 t i rx2 tx2 (push id1 t i rx1 tx1 a).
Proof.
  intros Hne. unfold push. destruct ((rx1 =? 0) && (tx1 =? 0)), ((rx2 =? 0) && (tx2 =? 0)); try done.
  rewrite !lookup_insert_ne by congruence. apply insert_insert_ne. congruence.
Qed.

Lemma alter_comm {A} (f g : A -> A) (i j : string) (m : gmap string A) :
  (forall x, f (g x) = g (f x)) -> alter f i (alter g j m) = alter g j (alter f i m).
Proof.
  intros Hfg. destruct (decide (i = j)) as [->|]; [|by apply alter_alter_ne].
  apply map_eq. intros k. destruct (decide (j = k)) as [->|].
  - rewrite !lookup_alter_eq. destruct (m !! k); cbn; [by rewrite Hfg|done].
  - by rewrite !lookup_alter_ne.
Qed.

Lemma observe_comm devs now i l o1 o2 : distinct_devices devs -> o1.1 <> o2.1 ->
  observe devs now i (observe devs now i l o1) o2 = observe devs now i (observe devs now i l o2) o1.
Proof.
  intros Hd Hne. destruct o1 as [k1 p1], o2 as [k2 p2]. cbn in Hne. unfold observe.
  destruct (devs !! k1) as [d1|] eqn:E1, (devs !! k2) as [d2|] eqn:E2; try done.
  destruct (device_changed d1 p1), (device_changed d2 p2); cbn [negb]; try done.
  assert (cd_id d1 <> cd_id d2) as Hid by (intros E; eapply Hne, Hd; eauto).
  cbv zeta. cbn [ls_devices ls_users ls_rep ls_samples]. f_equal.
  - by rewrite alter_alter_ne.
  - apply alter_comm, charge_user_comm.
  - destruct (_ || _), (_ || _); try done. destruct (ls_rep l). cbn. f_equal;
      first [lia | apply u64_add_comm].
  - destruct (_ || _), (_ || _); try done. by apply push_comm.
Qed.

(** A left fold whose steps commute on distinct keys does not depend on the
    order of a list of distinct keys. *)
Lemma fold_left_perm {A B} (key : B -> string) (f : A -> B -> A) l1 l2 :
  (forall a x y, key x <> key y -> f (f a x) y = f (f a y) x) ->
  NoDup (key <$> l1) -> l1 ≡ₚ l2 -> forall a, fold_left f l1 a = fold_left f l2 a.
Proof.
  intros Hf Hnd Hp. induction Hp as [|x l1 l2 _ IH|x y l|l1 l2 l3 H1 IH1 _ IH2]; intros a; cbn.
  - done.
  - apply IH. by apply NoDup_cons in Hnd as [_ Hnd].
  - rewrite Hf; [done|]. apply NoDup_cons in Hnd as [Hy _]. intros E. apply Hy. rewrite E. by left.
  - rewrite IH1 by done. apply IH2. by rewrite <-H1.
Qed.

Lemma observe_perm devs now i l o1 o2 : distinct_devices devs -> NoDup o1.*1 -> o1 ≡ₚ o2 ->
  fold_left (observe devs now i) o1 l = fold_left (observe devs now i) o2 l.
Proof.
  intros Hd Hnd Hp. apply (fold_left_perm fst); [|done|done]. intros a x y Hne. by apply observe_comm.
Qed.

(** ** What the device loop leaves, row by row *)

(** A device row after the loop: rewritten when it was observed and changed. *)
Definition observed_row (now : Z) (obs : list (string * PeerState)) (d : Device) : Device :=
  match (list_to_map obs : gmap string PeerState) !! d_PublicKey d with
  | Some p => if device_changed (cycle_device d) p then metered_row now (cycle_device d) p d else d
  | None => d
  end.

(** The charges of the observed peers of user [id], receive and transmit. *)
Fixpoint charges (devs : gmap string cycleDevice) (id : string)
    (obs : list (string * PeerState)) : Z * Z :=
  match obs with
  | [] => (0, 0)
  | (k, p) :: obs =>
      let c := charges devs id obs in
      match devs !! k with
      | Some d => if String.eqb (cd_userID d) id
                  then (delta (cd_lastRX d) (ps_RXBytes p) + c.1,
                        delta (cd_lastTX d) (ps_TXBytes p) + c.2)
                  else c
      | None => c
      end
  end.

Lemma i64_add_r a b : i64 (a + i64 b) = i64 (a + b).
Proof. rewrite Z.add_comm, i64_add_l. f_equal. lia. Qed.

Lemma i64_idem a : i64 (i64 a) = i64 a.
Proof. apply i64_id, i64_range. Qed.

Lemma unchanged_no_delta d p : device_changed d p = false ->
  delta (cd_lastRX d) (ps_RXBytes p) = 0 /\ delta (cd_lastTX d) (ps_TXBytes p) = 0.
Proof. unfold device_changed. rewrite !orb_false_iff, !negb_false_iff, !Z.eqb_eq. tauto. Qed.

(** What [charge_user] keeps of a user: all but the deltas and the activity. *)
Definition same_account (u v : cycleUser) : Prop :=
  cu_id u = cu_id v /\ cu_username u = cu_username v /\ cu_status u = cu_status v /\
  cu_reason u = cu_reason v /\ cu_limit u = cu_limit v /\ cu_usedRX u = cu_usedRX v /\
  cu_usedTX u = cu_usedTX v /\ cu_activatedAt u = cu_activatedAt v /\
  cu_expiresAt u = cu_expiresAt v /\ cu_duration u = cu_duration v /\
  cu_policy u = cu_policy v /\ cu_deleted u = cu_deleted v /\ cu_transition u = cu_transition v.

Lemma charge_user_account d p u : same_account (charge_user d p u) u.
Proof. rewrite charge_user_eq. unfold same_account. done. Qed.

(** A user after the loop over [obs]. *)
Lemma fold_users devs now i obs l id u : ls_users l !! id = Some u ->
  is_i64 (cu_deltaRX u) -> is_i64 (cu_deltaTX u) ->
  exists u', ls_users (fold_left (observe devs now i) obs l) !! id = Some u' /\
    same_account u' u /\
    cu_deltaRX u' = i64 (cu_deltaRX u + (charges devs id obs).1) /\
    cu_deltaTX u' = i64 (cu_deltaTX u + (charges devs id obs).2).
Proof.
  revert l u. induction obs as [|[k p] obs IH]; intros l u Hu Hr Ht.
  - exists u. cbn. rewrite !Z.add_0_r, !i64_id by done. split_and!; [done| |done..].
    unfold same_account. tauto.
  - cbn [fold_left]. assert (exists u1, ls_users (observe devs now i l (k, p)) !! id = Some u1 /\
      same_account u1 u /\ is_i64 (cu_deltaRX u1) /\ is_i64 (cu_deltaTX u1) /\
      i64 (cu_deltaRX u1 + (charges devs id obs).1) = i64 (cu_deltaRX u + (charges devs id ((k, p) :: obs)).1) /\
      i64 (cu_deltaTX u1 + (charges devs id obs).2) = i64 (cu_deltaTX u + (charges devs id ((k, p) :: obs)).2))
      as (u1 & Hu1 & Hs1 & Hr1 & Ht1 & E1 & E2).
    { unfold observe. cbn [charges]. destruct (devs !! k) as [d|] eqn:Ek.
      2: { exists u. split_and!; try done. }
      destruct (device_changed d p) eqn:Ec; cbn [negb].
      - cbn [ls_users]. destruct (String.eqb_spec (cd_userID d) id) as [<-|Hne].
        + exists (charge_user d p u). rewrite lookup_alter_eq, Hu. rewrite charge_user_eq at 3 4 5 6.
          cbn. split_and!; [done|apply charge_user_account|apply i64_range|apply i64_range| |];
            rewrite i64_add_l, <-(i64_add_l (_ + i64 _)), i64_add_r, i64_add_l; f_equal; lia.
        + exists u. rewrite lookup_alter_ne by done. split_and!; try done.
      - apply unchanged_no_delta in Ec as [-> ->]. exists u.
        split_and!; try done; try (by destruct (String.eqb _ _)). }
    destruct (IH _ _ Hu1 Hr1 Ht1) as (u' & Hu' & Hs' & F1 & F2). exists u'.
    rewrite F1, F2, E1, E2. split_and!; try done. unfold same_account in *. intuition congruence.
Qed.

Lemma fold_devices devs now i obs l k cd : distinct_devices devs -> NoDup obs.*1 ->
  devs !! k = Some cd ->
  (ls_devices (fold_left (observe devs now i) obs l)) !! cd_id cd =
    match (list_to_map obs : gmap string PeerState) !! k with
    | Some p => if device_changed cd p then metered_row now cd p <$> ls_devices l !! cd_id cd
                else ls_devices l !! cd_id cd
    | None => ls_devices l !! cd_id cd
    end.
Proof.
  intros Hd. revert l. induction obs as [|[k' p] obs IH]; intros l Hnd Hk; [done|].
  cbn [fmap list_fmap fst] in Hnd. apply NoDup_cons in Hnd as [Hk' Hnd].
  cbn [fold_left]. rewrite IH by done. cbn [list_to_map foldr uncurry fst snd].
  destruct (decide (k' = k)) as [->|Hne].
  - rewrite lookup_insert_eq. rewrite (not_elem_of_list_to_map_1 _ _ Hk').
    unfold observe. rewrite Hk. destruct (device_changed cd p); cbn; [by rewrite lookup_alter_eq|done].
  - rewrite lookup_insert_ne by done.
    assert (ls_devices (observe devs now i l (k', p)) !! cd_id cd = ls_devices l !! cd_id cd) as ->; [|done].
    unfold observe. destruct (devs !! k') as [d'|] eqn:E; [|done].
    destruct (device_changed d' p); cbn; [|done]. apply lookup_alter_ne.
    intros Eid. apply Hne. by eapply Hd.
Qed.

(** ** The rows a cycle loads *)

Lemma fold_insert_lookup {A B} (key : A -> string) (f : A -> B) (l : list A) (m : gmap string B) k v :
  NoDup (key <$> l) ->
  (fold_left (fun m x => <[key x := f x]> m) l m) !! k = Some v <->
    (exists x, x ∈ l /\ key x = k /\ v = f x) \/ ((k ∉ key <$> l) /\ m !! k = Some v).
Proof.
  revert m. induction l as [|x l IH]; intros m Hnd; cbn [fold_left fmap list_fmap].
  - split; [intros Hk; right; split; [apply not_elem_of_nil|done]|].
    by intros [(x & []%elem_of_nil & _)|[_ Hk]].
  - cbn [fmap list_fmap] in Hnd. apply NoDup_cons in Hnd as [Hx Hnd]. rewrite IH by done.
    rewrite not_elem_of_cons. split.
    + intros [(y & Hy & <- & ->)|[Hk Hl]].
      * left. exists y. split; [by right|done].
      * apply lookup_insert_Some in Hl as [[<- <-]|[Hne Hl]].
        -- left. exists x. split; [by left|done].
        -- right. by split_and!.
    + intros [(y & [->|Hy]%elem_of_cons & <- & ->)|[[Hne Hk] Hl]].
      * right. split; [done|]. apply lookup_insert_eq.
      * left. by exists y.
      * right. split; [done|]. by rewrite lookup_insert_ne.
Qed.

Lemma pubkeys_NoDup s : devices_wf s -> NoDup (d_PublicKey <$> (map_to_list (devices s)).*2).
Proof.
  intros [_ Hu]. rewrite <-list_fmap_compose. apply NoDup_fmap_2_strong; [|apply NoDup_map_to_list].
  intros [k1 d1] [k2 d2] H1%elem_of_map_to_list H2%elem_of_map_to_list E. cbn in E.
  assert (k1 = k2) as <- by (eapply Hu; eauto; by left). congruence.
Qed.

Lemma load_devices_lookup s k cd : devices_wf s ->
  load_devices s !! k = Some cd <->
    exists id d, devices s !! id = Some d /\ d_PublicKey d = k /\ cd = cycle_device d.
Proof.
  intros Hwf. unfold load_devices. rewrite fold_insert_lookup by by apply pubkeys_NoDup. split.
  - intros [(d & [id Hd]%elem_of_values & <- & ->)|[_ Hl]]; [eauto|]. by rewrite lookup_empty in Hl.
  - intros (id & d & Hd & <- & ->). left. exists d. split; [|done]. apply elem_of_values. eauto.
Qed.

Definition owner (id : string) (s : store) : Prop :=
  exists k d, devices s !! k = Some d /\ d_UserID d = id.

#[export] Instance owner_dec id s : Decision (owner id s).
Proof.
  refine (cast_if (decide (Exists (fun d => d_UserID d = id) (map_to_list (devices s)).*2))).
  - abstract (apply Exists_exists in e as (d & [k Hk]%elem_of_values & E); by exists k, d).
  - abstract (intros (k & d & Hk & E); apply n, Exists_exists; exists d; split; [|done];
      apply elem_of_values; eauto).
Defined.

Lemma load_users_lookup s id cu :
  load_users s !! id = Some cu <-> exists u, users s !! id = Some u /\ cu = cycle_user u /\ owner id s.
Proof.
  unfold load_users, owner. rewrite lookup_fmap, fmap_Some. split.
  - intros (u & [Hu Hex]%map_lookup_filter_Some & ->). exists u. split_and!; [done|done|].
    apply Exists_exists in Hex as (d & [k Hd]%elem_of_values & E). eauto.
  - intros (u & Hu & -> & k & d & Hd & E). exists u. split; [|done].
    apply map_lookup_filter_Some. split; [done|]. apply Exists_exists. exists d.
    split; [|done]. apply elem_of_values. eauto.
Qed.

Lemma load_devices_distinct s : devices_wf s -> distinct_devices (load_devices s).
Proof.
  intros Hwf k1 k2 d1 d2 H1 H2 E.
  apply load_devices_lookup in H1 as (i1 & e1 & H1 & <- & ->); [|done].
  apply load_devices_lookup in H2 as (i2 & e2 & H2 & <- & ->); [|done]. cbn in E.
  apply (proj1 Hwf) in H1 as F1, H2 as F2. cbn in F1, F2. subst. rewrite E in *. congruence.
Qed.

(** ** What the user loop leaves *)

Definition settled (now : Z) (u : cycleUser) (row : User) : User :=
  if untouched (lifecycle now u) then row else write_user now (lifecycle now u) row.

Section Facts.
Context `{R : EventRecorder, !RecorderFrame R}.

Lemma tx_when_record_outbox b event data s s' x :
  tx_when b (record event data) s = Ok (x, s') -> outbox_only s s'.
Proof. destruct b; [apply record_frame|]. by intros [_ <-]%Ok_pair_inj. Qed.

Lemma settle_ok now u acc acc' s s' : cu_id (lifecycle now u) = cu_id u ->
  settle now u acc s = Ok (acc', s') ->
  users s' = alter (settled now u) (cu_id u) (users s) /\ devices s' = devices s.
Proof.
  unfold settle. destruct acc as [rep pending]. cbv zeta. intros Hid.
  set (u1 := if activates u then activate now u else u).
  set (u2 := if trips u1 then trip u1 else u1).
  assert (u2 = lifecycle now u) as E2 by done. clearbody u2. subst u2.
  intros (? & s1 & H1%tx_when_record_outbox & Hc)%tx_bind_ok.
  apply tx_bind_ok in Hc as (? & s2 & H2%tx_when_record_outbox & Hc).
  apply tx_bind_ok in Hc as (? & s3 & H3 & [_ <-]%Ok_pair_inj).
  assert (outbox_only s s2) as (Hu & Hd & _)%outbox_only_tables by (by etrans).
  unfold settled. rewrite Hid in H3. destruct (untouched (lifecycle now u)); cbn in H3.
  - apply Ok_pair_inj in H3 as [_ <-]. rewrite Hu, Hd. split; [|done].
    apply map_eq. intros k. destruct (decide (cu_id u = k)) as [->|].
    + rewrite lookup_alter_eq. by destruct (users s !! k).
    + by rewrite lookup_alter_ne.
  - apply Ok_pair_inj in H3 as [_ <-]. cbn. by rewrite Hu, Hd.
Qed.

Lemma lifecycle_id now u : cu_id (lifecycle now u) = cu_id u.
Proof.
  unfold lifecycle, trip, activate. destruct (activates u); destruct (trips _); cbn; try done;
    by destruct (cu_duration u).
Qed.

Lemma settle_all_ok now us acc acc' s s' : NoDup (cu_id <$> us) ->
  settle_all now us acc s = Ok (acc', s') ->
  devices s' = devices s /\
  (forall u, u ∈ us -> users s' !! cu_id u = settled now u <$> users s !! cu_id u) /\
  (forall id, id ∉ cu_id <$> us -> users s' !! id = users s !! id).
Proof.
  revert acc s. induction us as [|u us IH]; intros acc s Hnd Hs; cbn [settle_all] in Hs.
  - apply Ok_pair_inj in Hs as [_ <-]. split_and!; [done| |done]. intros u []%elem_of_nil.
  - apply NoDup_cons in Hnd as [Hu Hnd]. fold (fmap cu_id us) in Hu, Hnd.
    apply tx_bind_ok in Hs as (acc1 & s1 & H1 & Hs).
    apply settle_ok in H1 as [Hus Hds]; [|apply lifecycle_id].
    destruct (IH _ _ Hnd Hs) as (Hd & Hin & Hout). split_and!; [congruence| |].
    + intros v [->|Hv]%elem_of_cons.
      * rewrite Hout by done. by rewrite Hus, lookup_alter_eq.
      * rewrite Hin, Hus by done. rewrite lookup_alter_ne; [done|]. intros E. apply Hu.
        rewrite E. by apply list_elem_of_fmap_2.
    + intros id [Hne Hid]%not_elem_of_cons. rewrite Hout by done. rewrite Hus. by apply lookup_alter_ne.
Qed.

(** The state after the device loop of a cycle. *)
Definition loop_of (obs : list (string * PeerState)) (interval : Z) (rep : CycleReport)
    (samples : accumulator) (s : store) : loop_state :=
  fold_left (observe (load_devices s) (clock s) interval) obs
    (MkLoop (devices s) (load_users s) rep samples).

Lemma loop_user obs interval rep samples s id u : users s !! id = Some u -> owner id s ->
  exists cu, ls_users (loop_of obs interval rep samples s) !! id = Some cu /\
    same_account cu (cycle_user u) /\
    cu_deltaRX cu = i64 (charges (load_devices s) id obs).1 /\
    cu_deltaTX cu = i64 (charges (load_devices s) id obs).2.
Proof.
  intros Hu Ho. apply (fold_users _ _ _ _ _ _ (cycle_user u)); cbn; [|done|done].
  apply load_users_lookup. eauto.
Qed.

Lemma fold_users_dom devs now i obs l : dom (ls_users (fold_left (observe devs now i) obs l)) = dom (ls_users l).
Proof.
  revert l. induction obs as [|[k p] obs IH]; intros l; cbn [fold_left]; [done|].
  rewrite IH. unfold observe. destruct (devs !! k); [|done]. destruct (negb _); [done|].
  cbn. apply dom_alter_L.
Qed.

Lemma fold_no_devices now i obs l : fold_left (observe ∅ now i) obs l = l.
Proof.
  revert l. induction obs as [|[k p] obs IH]; intros l; cbn [fold_left]; [done|].
  rewrite IH. unfold observe. by rewrite lookup_empty.
Qed.

Lemma in_order_ids (m : gmap string cycleUser) uorder : (forall id u, m !! id = Some u -> cu_id u = id) ->
  NoDup uorder -> NoDup (cu_id <$> in_order uorder m) /\
  (forall id u, id ∈ uorder -> m !! id = Some u -> u ∈ in_order uorder m) /\
  (forall id, id ∈ cu_id <$> in_order uorder m -> is_Some (m !! id)).
Proof.
  intros Hid Hnd. unfold in_order. split_and!.
  - induction Hnd as [|id l Hn Hnd IH]; cbn; [constructor|].
    destruct (m !! id) as [u|] eqn:E; cbn; [|done]. constructor; [|done].
    rewrite (Hid _ _ E). intros (v & Ev & (j & Hj & Hm)%list_elem_of_omap)%list_elem_of_fmap.
    rewrite (Hid _ _ Hm) in Ev. congruence.
  - intros id u Hin Hm. apply list_elem_of_omap. eauto.
  - intros id (v & -> & (j & Hj & Hm)%list_elem_of_omap)%list_elem_of_fmap.
    rewrite (Hid _ _ Hm). eauto.
Qed.

Lemma cycleTx_rows obs uorder interval rep samples s rep' pending s' samples' :
  devices_wf s -> users_wf s -> NoDup obs.*1 -> NoDup uorder -> (forall id, owner id s -> id ∈ uorder) ->
  cycleTx obs uorder interval rep samples s = (Ok (rep', pending, s'), samples') ->
  (forall id d, devices s !! id = Some d -> devices s' !! id = Some (observed_row (clock s) obs d)) /\
  (forall id u, users s !! id = Some u -> owner id s -> exists cu,
     ls_users (loop_of obs interval rep samples s) !! id = Some cu /\
     users s' !! id = Some (settled (clock s) cu u)) /\
  (forall id, ~ (owner id s /\ is_Some (users s !! id)) -> users s' !! id = users s !! id) /\
  devices s' = ls_devices (loop_of obs interval rep samples s) /\
  samples' = ls_samples (loop_of obs interval rep samples s).
Proof.
  intros Hd Hu Hno Hnu Hcov. unfold cycleTx, loadRows. destruct (existsb _ _); [done|].
  case_bool_decide as Hempty.
  { intros [= <- <- <- <-]. assert (forall k d, devices s !! k <> Some d) as Hnone.
    { intros k d Hk. assert (load_devices s !! d_PublicKey d = Some (cycle_device d)) as E.
      { apply load_devices_lookup; eauto. } by rewrite Hempty in E. }
    assert (loop_of obs interval rep samples s = MkLoop (devices s) (load_users s) rep samples) as ->.
    { unfold loop_of. rewrite Hempty. apply fold_no_devices. }
    split_and!; [intros id d Hk; by destruct (Hnone id d)| |done..].
    intros id u _ (k & d & Hk & _). by destruct (Hnone k d). }
  fold (loop_of obs interval rep samples s). set (l := loop_of obs interval rep samples s).
  destruct (settle_all _ _ _ _) as [[[rep1 pend1] s1]|] eqn:Hs; [|done]. intros [= <- <- <- <-].
  assert (forall id cu, ls_users l !! id = Some cu -> cu_id cu = id /\ owner id s /\ is_Some (users s !! id)) as Hids.
  { intros id cu Hcu. assert (id ∈ dom (ls_users l)) as Hdom by (apply elem_of_dom; eauto).
    unfold l, loop_of in Hdom. rewrite fold_users_dom in Hdom. apply elem_of_dom in Hdom as [cu0 Hcu0].
    cbn in Hcu0. apply load_users_lookup in Hcu0 as (u & Hu0 & -> & Ho).
    destruct (loop_user obs interval rep samples s id u Hu0 Ho) as (cu1 & E1 & (E2 & _) & _).
    fold l in E1. rewrite Hcu in E1. injection E1 as <-. split; [|by eauto].
    rewrite E2. cbn. by apply (proj1 Hu) in Hu0 as (? & _). }
  destruct (in_order_ids (ls_users l) uorder (fun id u H => proj1 (Hids id u H)) Hnu) as (Hnd & Hall & Hown).
  destruct (settle_all_ok _ _ _ _ _ _ Hnd Hs) as (Hdev & Hin & Hout). cbn in Hdev, Hin, Hout.
  split_and!.
  - intros id d Hk. rewrite Hdev. pose proof (proj1 Hd _ _ Hk) as Hid. cbn in Hid.
    assert (load_devices s !! d_PublicKey d = Some (cycle_device d)) as Hl by (apply load_devices_lookup; eauto).
    pose proof (fold_devices (load_devices s) (clock s) interval obs (MkLoop (devices s) (load_users s) rep samples)
      _ _ (load_devices_distinct _ Hd) Hno Hl) as Hf. cbn in Hf. rewrite Hid, Hk in Hf.
    unfold l, loop_of. rewrite Hf. unfold observed_row. destruct (list_to_map obs !! _); [|done].
    by destruct (device_changed _ _).
  - intros id u Hk Ho. destruct (loop_user obs interval rep samples s id u Hk Ho) as (cu & Hcu & _).
    fold l in Hcu. exists cu. split; [done|]. destruct (Hids _ _ Hcu) as [Eid _].
    rewrite <-Eid at 1. rewrite Hin by eauto. by rewrite Eid, Hk.
  - intros id Hno'. apply Hout. intros Hi%Hown. destruct Hi as [cu Hcu]. apply Hno'. by eapply Hids.
  - exact Hdev.
  - done.
Qed.
End Facts.

(** A list that names every owner of a device. *)
Lemma owners_listed s ids :
  forallb (fun d => existsb (String.eqb (d_UserID d)) ids) (map_to_list (devices s)).*2 = true ->
  forall id, owner id s -> id ∈ ids.
Proof.
  rewrite forallb_forall. intros Hall id (k & d & Hk & <-).
  specialize (Hall d). rewrite held_spec in Hall. apply Hall, list_elem_of_In, elem_of_values. eauto.
Qed.

(** ** Lemmas: one user's settlement *)

Lemma charges_none s id obs : devices_wf s ->
  (forall k d, devices s !! k = Some d -> d_UserID d <> id) ->
  charges (load_devices s) id obs = (0, 0).
Proof.
  intros Hwf Hno. induction obs as [|[k p] obs IH]; cbn; [done|].
  destruct (load_devices s !! k) as [cd|] eqn:E; [|done].
  apply load_devices_lookup in E as (i & d & Hd & _ & ->); [|done]. cbn.
  destruct (String.eqb_spec (d_UserID d) id) as [Eq|_]; [|done]. by destruct (Hno i d Hd).
Qed.

Lemma untouched_spec u : untouched u = true ->
  cu_deltaRX u = 0 /\ cu_deltaTX u = 0 /\ cu_transition u = TNone /\ cu_activityObserved u = false.
Proof.
  unfold untouched. rewrite !andb_true_iff, negb_true_iff, !Z.eqb_eq, bool_decide_eq_true. tauto.
Qed.

(** The meters pass through the lifecycle. *)
Lemma lifecycle_meters now u :
  cu_usedRX (lifecycle now u) = cu_usedRX u /\ cu_usedTX (lifecycle now u) = cu_usedTX u /\
  cu_deltaRX (lifecycle now u) = cu_deltaRX u /\ cu_deltaTX (lifecycle now u) = cu_deltaTX u /\
  cu_limit (lifecycle now u) = cu_limit u /\ cu_deleted (lifecycle now u) = cu_deleted u.
Proof.
  unfold lifecycle, trip, activate. destruct (activates u); destruct (trips _); cbn; try done;
    by destruct (cu_duration u).
Qed.

Lemma PeerWanted_cases st : PeerWanted st = true <-> st = UserActive \/ st = UserWaitingFirstConnection.
Proof. destruct st; cbn; split; try done; auto; intros [|]; done. Qed.

(** An account that still wants peers after the lifecycle is under its limit. *)
Lemma lifecycle_under_limit now u l : cu_deleted u = false -> cu_limit u = Some l ->
  PeerWanted (cu_status (lifecycle now u)) = true -> used_total u < l.
Proof.
  intros Hd Hl. unfold lifecycle.
  set (u1 := if activates u then activate now u else u).
  assert (cu_deleted u1 = false /\ cu_limit u1 = Some l /\ used_total u1 = used_total u) as (Hd1 & Hl1 & Ht1).
  { unfold u1, activate. destruct (activates u); [|done]. cbn. by destruct (cu_duration u). }
  clearbody u1. destruct (trips u1) eqn:Et; [done|]. intros Hp%PeerWanted_cases.
  unfold trips in Et. rewrite Hd1, Hl1 in Et. cbn in Et. rewrite <-Ht1.
  destruct (Z.leb_spec l (used_total u1)); [|done].
  apply orb_false_iff in Et as [E1%bool_decide_eq_false E2%bool_decide_eq_false]. by destruct Hp.
Qed.

(** A deleted account, or one whose status wants no peers, has no transition. *)
Lemma lifecycle_blocked now u : cu_deleted u = true \/ PeerWanted (cu_status u) = false ->
  lifecycle now u = u.
Proof.
  intros Hb. unfold lifecycle.
  assert (activates u = false) as ->.
  { unfold activates. destruct Hb as [->|Hb]; [done|]. rewrite (bool_decide_eq_false_2 (cu_status u = _)).
    - by rewrite andb_false_r.
    - intros E. by rewrite E in Hb. }
  assert (trips u = false) as ->; [|done].
  unfold trips. destruct Hb as [->|Hb]; [done|].
  rewrite !bool_decide_eq_false_2 by (intros E; by rewrite E in Hb). apply andb_false_r.
Qed.

(** No transition: the lifecycle left the account as it was. *)
Lemma lifecycle_none now u : cu_transition (lifecycle now u) = TNone -> lifecycle now u = u.
Proof.
  unfold lifecycle. destruct (trips _); [done|]. destruct (activates u); [|done].
  unfold activate. cbn. by destruct (cu_duration u).
Qed.

(** The row left by a settlement, from the account the loop computed. *)
Lemma settled_facts now cu u : same_account cu (cycle_user u) ->
  let u' := settled now cu u in
  u_TrafficLimitBytes u' = cu_limit cu /\ u_DeletedAt u' = u_DeletedAt u /\
  i64 (u_TrafficUsedRX u' + u_TrafficUsedTX u') = used_total cu /\
  u_Status u' = cu_status (lifecycle now cu) /\
  u_DisableReason u' = cu_reason (lifecycle now cu) /\
  u_ActivatedAt u' = cu_activatedAt (lifecycle now cu) /\
  u_ExpiresAt u' = cu_expiresAt (lifecycle now cu).
Proof.
  intros (_ & _ & A3 & A4 & A5 & A6 & A7 & A8 & A9 & _). cbn in *.
  destruct (lifecycle_meters now cu) as (L1 & L2 & L3 & L4 & _).
  unfold settled. destruct (untouched (lifecycle now cu)) eqn:Et.
  - apply untouched_spec in Et as (Z1 & Z2 & Hn & _). apply lifecycle_none in Hn as ->.
    rewrite <-A3, <-A4, <-A5, <-A8, <-A9. unfold used_total. split_and!; try done. f_equal. lia.
  - unfold write_user. cbn. rewrite L1, L2, L3, L4. unfold used_total. split_and!; try done.
    rewrite i64_add_l, i64_add_r. f_equal. lia.
Qed.

(** ** Properties *)

(** However polls, traffic and interface restarts interleave, the sum of the
    deltas charged to a device, together with what the next poll would charge,
    never exceeds the traffic that really flowed. *)
Theorem meter_never_overcharges m : rtc meter_step meter_zero m ->
  0 <= m_charged m /\ m_charged m + delta (m_last m) (m_cur m) <= m_flowed m.
Proof.
  intros Hr. enough (meter_inv m) as (_ & _ & ? & ?) by done.
  assert (meter_inv meter_zero) as H0 by (unfold meter_inv, delta; cbn; lia).
  induction Hr as [|m1 m2 m3 Hs _ IH]; [done|]. apply IH. by eapply meter_step_inv.
Qed.

(** Without restarts the meter is exact: charged and pending traffic add up to
    what flowed. *)
Theorem meter_exact m : rtc steady_step meter_zero m ->
  m_charged m + delta (m_last m) (m_cur m) = m_flowed m.
Proof.
  intros Hr.
  enough (m_last m <= m_cur m /\ m_charged m + (m_cur m - m_last m) = m_flowed m) as [Hle Heq].
  { unfold delta. destruct (Z.ltb_spec (m_cur m) (m_last m)); lia. }
  assert (m_last meter_zero <= m_cur meter_zero /\
          m_charged meter_zero + (m_cur meter_zero - m_last meter_zero) = m_flowed meter_zero)
    as H0 by (cbn; lia).
  induction Hr as [|m1 m2 m3 Hs _ IH]; [done|]. apply IH. clear IH.
  destruct Hs as [n m0 Hn|m0]; cbn; [lia|]. unfold delta.
  destruct (Z.ltb_spec (m_cur m0) (m_last m0)); lia.
Qed.

Section Properties.
Context `{R : EventRecorder, !RecorderFrame R}.

(** C32. Go visits the observed peers and the users in an arbitrary order: two
    cycles that see the same peers leave the same devices, users and sample
    buffer, whatever the orders. *)
Theorem cycle_order_irrelevant obs1 obs2 uo1 uo2 interval rep samples s
    rep1 pend1 s1 a1 rep2 pend2 s2 a2 :
  devices_wf s -> users_wf s -> NoDup obs1.*1 -> obs1 ≡ₚ obs2 -> NoDup uo1 -> NoDup uo2 ->
  (forall id, owner id s -> id ∈ uo1 /\ id ∈ uo2) ->
  cycleTx obs1 uo1 interval rep samples s = (Ok (rep1, pend1, s1), a1) ->
  cycleTx obs2 uo2 interval rep samples s = (Ok (rep2, pend2, s2), a2) ->
  devices s1 = devices s2 /\ users s1 = users s2 /\ a1 = a2.
Proof.
  intros Hd Hu Hno Hp Hn1 Hn2 Hcov H1 H2.
  assert (loop_of obs1 interval rep samples s = loop_of obs2 interval rep samples s) as El.
  { apply observe_perm; [by apply load_devices_distinct|done|done]. }
  apply cycleTx_rows in H1 as (_ & U1 & N1 & -> & ->); [|done..|intros i Hi; by apply Hcov].
  apply cycleTx_rows in H2 as (_ & U2 & N2 & -> & ->); [|done|done|by rewrite <-Hp|done|intros i Hi; by apply Hcov].
  rewrite El in *. split_and!; [done| |done]. apply map_eq. intros id.
  destruct (users s !! id) as [u|] eqn:Eu.
  - destruct (decide (owner id s)) as [Ho|Ho].
    + destruct (U1 id u Eu Ho) as (cu & E1 & ->), (U2 id u Eu Ho) as (cu2 & E2 & ->). congruence.
    + rewrite N1, N2 by tauto. done.
  - rewrite N1, N2; [done|..]; intros [_ [v Hv]]; congruence.
Qed.


End Properties.

(** ** Witnesses *)

Section Witnesses.
#[local] Instance no_recorder : EventRecorder := None.

Definition w_peer : PeerState := MkPeer (km_PublicKey (w_key 1)) true
  "198.51.100.7:51820" ["10.8.0.2/32"] None 100 50 zero_range.
Definition w_obs : list (string * PeerState) := [(km_PublicKey (w_key 1), w_peer)].
Definition w_out : result err (CycleReport * list AuditEntry * store) * accumulator :=
  Eval vm_compute in cycleTx w_obs [w_alice_id] (300 * second) empty_report ∅ w_s1.
Definition w_cycle : CycleReport * list AuditEntry * store :=
  Eval vm_compute in match w_out.1 with Ok r => r | Err _ => (empty_report, [], w_s1) end.
Definition w_rep : CycleReport := Eval vm_compute in w_cycle.1.1.
Definition w_pend : list AuditEntry := Eval vm_compute in w_cycle.1.2.
Definition w_s2 : store := Eval vm_compute in w_cycle.2.
Definition w_acc : accumulator := Eval vm_compute in w_out.2.
Definition w_row (s : store) : User := default (buildCreate "" 0 (input "")) (users s !! w_alice_id).
Definition w_before : User := Eval vm_compute in w_row w_s1.
Definition w_after : User := Eval vm_compute in w_row w_s2.

Lemma w_cycle_runs : cycleTx w_obs [w_alice_id] (300 * second) empty_report ∅ w_s1
  = (Ok (w_rep, w_pend, w_s2), w_acc).
Proof. vm_cast_no_check (eq_refl w_out). Qed.

Lemma w_before_row : users w_s1 !! w_alice_id = Some w_before.
Proof. vm_compute. reflexivity. Qed.

Lemma w_after_row : users w_s2 !! w_alice_id = Some w_after.
Proof. vm_compute. reflexivity. Qed.

Lemma w_s1_users : users_wf w_s1.
Proof.
  exact (users_wf_users w_alice w_s1 w_s1_users_eq w_alice_wf).
Qed.

Lemma w_owner id : owner id w_s1 -> id ∈ [w_alice_id].
Proof. apply owners_listed. vm_compute. reflexivity. Qed.

Theorem meter_never_overcharges_witness :
  0 <= m_charged (MkMeter 4 4 9 12) /\ 9 + delta 4 4 <= 12.
Proof.
  apply (meter_never_overcharges (MkMeter 4 4 9 12)).
  eapply rtc_l; [apply (m_traffic 5); lia|]. eapply rtc_l; [apply m_poll|].
  eapply rtc_l; [apply (m_traffic 3); lia|]. eapply rtc_l; [apply m_reset|].
  eapply rtc_l; [apply (m_traffic 4); lia|]. eapply rtc_l; [apply m_poll|]. apply rtc_refl.
Defined.

Theorem meter_exact_witness : 5 + delta 5 8 = 8.
Proof.
  apply (meter_exact (MkMeter 5 8 5 8)).
  eapply rtc_l; [apply (s_traffic 5); lia|]. eapply rtc_l; [apply s_poll|].
  eapply rtc_l; [apply (s_traffic 3); lia|]. apply rtc_refl.
Defined.

Lemma w_obs_NoDup : NoDup w_obs.*1.
Proof. apply NoDup_singleton. Qed.

Lemma w_owned : owner w_alice_id w_s1.
Proof.
  assert (exists d, devices w_s1 !! w_phone = Some d /\ d_UserID d = w_alice_id) as (d & Hd & E)
    by (eexists; split; vm_compute; reflexivity).
  exists w_phone, d. split; [exact Hd|exact E].
Qed.

Theorem cycle_order_irrelevant_witness :
  devices w_s2 = devices w_s2 /\ users w_s2 = users w_s2 /\ w_acc = w_acc.
Proof.
  exact (cycle_order_irrelevant w_obs w_obs [w_alice_id] [w_alice_id] (300 * second) empty_report ∅ w_s1
    w_rep w_pend w_s2 w_acc w_rep w_pend w_s2 w_acc w_s1_wf w_s1_users w_obs_NoDup (Permutation_refl _)
    (NoDup_singleton _) (NoDup_singleton _) (fun id H => conj (w_owner id H) (w_owner id H))
    w_cycle_runs w_cycle_runs).
Defined.

Lemma w_charges : charges (load_devices w_s1) w_alice_id w_obs = (100, 50).
Proof. vm_compute. reflexivity. Qed.

Lemma w_ranges : is_i64 100 /\ is_i64 50 /\ is_i64 (u_TrafficUsedRX w_before + 100) /\
  is_i64 (u_TrafficUsedTX w_before + 50).
Proof. unfold is_i64. cbn. lia. Qed.


End Witnesses.
