(* ===== verification/Corrections.v ===== *)
(** * Expiry, quota and meter corrections (internal/accounting)

    The expiry pass and the operators' actions on the charged counters and
    the allowance.  Each runs in one transaction; its audit entries follow the
    commit. *)
From stdpp Require Import base tactics strings gmap list fin_maps sets.
From Stdlib Require Import ZArith Lia.
From Stdlib Require String.
From S2P Require Import Prelude GoTime Domain Store Users Accounting.

Open Scope Z_scope.

Record Actor := MkActor { ac_Type : string; ac_ID : string }.
Definition actor_typ (a : Actor) : string :=
  if String.eqb (ac_Type a) "" then ActorSystem else ac_Type a.

Definition actor_audit (a : Actor) (action target : string) (metadata : json_obj) : AuditEntry :=
  MkAudit (actor_typ a) (ac_ID a) action target metadata.

Definition audited (enabled : bool) (entries : list AuditEntry) (s : store) : store :=
  if enabled then append_audit entries s else s.

(** ** The expiry pass *)

Record ExpiryReport := MkExpiry { xr_Expired : Z; xr_Reconciled : bool }.

(** [expires_at < ?] compares the stored texts. *)
Definition due (now : Z) (u : User) : bool :=
  bool_decide (u_DeletedAt u = None)
  && match u_ExpiresAt u with Some e => stored_lt e now | None => false end
  && PeerWanted (u_Status u).

Definition expire_row (now : Z) (u : User) : User :=
  u <| u_Status := UserExpired |> <| u_DisableReason := Some DisableExpired |> <| u_UpdatedAt := now |>.

Definition due_users (s : store) : list User :=
  filter (fun u => due (clock s) u = true) (map_to_list (users s)).*2.

Definition expire_all (now : Z) (s : store) : store :=
  s <| users ::= fmap (fun u => if due now u then expire_row now u else u) |>.

(** A never-activated account of the first-connection policy goes back to
    waiting, any other to active. *)
Definition revived (u : User) : UserStatus :=
  if bool_decide (u_ActivatedAt u = None) && bool_decide (u_StartPolicy u = StartFirstConnection)
  then UserWaitingFirstConnection else UserActive.

(** The level check that the corrections share: the status and the reason the
    row is written with, for a new [total] of charged bytes. *)
Definition level_check (u : User) (total : Z) : UserStatus * option DisableReason :=
  let st := u_Status u in
  match u_TrafficLimitBytes u with
  | Some limit =>
      if (bool_decide (st = UserActive) || bool_decide (st = UserWaitingFirstConnection))
         && (limit <=? total)
      then (UserTrafficExceeded, Some DisableTrafficLimit)
      else if bool_decide (st = UserTrafficExceeded) && (total <? limit) then (revived u, None)
      else (st, None)
  | None => (st, None)
  end.

Definition put_meters (now rx tx : Z) (u : User) : User :=
  let '(st, reason) := level_check u (i64 (rx + tx)) in
  u <| u_TrafficUsedRX := rx |> <| u_TrafficUsedTX := tx |> <| u_Status := st |>
    <| u_DisableReason := reason |> <| u_UpdatedAt := now |>.

Definition update_user (id : string) (f : User -> User) (s : store) : store :=
  s <| users ::= alter f id |>.

(** [used + d] for [d > 0], saturating at the largest [int64]. *)
Definition sat_add (used d : Z) : Z :=
  if 0 <? d then (if i64 (max_int64 - used) <? d then max_int64 else i64 (used + d)) else used.

(** [removeTraffic]'s arm of [adjustTraffic]: receive first, then transmit. *)
Definition drain (rx tx d : Z) : Z * Z :=
  let newRX := i64 (rx + d) in
  if newRX <? 0 then
    let newTX := i64 (tx + newRX) in
    (0, if newTX <? 0 then 0 else newTX)
  else (newRX, tx).

Definition adjust (rx tx d : Z) : Z * Z :=
  if 0 <=? d then (if i64 (max_int64 - rx) <? d then max_int64 else i64 (rx + d), tx)
  else drain rx tx d.

Section Service.
Context `{EventRecorder}.

Definition expiryTx : Tx (list User) := fun s =>
  let dueUsers := due_users s in
  match dueUsers with
  | [] => Ok ([], s)
  | _ => (_ ← tx_iter (fun u => record "user.expired"
                [("user_id", JsStr (u_ID u)); ("username", JsStr (u_Username u))]) dueUsers;
          tx_ret dueUsers) (expire_all (clock s) s)
  end.

(** The report, the reconciliation's failure if any, and the store. *)
Definition EnforceExpiry (audit : bool) (reconciler : option (store -> option string)) (s : store)
    : result err (ExpiryReport * option string) * store :=
  match WithTx expiryTx s with
  | (Err e, s) => (Err e, s)
  | (Ok dueUsers, s) =>
      let expired := Z.of_nat (length dueUsers) in
      if 0 <? expired then
        let s := audited audit ((fun u => MkAudit ActorSystem "" "user.expired" (u_ID u)
                   [("username", JsStr (u_Username u))]) <$> dueUsers) s in
        match reconciler with
        | Some run => match run s with
                      | Some msg => (Ok (MkExpiry expired false, Some msg), s)
                      | None => (Ok (MkExpiry expired true, None), s)
                      end
        | None => (Ok (MkExpiry expired false, None), s)
        end
      else (Ok (MkExpiry expired false, None), s)
  end.

(** ** Reset *)

Definition reset_row (now : Z) (u : User) : User :=
  u <| u_TrafficUsedRX := 0 |> <| u_TrafficUsedTX := 0 |>
    <| u_Status := if bool_decide (u_Status u = UserTrafficExceeded) then revived u else u_Status u |>
    <| u_DisableReason := None |> <| u_UpdatedAt := now |>.

Definition reset_devices (userID : string) (s : store) : store :=
  s <| devices ::= fmap (fun d => if String.eqb (d_UserID d) userID
         then d <| d_RXBytes := 0 |> <| d_TXBytes := 0 |> else d) |>.

Definition ResetTraffic (audit : bool) (userID : string) (actor : Actor)
    (samples : accumulator) (s : store) : result err unit * accumulator * store :=
  match live_user userID s with
  | None => (Err (E CodeUserNotFound), samples, s)
  | Some u =>
      let ids := d_ID <$> user_devices userID s in
      let s := reset_devices userID (update_user userID (reset_row (clock s)) s) in
      (Ok tt, clearDevices ids samples,
       audited audit [actor_audit actor "user.traffic_reset" userID
                        [("username", JsStr (u_Username u))]] s)
  end.

(** ** Quota *)

Record QuotaChange := MkQuotaChange {
  qc_Username : string;
  qc_Before : QuotaSnapshot;
  qc_After : QuotaSnapshot
}.

Definition revives (u : User) (limit : Z) : bool :=
  bool_decide (u_Status u = UserTrafficExceeded)
  && (u_TrafficUsedRX u <=? i64 (max_int64 - u_TrafficUsedTX u))
  && (i64 (u_TrafficUsedRX u + u_TrafficUsedTX u) <? limit).

Definition AddQuotaTx (userID : string) (bytes : Z) : Tx QuotaChange := fun s =>
  if bytes <=? 0 then Err (E CodeInvalidRequest)
  else match live_user userID s with
  | None => Err (E CodeUserNotFound)
  | Some u =>
      match u_TrafficLimitBytes u with
      | None => Err (E CodeInvalidRequest)
      | Some limit =>
          if i64 (max_int64 - bytes) <? limit then Err (E CodeInvalidRequest)
          else
            let before := MkSnapshot limit (u_TrafficUsedRX u) (u_TrafficUsedTX u) (u_Status u) in
            let limit' := i64 (limit + bytes) in
            let revive := revives u limit' in
            let status := if revive then revived u else u_Status u in
            let after := MkSnapshot limit' (u_TrafficUsedRX u) (u_TrafficUsedTX u) status in
            let data := [("user_id", JsStr userID); ("username", JsStr (u_Username u))] in
            (_ ← tx_modify (update_user userID (fun u =>
                   u <| u_TrafficLimitBytes := Some limit' |> <| u_Status := status |>
                     <| u_DisableReason := if revive then None else u_DisableReason u |>
                     <| u_UpdatedAt := clock s |>));
             _ ← tx_when revive (record "user.enabled" data);
             _ ← record "user.updated" data;
             tx_ret (MkQuotaChange (u_Username u) before after)) s
      end
  end.

Definition AddQuota (audit : bool) (userID : string) (bytes : Z) (actor : Actor) (s : store)
    : result err Z * store :=
  match WithTx (AddQuotaTx userID bytes) s with
  | (Err e, s) => (Err e, s)
  | (Ok c, s) =>
      (Ok (qs_TrafficLimitBytes (qc_After c)),
       audited audit [actor_audit actor "user.quota_increased" userID
         [("username", JsStr (qc_Username c));
          ("before_bytes", JsNum (qs_TrafficLimitBytes (qc_Before c)));
          ("added_bytes", JsNum bytes);
          ("after_bytes", JsNum (qs_TrafficLimitBytes (qc_After c)))]] s)
  end.

(** ** Meter corrections *)

(** The three corrections differ in the meters they compute and the audit
    data they add. *)
Definition correct (audit : bool) (userID action : string) (actor : Actor)
    (meters : User -> Z * Z) (extra : Z -> json_obj) (s : store) : result err unit * store :=
  match live_user userID s with
  | None => (Err (E CodeUserNotFound), s)
  | Some u =>
      let '(rx, tx) := meters u in
      (Ok tt, audited audit [actor_audit actor action userID
                 (("username", JsStr (u_Username u)) :: extra (i64 (rx + tx)))]
               (update_user userID (put_meters (clock s) rx tx) s))
  end.

Definition used_bytes (total : Z) : json_obj := [("used_bytes", JsNum total)].

Definition SetTraffic (audit : bool) (userID : string) (rxBytes txBytes : option Z)
    (actor : Actor) (s : store) : result err unit * store :=
  let neg o := match o with Some v => v <? 0 | None => false end in
  if neg rxBytes || neg txBytes then (Err (E CodeInvalidRequest), s)
  else if bool_decide (rxBytes = None) && bool_decide (txBytes = None)
  then (Err (E CodeInvalidRequest), s)
  else correct audit userID "user.traffic_set" actor
         (fun u => (default (u_TrafficUsedRX u) rxBytes, default (u_TrafficUsedTX u) txBytes))
         (fun total => used_bytes total
            ++ match rxBytes with Some v => [("rx_bytes", JsNum v)] | None => [] end
            ++ match txBytes with Some v => [("tx_bytes", JsNum v)] | None => [] end) s.

Definition addTraffic (audit : bool) (userID : string) (drx dtx : Z) (action : string)
    (actor : Actor) : store -> result err unit * store :=
  correct audit userID action actor
    (fun u => (sat_add (u_TrafficUsedRX u) drx, sat_add (u_TrafficUsedTX u) dtx)) used_bytes.

Definition AddTraffic (audit : bool) (userID : string) (rxBytes txBytes : Z) (actor : Actor)
    (s : store) : result err unit * store :=
  if (rxBytes <? 0) || (txBytes <? 0) || (i64 (rxBytes + txBytes) <=? 0)
  then (Err (E CodeInvalidRequest), s)
  else addTraffic audit userID rxBytes txBytes "user.traffic_added" actor s.

Definition adjustTraffic (audit : bool) (userID : string) (deltaBytes : Z) (action : string)
    (actor : Actor) : store -> result err unit * store :=
  correct audit userID action actor
    (fun u => adjust (u_TrafficUsedRX u) (u_TrafficUsedTX u) deltaBytes)
    (fun total => ("bytes", JsNum deltaBytes) :: used_bytes total).

Definition removeTraffic (audit : bool) (userID : string) (bytes : Z) (action : string)
    (actor : Actor) : store -> result err unit * store :=
  adjustTraffic audit userID (i64 (- bytes)) action actor.

Definition RemoveTraffic (audit : bool) (userID : string) (bytes : Z) (actor : Actor)
    (s : store) : result err unit * store :=
  if bytes <=? 0 then (Err (E CodeInvalidRequest), s)
  else removeTraffic audit userID bytes "user.traffic_removed" actor s.
End Service.

(** ** Lemmas *)

Lemma live_user_ok id s u : live_user id s = Some u -> users s !! id = Some u /\ u_DeletedAt u = None.
Proof.
  unfold live_user. destruct (users s !! id) as [v|]; [|done].
  destruct (u_DeletedAt v) eqn:E; [done|]. by intros [= ->].
Qed.

Lemma update_user_row id f s u : users s !! id = Some u -> users (update_user id f s) !! id = Some (f u).
Proof. intros Hu. cbn. by rewrite lookup_alter_eq, Hu. Qed.

Lemma update_user_other id f s k : k <> id -> users (update_user id f s) !! k = users s !! k.
Proof. intros Hk. cbn. by apply lookup_alter_ne. Qed.

Lemma audited_users b es s : users (audited b es s) = users s /\ devices (audited b es s) = devices s.
Proof. by destruct b. Qed.

(** A correction that succeeds wrote exactly the named live account. *)
Lemma correct_ok b id action actor meters extra s s' x :
  correct b id action actor meters extra s = (Ok x, s') ->
  exists u, live_user id s = Some u /\
    users s' !! id = Some (put_meters (clock s) (meters u).1 (meters u).2 u) /\
    (forall k, k <> id -> users s' !! k = users s !! k) /\ devices s' = devices s.
Proof.
  unfold correct. destruct (live_user id s) as [u|] eqn:Hl; [|done].
  destruct (meters u) as [rx tx] eqn:Em. intros [= _ <-]. exists u. rewrite Em. apply live_user_ok in Hl as Hl2. destruct Hl2 as [Hu _].
  destruct (audited_users b [actor_audit actor action id
    (("username", JsStr (u_Username u)) :: extra (i64 (rx + tx)))]
    (update_user id (put_meters (clock s) rx tx) s)) as [-> ->].
  split_and!; [done|exact (update_user_row id (put_meters (clock s) rx tx) s u Hu)| |done].
  intros k Hk. by apply update_user_other.
Qed.

(** The receive-first drain, on charged counters: their sum drops by the
    removed bytes, to zero at least, and neither grows. *)
Lemma drain_spec rx tx d : 0 <= rx <= max_int64 -> 0 <= tx <= max_int64 -> - max_int64 <= d < 0 ->
  let m := drain rx tx d in
  0 <= m.1 <= rx /\ 0 <= m.2 <= tx /\ m.1 + m.2 = Z.max 0 (rx + tx + d).
Proof.
  intros Hrx Htx Hd. unfold drain, max_int64 in *. rewrite (i64_id (rx + d)) by (unfold is_i64; lia).
  destruct (Z.ltb_spec (rx + d) 0); cbn; [|lia].
  rewrite i64_id by (unfold is_i64; lia). destruct (Z.ltb_spec (tx + (rx + d)) 0); cbn; lia.
Qed.

Lemma sat_add_spec used d : 0 <= used <= max_int64 -> 0 <= d <= max_int64 ->
  sat_add used d = Z.min max_int64 (used + d).
Proof.
  intros Hu Hd. unfold sat_add, max_int64 in *. rewrite (i64_id (_ - used)) by (unfold is_i64; lia).
  destruct (Z.ltb_spec 0 d); [|lia].
  destruct (Z.ltb_spec (9223372036854775807 - used) d); [lia|]. rewrite i64_id by (unfold is_i64; lia). lia.
Qed.

(** What a level check establishes: an account that may hold peers is below
    its limit, one over quota is at or above it (when it has one), and no
    other status is touched. *)
Definition level_ok (u : User) (total : Z) (st : UserStatus) : Prop :=
  (PeerWanted (u_Status u) = false /\ u_Status u <> UserTrafficExceeded -> st = u_Status u) /\
  (forall l, u_TrafficLimitBytes u = Some l ->
     (PeerWanted st = true -> total < l) /\
     (st = UserTrafficExceeded -> l <= total)).

Lemma level_check_ok u total : level_ok u total (level_check u total).1.
Proof.
  unfold level_ok, level_check. destruct (u_TrafficLimitBytes u) as [l|]; cbn; [|split; [done|done]].
  assert (PeerWanted (revived u) = true /\ revived u <> UserTrafficExceeded) as [Hr1 Hr2].
  { unfold revived. by destruct (bool_decide _ && bool_decide _). }
  destruct (bool_decide (u_Status u = UserActive) || bool_decide (u_Status u = UserWaitingFirstConnection))
    eqn:Elive; cbn [andb].
  - assert (PeerWanted (u_Status u) = true) as Hp.
    { apply orb_true_iff in Elive as [E%bool_decide_eq_true|E%bool_decide_eq_true]; by rewrite E. }
    destruct (Z.leb_spec l total); cbn.
    + split; [intros [E _]; congruence|]. intros l' [= <-]. split; [done|lia].
    + rewrite bool_decide_eq_false_2 by (intros E; by rewrite E in Hp). cbn.
      split; [done|]. intros l' [= <-]. split; [lia|]. intros E. by rewrite E in Hp.
  - apply orb_false_iff in Elive as [E1%bool_decide_eq_false E2%bool_decide_eq_false].
    case_bool_decide as Ex; cbn.
    + destruct (Z.ltb_spec total l); cbn.
      * split; [intros [_ E]; congruence|]. intros l' [= <-]. split; [lia|done].
      * split; [done|]. intros l' [= <-]. rewrite Ex. split; [done|lia].
    + split; [done|]. intros l' [= <-]. split; [|done]. by destruct (u_Status u).
Qed.

(** The row an expiry pass leaves. *)
Definition swept (now : Z) (u : User) : User := if due now u then expire_row now u else u.

Section Facts.
Context `{R : EventRecorder, !RecorderFrame R}.

Lemma tx_iter_record_outbox {A} (event : string) (data : A -> json_obj) l s s' x :
  tx_iter (fun a => record event (data a)) l s = Ok (x, s') -> outbox_only s s'.
Proof.
  intros Hi. apply (tx_iter_inv (fun s1 => outbox_only s s1) (fun a => record event (data a)) l s x s');
    [|reflexivity|exact Hi]. intros a s1 u s2 _ Hs Hr%record_frame. by etrans.
Qed.

Lemma expiryTx_ok s dues s' : expiryTx s = Ok (dues, s') ->
  dues = due_users s /\ users s' = swept (clock s) <$> users s /\ devices s' = devices s.
Proof.
  unfold expiryTx. cbv zeta. destruct (due_users s) as [|u us] eqn:Ed.
  - intros [<- <-]%Ok_pair_inj. split_and!; [done| |done].
    rewrite <-(map_fmap_id (users s)) at 1. apply map_fmap_ext. intros k v Hk. unfold swept.
    destruct (due (clock s) v) eqn:E; [|done]. exfalso.
    assert (v ∈ due_users s) as Hin; [|rewrite Ed in Hin; by apply elem_of_nil in Hin].
    apply list_elem_of_filter. split; [done|]. apply elem_of_values. eauto.
  - intros (x & s1 & Hi%tx_iter_record_outbox & [<- <-]%Ok_pair_inj)%tx_bind_ok.
    apply outbox_only_tables in Hi as (-> & -> & _). done.
Qed.

Lemma EnforceExpiry_ok audit rc s rep e s' : EnforceExpiry audit rc s = (Ok (rep, e), s') ->
  xr_Expired rep = Z.of_nat (length (due_users s)) /\
  users s' = swept (clock s) <$> users s /\ devices s' = devices s.
Proof.
  unfold EnforceExpiry. destruct (WithTx expiryTx s) as [[dues|] s1] eqn:Ew; [|done].
  apply WithTx_run, expiryTx_ok in Ew as (-> & Hu & Hd).
  destruct (0 <? _).
  - set (es := _ <$> due_users s). destruct (audited_users audit es s1) as [<- <-] in Hu, Hd.
    destruct rc as [run|]; [destruct (run _)|]; intros [= <- _ <-]; done.
  - by intros [= <- _ <-].
Qed.

Lemma AddQuotaTx_after id bytes s c s' : AddQuotaTx id bytes s = Ok (c, s') ->
  qs_TrafficLimitBytes (qc_After c) =
    i64 (default 0 (users s !! id ≫= u_TrafficLimitBytes) + bytes).
Proof.
  unfold AddQuotaTx. destruct (bytes <=? 0); [done|].
  destruct (live_user id s) as [u|] eqn:Hl; [|done]. apply live_user_ok in Hl as [-> _].
  cbn. destruct (u_TrafficLimitBytes u) as [limit|]; [|done].
  destruct (_ <? limit); [done|]. cbv zeta.
  intros (? & s1 & _ & Hc)%tx_bind_ok. apply tx_bind_ok in Hc as (? & s2 & _ & Hc).
  by apply tx_bind_ok in Hc as (? & s3 & _ & [<- _]%Ok_pair_inj).
Qed.

Lemma AddQuotaTx_ok id bytes s c s' : AddQuotaTx id bytes s = Ok (c, s') ->
  exists u limit, live_user id s = Some u /\ u_TrafficLimitBytes u = Some limit /\ 0 < bytes /\
    limit <= i64 (max_int64 - bytes) /\
    let revive := revives u (i64 (limit + bytes)) in
    users s' !! id = Some (u <| u_TrafficLimitBytes := Some (i64 (limit + bytes)) |>
                             <| u_Status := if revive then revived u else u_Status u |>
                             <| u_DisableReason := if revive then None else u_DisableReason u |>
                             <| u_UpdatedAt := clock s |>) /\
    (forall k, k <> id -> users s' !! k = users s !! k) /\ devices s' = devices s.
Proof.
  unfold AddQuotaTx. destruct (Z.leb_spec bytes 0); [done|].
  destruct (live_user id s) as [u|] eqn:Hl; [|done].
  destruct (u_TrafficLimitBytes u) as [limit|] eqn:El; [|done].
  destruct (Z.ltb_spec (i64 (max_int64 - bytes)) limit); [done|]. cbv zeta.
  intros (? & s1 & [_ <-]%Ok_pair_inj & Hc)%tx_bind_ok.
  apply tx_bind_ok in Hc as (? & s2 & Hw & Hc).
  apply tx_bind_ok in Hc as (? & s3 & Hr%record_frame & [_ <-]%Ok_pair_inj).
  match type of Hw with tx_when _ _ ?s0 = _ => assert (outbox_only s0 s2) as Ho end.
  { destruct (revives u _); [by eapply record_frame|by apply Ok_pair_inj in Hw as [_ <-]]. }
  assert (outbox_only _ s3) as (Hu & Hd & _)%outbox_only_tables by (etrans; [exact Ho|exact Hr]).
  exists u, limit. rewrite Hu, Hd. apply live_user_ok in Hl as Hl2. destruct Hl2 as [Hrow _].
  split_and!; [done|done|done|lia|by rewrite (update_user_row _ _ _ _ Hrow)| |done].
  intros k Hk. by apply update_user_other.
Qed.
End Facts.

(** ** Properties *)

(** Removing traffic takes exactly the requested bytes off the charged total,
    receive first, stopping at zero; no counter grows or goes negative, and
    the level check decides the status from the new total. *)
Theorem RemoveTraffic_spec audit id bytes actor s s' x u :
  users s !! id = Some u -> 0 <= u_TrafficUsedRX u <= max_int64 ->
  0 <= u_TrafficUsedTX u <= max_int64 -> u_TrafficUsedRX u + u_TrafficUsedTX u <= max_int64 ->
  bytes <= max_int64 ->
  RemoveTraffic audit id bytes actor s = (Ok x, s') ->
  exists u', users s' !! id = Some u' /\
    u_TrafficUsedRX u' + u_TrafficUsedTX u' =
      Z.max 0 (u_TrafficUsedRX u + u_TrafficUsedTX u - bytes) /\
    0 <= u_TrafficUsedRX u' <= u_TrafficUsedRX u /\ 0 <= u_TrafficUsedTX u' <= u_TrafficUsedTX u /\
    level_ok u (u_TrafficUsedRX u' + u_TrafficUsedTX u') (u_Status u') /\
    devices s' = devices s /\ forall k, k <> id -> users s' !! k = users s !! k.
Proof.
  intros Hu Hrx Htx Hsum Hb. unfold RemoveTraffic. destruct (Z.leb_spec bytes 0); [done|].
  unfold removeTraffic, adjustTraffic. intros (v & [Hv _]%live_user_ok & Hrow & Hoth & Hdev)%correct_ok.
  assert (v = u) as -> by congruence. exists (put_meters (clock s)
    (adjust (u_TrafficUsedRX u) (u_TrafficUsedTX u) (i64 (- bytes))).1
    (adjust (u_TrafficUsedRX u) (u_TrafficUsedTX u) (i64 (- bytes))).2 u).
  rewrite i64_id in * by (unfold is_i64, max_int64 in *; lia).
  unfold adjust in *. rewrite (proj2 (Z.leb_gt 0 (- bytes))) in * by lia.
  destruct (drain_spec (u_TrafficUsedRX u) (u_TrafficUsedTX u) (- bytes)) as (H1 & H2 & H3);
    [lia|lia|lia|].
  set (m := drain _ _ _) in *. clearbody m. destruct m as [rx tx]. cbn in H1, H2, H3.
  unfold put_meters in *. cbn [fst snd] in *.
  pose proof (level_check_ok u (i64 (rx + tx))) as Hl.
  destruct (level_check u (i64 (rx + tx))) as [st reason]. cbn in *.
  rewrite i64_id in Hl by (unfold is_i64, max_int64 in *; lia). split_and!; try done; lia.
Qed.

(** Adding traffic saturates each counter and never lowers one; with the sum
    in range the level check decides the status from the new total. *)
Theorem AddTraffic_spec audit id rxb txb actor s s' x u :
  users s !! id = Some u -> 0 <= u_TrafficUsedRX u <= max_int64 ->
  0 <= u_TrafficUsedTX u <= max_int64 -> rxb <= max_int64 -> txb <= max_int64 ->
  AddTraffic audit id rxb txb actor s = (Ok x, s') ->
  exists u', users s' !! id = Some u' /\
    u_TrafficUsedRX u' = Z.min max_int64 (u_TrafficUsedRX u + rxb) /\
    u_TrafficUsedTX u' = Z.min max_int64 (u_TrafficUsedTX u + txb) /\
    (u_TrafficUsedRX u' + u_TrafficUsedTX u' <= max_int64 ->
     level_ok u (u_TrafficUsedRX u' + u_TrafficUsedTX u') (u_Status u')) /\
    devices s' = devices s /\ forall k, k <> id -> users s' !! k = users s !! k.
Proof.
  intros Hu Hrx Htx Hr1 Ht1. unfold AddTraffic.
  destruct (_ || _) eqn:Eg; [done|]. rewrite !orb_false_iff, !Z.ltb_ge in Eg.
  unfold addTraffic. intros (v & [Hv _]%live_user_ok & Hrow & Hoth & Hdev)%correct_ok.
  assert (v = u) as -> by congruence. cbn [fst snd] in Hrow.
  rewrite !sat_add_spec in Hrow by lia. eexists. split; [exact Hrow|].
  unfold put_meters.
  set (rx := Z.min max_int64 (u_TrafficUsedRX u + rxb)). set (tx := Z.min max_int64 (u_TrafficUsedTX u + txb)).
  pose proof (level_check_ok u (i64 (rx + tx))) as Hl.
  destruct (level_check u (i64 (rx + tx))) as [st reason]. cbn in *. split_and!; try done.
  intros Hsum. rewrite i64_id in Hl; [done|]. unfold is_i64, max_int64 in *. lia.
Qed.

(** The sum that the level check reads wraps: an operator who sets the two
    counters of an over-quota account to values that overflow together gets
    the account reactivated, its usage above the limit. *)
Theorem SetTraffic_wraps id actor s u rx tx l :
  users s !! id = Some u -> u_DeletedAt u = None -> u_Status u = UserTrafficExceeded ->
  u_TrafficLimitBytes u = Some l -> 0 <= l <= max_int64 -> 0 <= rx <= max_int64 ->
  0 <= tx <= max_int64 -> max_int64 < rx + tx ->
  exists s' u', SetTraffic false id (Some rx) (Some tx) actor s = (Ok tt, s') /\
    users s' !! id = Some u' /\ PeerWanted (u_Status u') = true /\
    l < u_TrafficUsedRX u' + u_TrafficUsedTX u'.
Proof.
  intros Hu Hd Hs Hl Hlr Hr Ht Hsum. unfold SetTraffic, correct, live_user. rewrite Hu, Hd. cbv zeta.
  rewrite (proj2 (Z.ltb_ge rx 0)), (proj2 (Z.ltb_ge tx 0)) by lia. cbn.
  assert (level_check u (i64 (rx + tx)) = (revived u, None)) as Hover.
  { unfold level_check. rewrite Hl, Hs. cbn.
    assert (i64 (rx + tx) < 0) by (unfold i64, max_int64 in *; dlia).
    by rewrite (proj2 (Z.ltb_lt (i64 (rx + tx)) l)) by lia. }
  assert (PeerWanted (revived u) = true) as Hpw.
  { unfold revived. by destruct (bool_decide _ && bool_decide _). }
  eexists _, _. split_and!; [reflexivity|exact (update_user_row _ _ _ u Hu)| |].
  - unfold put_meters. by rewrite Hover.
  - unfold put_meters. rewrite Hover. cbn. lia.
Qed.

Section Properties.
Context `{R : EventRecorder, !RecorderFrame R}.


(** The expiry pass turns exactly the due accounts to expired and leaves every
    other row as it was; the due accounts are the live ones that may hold
    peers and whose expiry precedes now, whenever the two instants are not in
    the same second. A second pass at the same instant finds nothing. *)
Theorem EnforceExpiry_exact audit rc s rep e s' : EnforceExpiry audit rc s = (Ok (rep, e), s') ->
  (forall id, users s' !! id = swept (clock s) <$> users s !! id) /\
  xr_Expired rep = Z.of_nat (length (due_users s)) /\ devices s' = devices s /\
  (forall u t, u_ExpiresAt u = Some t -> year_ok t -> year_ok (clock s) ->
     t / second <> clock s / second ->
     due (clock s) u = true <-> u_DeletedAt u = None /\ PeerWanted (u_Status u) = true /\ t < clock s) /\
  (forall id u, users s' !! id = Some u -> due (clock s) u = false).
Proof.
  intros (Hn & Hu & Hd)%EnforceExpiry_ok. split_and!; [|done|done| |].
  - intros id. by rewrite Hu, lookup_fmap.
  - intros u t Ht Hy1 Hy2 Hs. unfold due. rewrite Ht, stored_lt_by_second by done.
    rewrite !andb_true_iff, bool_decide_eq_true, Z.ltb_lt.
    assert (t / second < clock s / second <-> t < clock s) as Hlt by (unfold second in *; dlia).
    tauto.
  - intros id u. rewrite Hu, lookup_fmap. destruct (users s !! id) as [v|]; [|done].
    intros [= <-]. unfold swept. destruct (due (clock s) v) eqn:E; [|done].
    unfold due. cbn. apply andb_false_r.
Qed.
End Properties.

(** ** Witnesses *)

Section Witnesses.
#[local] Instance no_recorder : EventRecorder := None.

Definition w_actor : Actor := MkActor "admin" "root".
Definition w_row (s : store) : User := default (buildCreate "" 0 (input "")) (users s !! w_alice_id).

(** Alice, 1100 bytes into an allowance of 1000. *)
Definition w_over : store :=
  Eval vm_compute in (SetTraffic false w_alice_id (Some 900) (Some 200) w_actor w_alice).2.
Definition w_user : User := Eval vm_compute in w_row w_over.
Definition w_removed : store :=
  Eval vm_compute in (RemoveTraffic false w_alice_id 500 w_actor w_over).2.
Definition w_added : store :=
  Eval vm_compute in (AddTraffic false w_alice_id 7 0 w_actor w_over).2.
Definition w_topped : store :=
  Eval vm_compute in (AddQuota false w_alice_id 500 w_actor w_over).2.
Definition w_late : store := Eval vm_compute in
  w_alice <| clock := 1800000000 * second |>
          <| users ::= fmap (fun u => u <| u_ExpiresAt := Some (1750000000 * second) |>) |>.
Definition w_expired : store := Eval vm_compute in (EnforceExpiry false None w_late).2.

Lemma w_user_row : users w_over !! w_alice_id = Some w_user.
Proof. vm_cast_no_check (eq_refl (Some w_user)). Qed.

Theorem RemoveTraffic_spec_witness : exists u', users w_removed !! w_alice_id = Some u' /\
  u_TrafficUsedRX u' + u_TrafficUsedTX u' = 600.
Proof.
  assert (RemoveTraffic false w_alice_id 500 w_actor w_over = (Ok tt, w_removed)) as Hrun
    by vm_cast_no_check (eq_refl (@Ok err unit tt, w_removed)).
  destruct (RemoveTraffic_spec false w_alice_id 500 w_actor w_over w_removed tt w_user w_user_row)
    as (u' & Hu' & Hsum & _); [cbn; unfold max_int64; lia..|exact Hrun|].
  exists u'. split; [exact Hu'|]. rewrite Hsum. reflexivity.
Defined.

Theorem AddTraffic_spec_witness : exists u', users w_added !! w_alice_id = Some u' /\
  u_TrafficUsedRX u' = 907.
Proof.
  assert (AddTraffic false w_alice_id 7 0 w_actor w_over = (Ok tt, w_added)) as Hrun
    by vm_cast_no_check (eq_refl (@Ok err unit tt, w_added)).
  destruct (AddTraffic_spec false w_alice_id 7 0 w_actor w_over w_added tt w_user w_user_row)
    as (u' & Hu' & Hrx & _); [cbn; unfold max_int64; lia..|exact Hrun|].
  exists u'. split; [exact Hu'|]. rewrite Hrx. reflexivity.
Defined.

Theorem SetTraffic_wraps_witness : exists s' u',
  SetTraffic false w_alice_id (Some max_int64) (Some 1) w_actor w_over = (Ok tt, s') /\
  users s' !! w_alice_id = Some u' /\ PeerWanted (u_Status u') = true /\
  1000 < u_TrafficUsedRX u' + u_TrafficUsedTX u'.
Proof.
  apply (SetTraffic_wraps w_alice_id w_actor w_over w_user max_int64 1 1000 w_user_row);
    [reflexivity|reflexivity|reflexivity|unfold max_int64; lia..].
Defined.


Theorem EnforceExpiry_exact_witness :
  forallb (fun u => negb (due (clock w_late) u)) (map_to_list (users w_expired)).*2 = true /\
  xr_Expired (MkExpiry 1 false) = Z.of_nat (length (due_users w_late)).
Proof.
  assert (EnforceExpiry false None w_late = (Ok (MkExpiry 1 false, None), w_expired)) as Hrun
    by vm_cast_no_check (eq_refl (@Ok err (ExpiryReport * option string) (MkExpiry 1 false, None), w_expired)).
  destruct (EnforceExpiry_exact false None w_late (MkExpiry 1 false) None w_expired Hrun)
    as (_ & Hn & _ & _ & Hno). split; [|exact Hn].
  apply forallb_forall. intros u Hu. apply list_elem_of_In, elem_of_values in Hu as [k Hk].
  rewrite (Hno k u Hk). reflexivity.
Defined.
End Witnesses.
