(* ===== verification/Samples.v ===== *)
(** * Chart samples and rollups (internal/accounting/samples.go)

    The buffered deltas are flushed in one transaction into the samples and
    the hourly and daily rollups; pruning enforces the retention. *)
From stdpp Require Import base tactics strings gmap list fin_maps sets.
From Stdlib Require Import ZArith Lia.
From Stdlib Require String.
From S2P Require Import Prelude GoTime Domain Store Users Devices Accounting.

Open Scope Z_scope.

Definition sampleInterval (setting : option Z) : Z :=
  match setting with
  | Some n => if n <=? 0 then 300 * second else seconds n
  | None => 300 * second
  end.

Definition take (a : accumulator) : accumulator * accumulator := (a, ∅).

(** [INSERT ... ON CONFLICT DO UPDATE]: the row's counters grow. *)
Definition add_row `{Countable K} (k : K) (v : Z * Z) (m : gmap K (Z * Z)) : gmap K (Z * Z) :=
  <[k := match m !! k with Some o => (o.1 + v.1, o.2 + v.2) | None => v end]> m.

Definition flush_one (e : string * Z * (Z * Z)) (acc : Z * store) : Z * store :=
  let '(device, bucket, v) := e in
  let '(written, s) := acc in
  let v := (i64 v.1, i64 v.2) in
  match devices s !! device with
  | None => (written, s)
  | Some _ =>
      (written + 1,
       s <| traffic_samples ::= add_row (device, bucket) v |>
         <| traffic_rollups ::= add_row (device, GHourly, truncate bucket hour) v |>
         <| traffic_rollups ::= add_row (device, GDaily, truncate bucket day) v |>)
  end.

(** The number of sample rows written, the drained buffer and the store; the
    batch is visited in any order. *)
Definition FlushSamples (order : list (string * Z * (Z * Z))) (s : store) : Z * store :=
  fold_left (fun acc e => flush_one e acc) order (0, s).

Record PruneReport := MkPrune { pr_Samples : Z; pr_Hourly : Z; pr_Daily : Z }.

(** A retention setting: the registry's value when it is positive. *)
Definition retention (setting : option Z) (def : Z) : Z :=
  match setting with Some v => if 0 <? v then v else def | None => def end.

Definition old_rollup (g : Granularity) (cutoff : Z) (k : string * Granularity * Z) : bool :=
  bool_decide (k.1.2 = g) && stored_lt k.2 cutoff.

Definition Prune (sampleHours hourlyDays dailyDays : option Z) (now : Z) (s : store)
    : PruneReport * store :=
  let c_samples := time_add now (- i64 (retention sampleHours 48 * hour)) in
  let c_hourly := now - retention hourlyDays 30 * day in
  let c_daily := now - retention dailyDays 365 * day in
  let gone_s := filter (fun '(k, _) => stored_lt k.2 c_samples = true) (traffic_samples s) in
  let gone_h := filter (fun '(k, _) => old_rollup GHourly c_hourly k = true) (traffic_rollups s) in
  let gone_d := filter (fun '(k, _) => old_rollup GDaily c_daily k = true) (traffic_rollups s) in
  (MkPrune (Z.of_nat (size gone_s)) (Z.of_nat (size gone_h)) (Z.of_nat (size gone_d)),
   s <| traffic_samples := traffic_samples s ∖ gone_s |>
     <| traffic_rollups := traffic_rollups s ∖ gone_h ∖ gone_d |>).

(** ** Lemmas: sums over chart rows *)

(** The receive and transmit totals of the rows that [p] selects. *)
Definition row_sum `{Countable K} (p : K -> bool) (m : gmap K (Z * Z)) : Z * Z :=
  map_fold (fun k v acc => if p k then (v.1 + acc.1, v.2 + acc.2) else acc) (0, 0) m.

Lemma row_sum_insert `{Countable K} (p : K -> bool) (m : gmap K (Z * Z)) k v :
  m !! k = None -> row_sum p (<[k := v]> m) =
    if p k then (v.1 + (row_sum p m).1, v.2 + (row_sum p m).2) else row_sum p m.
Proof.
  intros Hk. unfold row_sum. rewrite map_fold_insert_L; [done| |done].
  intros k1 k2 v1 v2 acc _ _ _. destruct (p k1), (p k2); cbn; f_equal; lia.
Qed.

Lemma row_sum_add `{Countable K} (p : K -> bool) (m : gmap K (Z * Z)) k v :
  row_sum p (add_row k v m) =
    if p k then ((row_sum p m).1 + v.1, (row_sum p m).2 + v.2) else row_sum p m.
Proof.
  unfold add_row. destruct (m !! k) as [o|] eqn:E.
  - assert (row_sum p m = row_sum p (<[k := o]> (delete k m))) as -> by by rewrite insert_delete_id.
    rewrite <-(insert_delete_eq m), !row_sum_insert by apply lookup_delete_eq.
    destruct (p k); [|done]. cbn. f_equal; lia.
  - rewrite row_sum_insert by done. destruct (p k); [|done]. f_equal; lia.
Qed.

Lemma row_sum_empty `{Countable K} (p : K -> bool) : row_sum p (∅ : gmap K (Z * Z)) = (0, 0).
Proof. apply map_fold_empty. Qed.

(** ** Charts that agree *)

Definition width (g : Granularity) : Z := match g with GHourly => hour | GDaily => day end.

(** The samples of a device that a rollup bucket covers. *)
Definition in_bucket (d : string) (g : Granularity) (b : Z) (k : string * Z) : bool :=
  String.eqb k.1 d && (truncate k.2 (width g) =? b).

Definition rollup (s : store) (d : string) (g : Granularity) (b : Z) : Z * Z :=
  default (0, 0) (traffic_rollups s !! (d, g, b)).

(** Every rollup is the sum of the samples it covers. *)
Definition charts_ok (s : store) : Prop :=
  forall d g b, rollup s d g b = row_sum (in_bucket d g b) (traffic_samples s).

Lemma add_row_lookup `{Countable K} (k k' : K) v m :
  default (0, 0) (add_row k v m !! k') =
    if decide (k = k') then ((default (0, 0) (m !! k)).1 + v.1, (default (0, 0) (m !! k)).2 + v.2)
    else default (0, 0) (m !! k').
Proof.
  unfold add_row. destruct (decide (k = k')) as [<-|]; [|by rewrite lookup_insert_ne].
  rewrite lookup_insert_eq. cbn. destruct (m !! k) as [o|]; cbn; [done|]. by destruct v.
Qed.

Lemma flush_one_charts e n s : charts_ok s -> charts_ok (flush_one e (n, s)).2.
Proof.
  intros Hok. unfold flush_one. destruct e as [[d0 t] v]. destruct (devices s !! d0) as [dev|]; [|done]. cbn [snd].
  intros d g b. unfold rollup.
  match goal with |- context [traffic_rollups ?s1] =>
    change (traffic_rollups s1) with (add_row (d0, GDaily, truncate t day) (i64 v.1, i64 v.2)
      (add_row (d0, GHourly, truncate t hour) (i64 v.1, i64 v.2) (traffic_rollups s)));
    change (traffic_samples s1) with (add_row (d0, t) (i64 v.1, i64 v.2) (traffic_samples s))
  end.
  rewrite !add_row_lookup, row_sum_add.
  specialize (Hok d g b). unfold rollup in Hok. unfold in_bucket at 1. cbn.
  destruct (String.eqb_spec d0 d) as [->|Hne]; cbn.
  - destruct g; cbn.
    + rewrite decide_False by congruence. destruct (Z.eqb_spec (truncate t hour) b) as [<-|Hb].
      * rewrite decide_True by done. by rewrite Hok.
      * rewrite decide_False by congruence. done.
    + destruct (Z.eqb_spec (truncate t day) b) as [<-|Hb].
      * rewrite decide_True by done. rewrite (decide_False (P := _ = _)) by congruence. by rewrite Hok.
      * rewrite !decide_False by congruence. done.
  - rewrite !decide_False by congruence. done.
Qed.

(** The batch's contribution: the entries whose device still exists. *)
Fixpoint batch_sum (s : store) (p : string * Z -> bool) (order : list (string * Z * (Z * Z))) : Z * Z :=
  match order with
  | [] => (0, 0)
  | (d, t, v) :: order =>
      let c := batch_sum s p order in
      if bool_decide (is_Some (devices s !! d)) && p (d, t) then (i64 v.1 + c.1, i64 v.2 + c.2) else c
  end.

Lemma batch_sum_devices s s' p order : devices s' = devices s -> batch_sum s' p order = batch_sum s p order.
Proof. intros E. induction order as [|[[d t] v] order IH]; cbn; [done|]. by rewrite E, IH. Qed.

Lemma flush_one_devices e n s : devices (flush_one e (n, s)).2 = devices s.
Proof. unfold flush_one. destruct e as [[d t] v]. by destruct (devices s !! d). Qed.

Lemma flush_fold order n s :
  let r := fold_left (fun acc e => flush_one e acc) order (n, s) in
  (charts_ok s -> charts_ok r.2) /\ devices r.2 = devices s /\
  r.1 = n + Z.of_nat (length (filter (fun e => is_Some (devices s !! e.1.1)) order)) /\
  forall p, row_sum p (traffic_samples r.2) =
    ((row_sum p (traffic_samples s)).1 + (batch_sum s p order).1,
     (row_sum p (traffic_samples s)).2 + (batch_sum s p order).2).
Proof.
  revert n s. induction order as [|[[d t] v] order IH]; intros n s; cbn zeta.
  { cbn. split_and!; [done|done|lia|]. intros p. destruct (row_sum _ _). cbn. f_equal; lia. }
  cbn [fold_left]. set (m := flush_one (d, t, v) (n, s)).
  assert (devices m.2 = devices s) as Hd by apply flush_one_devices.
  destruct (IH m.1 m.2) as (H1 & H2 & H3 & H4). rewrite <-surjective_pairing in H1, H2, H3, H4.
  split_and!.
  - intros Hok. apply H1. by apply flush_one_charts.
  - congruence.
  - rewrite H3, Hd, filter_cons. unfold m, flush_one. cbn [fst snd].
    destruct (devices s !! d) eqn:E; cbn [fst].
    + rewrite decide_True by eauto. cbn [length]. lia.
    + rewrite decide_False; [done|]. by intros [? [=]].
  - intros p. rewrite H4, (batch_sum_devices s m.2) by done. cbn [batch_sum].
    assert (row_sum p (traffic_samples m.2) =
      if bool_decide (is_Some (devices s !! d)) && p (d, t)
      then ((row_sum p (traffic_samples s)).1 + i64 v.1, (row_sum p (traffic_samples s)).2 + i64 v.2)
      else row_sum p (traffic_samples s)) as ->.
    { unfold m, flush_one. destruct (devices s !! d) eqn:E.
      - rewrite bool_decide_eq_true_2 by eauto. cbn [andb]. apply row_sum_add.
      - rewrite bool_decide_eq_false_2 by (by intros [? [=]]). done. }
    destruct (bool_decide _ && p (d, t)); [|done]. cbn. f_equal; lia.
Qed.

(** ** Properties *)

(** A flush, in whatever order it visits the buffer, writes one sample per
    buffered entry of a device that still exists, adds exactly those deltas to
    the chart, and keeps the hourly and daily rollups equal to the sums of the
    samples they cover. *)
Theorem FlushSamples_conserves order s : charts_ok s ->
  let r := FlushSamples order s in
  charts_ok r.2 /\
  r.1 = Z.of_nat (length (filter (fun e => is_Some (devices s !! e.1.1)) order)) /\
  forall p, row_sum p (traffic_samples r.2) =
    ((row_sum p (traffic_samples s)).1 + (batch_sum s p order).1,
     (row_sum p (traffic_samples s)).2 + (batch_sum s p order).2).
Proof.
  intros Hok. cbv zeta. unfold FlushSamples.
  destruct (flush_fold order 0 s) as (H1 & _ & H3 & H4). split_and!; [by apply H1|exact H3|exact H4].
Qed.

(** Pruning removes exactly the rows whose stored time precedes its table's
    cutoff, and no other row, and reports their numbers. *)
Theorem Prune_exact sh hd dd now s rep s' : Prune sh hd dd now s = (rep, s') ->
  let cs := now - i64 (retention sh 48 * hour) in
  let ch := now - retention hd 30 * day in
  let cd := now - retention dd 365 * day in
  (forall k v, traffic_samples s' !! k = Some v <->
     traffic_samples s !! k = Some v /\ stored_lt k.2 cs = false) /\
  (forall d g b v, traffic_rollups s' !! (d, g, b) = Some v <->
     traffic_rollups s !! (d, g, b) = Some v /\
     stored_lt b (match g with GHourly => ch | GDaily => cd end) = false) /\
  pr_Samples rep = Z.of_nat (size (traffic_samples s)) - Z.of_nat (size (traffic_samples s')) /\
  devices s' = devices s /\ users s' = users s.
Proof.
  unfold Prune. intros [= <- <-]. cbn zeta. unfold time_add, old_rollup. split_and!; try done.
  - intros k v. cbn. rewrite lookup_difference_Some, map_lookup_filter_None.
    split; intros [H1 H2]; (split; [done|]).
    + destruct H2 as [H2|H2]; [congruence|]. apply not_true_iff_false. by eapply H2.
    + right. intros w _. apply not_true_iff_false. exact H2.
  - intros d g b v. cbn. rewrite !lookup_difference_Some, !map_lookup_filter_None. cbn. destruct g; cbn.
    + split.
      * intros [[H1 [H2|H2]] _]; [congruence|]. split; [done|]. apply not_true_iff_false. by eapply H2.
      * intros [H1 H2]. split; [split; [done|]|]; right; intros w _; apply not_true_iff_false; [exact H2|done].
    + split.
      * intros [[H1 _] [H2|H2]]; [congruence|]. split; [done|]. apply not_true_iff_false. by eapply H2.
      * intros [H1 H2]. split; [split; [done|]|]; right; intros w _; apply not_true_iff_false; [done|exact H2].
  - cbn. set (gone := filter _ (traffic_samples s)).
    rewrite <-(map_difference_union gone (traffic_samples s)) at 1 by apply map_filter_subseteq.
    rewrite map_size_disj_union by (by apply map_disjoint_difference_r1). lia.
Qed.

(** ** Witnesses *)

Definition w_batch : list (string * Z * (Z * Z)) :=
  [("gone", 300 * second, (5, 6)); (w_phone, 300 * second, (7, 8)); (w_phone, 600 * second, (1, 1))].
Definition w_flushed : store := Eval vm_compute in (FlushSamples w_batch w_s1).2.

Lemma w_s1_charts : charts_ok w_s1.
Proof.
  assert (traffic_samples w_s1 = ∅) as Es by vm_cast_no_check (eq_refl (∅ : gmap (string * Z) (Z * Z))).
  assert (traffic_rollups w_s1 = ∅) as Er
    by vm_cast_no_check (eq_refl (∅ : gmap (string * Granularity * Z) (Z * Z))).
  intros d g b. unfold rollup. by rewrite Es, Er, row_sum_empty, lookup_empty.
Qed.

Theorem FlushSamples_conserves_witness : (FlushSamples w_batch w_s1).1 = 2 /\
  charts_ok (FlushSamples w_batch w_s1).2.
Proof.
  destruct (FlushSamples_conserves w_batch w_s1 w_s1_charts) as (Hc & Hn & _).
  split; [|exact Hc]. rewrite Hn. vm_cast_no_check (eq_refl 2).
Defined.

Theorem Prune_exact_witness : pr_Samples (Prune None None None (200000 * second) w_flushed).1 = 2.
Proof.
  destruct (Prune None None None (200000 * second) w_flushed) as [rep s'] eqn:E.
  destruct (Prune_exact None None None (200000 * second) w_flushed rep s' E) as (_ & _ & Hn & _).
  cbn [fst]. rewrite Hn. replace s' with (Prune None None None (200000 * second) w_flushed).2 by (by rewrite E).
  vm_cast_no_check (eq_refl 2).
Defined.
