(* ===== verification/Plans.v ===== *)
(** * Plans (internal/plan)

    Reusable subscription presets: their validation and storage, their
    deletion while accounts or queued successors refer to them, and the
    entitlement an account created from one receives. *)
From stdpp Require Import base tactics strings gmap list fin_maps sets sorting.
From Stdlib Require Import ZArith Lia.
From Stdlib Require String.
From S2P Require Import Prelude GoTime Domain Store.
From S2P Require Import Users.

Open Scope Z_scope.

(** ** Requests *)

Record Input := MkInput {
  pi_Name : string;
  pi_TrafficLimitBytes : OptInt64;
  pi_DurationSeconds : option Z;
  pi_StartPolicy : StartPolicy;
  pi_DeviceLimit : OptInt;
  pi_SpeedLimitDownKbps : OptInt;
  pi_SpeedLimitUpKbps : OptInt;
  pi_InterfaceID : OptString;
  pi_Enabled : option bool
}.

Definition bad_policy (p : StartPolicy) : bool :=
  negb (bool_decide (p = StartPolicyAbsent)) && negb (StartPolicy_Valid p).

Definition validate (i : Input) : result err unit :=
  if String.eqb (trim_space (pi_Name i)) "" || (64 <? Z.of_nat (String.length (pi_Name i)))
  then Err (E CodeInvalidRequest)
  else if Users.bad_limit false (pi_TrafficLimitBytes i) then Err (E CodeInvalidRequest)
  else if match pi_DurationSeconds i with Some d => d <=? 0 | None => false end
  then Err (E CodeInvalidRequest)
  else if existsb (Users.bad_limit true)
            [pi_DeviceLimit i; pi_SpeedLimitDownKbps i; pi_SpeedLimitUpKbps i]
  then Err (E CodeInvalidRequest)
  else if bad_policy (pi_StartPolicy i) then Err (E CodeInvalidRequest)
  else Ok tt.

(** A stored pointer wrapped back for the validation of the merged state. *)
Definition optOfPtr (v : option Z) : OptInt64 :=
  match v with Some v => OptVal v | None => OptAbsent end.

(** ** Storage *)

Definition name_taken (name id : string) (s : store) : bool :=
  existsb (fun p => String.eqb (p_Name p) name && negb (String.eqb (p_ID p) id))
    (map_to_list (templates s)).*2.

(** The columns written from a [Plan]: an empty profile becomes NULL. *)
Definition plan_columns (p : Plan) : Plan := p <| p_InterfaceID ::= nullText |>.

Definition put_plan (p : Plan) (s : store) : store := s <| templates ::= <[p_ID p := p]> |>.

Definition insert (p : Plan) (s : store) : result err unit * store :=
  let row := plan_columns p in
  if bool_decide (is_Some (templates s !! p_ID row)) || name_taken (p_Name row) (p_ID row) s
  then (Err (E CodeInvalidRequest), s)
  else if negb (fk (ifaces s) (p_InterfaceID row)) then (Err (Plain "plan: insert"), s)
  else (Ok tt, put_plan row s).

Definition new_plan (id : string) (now : Z) (i : Input) : Plan :=
  {| p_ID := id;
     p_Name := trim_space (pi_Name i);
     p_TrafficLimitBytes := Users.create_limit (pi_TrafficLimitBytes i);
     p_DurationSeconds := pi_DurationSeconds i;
     p_StartPolicy := if bool_decide (pi_StartPolicy i = StartPolicyAbsent) then StartImmediate
                      else pi_StartPolicy i;
     p_DeviceLimit := Users.create_limit (pi_DeviceLimit i);
     p_SpeedLimitDownKbps := Users.create_limit (pi_SpeedLimitDownKbps i);
     p_SpeedLimitUpKbps := Users.create_limit (pi_SpeedLimitUpKbps i);
     p_InterfaceID := resolveString (pi_InterfaceID i) None;
     p_Enabled := match pi_Enabled i with Some b => b | None => true end;
     p_CreatedAt := now;
     p_UpdatedAt := now |}.

Definition Create `{Entropy} (i : Input) (s : store) : result err Plan * store :=
  match validate i with
  | Err e => (Err e, s)
  | Ok _ =>
      match new_id s with
      | Err e => (Err e, s)
      | Ok (id, s) =>
          let p := new_plan id (clock s) i in
          let '(r, s) := insert p s in
          (_ ← r; Ok p, s)
      end
  end.

Definition Get (id : string) (s : store) : result err Plan :=
  match templates s !! id with Some p => Ok p | None => Err (E CodePlanNotFound) end.

Definition GetTx (id : string) : Tx Plan := fun s => p ← Get id s; Ok (p, s).

(** The request applied to the row that was read. *)
Definition merge (p : Plan) (i : Input) : result err Plan :=
  let p := p <| p_Name := if String.eqb (pi_Name i) "" then p_Name p else trim_space (pi_Name i) |>
             <| p_TrafficLimitBytes ::= Resolve (pi_TrafficLimitBytes i) |>
             <| p_DurationSeconds := match pi_DurationSeconds i with
                                     | Some d => Some d | None => p_DurationSeconds p end |> in
  if bad_policy (pi_StartPolicy i) then Err (E CodeInvalidRequest)
  else Ok (p <| p_StartPolicy := if bool_decide (pi_StartPolicy i = StartPolicyAbsent)
                                 then p_StartPolicy p else pi_StartPolicy i |>
             <| p_DeviceLimit ::= Resolve (pi_DeviceLimit i) |>
             <| p_SpeedLimitDownKbps ::= Resolve (pi_SpeedLimitDownKbps i) |>
             <| p_SpeedLimitUpKbps ::= Resolve (pi_SpeedLimitUpKbps i) |>
             <| p_InterfaceID ::= resolveString (pi_InterfaceID i) |>
             <| p_Enabled := match pi_Enabled i with Some b => b | None => p_Enabled p end |>).

(** The merged state as it is validated again: without the duration and the
    start policy. *)
Definition merged_input (p : Plan) : Input :=
  MkInput (p_Name p) (optOfPtr (p_TrafficLimitBytes p)) None StartPolicyAbsent
    (optOfPtr (p_DeviceLimit p)) (optOfPtr (p_SpeedLimitDownKbps p))
    (optOfPtr (p_SpeedLimitUpKbps p)) OptStrAbsent None.

(** [Update] reads, validates, and then writes in a statement of its own. *)
Definition Update_read (id : string) (i : Input) (s : store) : result err Plan :=
  p ← Get id s;
  p ← merge p i;
  _ ← validate (merged_input p);
  Ok (p <| p_UpdatedAt := clock s |>).

Definition Update_commit (p : Plan) (s : store) : result err Plan * store :=
  let row := plan_columns p in
  match templates s !! p_ID p with
  | None => (Ok p, s)                        (* no row matches: nothing is written *)
  | Some old =>
      if name_taken (p_Name row) (p_ID row) s then (Err (E CodeInvalidRequest), s)
      else if negb (StartPolicy_Valid (p_StartPolicy row)) || negb (fk (ifaces s) (p_InterfaceID row))
      then (Err (Plain "plan: update"), s)
      else (Ok p, put_plan (row <| p_CreatedAt := p_CreatedAt old |>) s)
  end.

Definition Update (id : string) (i : Input) (s : store) : result err Plan * store :=
  match Update_read id i s with
  | Ok p => Update_commit p s
  | Err e => (Err e, s)
  end.

Definition assigned (id : string) (s : store) : bool :=
  existsb (fun u => bool_decide (u_TemplateID u = Some id) && bool_decide (u_DeletedAt u = None))
    (map_to_list (users s)).*2.

Definition queued (id : string) (s : store) : bool :=
  existsb (fun q => String.eqb (q_TemplateID q) id) (map_to_list (next_plan_queue s)).*2.

Definition Delete_read (id : string) (s : store) : result err unit :=
  if assigned id s then Err (E CodePlanInUse)
  else if queued id s then Err (E CodePlanInUse)
  else Ok tt.

(** [DELETE FROM templates]: queued successors restrict it, accounts lose the
    reference, product assignments go with it. *)
Definition Delete_commit (id : string) (s : store) : result err unit * store :=
  match templates s !! id with
  | None => (Err (E CodePlanNotFound), s)
  | Some _ =>
      if queued id s then (Err (Plain "plan: delete"), s)
      else (Ok tt, s <| templates ::= delete id |>
                     <| users ::= fmap (fun u => if bool_decide (u_TemplateID u = Some id)
                                                 then u <| u_TemplateID := None |> else u) |>
                     <| reseller_access ::= filter (fun a => a.2 <> id) |>)
  end.

Definition Delete (id : string) (s : store) : result err unit * store :=
  match Delete_read id s with
  | Ok _ => Delete_commit id s
  | Err e => (Err e, s)
  end.

(** [List]: all plans by name. *)
Definition plan_le (a b : Plan) : Prop := String.leb (p_Name a) (p_Name b) = true.
#[export] Instance plan_le_dec a b : Decision (plan_le a b).
Proof. unfold plan_le. apply _. Defined.
Definition List_ (s : store) : list Plan := merge_sort plan_le (map_to_list (templates s)).*2.

(** ** Provisioning from a plan (apply.go) *)

Definition optStringForCreate (v : option string) : OptString :=
  match v with Some v => MkOptString true false v | None => OptStrAbsent end.

Definition ApplyToUser (p : Plan) (i : Users.Input) : Users.Input :=
  i <| Users.in_TemplateID := MkOptString true false (p_ID p) |>
    <| Users.in_TrafficLimitBytes := optOfPtr (p_TrafficLimitBytes p) |>
    <| Users.in_DeviceLimit := optOfPtr (p_DeviceLimit p) |>
    <| Users.in_SpeedLimitDownKbps := optOfPtr (p_SpeedLimitDownKbps p) |>
    <| Users.in_SpeedLimitUpKbps := optOfPtr (p_SpeedLimitUpKbps p) |>
    <| Users.in_InterfaceID := optStringForCreate (p_InterfaceID p) |>
    <| Users.in_StartPolicy := p_StartPolicy p |>
    <| Users.in_DurationSeconds := p_DurationSeconds p |>
    <| Users.in_ExpiresAt := None |>.

(** ** What a stored plan satisfies *)

Definition plan_ok (p : Plan) : Prop :=
  p_Name p <> "" /\ Z.of_nat (String.length (p_Name p)) <= 64 /\
  StartPolicy_Valid (p_StartPolicy p) = true /\
  (forall v, p_TrafficLimitBytes p = Some v -> 0 <= v) /\
  (forall v, p_DeviceLimit p = Some v -> 0 < v) /\
  (forall v, p_SpeedLimitDownKbps p = Some v -> 0 < v) /\
  (forall v, p_SpeedLimitUpKbps p = Some v -> 0 < v).

Definition plans_wf (s : store) : Prop :=
  (forall id p, templates s !! id = Some p -> p_ID p = id /\ plan_ok p) /\
  (forall i j p q, templates s !! i = Some p -> templates s !! j = Some q ->
     p_Name p = p_Name q -> i = j).

(** Every way the table changes: an update may write what it read from any
    earlier store, and the rest of the program leaves the table alone. *)
Inductive plan_step `{Entropy} : store -> store -> Prop :=
| pstep_create i s : plan_step s (Create i s).2
| pstep_update id i s0 p s : Update_read id i s0 = Ok p -> plan_step s (Update_commit p s).2
| pstep_delete id s : plan_step s (Delete_commit id s).2
| pstep_other s s' : templates s' = templates s -> plan_step s s'.

(** ** Lemmas: trimming *)

Lemma strip_prefix_length p s r : strip_prefix p s = Some r -> (String.length r <= String.length s)%nat.
Proof.
  revert s. induction p as [|a p IH]; intros s; [by intros [= <-]|].
  destruct s as [|b s]; [done|]. cbn. destruct (Ascii.eqb a b); [|done]. intros H%IH. lia.
Qed.

Lemma strip_any_length ps s r : strip_any ps s = Some r -> (String.length r <= String.length s)%nat.
Proof.
  induction ps as [|p ps IH]; cbn; [done|]. destruct (strip_prefix p s) eqn:E; [|done].
  intros [= <-]. by eapply strip_prefix_length.
Qed.

Lemma trim_left_length fuel ps s : (String.length (trim_left fuel ps s) <= String.length s)%nat.
Proof.
  revert s. induction fuel as [|fuel IH]; intros s; cbn; [lia|].
  destruct (strip_any ps s) eqn:E; [|lia]. apply strip_any_length in E. specialize (IH s0). lia.
Qed.

Lemma str_rev_length s : String.length (str_rev s) = String.length s.
Proof.
  unfold str_rev. assert (forall l, String.length (String.string_of_list_ascii l) = length l) as Hl.
  { induction l; cbn; congruence. }
  rewrite Hl, length_rev. induction s; cbn; congruence.
Qed.

Lemma trim_space_length s : (String.length (trim_space s) <= String.length s)%nat.
Proof.
  unfold trim_space. rewrite str_rev_length.
  etrans; [apply trim_left_length|]. rewrite str_rev_length. apply trim_left_length.
Qed.

(** ** Lemmas: validation *)

Lemma bad_limit_create strict o v : bad_limit strict o = false -> create_limit o = Some v ->
  if strict then 0 < v else 0 <= v.
Proof.
  unfold bad_limit, create_limit. destruct (o_set o && negb (o_null o)) eqn:E; [|done].
  cbn. intros H [= <-]. destruct strict; lia.
Qed.

Lemma bad_limit_ptr strict v : bad_limit strict (optOfPtr (Some v)) = false ->
  if strict then 0 < v else 0 <= v.
Proof. cbn. destruct strict; lia. Qed.

Lemma validate_inv i : validate i = Ok tt ->
  trim_space (pi_Name i) <> "" /\ Z.of_nat (String.length (pi_Name i)) <= 64 /\
  bad_limit false (pi_TrafficLimitBytes i) = false /\
  (forall d, pi_DurationSeconds i = Some d -> 0 < d) /\
  bad_limit true (pi_DeviceLimit i) = false /\ bad_limit true (pi_SpeedLimitDownKbps i) = false /\
  bad_limit true (pi_SpeedLimitUpKbps i) = false /\ bad_policy (pi_StartPolicy i) = false.
Proof.
  unfold validate. destruct (_ || _) eqn:E1; [done|]. apply orb_false_iff in E1 as [E1 E2].
  apply String.eqb_neq in E1. destruct (bad_limit false _) eqn:E3; [done|].
  destruct (match pi_DurationSeconds i with Some _ => _ | None => _ end) eqn:E4; [done|].
  destruct (existsb _ _) eqn:E5; [done|]. cbn in E5. rewrite !orb_false_iff in E5.
  destruct (bad_policy _) eqn:E6; [done|]. intros _. split_and!; try tauto; [lia|].
  intros d Hd. rewrite Hd in E4. lia.
Qed.

Lemma new_plan_ok id now i : validate i = Ok tt -> plan_ok (plan_columns (new_plan id now i)).
Proof.
  intros (Hn & Hl & Ht & Hd & Hv & Hdn & Hup & Hp)%validate_inv. unfold plan_ok; cbn.
  pose proof (trim_space_length (pi_Name i)).
  split_and!; [done|lia| |by intros v; apply (bad_limit_create false)|
    by intros v; apply (bad_limit_create true)..].
  unfold bad_policy in Hp. case_bool_decide; [done|]. by apply negb_false_iff in Hp.
Qed.

Lemma Update_read_ok id i s p : Update_read id i s = Ok p ->
  StartPolicy_Valid (p_StartPolicy p) = true -> plan_ok p.
Proof.
  unfold Update_read. destruct (Get id s) as [p0|]; [|done].
  cbn [mbind result_bind rbind]. destruct (merge p0 i) as [p1|]; [|done].
  cbn [mbind result_bind rbind]. destruct (validate (merged_input p1)) as [[]|] eqn:Ev; [|done].
  cbn [mbind result_bind rbind]. intros <-%Ok_inj Hp.
  apply validate_inv in Ev as (Hn & Hl & Ht & _ & Hv & Hdn & Hup & _). cbn in *.
  unfold plan_ok; cbn. split_and!; [|done|done|..].
  - intros E. rewrite E in Hn. by cbn in Hn.
  - intros v E. rewrite E in Ht. by apply (bad_limit_ptr false).
  - intros v E. rewrite E in Hv. by apply (bad_limit_ptr true).
  - intros v E. rewrite E in Hdn. by apply (bad_limit_ptr true).
  - intros v E. rewrite E in Hup. by apply (bad_limit_ptr true).
Qed.

(** ** Lemmas: the table *)

Lemma name_taken_false name id s : name_taken name id s = false ->
  forall k p, templates s !! k = Some p -> p_Name p = name -> p_ID p = id.
Proof.
  unfold name_taken. rewrite existsb_values_false. intros H k p Hk Hn.
  specialize (H k p Hk). rewrite Hn, String.eqb_refl in H. cbn in H.
  apply negb_false_iff, String.eqb_eq in H. done.
Qed.

Lemma plans_wf_eq s s' : templates s' = templates s -> plans_wf s -> plans_wf s'.
Proof. unfold plans_wf. by intros ->. Qed.

Lemma plans_wf_put p s : plans_wf s -> plan_ok p -> name_taken (p_Name p) (p_ID p) s = false ->
  plans_wf (put_plan p s).
Proof.
  intros [H1 H2] Hp Hn. pose proof (name_taken_false _ _ _ Hn) as Hfree. unfold plans_wf, put_plan. cbn. split.
  - intros id q [[<- <-]|[_ Hq]]%lookup_insert_Some; [done|by apply H1].
  - intros i j q r [[<- <-]|[Hi Hq]]%lookup_insert_Some [[<- <-]|[Hj Hr]]%lookup_insert_Some E.
    + done.
    + rewrite <-(Hfree j r Hr) by congruence. apply (H1 j r Hr).
    + rewrite <-(Hfree i q Hq) by congruence. symmetry. apply (H1 i q Hq).
    + by eapply H2.
Qed.

Lemma insert_wf p s : plans_wf s -> plan_ok (plan_columns p) -> plans_wf (insert p s).2.
Proof.
  intros Hwf Hp. unfold insert. destruct (_ || _) eqn:E; [done|]. destruct (negb _); [done|].
  apply orb_false_iff in E as [_ E]. by apply plans_wf_put.
Qed.

Section Steps.
Context `{Entropy}.

Lemma Create_eq i s : (Create i s).2 = s \/ exists id s1, templates s1 = templates s /\
  validate i = Ok tt /\ (Create i s).2 = (insert (new_plan id (clock s1) i) s1).2.
Proof.
  unfold Create. destruct (validate i) as [[]|] eqn:E; [|by left].
  destruct (new_id s) as [[id s1]|] eqn:En; [|by left]. right. exists id, s1.
  apply new_id_frame in En as (_ & _ & -> & _). split_and!; [done..|].
  by destruct (insert _ _).
Qed.

Lemma plan_Update_commit_wf id i s0 p s : Update_read id i s0 = Ok p -> plans_wf s ->
  plans_wf (Update_commit p s).2.
Proof.
  intros Hr Hwf. unfold Update_commit. destruct (templates s !! p_ID p) as [old|]; [|done].
  destruct (name_taken _ _ _) eqn:En; [done|]. destruct (negb _ || _) eqn:Ef; [done|].
  apply orb_false_iff in Ef as [Ef _]. apply negb_false_iff in Ef.
  apply plans_wf_put; [done| |done]. exact (Update_read_ok id i s0 p Hr Ef).
Qed.

Lemma Delete_commit_wf id s : plans_wf s -> plans_wf (Delete_commit id s).2.
Proof.
  intros [H1 H2]. unfold Delete_commit. destruct (templates s !! id); [|done].
  destruct (queued id s); [done|]. unfold plans_wf; cbn. split.
  - intros k q [_ Hk]%lookup_delete_Some. by apply H1.
  - intros i j q r [_ Hp]%lookup_delete_Some [_ Hq]%lookup_delete_Some. by apply H2.
Qed.

(** ** Properties *)

(** No interleaving of plan operations, stale updates included, stores a plan
    under a foreign id, an empty or overlong name, a limit that is not a
    positive number, an unknown start policy, or two plans of one name. *)
Theorem plans_wf_invariant s s' : plans_wf s -> rtc plan_step s s' -> plans_wf s'.
Proof.
  intros Hwf Hr. induction Hr as [s|s s1 s' Hs _ IH]; [done|]. apply IH. clear IH.
  destruct Hs as [i s|id i s0 p s Hu|id s|s s1 E].
  - destruct (Create_eq i s) as [->|(id & s1 & E & Hv & ->)]; [done|].
    apply insert_wf; [by eapply plans_wf_eq|]. by apply new_plan_ok.
  - by eapply plan_Update_commit_wf.
  - by apply Delete_commit_wf.
  - by eapply plans_wf_eq.
Qed.
End Steps.

Section Provisioning.
Context `{Entropy} `{R : EventRecorder, !RecorderFrame R}.

(** A limit as it is stored, wrapped for a create request. *)
Lemma create_limit_ptr v : create_limit (optOfPtr v) = v.
Proof. by destruct v. Qed.

Lemma Resolve_ptr v : Resolve (optOfPtr v) None = v.
Proof. by destruct v. Qed.

Lemma resolveString_create v : resolveString (optStringForCreate v) None = v.
Proof. by destruct v. Qed.

Lemma bad_limit_stored (strict : bool) v :
  (forall x, v = Some x -> if strict then 0 < x else 0 <= x) -> bad_limit strict (optOfPtr v) = false.
Proof.
  destruct v as [x|]; [|done]. intros Hx. specialize (Hx x eq_refl). cbn.
  destruct strict; lia.
Qed.

Lemma ApplyToUser_valid p i : plan_ok p -> (forall d, p_DurationSeconds p = Some d -> 0 < d) ->
  validateLimits (ApplyToUser p i) = Ok tt.
Proof.
  intros (_ & _ & Hp & Ht & Hv & Hdn & Hup) Hd. unfold validateLimits, ApplyToUser. cbn.
  rewrite (bad_limit_stored false), !(bad_limit_stored true) by done. cbn.
  rewrite Hp, andb_false_r. destruct (p_DurationSeconds p) as [d|] eqn:E; [|done].
  specialize (Hd d eq_refl). by rewrite (proj2 (Z.leb_gt _ _)) by lia.
Qed.

(** Creation from a plan is deterministic: whatever the request says, a stored
    plan passes the validation of limits, and the account that is created holds
    the plan's quota, limits, interface and policy, never the request's; an
    immediate account expires exactly the plan's duration later. *)
Theorem ApplyToUser_entitles p i s u s' : plan_ok p ->
  (forall d, p_DurationSeconds p = Some d -> 0 < d) ->
  validateLimits (ApplyToUser p i) = Ok tt /\
  (CreateTx (ApplyToUser p i) s = Ok (u, s') ->
   users s' !! u_ID u = Some (inserted u) /\
   u_Username u = in_Username i /\ u_ResellerID u = in_ResellerID i /\
   u_TemplateID u = Some (p_ID p) /\ u_TrafficLimitBytes u = p_TrafficLimitBytes p /\
   u_DeviceLimit u = p_DeviceLimit p /\ u_SpeedLimitDownKbps u = p_SpeedLimitDownKbps p /\
   u_SpeedLimitUpKbps u = p_SpeedLimitUpKbps p /\ u_InterfaceID u = p_InterfaceID p /\
   u_StartPolicy u = p_StartPolicy p /\ u_DurationSeconds u = p_DurationSeconds p /\
   (p_StartPolicy p = StartImmediate -> u_Status u = UserActive /\
      u_ExpiresAt u = (fun d => time_add (clock s) (seconds d)) <$> p_DurationSeconds p) /\
   (p_StartPolicy p = StartFirstConnection ->
      u_Status u = UserWaitingFirstConnection /\ u_ExpiresAt u = None)).
Proof.
  intros Hp Hd. split; [by apply ApplyToUser_valid|].
  intros (_ & _ & s1 & s2 & _ & Eu & (-> & _)%insert_user_ok & (-> & _)%outbox_only_tables)%CreateTx_inv.
  destruct Hp as (_ & _ & Hpol & _).
  assert (p_StartPolicy p <> StartPolicyAbsent) as Hna by (intros E; by rewrite E in Hpol).
  rewrite Eu. unfold put_user, buildCreate, ApplyToUser. cbn.
  rewrite (bool_decide_eq_false_2 _ Hna).
  rewrite !create_limit_ptr, !Resolve_ptr, !resolveString_create.
  destruct (bool_decide_reflect (p_StartPolicy p = StartFirstConnection)) as [E|E].
  - split_and!; try done; [by rewrite lookup_insert_eq|]. intros E'. congruence.
  - destruct (p_DurationSeconds p) as [d|]; (split_and!; [by rewrite lookup_insert_eq|done..]).
Qed.

Definition only_duration (d : Z) : Input :=
  MkInput "" OptAbsent (Some d) StartPolicyAbsent OptAbsent OptAbsent OptAbsent OptStrAbsent None.

Lemma plan_columns_id p : nullText (p_InterfaceID p) = p_InterfaceID p -> plan_columns p = p.
Proof. unfold plan_columns. destruct p as [? ? ? ? ? ? ? ? i ? ? ?]. cbn [p_InterfaceID]. intros Hn. cbn -[nullText]. by rewrite Hn. Qed.

Lemma own_name_free id p s :
  (forall id p, templates s !! id = Some p -> p_ID p = id /\ plan_ok p) ->
  (forall i j p q, templates s !! i = Some p -> templates s !! j = Some q ->
     p_Name p = p_Name q -> i = j) ->
  templates s !! id = Some p -> name_taken (p_Name p) id s = false.
Proof.
  intros H1 H2 Hp. unfold name_taken. apply existsb_values_false. intros k q Hk.
  destruct (String.eqb_spec (p_Name q) (p_Name p)) as [E|]; [|done].
  destruct (H1 k q Hk) as [-> _]. by rewrite (H2 k id q p Hk Hp E), String.eqb_refl.
Qed.

Lemma merge_only_duration p d : merge p (only_duration d) = Ok (p <| p_DurationSeconds := Some d |>).
Proof. by destruct p. Qed.

Lemma validateLimits_bad_duration i d : in_DurationSeconds i = Some d -> d <= 0 ->
  validateLimits i = Err (E CodeInvalidRequest).
Proof.
  intros E Hd. unfold validateLimits. rewrite E, (proj2 (Z.leb_le _ _)) by lia.
  destruct (bad_limit _ _); [done|]. by destruct (existsb _ _).
Qed.

Lemma CreateTx_bad_limits i e s : validateLimits i = Err (E CodeInvalidRequest) ->
  CreateTx i s = Err e -> e = E CodeInvalidRequest.
Proof.
  intros Hv. unfold CreateTx, tx_guard, tx_lift, mbind, tx_mbind, tx_bind. rewrite Hv.
  destruct (negb _); cbn; congruence.
Qed.

(** The validation of a merged update skips the duration: a request with a
    duration that is not positive is stored, and from then on no account can
    be created from the plan. *)
Theorem Update_stores_any_duration id d p s : plans_wf s -> templates s !! id = Some p ->
  validate (merged_input p) = Ok tt -> nullText (p_InterfaceID p) = p_InterfaceID p ->
  fk (ifaces s) (p_InterfaceID p) = true -> d <= 0 ->
  exists p', Update id (only_duration d) s = (Ok p', put_plan p' s) /\ p_ID p' = id /\
    p_DurationSeconds p' = Some d /\
    forall i s1, CreateTx (ApplyToUser p' i) s1 = Err (E CodeInvalidRequest).
Proof.
  intros [H1 H2] Hp Hv Hn Hfk Hd. destruct (H1 id p Hp) as [Eid (_ & _ & Hpol & _)].
  exists (p <| p_DurationSeconds := Some d |> <| p_UpdatedAt := clock s |>).
  split; [|split; [exact Eid|split; [done|]]].
  - unfold Update, Update_read, Get. rewrite Hp. cbn [mbind result_bind rbind].
    rewrite merge_only_duration. cbn [mbind result_bind rbind].
    change (merged_input (p <| p_DurationSeconds := Some d |>)) with (merged_input p).
    rewrite Hv. cbn [mbind result_bind rbind].
    set (p' := p <| p_DurationSeconds := Some d |> <| p_UpdatedAt := clock s |>).
    change ((p <| p_DurationSeconds := Some d |>) <| p_UpdatedAt := clock s |>) with p'.
    unfold Update_commit. rewrite (plan_columns_id p' Hn).
    change (p_ID p') with (p_ID p). change (p_Name p') with (p_Name p).
    change (p_StartPolicy p') with (p_StartPolicy p). change (p_InterfaceID p') with (p_InterfaceID p).
    rewrite Eid, Hp, Hfk, Hpol, (own_name_free id p s H1 H2 Hp). cbn [negb orb].
    reflexivity.
  - intros i s1. pose proof (validateLimits_bad_duration (ApplyToUser
      (p <| p_DurationSeconds := Some d |> <| p_UpdatedAt := clock s |>) i) d eq_refl Hd) as Hb.
    destruct (CreateTx _ s1) as [[u s2]|e] eqn:Ec.
    + apply CreateTx_inv in Ec as (_ & Ec & _). congruence.
    + f_equal. by eapply CreateTx_bad_limits.
Qed.
End Provisioning.

(** A plan that may go is one that no live account and no queued successor
    refers to; deleting it removes it and its product assignments, and only
    clears the reference of the (soft-deleted) accounts that still name it. *)
Theorem plan_Delete_spec id s s' : Delete id s = (Ok tt, s') ->
  is_Some (templates s !! id) /\ templates s' = delete id (templates s) /\
  (forall k u, users s !! k = Some u -> u_TemplateID u = Some id -> u_DeletedAt u <> None) /\
  (forall k q, next_plan_queue s !! k = Some q -> q_TemplateID q <> id) /\
  (forall k u, users s !! k = Some u -> u_TemplateID u <> Some id -> users s' !! k = Some u) /\
  (forall k u, users s !! k = Some u -> u_TemplateID u = Some id ->
     users s' !! k = Some (u <| u_TemplateID := None |>)) /\
  (forall r t, (r, t) ∈ reseller_access s' <-> (r, t) ∈ reseller_access s /\ t <> id) /\
  devices s' = devices s /\ next_plan_queue s' = next_plan_queue s.
Proof.
  unfold Delete, Delete_read. destruct (assigned id s) eqn:Ea; [done|].
  destruct (queued id s) eqn:Eq; [done|]. unfold Delete_commit. rewrite Eq.
  destruct (templates s !! id) as [p|] eqn:Ep; [|done]. intros [= <-]. cbn.
  unfold assigned in Ea. rewrite existsb_values_false in Ea.
  unfold queued in Eq. rewrite existsb_values_false in Eq.
  split_and!; try done.
  - intros k u Hk Ht Hd. specialize (Ea k u Hk). cbn in Ea.
    by rewrite (bool_decide_eq_true_2 _ Ht), (bool_decide_eq_true_2 _ Hd) in Ea.
  - intros k q Hk E. specialize (Eq k q Hk). cbn in Eq. by rewrite E, String.eqb_refl in Eq.
  - intros k u Hk Ht. rewrite lookup_fmap, Hk. cbn. by rewrite (bool_decide_eq_false_2 _ Ht).
  - intros k u Hk Ht. rewrite lookup_fmap, Hk. cbn. by rewrite (bool_decide_eq_true_2 _ Ht).
  - intros r t. rewrite elem_of_filter. cbn. tauto.
Qed.

(** ** Witnesses *)

Section Witnesses.
#[local] Existing Instance counting_entropy.
#[local] Instance no_recorder : EventRecorder := None.

Definition w_request (name : string) : Input :=
  MkInput name (OptVal 5000) (Some 86400) StartPolicyAbsent (OptVal 2) OptAbsent OptAbsent
    OptStrAbsent None.
Definition w_none : store := empty_store (1700000000 * second).
Definition w_plans : store := Eval vm_compute in (Create (w_request " Basic ") w_none).2.
Definition w_plan_id : string := Eval vm_compute in NewID 1700000000000 (rand 0%nat).
Definition w_plan : Plan :=
  new_plan w_plan_id (1700000000 * second) (w_request " Basic ").

Lemma w_plans_wf_empty : plans_wf w_none.
Proof.
  assert (templates w_none = ∅) as E by reflexivity. unfold plans_wf. rewrite E. split.
  - intros id p Hp. by rewrite lookup_empty in Hp.
  - intros i j p q Hp. by rewrite lookup_empty in Hp.
Qed.

Theorem plans_wf_invariant_witness : plans_wf w_plans.
Proof.
  apply (plans_wf_invariant w_none w_plans w_plans_wf_empty). apply rtc_once.
  exact (pstep_create (w_request " Basic ") w_none).
Defined.

Lemma w_plans_wf : plans_wf w_plans.
Proof.
  destruct (Create_eq (w_request " Basic ") w_none) as [E|(id & s1 & E & Hv & E')].
  - vm_compute in E. discriminate.
  - change w_plans with (Create (w_request " Basic ") w_none).2. rewrite E'.
    apply insert_wf; [|by apply new_plan_ok]. by apply (plans_wf_eq w_none).
Qed.

Lemma w_plan_row : templates w_plans !! w_plan_id = Some w_plan.
Proof. vm_compute. reflexivity. Qed.

Lemma w_plan_ok : plan_ok w_plan.
Proof. exact (new_plan_ok w_plan_id (1700000000 * second) (w_request " Basic ") eq_refl). Qed.

Definition w_user_created := Eval vm_compute in CreateTx (ApplyToUser w_plan w_input) w_plans.
Definition w_customer : User := Eval vm_compute in
  match w_user_created with Ok (u, _) => u | Err _ => buildCreate "" 0 (input "") end.
Definition w_sold : store := Eval vm_compute in
  match w_user_created with Ok (_, s) => s | Err _ => w_plans end.

Theorem ApplyToUser_entitles_witness :
  u_TrafficLimitBytes w_customer = Some 5000 /\ u_DeviceLimit w_customer = Some 2.
Proof.
  destruct (ApplyToUser_entitles w_plan w_input w_plans w_customer w_sold w_plan_ok) as [_ H].
  - intros d [= <-]. lia.
  - destruct H as (_ & _ & _ & _ & Hl & Hd & _).
    + vm_cast_no_check (eq_refl w_user_created).
    + split; [exact Hl|exact Hd].
Defined.

Theorem Update_stores_any_duration_witness : exists p',
  Update w_plan_id (only_duration (-5)) w_plans = (Ok p', put_plan p' w_plans) /\
  p_DurationSeconds p' = Some (-5).
Proof.
  destruct (Update_stores_any_duration w_plan_id (-5) w_plan w_plans) as (p' & Hu & _ & Hd & _).
  - exact w_plans_wf.
  - exact w_plan_row.
  - vm_compute. reflexivity.
  - reflexivity.
  - vm_compute. reflexivity.
  - lia.
  - exists p'. split; [exact Hu|exact Hd].
Defined.

Theorem plan_Delete_spec_witness : templates (Delete w_plan_id w_plans).2 = ∅.
Proof.
  destruct (plan_Delete_spec w_plan_id w_plans (Delete w_plan_id w_plans).2) as (_ & H & _).
  - vm_compute. reflexivity.
  - rewrite H. vm_compute. reflexivity.
Defined.
End Witnesses.
