(* ===== verification/NextPlan.v ===== *)
(** * Queued successors (internal/integration/next_plan.go)

    One authorised plan per account waits for the current entitlement to run
    out of time or traffic. The scheduler activates the due ones after
    metering; a successor that no longer fits is flagged for review instead.
    The terms are those of the plan when it was queued. *)
From stdpp Require Import base tactics strings gmap list fin_maps sets sorting.
From Stdlib Require Import ZArith Lia.
From Stdlib Require String.
From S2P Require Import Prelude GoTime Domain Store Users Plans.

Open Scope Z_scope.

(** ** Queueing *)

Record QueueNextPlanInput := MkQueueInput {
  qi_UserID : string;
  qi_TemplateID : string;
  qi_ResellerID : option string;
  qi_CarryUnusedTraffic : bool
}.

Definition scopeKey (resellerID : option string) : string :=
  match resellerID with None => "owner" | Some r => "reseller:" +:+ r end.

Definition termsOf (p : Plan) : NextPlanTerms :=
  MkTerms (p_Name p) (p_TrafficLimitBytes p) (p_DurationSeconds p) (p_DeviceLimit p)
    (p_SpeedLimitDownKbps p) (p_SpeedLimitUpKbps p) (p_InterfaceID p).

(** The live account, when the principal may see it. *)
Definition ownerOfNextPlan (userID : string) (resellerID : option string) (s : store)
    : result err User :=
  match live_user userID s with
  | None => Err (E CodeUserNotFound)
  | Some u =>
      match resellerID with
      | Some r => if bool_decide (u_ResellerID u = Some r) then Ok u else Err (E CodeUserNotFound)
      | None => Ok u
      end
  end.

(** An enabled reseller to which the node owner assigned the plan. *)
Definition product_access (resellerID templateID : string) (s : store) : bool :=
  (match resellers s !! resellerID with Some r => rs_Enabled r | None => false end)
  && bool_decide ((resellerID, templateID) ∈ reseller_access s).

(** math.MaxInt64/int64(time.Second) *)
Definition max_duration : Z := max_int64 / second.

(** Why the terms do not fit the devices the account has now ([""] if they do). *)
Definition nextPlanDeviceConflict (userID : string) (terms : NextPlanTerms) (s : store) : string :=
  let unavailable := match t_InterfaceID terms with
                     | Some i => match ifaces s !! i with
                                 | Some row => negb (i_Enabled row)
                                 | None => true
                                 end
                     | None => false
                     end in
  let ds := user_devices userID s in
  let mismatch := match t_InterfaceID terms with
                  | Some i => existsb (fun d => negb (String.eqb (d_InterfaceID d) i)) ds
                  | None => false
                  end in
  if unavailable then "interface_unavailable"
  else if match t_DeviceLimit terms with
          | Some l => l <? Z.of_nat (length ds) | None => false end then "device_limit"
  else if mismatch then "interface"
  else "".

Definition carry_conflict (carry : bool) (current next : option Z) : bool :=
  carry && match current, next with
           | Some c, Some n => i64 (max_int64 - c) <? n
           | _, _ => true
           end.

Definition too_long (d : option Z) : bool :=
  match d with Some d => max_duration <? d | None => false end.

Definition QueueNextPlan_tx (i : QueueNextPlanInput) : Tx QueuedPlan := fun s =>
  (u ← tx_lift (ownerOfNextPlan (qi_UserID i) (qi_ResellerID i) s);
   _ ← tx_guard (bool_decide (u_TrafficLimitBytes u = None) && bool_decide (u_ExpiresAt u = None))
         (E CodeInvalidRequest);
   _ ← tx_guard (match qi_ResellerID i with
                 | Some r => negb (product_access r (qi_TemplateID i) s) | None => false end)
         (E CodeForbidden);
   p ← GetTx (qi_TemplateID i);
   _ ← tx_guard (negb (p_Enabled p)) (E CodeForbidden);
   let terms := termsOf p in
   _ ← tx_guard (too_long (t_DurationSeconds terms)) (E CodeInvalidRequest);
   _ ← tx_guard (carry_conflict (qi_CarryUnusedTraffic i) (u_TrafficLimitBytes u)
                   (t_TrafficLimitBytes terms)) (E CodeInvalidRequest);
   _ ← tx_guard (negb (String.eqb (nextPlanDeviceConflict (qi_UserID i) terms s) ""))
         (E CodeInvalidRequest);
   let q := MkQueued (qi_TemplateID i) (u_TemplateID u) terms (qi_CarryUnusedTraffic i) QQueued ""
              (scopeKey (qi_ResellerID i)) (clock s) (clock s) in
   _ ← tx_modify (fun s => s <| next_plan_queue ::= <[qi_UserID i := q]> |>);
   tx_ret q) s.

Definition QueueNextPlan (i : QueueNextPlanInput) (s : store) : result err QueuedPlan * store :=
  if String.eqb (qi_UserID i) "" || String.eqb (qi_TemplateID i) ""
  then (Err (E CodeInvalidRequest), s)
  else WithTx (QueueNextPlan_tx i) s.

(** ** Reading and cancelling *)

Definition NextPlanForUser (userID : string) (resellerID : option string) (s : store)
    : result err (option QueuedPlan) :=
  _ ← ownerOfNextPlan userID resellerID s; Ok (next_plan_queue s !! userID).

Definition CancelNextPlan (userID : string) (resellerID : option string) (s : store)
    : result err unit * store :=
  WithTx (fun s => (_ ← tx_lift (ownerOfNextPlan userID resellerID s);
                    tx_modify (fun s => s <| next_plan_queue ::= delete userID |>)) s) s.

(** Newest first, by the stored text and the identifier. *)
Definition act_le (a b : Activation) : Prop :=
  stored_lt (a_ActivatedAt b) (a_ActivatedAt a) = true \/
  (rfc3339nano (a_ActivatedAt a) = rfc3339nano (a_ActivatedAt b) /\
   String.leb (a_ID b) (a_ID a) = true).
#[export] Instance act_le_dec a b : Decision (act_le a b).
Proof. unfold act_le. apply _. Defined.

Definition NextPlanActivations (userID : string) (resellerID : option string) (limit : Z) (s : store)
    : result err (list Activation) :=
  if (limit <? 1) || (100 <? limit) then Err (E CodeInvalidRequest)
  else
    _ ← ownerOfNextPlan userID resellerID s;
    Ok (take (Z.to_nat limit)
          (merge_sort act_le (filter (fun a => a_UserID a = userID) (next_plan_activations s)))).

(** ** Activation *)

Inductive trigger := TriggerNone | TriggerQuota | TriggerTime.
#[export] Instance trigger_eq_dec : EqDecision trigger.
Proof. solve_decision. Defined.

Definition trigger_text (t : trigger) : string :=
  match t with TriggerNone => "" | TriggerQuota => "quota" | TriggerTime => "time" end.

(** The allowance is used up, in the form that cannot overflow. *)
Definition used_up (u : User) (limit : Z) : bool :=
  (limit <=? u_TrafficUsedRX u) || (i64 (limit - u_TrafficUsedRX u) <=? u_TrafficUsedTX u).

Definition due_trigger (u : User) (now : Z) : trigger :=
  if match u_TrafficLimitBytes u with Some l => used_up u l | None => false end then TriggerQuota
  else match u_ExpiresAt u with
       | Some e => if e <=? now then TriggerTime else TriggerNone
       | None => TriggerNone
       end.

(** The unused traffic carried over when the time ran out. *)
Definition carried (q : QueuedPlan) (t : trigger) (u : User) : Z :=
  match u_TrafficLimitBytes u with
  | Some l =>
      if q_Carry q && bool_decide (t = TriggerTime)
         && (u_TrafficUsedRX u <? l) && (u_TrafficUsedTX u <? i64 (l - u_TrafficUsedRX u))
      then i64 (i64 (l - u_TrafficUsedRX u) - u_TrafficUsedTX u) else 0
  | None => 0
  end.

Definition nextPlanAudit (action userID : string) (metadata : json_obj) : Tx unit :=
  tx_modify (fun s => s <| audit_log ::= fun l => l ++ [MkAudit "system" "" action userID metadata] |>).

Definition flagged (reason : string) (now : Z) (q : QueuedPlan) : QueuedPlan :=
  q <| q_State := QNeedsReview |> <| q_ReviewReason := reason |> <| q_UpdatedAt := now |>.

Definition markNextPlanReview (userID reason : string) (now : Z) : Tx unit :=
  _ ← tx_modify (fun s => s <| next_plan_queue ::= alter (flagged reason now) userID |>);
  nextPlanAudit "user.next_plan_needs_review" userID [("reason", JsStr reason)].

(** Why a triggered successor goes to review, in the order of the checks. *)
Definition review_reason (userID : string) (q : QueuedPlan) (u : User) (t : trigger) (s : store)
    : string :=
  let terms := q_Terms q in
  let conflict := nextPlanDeviceConflict userID terms s in
  if negb (bool_decide (q_SourceTemplateID q = u_TemplateID u)) then "current_plan_changed"
  else if negb (String.eqb conflict "") then conflict
  else if match t_TrafficLimitBytes terms with
          | Some l => (0 <? carried q t u) && (i64 (max_int64 - carried q t u) <? l)
          | None => false end then "traffic_overflow"
  else if match t_DurationSeconds terms with
          | Some d => (d <=? 0) || (max_duration <? d) | None => false end then "invalid_duration"
  else "".

Definition renewed_row (q : QueuedPlan) (t : trigger) (now : Z) (u : User) : User :=
  let terms := q_Terms q in
  u <| u_TemplateID := Some (q_TemplateID q) |>
    <| u_TrafficLimitBytes := (fun l => if 0 <? carried q t u then i64 (l + carried q t u) else l)
                                <$> t_TrafficLimitBytes terms |>
    <| u_TrafficUsedRX := 0 |> <| u_TrafficUsedTX := 0 |>
    <| u_DurationSeconds := t_DurationSeconds terms |>
    <| u_StartPolicy := StartImmediate |>
    <| u_ActivatedAt := Some now |>
    <| u_ExpiresAt := (fun d => time_add now (seconds d)) <$> t_DurationSeconds terms |>
    <| u_DeviceLimit := t_DeviceLimit terms |>
    <| u_SpeedLimitDownKbps := t_SpeedLimitDownKbps terms |>
    <| u_SpeedLimitUpKbps := t_SpeedLimitUpKbps terms |>
    <| u_InterfaceID := match t_InterfaceID terms with Some i => Some i | None => u_InterfaceID u end |>
    <| u_Status := UserActive |> <| u_DisableReason := None |>
    <| u_UpdatedAt := now |>.

Definition zero_meters (userID : string) (d : Device) : Device :=
  if String.eqb (d_UserID d) userID then d <| d_RXBytes := 0 |> <| d_TXBytes := 0 |> else d.

Definition previous_json (u : User) : json_obj :=
  [("template_id", js_opt_str (u_TemplateID u));
   ("expires_at", js_opt_str (rfc3339nano <$> u_ExpiresAt u));
   ("traffic_limit_bytes", js_opt_num (u_TrafficLimitBytes u));
   ("traffic_used_rx", JsNum (u_TrafficUsedRX u)); ("traffic_used_tx", JsNum (u_TrafficUsedTX u));
   ("status", JsStr (status_text (u_Status u)))].

(** The terms as they are applied, after a renewal. *)
Definition applied_json (u : User) : json_obj :=
  [("template_id", js_opt_str (u_TemplateID u));
   ("expires_at", js_opt_str (rfc3339nano <$> u_ExpiresAt u));
   ("traffic_limit_bytes", js_opt_num (u_TrafficLimitBytes u));
   ("traffic_used_rx", JsNum 0); ("traffic_used_tx", JsNum 0); ("status", JsStr "active")].

(** SQLite's [unixepoch] of a stored text, in whole seconds. *)
Class SqliteTime := unixepoch : string -> Z.

Section Activation.
Context `{Entropy} `{R : EventRecorder}.

(** The statements of an activation, once nothing speaks against it. *)
Definition apply_successor (userID : string) (q : QueuedPlan) (t : trigger) (u : User) (now : Z)
    : Tx unit :=
  let u' := renewed_row q t now u in
  _ ← (fun s => if fk (templates s) (u_TemplateID u') && fk (ifaces s) (u_InterfaceID u')
                then Ok (tt, s) else Err (Plain "integration: activate next plan"));
  _ ← tx_modify (fun s => s <| users ::= <[userID := u']> |>
                            <| devices ::= fmap (zero_meters userID) |>
                            <| next_plan_queue ::= delete userID |>);
  id ← new_id;
  _ ← tx_modify (fun s => s <| next_plan_activations ::= fun l => l ++
        [MkActivation id userID (q_TemplateID q) (trigger_text t) (previous_json u)
           (applied_json u') now] |>);
  _ ← nextPlanAudit "user.next_plan_activated" userID
        [("template_id", JsStr (q_TemplateID q)); ("trigger", JsStr (trigger_text t))];
  record "user.updated" [("user_id", JsStr userID); ("template_id", JsStr (q_TemplateID q));
                         ("next_plan_trigger", JsStr (trigger_text t))].

Definition activateNextPlanTx (userID : string) (now : Z) : Tx bool := fun s =>
  match next_plan_queue s !! userID, live_user userID s with
  | Some q, Some u =>
      if negb (bool_decide (q_State q = QQueued)) || negb (u_Enabled u)
         || bool_decide (u_Status u = UserDisabled) || bool_decide (u_Status u = UserSuspended)
      then Ok (false, s)
      else
        let t := due_trigger u now in
        if bool_decide (t = TriggerNone) then Ok (false, s)
        else
          let reason := review_reason userID q u t s in
          if negb (String.eqb reason "")
          then (_ ← markNextPlanReview userID reason now; tx_ret false) s
          else (_ ← apply_successor userID q t u now; tx_ret true) s
  | _, _ => Ok (false, s)
  end.

Context `{SqliteTime}.

Definition due_now (now : Z) (s : store) (userID : string) (q : QueuedPlan) : bool :=
  bool_decide (q_State q = QQueued) &&
  match live_user userID s with
  | None => false
  | Some u =>
      u_Enabled u
      && (bool_decide (u_Status u = UserActive) || bool_decide (u_Status u = UserWaitingFirstConnection)
          || bool_decide (u_Status u = UserExpired) || bool_decide (u_Status u = UserTrafficExceeded))
      && (match u_ExpiresAt u with
          | Some e => unixepoch (rfc3339nano e) <=? unixepoch (rfc3339nano now) | None => false end
          || match u_TrafficLimitBytes u with
             | Some l => (l <=? u_TrafficUsedRX u) || (l - u_TrafficUsedRX u <=? u_TrafficUsedTX u)
             | None => false end)
  end.

Definition queue_le (a b : string * QueuedPlan) : Prop :=
  stored_lt (q_CreatedAt a.2) (q_CreatedAt b.2) = true \/
  (rfc3339nano (q_CreatedAt a.2) = rfc3339nano (q_CreatedAt b.2) /\ String.leb a.1 b.1 = true).
#[export] Instance queue_le_dec a b : Decision (queue_le a b).
Proof. unfold queue_le. apply _. Defined.

Definition due_ids (now : Z) (s : store) : list string :=
  take 50 (merge_sort queue_le
             (filter (fun '(id, q) => due_now now s id q) (map_to_list (next_plan_queue s)))).*1.

(** One transaction per successor; an error ends the pass, earlier ones stay. *)
Fixpoint activate_all (now : Z) (ids : list string) (activated : Z) (s : store)
    : Z * option err * store :=
  match ids with
  | [] => (activated, None, s)
  | id :: ids =>
      match WithTx (activateNextPlanTx id now) s with
      | (Err e, s) => (activated, Some e, s)
      | (Ok done, s) => activate_all now ids (if done then activated + 1 else activated) s
      end
  end.

Definition ActivateDueNextPlans (s : store) : Z * option err * store :=
  activate_all (clock s) (due_ids (clock s) s) 0 s.
End Activation.

(** [PruneNextPlanHistory]: at most 500 rows older than a year per call. The
    cutoff is the caller's [now.AddDate(-1, 0, 0)]. *)
Definition old_rows (cutoff : Z) (s : store) : list Activation :=
  take 500 (filter (fun a => stored_lt (a_ActivatedAt a) cutoff) (next_plan_activations s)).

Definition PruneNextPlanHistory (cutoff : Z) (s : store) : Z * store :=
  let gone := a_ID <$> old_rows cutoff s in
  let keep := filter (fun a => a_ID a ∉ gone) (next_plan_activations s) in
  (Z.of_nat (length (next_plan_activations s)) - Z.of_nat (length keep),
   s <| next_plan_activations := keep |>).

(** ** Lemmas *)

Lemma live_user_row id s u : live_user id s = Some u -> users s !! id = Some u /\ u_DeletedAt u = None.
Proof.
  unfold live_user. destruct (users s !! id) as [v|]; [|done].
  destruct (u_DeletedAt v) eqn:E; [done|]. by intros [= <-].
Qed.

Lemma outbox_only_acts s s' : outbox_only s s' ->
  next_plan_activations s' = next_plan_activations s /\ reseller_access s' = reseller_access s.
Proof. intros (?&?&?&->). done. Qed.

(** Both spellings of "the allowance is used up" agree with the sum when the
    meters and the limit are in range. *)
Lemma used_up_spec u l : 0 <= u_TrafficUsedRX u <= max_int64 -> 0 <= u_TrafficUsedTX u ->
  0 <= l <= max_int64 -> used_up u l = (l <=? u_TrafficUsedRX u + u_TrafficUsedTX u).
Proof.
  unfold used_up, max_int64. intros H1 H2 H3. rewrite i64_id by (unfold is_i64; lia).
  destruct (Z.leb_spec l (u_TrafficUsedRX u)), (Z.leb_spec l (u_TrafficUsedRX u + u_TrafficUsedTX u));
    cbn; lia.
Qed.

(** What is left of a finite allowance. *)
Definition unused (u : User) : Z :=
  match u_TrafficLimitBytes u with
  | Some l => Z.max 0 (l - u_TrafficUsedRX u - u_TrafficUsedTX u)
  | None => 0
  end.

Lemma carried_spec q t u : 0 <= u_TrafficUsedRX u <= max_int64 -> 0 <= u_TrafficUsedTX u ->
  (forall l, u_TrafficLimitBytes u = Some l -> 0 <= l <= max_int64) ->
  carried q t u = if q_Carry q && bool_decide (t = TriggerTime) then unused u else 0.
Proof.
  unfold carried, unused, max_int64. intros H1 H2 H3.
  destruct (u_TrafficLimitBytes u) as [l|]; [|by destruct (_ && _)]. specialize (H3 l eq_refl).
  destruct (_ && bool_decide _); [|done]. cbn.
  destruct (Z.ltb_spec (u_TrafficUsedRX u) l); cbn.
  - rewrite (i64_id (l - u_TrafficUsedRX u)) by (unfold is_i64; lia).
    destruct (Z.ltb_spec (u_TrafficUsedTX u) (l - u_TrafficUsedRX u)); [|lia].
    rewrite i64_id by (unfold is_i64; lia). lia.
  - lia.
Qed.

Lemma conflict_free id terms s : nextPlanDeviceConflict id terms s = "" ->
  (forall i, t_InterfaceID terms = Some i ->
     (exists row, ifaces s !! i = Some row /\ i_Enabled row = true) /\
     forall k d, devices s !! k = Some d -> d_UserID d = id -> d_InterfaceID d = i) /\
  (forall l, t_DeviceLimit terms = Some l -> Z.of_nat (length (user_devices id s)) <= l).
Proof.
  unfold nextPlanDeviceConflict. destruct (t_InterfaceID terms) as [i|].
  - destruct (ifaces s !! i) as [row|] eqn:Ei; [|done].
    destruct (i_Enabled row) eqn:En; [|done]. cbn [negb].
    destruct (match t_DeviceLimit terms with Some _ => _ | None => _ end) eqn:El; [done|].
    destruct (existsb _ _) eqn:Em; [done|]. intros _. split.
    + intros j [= <-]. split; [eauto|]. intros k d Hk Hd.
      destruct (String.eqb_spec (d_InterfaceID d) i) as [|Hne]; [done|]. exfalso.
      apply not_true_iff_false in Em. apply Em. apply existsb_exists. exists d.
      split; [|by apply negb_true_iff, String.eqb_neq].
      apply list_elem_of_In, elem_of_user_devices. eauto.
    + intros l Hl. rewrite Hl in El. lia.
  - destruct (match t_DeviceLimit terms with Some _ => _ | None => _ end) eqn:El; [done|].
    intros _. split; [done|]. intros l Hl. rewrite Hl in El. lia.
Qed.

Lemma review_reason_ok id q u t s : review_reason id q u t s = "" ->
  q_SourceTemplateID q = u_TemplateID u /\ nextPlanDeviceConflict id (q_Terms q) s = "" /\
  (forall l, t_TrafficLimitBytes (q_Terms q) = Some l -> 0 < carried q t u ->
     l <= i64 (max_int64 - carried q t u)) /\
  (forall d, t_DurationSeconds (q_Terms q) = Some d -> 0 < d <= max_duration).
Proof.
  unfold review_reason. destruct (bool_decide_reflect (q_SourceTemplateID q = u_TemplateID u)); [|done].
  cbn [negb]. destruct (String.eqb_spec (nextPlanDeviceConflict id (q_Terms q) s) "") as [->|Hne];
    cbn [negb]; [|done].
  destruct (match t_TrafficLimitBytes (q_Terms q) with Some _ => _ | None => _ end) eqn:El; [done|].
  destruct (match t_DurationSeconds (q_Terms q) with Some _ => _ | None => _ end) eqn:Ed; [done|].
  intros _. split_and!; [done..| |].
  - intros l E Hc. rewrite E in El. lia.
  - intros d E. rewrite E in Ed. lia.
Qed.

Lemma due_trigger_spec u now : due_trigger u now <> TriggerNone ->
  due_trigger u now = TriggerQuota /\ (exists l, u_TrafficLimitBytes u = Some l /\ used_up u l = true) \/
  due_trigger u now = TriggerTime /\ (exists e, u_ExpiresAt u = Some e /\ e <= now).
Proof.
  unfold due_trigger.
  destruct (match u_TrafficLimitBytes u with Some _ => _ | None => _ end) eqn:El.
  - destruct (u_TrafficLimitBytes u); [left; eauto|done].
  - destruct (u_ExpiresAt u) as [e|]; [|done]. destruct (Z.leb_spec e now); [right; eauto|done].
Qed.

(** Nothing is left to do for an account at an instant: no successor, one
    under review, or an account that may not or need not change. *)
Definition settled_at (now : Z) (id : string) (s : store) : Prop :=
  forall q, next_plan_queue s !! id = Some q -> q_State q = QNeedsReview \/
    forall u, live_user id s = Some u ->
      u_Enabled u = false \/ u_Status u = UserDisabled \/ u_Status u = UserSuspended \/
      due_trigger u now = TriggerNone.

Section Facts.
Context `{Entropy} `{R : EventRecorder, !RecorderFrame R}.

Lemma apply_successor_ok id q t u now s s' x : apply_successor id q t u now s = Ok (x, s') ->
  users s' = <[id := renewed_row q t now u]> (users s) /\
  devices s' = zero_meters id <$> devices s /\ next_plan_queue s' = delete id (next_plan_queue s) /\
  (exists aid, next_plan_activations s' = next_plan_activations s ++
     [MkActivation aid id (q_TemplateID q) (trigger_text t) (previous_json u)
        (applied_json (renewed_row q t now u)) now]) /\
  templates s' = templates s /\ ifaces s' = ifaces s /\
  retired_peer_keys s' = retired_peer_keys s /\ clock s' = clock s.
Proof.
  unfold apply_successor. intros Hc. apply tx_bind_ok in Hc as (? & s1 & Hf & Hc).
  destruct (_ && _); [|done]. apply Ok_pair_inj in Hf as [_ <-].
  apply tx_bind_ok in Hc as (? & s2 & [_ <-]%Ok_pair_inj & Hc).
  apply tx_bind_ok in Hc as (aid & s3 & (_ & _ & -> & _)%new_id_frame & Hc).
  apply tx_bind_ok in Hc as (? & s4 & [_ <-]%Ok_pair_inj & Hc).
  apply tx_bind_ok in Hc as (? & s5 & [_ <-]%Ok_pair_inj & Hr%record_frame).
  destruct Hr as (evs & dls & n & ->). cbn. eauto 10.
Qed.

(** The three ways a transaction on one successor ends without an error. *)
Lemma activate_cases id now s b s' : activateNextPlanTx id now s = Ok (b, s') ->
  match b with
  | true => exists q u, next_plan_queue s !! id = Some q /\ live_user id s = Some u /\
      q_State q = QQueued /\ u_Enabled u = true /\ due_trigger u now <> TriggerNone /\
      review_reason id q u (due_trigger u now) s = "" /\
      apply_successor id q (due_trigger u now) u now s = Ok (tt, s')
  | false => (s' = s /\ settled_at now id s) \/ exists q u reason, next_plan_queue s !! id = Some q /\ q_State q = QQueued /\
      live_user id s = Some u /\ due_trigger u now <> TriggerNone /\
      reason = review_reason id q u (due_trigger u now) s /\ reason <> "" /\
      markNextPlanReview id reason now s = Ok (tt, s')
  end.
Proof.
  unfold activateNextPlanTx, settled_at. destruct (next_plan_queue s !! id) as [q|] eqn:Eq;
    [|intros [= <- <-]; by left].
  destruct (live_user id s) as [u|] eqn:Eu; [|intros [= <- <-]; left; split; [done|]; intros; by right].
  destruct (bool_decide_reflect (q_State q = QQueued)) as [Hst|Hst].
  2: { intros [= <- <-]. left. split; [done|]. intros ? [= <-]. left. by destruct (q_State q). }
  destruct (u_Enabled u) eqn:Hen; [|intros [= <- <-]; left; split; [done|]; intros ? [= <-]; right; intros ? [= <-]; tauto].
  destruct (bool_decide_reflect (u_Status u = UserDisabled));
    [intros [= <- <-]; left; split; [done|]; intros ? [= <-]; right; intros ? [= <-]; tauto|].
  destruct (bool_decide_reflect (u_Status u = UserSuspended));
    [intros [= <- <-]; left; split; [done|]; intros ? [= <-]; right; intros ? [= <-]; tauto|].
  cbn [negb orb].
  destruct (bool_decide_reflect (due_trigger u now = TriggerNone)) as [|Ht];
    [intros [= <- <-]; left; split; [done|]; intros ? [= <-]; right; intros ? [= <-]; tauto|].
  destruct (String.eqb_spec (review_reason id q u (due_trigger u now) s) "") as [Er|Er]; cbn [negb].
  - intros Hc. apply tx_bind_ok in Hc as ([] & s1 & Ha & Hb). apply Ok_pair_inj in Hb as [<- <-]. eauto 10.
  - intros Hc. apply tx_bind_ok in Hc as ([] & s1 & Ha & Hb). apply Ok_pair_inj in Hb as [<- <-].
    right. eauto 10.
Qed.

Lemma mark_ok id reason now s s' x : markNextPlanReview id reason now s = Ok (x, s') ->
  users s' = users s /\ devices s' = devices s /\
  next_plan_queue s' = alter (flagged reason now) id (next_plan_queue s) /\
  next_plan_activations s' = next_plan_activations s /\ templates s' = templates s /\
  ifaces s' = ifaces s.
Proof.
  unfold markNextPlanReview, nextPlanAudit. intros Hc.
  apply tx_bind_ok in Hc as (? & s1 & [_ <-]%Ok_pair_inj & [_ <-]%Ok_pair_inj). done.
Qed.
End Facts.

Lemma seconds_in_range d : 0 < d <= max_duration -> seconds d = d * second.
Proof.
  unfold max_duration, seconds, max_int64, second. intros Hd. apply i64_id. unfold is_i64.
  assert (9223372036854775807 / 1000000000 = 9223372036) as E by reflexivity. lia.
Qed.

(** The meters and the allowance of an account are in range. *)
Definition meters_ok (u : User) : Prop :=
  0 <= u_TrafficUsedRX u <= max_int64 /\ 0 <= u_TrafficUsedTX u <= max_int64 /\
  forall l, u_TrafficLimitBytes u = Some l -> 0 <= l <= max_int64.

(** The allowance of the terms is in range. *)
Definition terms_ok (terms : NextPlanTerms) : Prop :=
  forall l, t_TrafficLimitBytes terms = Some l -> 0 <= l <= max_int64.

(** The bytes that an activation carries over. *)
Definition carry_over (q : QueuedPlan) (u : User) (now : Z) : Z :=
  if q_Carry q && bool_decide (due_trigger u now = TriggerTime) then unused u else 0.

Lemma unused_range u : meters_ok u -> 0 <= unused u <= max_int64.
Proof.
  intros (H1 & H2 & H3). unfold unused, max_int64 in *.
  destruct (u_TrafficLimitBytes u) as [l|]; [specialize (H3 l eq_refl)|]; lia.
Qed.

Lemma renewed_limit id q u now s : meters_ok u -> terms_ok (q_Terms q) ->
  review_reason id q u (due_trigger u now) s = "" ->
  u_TrafficLimitBytes (renewed_row q (due_trigger u now) now u) =
    (fun l => l + carry_over q u now) <$> t_TrafficLimitBytes (q_Terms q) /\
  forall l, t_TrafficLimitBytes (q_Terms q) = Some l -> l + carry_over q u now <= max_int64.
Proof.
  intros Hm Ht (_ & _ & Hl & _)%review_reason_ok. pose proof (unused_range u Hm) as Hun.
  destruct Hm as (M1 & M2 & M3).
  assert (carried q (due_trigger u now) u = carry_over q u now) as Ec by (apply carried_spec; done || lia).
  assert (0 <= carry_over q u now <= max_int64) as Hc
    by (unfold carry_over; destruct (_ && _); unfold max_int64 in *; lia).
  cbn [u_TrafficLimitBytes renewed_row upd_field]. cbn.
  unfold terms_ok in Ht. rewrite Ec in *.
  destruct (t_TrafficLimitBytes (q_Terms q)) as [l|]; [|done].
  specialize (Hl l eq_refl). specialize (Ht l eq_refl).
  rewrite i64_id in Hl by (unfold is_i64, max_int64 in *; lia).
  split; [|intros l' [= <-]; lia]. cbn. f_equal.
  destruct (Z.ltb_spec 0 (carry_over q u now)); [|lia].
  apply i64_id. unfold is_i64, max_int64 in *. lia.
Qed.

Lemma renewed_expiry id q u t now s : review_reason id q u t s = "" ->
  u_ExpiresAt (renewed_row q t now u) = (fun d => now + d * second) <$> t_DurationSeconds (q_Terms q) /\
  forall e, u_ExpiresAt (renewed_row q t now u) = Some e -> now < e.
Proof.
  intros (_ & _ & _ & Hd)%review_reason_ok. cbn.
  destruct (t_DurationSeconds (q_Terms q)) as [d|]; [|done]. specialize (Hd d eq_refl). cbn.
  unfold time_add. rewrite seconds_in_range by done. split; [done|].
  intros e [= <-]. unfold second. lia.
Qed.

(** ** Properties *)

Section Properties.
Context `{Entropy} `{R : EventRecorder, !RecorderFrame R}.

(** C29. An activation happens only to an enabled live account whose allowance is
    used up or whose time has run out, and only with the plan it had when the
    successor was queued. It starts the queued terms from zero: meters reset,
    the quota that was queued plus, when carrying was agreed and only time ran
    out, exactly the unused bytes, without overflow; an expiry the queued
    duration ahead; devices that fit the new limit. Identities, keys and
    counter baselines stay, and no other account or device changes. *)
Theorem activation_applies_terms id now s s' q u :
  next_plan_queue s !! id = Some q -> users s !! id = Some u ->
  meters_ok u -> terms_ok (q_Terms q) ->
  activateNextPlanTx id now s = Ok (true, s') ->
  q_State q = QQueued /\ u_Enabled u = true /\ u_DeletedAt u = None /\
  q_SourceTemplateID q = u_TemplateID u /\
  ((exists l, u_TrafficLimitBytes u = Some l /\ l <= u_TrafficUsedRX u + u_TrafficUsedTX u) \/
   (exists e, u_ExpiresAt u = Some e /\ e <= now)) /\
  exists u', users s' = <[id := u']> (users s) /\ u_ID u' = u_ID u /\ u_Username u' = u_Username u /\
    u_Status u' = UserActive /\ u_TemplateID u' = Some (q_TemplateID q) /\
    u_TrafficUsedRX u' = 0 /\ u_TrafficUsedTX u' = 0 /\
    u_TrafficLimitBytes u' = (fun l => l + carry_over q u now) <$> t_TrafficLimitBytes (q_Terms q) /\
    (forall l, u_TrafficLimitBytes u' = Some l -> 0 <= l <= max_int64) /\
    u_ExpiresAt u' = (fun d => now + d * second) <$> t_DurationSeconds (q_Terms q) /\
    (forall e, u_ExpiresAt u' = Some e -> now < e) /\
    (forall l, u_DeviceLimit u' = Some l -> Z.of_nat (length (user_devices id s)) <= l) /\
    devices s' = zero_meters id <$> devices s /\
    next_plan_queue s' = delete id (next_plan_queue s).
Proof.
  intros Hq Hu Hm Htk Hc%activate_cases. cbn iota in Hc.
  destruct Hc as (q' & v & Hq' & [Hv Hd]%live_user_row & Hst & Hen & Ht & Hr & Ha).
  rewrite Hq in Hq'. rewrite Hu in Hv. injection Hq' as <-. injection Hv as <-.
  apply apply_successor_ok in Ha as (HU & HD & HQ & _).
  destruct (renewed_limit id q u now s Hm Htk Hr) as [El Hmax].
  destruct (renewed_expiry id q u _ now s Hr) as [Ee Hfut].
  pose proof (unused_range u Hm) as Hun. pose proof Hm as (M1 & M2 & M3).
  apply review_reason_ok in Hr as (Hsrc & [_ Hlim]%conflict_free & _).
  split_and!; try done.
  - apply due_trigger_spec in Ht as [(_ & l & E & Hup)|(_ & e & E & He)]; [left|right; eauto].
    exists l. split; [done|]. rewrite used_up_spec in Hup by (lia || by apply M3). lia.
  - exists (renewed_row q (due_trigger u now) now u). split_and!; try done.
    intros l Hl. rewrite El in Hl. destruct (t_TrafficLimitBytes (q_Terms q)) as [l0|] eqn:E0; [|done].
    injection Hl as <-. specialize (Hmax l0 eq_refl). specialize (Htk l0 E0).
    unfold carry_over in *. destruct (_ && _); lia.
Qed.

(** A transaction that activates nothing leaves every account and device as
    they were: at most it flags the queued successor for review, which then
    waits for an operator. *)
Theorem no_activation_no_change id now s s' : activateNextPlanTx id now s = Ok (false, s') ->
  users s' = users s /\ devices s' = devices s /\ next_plan_activations s' = next_plan_activations s /\
  (s' = s \/ exists q reason, next_plan_queue s !! id = Some q /\ reason <> "" /\
     next_plan_queue s' = <[id := flagged reason now q]> (next_plan_queue s) /\
     forall now2, activateNextPlanTx id now2 s' = Ok (false, s')).
Proof.
  intros [[-> _]|(q & u & reason & Hq & _ & _ & _ & _ & Hne & Hm%mark_ok)]%activate_cases.
  { split_and!; [done..|by left]. }
  destruct Hm as (HU & HD & HQ & HA & _).
  assert (next_plan_queue s' = <[id := flagged reason now q]> (next_plan_queue s)) as HQ'.
  { rewrite HQ. apply map_eq. intros k. destruct (decide (k = id)) as [->|Hk].
    - by rewrite lookup_alter_eq, lookup_insert_eq, Hq.
    - by rewrite lookup_alter_ne, lookup_insert_ne. }
  split_and!; try done. right. exists q, reason. split_and!; try done.
  intros now2. unfold activateNextPlanTx. rewrite HQ', lookup_insert_eq.
  by destruct (live_user id s').
Qed.
End Properties.

(** ** The pass *)

(** References that the foreign keys keep. *)
Definition references_ok (s : store) : Prop :=
  (forall k q, next_plan_queue s !! k = Some q -> is_Some (templates s !! q_TemplateID q)) /\
  (forall k u i, users s !! k = Some u -> u_InterfaceID u = Some i -> is_Some (ifaces s !! i)).

(** One activation more is one queued successor less. *)
Definition counts (s s' : store) (n : Z) : Prop :=
  Z.of_nat (length (next_plan_activations s')) = Z.of_nat (length (next_plan_activations s)) + n /\
  Z.of_nat (size (next_plan_queue s')) = Z.of_nat (size (next_plan_queue s)) - n.

Lemma counts_trans s1 s2 s3 a b : counts s1 s2 a -> counts s2 s3 b -> counts s1 s3 (a + b).
Proof. unfold counts. lia. Qed.

Lemma size_alter_eq `{Countable K} {V} (f : V -> V) (k : K) (m : gmap K V) :
  size (alter f k m) = size m.
Proof. rewrite <-!size_dom. by rewrite dom_alter_L. Qed.

Section Pass.
Context `{Entropy} `{R : EventRecorder, !RecorderFrame R} `{SqliteTime}.
Context (Hrec : forall data s, exists s', record "user.updated" data s = Ok (tt, s')).

Lemma apply_successor_runs id q t u now s :
  fk (templates s) (Some (q_TemplateID q)) = true ->
  fk (ifaces s) (u_InterfaceID (renewed_row q t now u)) = true ->
  exists s', apply_successor id q t u now s = Ok (tt, s').
Proof.
  intros H1 H2. unfold apply_successor, mbind, tx_mbind, tx_bind.
  change (u_TemplateID (renewed_row q t now u)) with (Some (q_TemplateID q)). rewrite H1, H2.
  cbn [andb]. unfold tx_modify, new_id, nextPlanAudit. cbn. apply Hrec.
Qed.

Lemma activate_runs id now s : references_ok s -> exists b s', activateNextPlanTx id now s = Ok (b, s').
Proof.
  intros [Hf1 Hf2]. unfold activateNextPlanTx.
  destruct (next_plan_queue s !! id) as [q|] eqn:Eq; [|eauto].
  destruct (live_user id s) as [u|] eqn:Eu; [|eauto]. destruct (_ || _); [eauto|].
  destruct (bool_decide _); [eauto|]. destruct (negb _) eqn:Er.
  { unfold markNextPlanReview, mbind, tx_mbind, tx_bind. cbn. eauto. }
  apply negb_false_iff, String.eqb_eq in Er.
  apply review_reason_ok in Er as (_ & [Hi _]%conflict_free & _).
  destruct (apply_successor_runs id q (due_trigger u now) u now s) as [s' Es'].
  - apply bool_decide_eq_true. by eapply Hf1.
  - cbn. destruct (t_InterfaceID (q_Terms q)) as [i|].
    + destruct (Hi i eq_refl) as [(row & Hr & _) _]. cbn. by rewrite Hr.
    + apply live_user_row in Eu as [Eu _]. destruct (u_InterfaceID u) as [i|] eqn:Ei; [|done].
      apply bool_decide_eq_true. by eapply Hf2.
  - exists true, s'. unfold mbind, tx_mbind, tx_bind. by rewrite Es'.
Qed.

(** What one transaction does to the queue and to the other accounts. *)
Definition progress (now : Z) (id : string) (b : bool) (s s' : store) : Prop :=
  references_ok s' /\ settled_at now id s' /\ counts s s' (if b then 1 else 0) /\
  forall k, k <> id -> next_plan_queue s' !! k = next_plan_queue s !! k /\ users s' !! k = users s !! k.

Lemma progress_true id now s s' : references_ok s -> activateNextPlanTx id now s = Ok (true, s') ->
  progress now id true s s'.
Proof.
  intros [Hf1 Hf2] (q & u & Hq & [Hu _]%live_user_row & _ & _ & _ & Hr & Ha)%activate_cases.
  apply apply_successor_ok in Ha as (HU & _ & HQ & (aid & HA) & HT & HI & _).
  apply review_reason_ok in Hr as (_ & [Hi _]%conflict_free & _).
  split; [split|split; [|split]].
  - intros k q'. rewrite HQ, HT. intros [_ Hk]%lookup_delete_Some. by eapply Hf1.
  - intros k v i. rewrite HU, HI. intros [[<- <-]|[_ Hk]]%lookup_insert_Some; [|by eapply Hf2].
    cbn. destruct (t_InterfaceID (q_Terms q)) as [j|].
    + intros [= <-]. destruct (Hi j eq_refl) as [(row & -> & _) _]. eauto.
    + by eapply Hf2.
  - intros q'. by rewrite HQ, lookup_delete_eq.
  - split; [rewrite HA, length_app; cbn; lia|]. rewrite HQ.
    assert (size (next_plan_queue s) <> 0%nat) by (intros Hz%map_size_empty_inv; by rewrite Hz, lookup_empty in Hq).
    rewrite (map_size_delete_Some id) by eauto. lia.
  - intros k Hk. by rewrite HQ, HU, lookup_delete_ne, lookup_insert_ne.
Qed.

Lemma progress_false id now s s' : references_ok s -> activateNextPlanTx id now s = Ok (false, s') ->
  progress now id false s s'.
Proof.
  intros [Hf1 Hf2] [[-> Hs]|(q & u & reason & Hq & _ & _ & _ & _ & _ & Hm%mark_ok)]%activate_cases.
  { split; [done|]. split; [done|]. split; [unfold counts; lia|done]. }
  destruct Hm as (HU & _ & HQ & HA & HT & HI).
  split; [split|split; [|split]].
  - intros k q'. rewrite HQ, HT, lookup_alter. case_decide as Ek; [subst k|by apply Hf1].
    rewrite Hq. cbn. intros [= <-]. by apply (Hf1 id q).
  - intros k v i. rewrite HU, HI. by apply Hf2.
  - intros q'. rewrite HQ, lookup_alter_eq, Hq. cbn. intros [= <-]. by left.
  - split; [rewrite HA; lia|]. rewrite HQ, size_alter_eq. lia.
  - intros k Hk. by rewrite HQ, HU, lookup_alter_ne.
Qed.

Lemma activate_all_progress now ids n s : references_ok s -> exists m s',
  activate_all now ids n s = (n + m, None, s') /\ 0 <= m <= Z.of_nat (length ids) /\
  counts s s' m /\ (forall id, id ∈ ids -> settled_at now id s') /\
  (forall id, settled_at now id s -> settled_at now id s') /\
  (forall id, id ∉ ids -> users s' !! id = users s !! id).
Proof.
  revert n s. induction ids as [|id ids IH]; intros n s Hf.
  { exists 0, s. cbn. rewrite Z.add_0_r. unfold counts. split_and!; try done || lia.
    intros k []%elem_of_nil. }
  destruct (activate_runs id now s Hf) as (b & s1 & E).
  assert (progress now id b s s1) as (Hf' & Hset & Hcnt & Hoth).
  { destruct b; [by apply progress_true|by apply progress_false]. }
  destruct (IH (if b then n + 1 else n) s1 Hf') as (m & s2 & E2 & Hm & Hc2 & Hs2 & Hk2 & Hu2).
  exists ((if b then 1 else 0) + m), s2. cbn [activate_all length]. unfold WithTx. rewrite E, E2.
  split; [by destruct b; f_equal; f_equal; lia|]. split; [destruct b; lia|].
  split; [by eapply counts_trans|].
  assert (forall k, settled_at now k s -> settled_at now k s1) as Hkeep.
  { intros k Hk. destruct (decide (k = id)) as [->|Hne]; [done|]. destruct (Hoth k Hne) as [Hq Hu].
    unfold settled_at, live_user. by rewrite Hq, Hu. }
  split_and!.
  - intros k [->|Hk]%elem_of_cons; [by apply Hk2|by apply Hs2].
  - intros k Hk. by apply Hk2, Hkeep.
  - intros k Hk. rewrite not_elem_of_cons in Hk. rewrite Hu2 by tauto. apply (Hoth k); tauto.
Qed.

End Pass.

(** ** Queued terms and the catalogue *)

Section Catalogue.
Context `{Entropy}.

(** Every way the catalogue of plans changes. *)
Inductive catalogue_step : store -> store -> Prop :=
| cstep_create i s : catalogue_step s (Plans.Create i s).2
| cstep_update id i s0 p s : Update_read id i s0 = Ok p -> catalogue_step s (Update_commit p s).2
| cstep_delete id s : catalogue_step s (Delete_commit id s).2.

Lemma catalogue_step_queue s s' : catalogue_step s s' ->
  next_plan_queue s' = next_plan_queue s /\
  forall k, is_Some (templates s !! k) ->
    (exists u q, next_plan_queue s !! u = Some q /\ q_TemplateID q = k) -> is_Some (templates s' !! k).
Proof.
  intros Hs. destruct Hs as [i s|id i s0 p s Hr|id s].
  - unfold Plans.Create. destruct (validate i) as [[]|]; [|done]. unfold new_id. cbn.
    unfold insert. destruct (_ || _); [done|]. destruct (negb _); [done|]. cbn. split; [done|].
    intros k Hk _. destruct (decide (k = p_ID (plan_columns (new_plan
      (NewID (clock s / 1000000) (rand (entropy_pos s))) (clock s) i)))) as [->|Hne].
    + rewrite lookup_insert_eq. eauto.
    + by rewrite lookup_insert_ne.
  - unfold Update_commit. destruct (templates s !! p_ID p); [|done].
    destruct (name_taken _ _ _); [done|]. destruct (_ || _); [done|]. cbn. split; [done|].
    intros k Hk _. destruct (decide (k = p_ID p)) as [->|Hne].
    + rewrite lookup_insert_eq. eauto.
    + by rewrite lookup_insert_ne.
  - unfold Delete_commit. destruct (templates s !! id) as [p|]; [|done].
    destruct (queued id s) eqn:Eq; [done|]. cbn. split; [done|].
    intros k Hk (u & q & Hu & <-). rewrite lookup_delete_ne; [done|]. intros ->.
    unfold queued in Eq. rewrite existsb_values_false in Eq. specialize (Eq u q Hu). cbn in Eq.
    by rewrite String.eqb_refl in Eq.
Qed.

(** The entitlement is fixed when it is queued: a successful request files
    exactly one successor for the account, replacing any earlier one, with a
    copy of the plan's terms; no later change of the catalogue rewrites it or
    removes the plan it names. *)
Theorem queued_terms_fixed i s q s1 s2 : QueueNextPlan i s = (Ok q, s1) ->
  rtc catalogue_step s1 s2 ->
  next_plan_queue s1 = <[qi_UserID i := q]> (next_plan_queue s) /\ users s1 = users s /\
  q_State q = QQueued /\
  (exists u p, live_user (qi_UserID i) s = Some u /\ templates s !! qi_TemplateID i = Some p /\
     p_Enabled p = true /\ q_Terms q = termsOf p /\ q_SourceTemplateID q = u_TemplateID u /\
     (forall r, qi_ResellerID i = Some r ->
        u_ResellerID u = Some r /\ product_access r (qi_TemplateID i) s = true)) /\
  next_plan_queue s2 !! qi_UserID i = Some q /\ is_Some (templates s2 !! q_TemplateID q).
Proof.
  unfold QueueNextPlan. destruct (_ || _); [done|]. intros Hc%WithTx_run Hr.
  unfold QueueNextPlan_tx in Hc. apply tx_bind_ok in Hc as (u & ? & Ho & Hc).
  unfold tx_lift in Ho. destruct (ownerOfNextPlan _ _ s) as [u'|] eqn:Eo; [|done].
  apply Ok_pair_inj in Ho as [-> <-].
  apply tx_bind_ok in Hc as (? & ? & [_ ->]%tx_guard_ok & Hc).
  apply tx_bind_ok in Hc as (? & ? & [Hacc ->]%tx_guard_ok & Hc).
  apply tx_bind_ok in Hc as (p & ? & Hp & Hc). unfold GetTx, Plans.Get in Hp.
  destruct (templates s !! qi_TemplateID i) as [p'|] eqn:Ep; [|done].
  apply Ok_pair_inj in Hp as [-> <-].
  apply tx_bind_ok in Hc as (? & ? & [Hen ->]%tx_guard_ok & Hc).
  apply tx_bind_ok in Hc as (? & ? & [_ ->]%tx_guard_ok & Hc).
  apply tx_bind_ok in Hc as (? & ? & [_ ->]%tx_guard_ok & Hc).
  apply tx_bind_ok in Hc as (? & ? & [_ ->]%tx_guard_ok & Hc).
  apply tx_bind_ok in Hc as (? & ? & [_ <-]%Ok_pair_inj & [<- <-]%Ok_pair_inj).
  apply negb_false_iff in Hen. unfold ownerOfNextPlan in Eo.
  destruct (live_user (qi_UserID i) s) as [v|] eqn:Ev; [|done].
  set (q := MkQueued _ _ _ _ _ _ _ _ _) in *.
  assert (forall sa sb, rtc catalogue_step sa sb -> next_plan_queue sa !! qi_UserID i = Some q ->
    is_Some (templates sa !! q_TemplateID q) ->
    next_plan_queue sb !! qi_UserID i = Some q /\ is_Some (templates sb !! q_TemplateID q)) as Hkeep.
  { intros sa sb Hs. induction Hs as [|sa sc sb Hs _ IH]; [done|]. intros Hq Ht.
    destruct (catalogue_step_queue _ _ Hs) as [HQ HT]. apply IH; [by rewrite HQ|]. apply HT; eauto. }
  split; [done|]. split; [done|]. split; [done|]. split.
  - exists v, p. destruct (qi_ResellerID i) as [r|].
    + destruct (bool_decide_reflect (u_ResellerID v = Some r)) as [E|]; [|done].
      injection Eo as <-. apply negb_false_iff in Hacc. split_and!; try done.
      intros r' [= <-]. done.
    + injection Eo as <-. done.
  - apply (Hkeep _ _ Hr); cbn; [by rewrite lookup_insert_eq|eauto].
Qed.
End Catalogue.

(** ** Witnesses *)

Section Witnesses.
#[local] Existing Instance counting_entropy.
#[local] Instance no_recorder : EventRecorder := None.
#[local] Instance same_second : SqliteTime := fun _ => 0.

Definition w_uid : string := Eval vm_compute in u_ID w_customer.
Definition w_order : QueueNextPlanInput := MkQueueInput w_uid w_plan_id None true.
Definition w_q_out := Eval vm_compute in QueueNextPlan w_order w_sold.
Definition w_q : QueuedPlan := Eval vm_compute in
  match w_q_out.1 with Ok q => q | Err _ => MkQueued "" None (termsOf w_plan) false QQueued "" "" 0 0 end.
Definition w_queued : store := Eval vm_compute in w_q_out.2.
Definition w_late_now : Z := Eval vm_compute in 1700000000 * second + 2 * day.
Definition w_late_store : store := Eval vm_compute in w_queued <| clock := w_late_now |>.
Definition w_act_out := Eval vm_compute in activateNextPlanTx w_uid w_late_now w_late_store.
Definition w_activated : store := Eval vm_compute in
  match w_act_out with Ok (_, s) => s | Err _ => w_queued end.
Definition w_holder : User := Eval vm_compute in
  match users w_late_store !! w_uid with Some u => u | None => w_customer end.

Lemma w_queue_runs : QueueNextPlan w_order w_sold = (Ok w_q, w_queued).
Proof. vm_cast_no_check (eq_refl w_q_out). Qed.

Lemma w_act_runs : activateNextPlanTx w_uid w_late_now w_late_store = Ok (true, w_activated).
Proof. vm_cast_no_check (eq_refl w_act_out). Qed.

Lemma w_late_queue : next_plan_queue w_late_store !! w_uid = Some w_q.
Proof. vm_compute. reflexivity. Qed.

Lemma w_late_user : users w_late_store !! w_uid = Some w_holder.
Proof. vm_compute. reflexivity. Qed.

Lemma w_holder_ok : meters_ok w_holder.
Proof. split_and!; try (cbn; unfold max_int64; lia). intros l [= <-]. unfold max_int64. lia. Qed.

Lemma w_terms_ok : terms_ok (q_Terms w_q).
Proof. intros l [= <-]. unfold max_int64. lia. Qed.

Theorem activation_applies_terms_witness : exists u', users w_activated !! w_uid = Some u' /\
  u_TrafficLimitBytes u' = Some 10000.
Proof.
  destruct (activation_applies_terms w_uid w_late_now w_late_store w_activated w_q w_holder
    w_late_queue w_late_user w_holder_ok w_terms_ok w_act_runs)
    as (_ & _ & _ & _ & _ & u' & HU & _ & _ & _ & _ & _ & _ & Hl & _).
  exists u'. split; [rewrite HU; apply lookup_insert_eq|]. rewrite Hl. vm_compute. reflexivity.
Defined.

Theorem no_activation_no_change_witness : users w_queued = users w_queued /\
  devices w_queued = devices w_queued.
Proof.
  destruct (no_activation_no_change w_uid 0 w_queued w_queued) as (HU & HD & _).
  - vm_compute. reflexivity.
  - split; [exact HU|exact HD].
Defined.

Lemma w_references : references_ok w_late_store.
Proof.
  assert (next_plan_queue w_late_store = {[ w_uid := w_q ]}) as EQ by (vm_compute; reflexivity).
  assert (users w_late_store = {[ w_uid := w_holder ]}) as EU by (vm_compute; reflexivity).
  unfold references_ok. rewrite EQ, EU. split.
  - intros k q [<- <-]%lookup_singleton_Some. vm_compute. eexists. reflexivity.
  - intros k u i [<- <-]%lookup_singleton_Some. done.
Qed.

Lemma w_rec data s : exists s', record "user.updated" data s = Ok (tt, s').
Proof. exists s. reflexivity. Qed.


Theorem queued_terms_fixed_witness : next_plan_queue w_queued !! w_uid = Some w_q.
Proof.
  destruct (queued_terms_fixed w_order w_sold w_q w_queued w_queued w_queue_runs (rtc_refl _ _))
    as (_ & _ & _ & _ & H & _). exact H.
Defined.
End Witnesses.
