(* ===== verification/Subscription.v ===== *)
(** * Subscription links (internal/subscription)

    The capability token of an account: minted from 32 random bytes, kept
    sealed for display and hashed for lookup; its rotation, its revocation,
    the resolution of a presented token, and the coordinated rotation of the
    link with every device key of the account. *)
From stdpp Require Import base tactics strings gmap list fin_maps sets sorting.
From Stdlib Require Import ZArith Lia Ascii.
From Stdlib Require String.
From S2P Require Import Prelude GoTime Domain Store Crypto Tunnel Secrets Sealing Users Devices.

Open Scope Z_scope.

Record Link := MkLink {
  l_UserID : string;
  l_Token : string;
  l_CreatedAt : Z;
  l_RotatedAt : option Z;
  l_RevokedAt : option Z
}.

Definition Revoked (l : Link) : bool := match l_RevokedAt l with Some _ => true | None => false end.

(** [HashToken] *)
Definition HashToken (token : string) : string := hex (Sum256 token).

Section Service.
Context `{A : AEAD, R : Random, X : X25519} (ring : KeyRing).

Definition NewToken : Tx string :=
  buf ← draw_tx 32; tx_ret (raw_url (EncodeToString (bytes_of buf))).

(** [scanLink]: a token that does not open is shown empty. *)
Definition scanLink (userID : string) (row : SubLink) : Link :=
  MkLink userID (match ring_Decrypt ring (sl_TokenEncrypted row) with Ok pt => pt | Err _ => "" end)
    (sl_CreatedAt row) (sl_RotatedAt row) (sl_RevokedAt row).

Definition ForUser (userID : string) (s : store) : option Link := scanLink userID <$> sub_links s !! userID.

Definition ForUsers (userIDs : list string) (s : store) : gmap string Link :=
  map_imap (fun id row => Some (scanLink id row)) (filter (fun r => r.1 ∈ userIDs) (sub_links s)).

(** UNIQUE (token_hash) *)
Definition hash_taken (hash userID : string) (s : store) : bool :=
  existsb (fun r => String.eqb (sl_TokenHash r.2) hash && negb (String.eqb r.1 userID))
    (map_to_list (sub_links s)).

Definition put_link (userID : string) (row : SubLink) (s : store) : store :=
  s <| sub_links ::= <[userID := row]> |>.

(** An insert: [None] is a uniqueness violation. *)
Definition insert_link (userID : string) (row : SubLink) (s : store) : result err (option store) :=
  if bool_decide (is_Some (sub_links s !! userID)) || hash_taken (sl_TokenHash row) userID s then Ok None
  else if negb (fk (users s) (Some userID)) then Err (Plain "subscription: insert")
  else Ok (Some (put_link userID row s)).

(** [Ensure] reads the link; without one it mints a token and inserts it in a
    statement of its own, and a concurrent winner is read instead. *)
Definition Ensure_mint (userID : string) : Tx (string * SubLink) :=
  token ← NewToken;
  enc ← ring_Encrypt ring token;
  now ← tx_gets clock;
  tx_ret (token, MkSubLink enc (HashToken token) now None None).

Definition Ensure_commit (userID token : string) (row : SubLink) (s : store)
    : result err (option Link) * store :=
  match insert_link userID row s with
  | Ok (Some s') => (Ok (Some (MkLink userID token (sl_CreatedAt row) None None)), s')
  | Ok None => (Ok (ForUser userID s), s)
  | Err e => (Err e, s)
  end.

Definition Ensure (userID : string) (s : store) : result err (option Link) * store :=
  match ForUser userID s with
  | Some l => (Ok (Some l), s)
  | None =>
      match Ensure_mint userID s with
      | Ok ((token, row), s) => Ensure_commit userID token row s
      | Err e => (Err e, s)
      end
  end.

Definition CreateTx (userID : string) : Tx Link := fun s =>
  match Ensure_mint userID s with
  | Ok ((token, row), s) =>
      match insert_link userID row s with
      | Ok (Some s') => Ok (MkLink userID token (sl_CreatedAt row) None None, s')
      | Ok None => Err (Plain "subscription: insert")
      | Err e => Err e
      end
  | Err e => Err e
  end.

(** The row a rotation writes: over the old one, or as a new one. *)
Definition rotated_row (enc hash : string) (now : Z) (old : option SubLink) : SubLink :=
  MkSubLink enc hash (match old with Some r => sl_CreatedAt r | None => now end) (Some now) None.

Definition write_rotated (userID enc hash : string) (s : store) : result err store :=
  let row := rotated_row enc hash (clock s) (sub_links s !! userID) in
  if hash_taken hash userID s then Err (Plain "subscription: rotate")
  else if bool_decide (sub_links s !! userID = None) && negb (fk (users s) (Some userID))
  then Err (Plain "subscription: insert rotated link")
  else Ok (put_link userID row s).

Definition RegenerateTx (userID : string) : Tx Link := fun s =>
  match Ensure_mint userID s with
  | Ok ((token, row), s) =>
      s' ← write_rotated userID (sl_TokenEncrypted row) (sl_TokenHash row) s;
      Ok (MkLink userID token (clock s) (Some (clock s)) None, s')
  | Err e => Err e
  end.

Definition Regenerate (userID : string) : store -> result err Link * store := WithTx (RegenerateTx userID).

(** ** Rotation of the whole access *)

(** [device.ListForUser]: newest first, by the stored texts. *)
Definition dev_le (a b : Device) : Prop :=
  String.ltb (rfc3339nano (d_CreatedAt b)) (rfc3339nano (d_CreatedAt a)) = true \/
  (rfc3339nano (d_CreatedAt b) = rfc3339nano (d_CreatedAt a) /\ String.leb (d_ID b) (d_ID a) = true).
#[export] Instance dev_le_dec a b : Decision (dev_le a b).
Proof. unfold dev_le. apply _. Defined.

Definition ListForUser (userID : string) (s : store) : list Device :=
  merge_sort dev_le (user_devices userID s).

(** The replacement keys of one device: a preshared key when it had one. *)
Definition rotation_for (d : Device) : Tx Rotation :=
  raw ← draw_tx 32;
  let kp := GenerateKeyPair raw in
  privEnc ← ring_Encrypt ring (kp_Private kp);
  psk ← (if String.eqb (default "" (d_PSKEnc d)) "" then tx_ret None
         else raw ← draw_tx 32; enc ← ring_Encrypt ring (GeneratePresharedKey raw); tx_ret (Some enc));
  tx_ret (MkRotation (d_ID d) (MkKeys (kp_Public kp) privEnc psk)).

Fixpoint rotations_for (l : list Device) : Tx (list Rotation) :=
  match l with
  | [] => tx_ret []
  | d :: l => r ← rotation_for d; rs ← rotations_for l; tx_ret (r :: rs)
  end.

(** The transaction: every device key, then the link. *)
Definition RotateAccess_tx (userID : string) (rotations : list Rotation) : Tx Link :=
  _ ← ReplaceUserCredentialsTx userID rotations;
  link ← RegenerateTx userID;
  _ ← tx_guard (String.eqb (l_Token link) "") (E CodeNodeUnavailable);
  tx_ret link.

(** The devices are read, and their keys generated, before the transaction. *)
Definition RotateAccess_commit (userID : string) (rotations : list Rotation) (s : store)
    : result err (Link * Z) * store :=
  match WithTx (RotateAccess_tx userID rotations) s with
  | (Ok link, s') => (Ok (link, Z.of_nat (length rotations)), s')
  | (Err e, s') => (Err e, s')
  end.

Definition RotateAccess (userID : string) (s : store) : result err (Link * Z) * store :=
  match rotations_for (ListForUser userID s) s with
  | Ok (rotations, s) => RotateAccess_commit userID rotations s
  | Err e => (Err e, s)
  end.

(** ** Revocation and resolution *)

Definition SetRevoked (userID : string) (revoked : bool) (s : store) : result err (option Link) * store :=
  match sub_links s !! userID with
  | None => (Err (E CodeInvalidRequest), s)
  | Some row =>
      let s := put_link userID (row <| sl_RevokedAt := if revoked then Some (clock s) else None |>) s in
      (Ok (ForUser userID s), s)
  end.

(** The row the unique hash names. *)
Definition by_hash (hash : string) (s : store) : option (string * SubLink) :=
  head (filter (fun r => sl_TokenHash r.2 = hash) (map_to_list (sub_links s))).

Definition Resolve (token : string) (s : store) : result err string :=
  if String.eqb token "" || (128 <? String.length token)%nat then Err (E CodeUserNotFound)
  else match by_hash (HashToken token) s with
       | None => Err (E CodeUserNotFound)
       | Some (userID, row) =>
           match sl_RevokedAt row with Some _ => Err (E CodeUserNotFound) | None => Ok userID end
       end.

End Service.


(** ** Lemmas: tokens *)

Section Facts.
Context `{A : AEAD, !AEADLaws A, R : Random, !RandomLength R, X : X25519} (ring : KeyRing).

(** A minted token: 43 characters, sealed and hashed in its row. *)
Definition minted (token : string) (row : SubLink) (now : Z) : Prop :=
  String.length token = 43%nat /\ ring_Decrypt ring (sl_TokenEncrypted row) = Ok token /\
  row = MkSubLink (sl_TokenEncrypted row) (HashToken token) now None None.

Lemma Ensure_mint_ok userID s token row s' : Ensure_mint ring userID s = Ok ((token, row), s') ->
  minted token row (clock s) /\ outbox_only s s'.
Proof.
  unfold Ensure_mint, NewToken, ring_Encrypt, draw_tx. intros Hm.
  unfold mbind, tx_mbind, tx_bind, tx_ret, tx_gets in Hm. apply Ok_pair_inj in Hm as [[= <- <-] <-].
  split; [split_and!|].
  - apply Nat2Z.inj. rewrite length_raw_url by apply bytes_of_range.
    by rewrite length_bytes_of, random_length.
  - unfold ring_Decrypt. cbn [sl_TokenEncrypted]. by rewrite Decrypt_seal by apply random_length.
  - done.
  - by exists (webhook_events s), (webhook_deliveries s), (S (S (entropy_pos s))); destruct s.
Qed.

(** ** Lemmas: the unique hash *)

Definition links_wf (s : store) : Prop :=
  forall u v ru rv, sub_links s !! u = Some ru -> sub_links s !! v = Some rv ->
    sl_TokenHash ru = sl_TokenHash rv -> u = v.

Lemma hash_free hash userID s v row : hash_taken hash userID s = false ->
  sub_links s !! v = Some row -> sl_TokenHash row = hash -> v = userID.
Proof.
  unfold hash_taken. intros Hf Hv Hh.
  assert (~ existsb (fun r => String.eqb (sl_TokenHash r.2) hash && negb (String.eqb r.1 userID))
             (map_to_list (sub_links s)) = true) as Hn by (by rewrite Hf).
  destruct (String.eqb_spec v userID) as [|Hne]; [done|]. exfalso. apply Hn, existsb_exists.
  exists (v, row). split; [by apply list_elem_of_In, elem_of_map_to_list|]. cbn.
  rewrite Hh, String.eqb_refl. cbn. apply negb_true_iff. by apply String.eqb_neq.
Qed.

Lemma links_wf_put userID row s : links_wf s -> hash_taken (sl_TokenHash row) userID s = false ->
  links_wf (put_link userID row s).
Proof.
  intros Hwf Hf u v ru rv. cbn. intros [[<- <-]|[Hu Eu]]%lookup_insert_Some [[<- <-]|[Hv Ev]]%lookup_insert_Some Hh.
  - done.
  - symmetry. by apply (hash_free _ _ _ _ _ Hf Ev).
  - by apply (hash_free _ _ _ _ _ Hf Eu).
  - by apply (Hwf _ _ _ _ Eu Ev).
Qed.

Lemma by_hash_some s u row : links_wf s -> sub_links s !! u = Some row ->
  by_hash (sl_TokenHash row) s = Some (u, row).
Proof.
  intros Hwf Hu. unfold by_hash. set (l := filter _ _).
  assert ((u, row) ∈ l) as Hin by (by apply list_elem_of_filter; split; [|apply elem_of_map_to_list]).
  destruct l as [|[v rv] l'] eqn:El; [by apply elem_of_nil in Hin|]. cbn.
  assert ((v, rv) ∈ l) as Hv by (rewrite El; apply list_elem_of_here).
  unfold l in Hv. apply list_elem_of_filter in Hv as [Hh Hv]. apply elem_of_map_to_list in Hv. cbn in Hh.
  assert (v = u) as -> by (by apply (Hwf _ _ _ _ Hv Hu)). by simplify_eq.
Qed.

Lemma by_hash_ok hash s u row : by_hash hash s = Some (u, row) ->
  sub_links s !! u = Some row /\ sl_TokenHash row = hash.
Proof.
  unfold by_hash. intros Hh%head_Some_elem_of. apply list_elem_of_filter in Hh as [? Hin].
  by apply elem_of_map_to_list in Hin.
Qed.

Lemma Resolve_ok token s u : Resolve token s = Ok u ->
  exists row, sub_links s !! u = Some row /\ sl_TokenHash row = HashToken token /\ sl_RevokedAt row = None.
Proof.
  unfold Resolve. destruct (_ || _); [done|]. destruct (by_hash _ s) as [[v row]|] eqn:E; [|done].
  destruct (sl_RevokedAt row) eqn:Er; [done|]. intros [= ->]. apply by_hash_ok in E as [? ?]. eauto.
Qed.

Lemma Resolve_row s u row token : links_wf s -> sub_links s !! u = Some row ->
  sl_TokenHash row = HashToken token -> (0 < String.length token <= 128)%nat ->
  Resolve token s = match sl_RevokedAt row with Some _ => Err (E CodeUserNotFound) | None => Ok u end.
Proof.
  intros Hwf Hu Hh Hl. unfold Resolve. rewrite <- Hh, (by_hash_some s u row) by done.
  destruct (String.eqb_spec token "") as [->|_]; [cbn in Hl; lia|].
  by destruct (Nat.ltb_spec 128 (String.length token)); [lia|].
Qed.

(** ** Lemmas: the operations *)

Lemma insert_link_ok userID row s o : insert_link userID row s = Ok o ->
  match o with
  | Some s' => s' = put_link userID row s /\ sub_links s !! userID = None /\
               hash_taken (sl_TokenHash row) userID s = false
  | None => True
  end.
Proof.
  unfold insert_link. case_bool_decide as Hn; cbn [orb]; [by intros [= <-]|].
  destruct (hash_taken _ _ _) eqn:Eh; [by intros [= <-]|]. destruct (negb _); [done|].
  intros [= <-]. split_and!; [done|by apply eq_None_not_Some|done].
Qed.

Lemma write_rotated_ok userID enc hash s s' : write_rotated userID enc hash s = Ok s' ->
  s' = put_link userID (rotated_row enc hash (clock s) (sub_links s !! userID)) s /\
  hash_taken hash userID s = false.
Proof. unfold write_rotated. destruct (hash_taken _ _ _); [done|]. destruct (_ && _); [done|]. by intros [= <-]. Qed.

Lemma links_outbox s s' : outbox_only s s' -> sub_links s' = sub_links s /\ clock s' = clock s.
Proof. by intros (? & ? & ? & ->). Qed.

Lemma links_wf_eq s s' : sub_links s' = sub_links s -> links_wf s -> links_wf s'.
Proof. unfold links_wf. by intros ->. Qed.

(** What a rotation of the link leaves. *)
Lemma RegenerateTx_ok userID s link s' : RegenerateTx ring userID s = Ok (link, s') ->
  String.length (l_Token link) = 43%nat /\ l_UserID link = userID /\
  exists row s1, outbox_only s s1 /\ s' = put_link userID row s1 /\
    ring_Decrypt ring (sl_TokenEncrypted row) = Ok (l_Token link) /\
    sl_TokenHash row = HashToken (l_Token link) /\ sl_RevokedAt row = None /\
    hash_taken (sl_TokenHash row) userID s1 = false.
Proof.
  unfold RegenerateTx. destruct (Ensure_mint ring userID s) as [[[token row] s1]|] eqn:Em; [|done].
  apply Ensure_mint_ok in Em as [(Hl & Hd & ->) Ho].
  destruct (write_rotated _ _ _ s1) as [s2|] eqn:Ew; cbn; [|done]. intros [= <- <-].
  apply write_rotated_ok in Ew as [-> Hf]. split_and!; [done..|]. do 2 eexists. by split_and!.
Qed.

Lemma link_RegenerateTx_wf userID s link s' : links_wf s -> RegenerateTx ring userID s = Ok (link, s') -> links_wf s'.
Proof.
  intros Hwf (_ & _ & row & s1 & [E _]%links_outbox & -> & _ & _ & _ & Hf)%RegenerateTx_ok.
  apply links_wf_put; [by apply (links_wf_eq s)|done].
Qed.

(** The link a rotation returns works at once. *)
Lemma RegenerateTx_resolves userID s link s' : links_wf s -> RegenerateTx ring userID s = Ok (link, s') ->
  Resolve (l_Token link) s' = Ok userID.
Proof.
  intros Hwf Hr. pose proof (link_RegenerateTx_wf _ _ _ _ Hwf Hr) as Hwf'.
  apply RegenerateTx_ok in Hr as (Hl & _ & row & s1 & _ & -> & _ & Hh & Hrev & _).
  rewrite (Resolve_row _ userID row); [by rewrite Hrev|done|apply lookup_insert_eq|done|lia].
Qed.

(** The token a rotation replaced is dead, unless its hash collides. *)
Lemma RegenerateTx_kills userID s link s' row token : sub_links s !! userID = Some row ->
  links_wf s -> sl_TokenHash row = HashToken token -> HashToken token <> HashToken (l_Token link) ->
  RegenerateTx ring userID s = Ok (link, s') -> Resolve token s' = Err (E CodeUserNotFound).
Proof.
  intros Hu Hwf Hh Hne (_ & _ & row' & s1 & [El _]%links_outbox & -> & _ & Hh' & _)%RegenerateTx_ok.
  destruct (Resolve token _) as [v|e] eqn:Er.
  - apply Resolve_ok in Er as (r & Hv & Hhr & _). cbn in Hv.
    apply lookup_insert_Some in Hv as [[<- <-]|[Hnv Hv]]; [congruence|].
    rewrite El in Hv. exfalso. apply Hnv. apply (Hwf _ _ _ _ Hu Hv). congruence.
  - revert Er. unfold Resolve. repeat case_match; by intros [= <-].
Qed.

(** The device rotation leaves the links alone. *)
Lemma Replace_links userID rs s x s' : ReplaceUserCredentialsTx userID rs s = Ok (x, s') ->
  sub_links s' = sub_links s /\ users s' = users s /\ clock s' = clock s.
Proof.
  unfold ReplaceUserCredentialsTx. destruct (wanted_keys rs ∅) as [w|]; [|done].
  repeat (destruct (negb _); [done|]).
  apply (tx_iter_inv (fun s' => sub_links s' = sub_links s /\ users s' = users s /\ clock s' = clock s)); [|done].
  intros d s1 u s2 _ (E1 & E2 & E3). unfold rotate_one. destruct (w !! d_ID d); [|by intros [= _ <-]].
  intros [-> _]%rekey_ok. done.
Qed.

Lemma Replace_device userID rs s x s' : devices_wf s -> ReplaceUserCredentialsTx userID rs s = Ok (x, s') ->
  forall k d, devices s !! k = Some d -> d_UserID d = userID ->
    (d_InterfaceID d, d_PublicKey d) ∈ retired_peer_keys s' /\
    exists keys, MkRotation k keys ∈ rs /\ km_PublicKey keys <> d_PublicKey d /\
      devices s' !! k = Some (rekeyed keys (clock s) d).
Proof.
  intros Hwf Hr k d Hk Hu. destruct (Replace_exact _ _ _ _ _ Hwf Hr) as (_ & Hex & _).
  destruct (Hex k d Hk Hu) as (keys & Hin & Hne & Hk'). split; [|eauto].
  pose proof (Replace_retires userID rs s s' x Hwf Hr) as [_ Hret].
  destruct (Hret k d Hk) as [(d' & Hd' & _ & Hp)|]; [|done].
  rewrite Hk' in Hd'. injection Hd' as <-. done.
Qed.

(** ** The links over every interleaving *)

Context `{Ent : Entropy, Rec : EventRecorder, !RecorderFrame Rec}.

Inductive link_step : store -> store -> Prop :=
| lstep_ensure userID token row s s' s'' : Ensure_mint ring userID s = Ok ((token, row), s') ->
    link_step s'' (Ensure_commit ring userID token row s'').2
| lstep_create userID s link s' : CreateTx ring userID s = Ok (link, s') -> link_step s s'
| lstep_regenerate userID s : link_step s (Regenerate ring userID s).2
| lstep_rotate userID rotations s : link_step s (RotateAccess_commit ring userID rotations s).2
| lstep_revoke userID b s : link_step s (SetRevoked ring userID b s).2
| lstep_delete userID s s' x : Users.DeleteTx userID s = Ok (x, s') -> link_step s s'.

Lemma RotateAccess_tx_ok userID rs s link s' : RotateAccess_tx ring userID rs s = Ok (link, s') ->
  exists x s1, ReplaceUserCredentialsTx userID rs s = Ok (x, s1) /\ RegenerateTx ring userID s1 = Ok (link, s').
Proof.
  unfold RotateAccess_tx. intros (x & s1 & H1 & H2)%tx_bind_ok.
  apply tx_bind_ok in H2 as (l & s2 & H2 & H3). apply tx_bind_ok in H3 as (u & s3 & Hg & Hr).
  apply tx_guard_ok in Hg as [_ ->]. apply Ok_pair_inj in Hr as [-> ->]. eauto.
Qed.

Lemma link_step_wf s s' : links_wf s -> link_step s s' -> links_wf s'.
Proof.
  intros Hwf Hstep. destruct Hstep as [userID token row s0 s1 s Hm|userID s link s' Hc|userID s|userID rs s
    |userID b s|userID s s' x Hc].
  - unfold Ensure_commit. destruct (insert_link userID row s) as [[s2|]|] eqn:Ei; [|done..].
    apply insert_link_ok in Ei as (-> & _ & Hf). by apply links_wf_put.
  - unfold CreateTx in Hc. destruct (Ensure_mint ring userID s) as [[[token row] s1]|] eqn:Em; [|done].
    destruct (insert_link userID row s1) as [[s2|]|] eqn:Ei; [|done..]. injection Hc as _ <-.
    apply insert_link_ok in Ei as (-> & _ & Hf). apply links_wf_put; [|done].
    apply Ensure_mint_ok in Em as [_ [El _]%links_outbox]. by apply (links_wf_eq s).
  - unfold Regenerate, WithTx. destruct (RegenerateTx ring userID s) as [[l s1]|] eqn:Er; [|done].
    by apply link_RegenerateTx_wf in Er.
  - unfold RotateAccess_commit, WithTx. destruct (RotateAccess_tx ring userID rs s) as [[l s1]|] eqn:Er; [|done].
    apply RotateAccess_tx_ok in Er as (x & s2 & [El _]%Replace_links & Hr).
    apply link_RegenerateTx_wf in Hr; [done|]. by apply (links_wf_eq s).
  - unfold SetRevoked. destruct (sub_links s !! userID) as [row|] eqn:Eu; [|done].
    apply links_wf_put; [done|]. destruct (hash_taken _ _ _) eqn:Eh; [|done]. exfalso.
    unfold hash_taken in Eh. apply existsb_exists in Eh as ([v rv] & Hin & [Hh Hv]%andb_true_iff).
    apply list_elem_of_In, elem_of_map_to_list in Hin. cbn in *. apply String.eqb_eq in Hh.
    apply negb_true_iff, String.eqb_neq in Hv. apply Hv. by apply (Hwf _ _ _ _ Hin Eu).
  - apply Users.DeleteTx_inv in Hc as (s1 & _ & Ho & ->). apply links_outbox in Ho as [El _].
    intros u v ru rv Hu Hv. cbn in Hu, Hv.
    apply lookup_delete_Some in Hu as [_ Hu]. apply lookup_delete_Some in Hv as [_ Hv].
    rewrite El in Hu, Hv. apply (Hwf _ _ _ _ Hu Hv).
Qed.

(** ** Properties *)

(** No two accounts ever hold the same token hash, so a presented token names
    one account at most, over every sequence of link creations, rotations,
    revocations and account deletions; and a token resolves exactly when it is
    the unrevoked token of an account. *)
Theorem links_resolve_uniquely s s' token userID : links_wf s -> rtc link_step s s' ->
  (0 < String.length token <= 128)%nat ->
  links_wf s' /\
  (Resolve token s' = Ok userID <->
   exists row, sub_links s' !! userID = Some row /\ sl_TokenHash row = HashToken token /\
               sl_RevokedAt row = None).
Proof.
  intros Hwf Hrtc Hl. assert (links_wf s') as Hwf'.
  { induction Hrtc as [|s1 s2 s3 Hs Hr IH]; [done|]. by apply IH, (link_step_wf s1). }
  split; [done|]. split; [apply Resolve_ok|]. intros (row & Hu & Hh & Hr).
  rewrite (Resolve_row s' userID row) by done. by rewrite Hr.
Qed.

(** C28. Rotating an account's access is all or nothing. A failure leaves the node
    as it was; a success has replaced the key of every device of the account
    and retired the former one, has made the returned link the account's
    working link and its former token a dead one, and has touched no other
    account's devices and links. *)
Theorem RotateAccess_atomic userID rs s r s' : devices_wf s -> links_wf s ->
  RotateAccess_commit ring userID rs s = (r, s') ->
  match r with
  | Err _ => s' = s
  | Ok (link, n) =>
      n = Z.of_nat (length rs) /\
      (forall k d, devices s !! k = Some d -> d_UserID d = userID ->
         (d_InterfaceID d, d_PublicKey d) ∈ retired_peer_keys s' /\
         exists keys, MkRotation k keys ∈ rs /\ km_PublicKey keys <> d_PublicKey d /\
           devices s' !! k = Some (rekeyed keys (clock s) d)) /\
      (forall k d, devices s !! k = Some d -> d_UserID d <> userID -> devices s' !! k = Some d) /\
      Resolve (l_Token link) s' = Ok userID /\
      (forall token row, sub_links s !! userID = Some row -> sl_TokenHash row = HashToken token ->
         HashToken token <> HashToken (l_Token link) -> Resolve token s' = Err (E CodeUserNotFound)) /\
      (forall v, v <> userID -> sub_links s' !! v = sub_links s !! v)
  end.
Proof.
  intros Hd Hl. unfold RotateAccess_commit, WithTx.
  destruct (RotateAccess_tx ring userID rs s) as [[link s1]|] eqn:Er; [|by intros [= <- <-]].
  intros [= <- <-]. apply RotateAccess_tx_ok in Er as (x & s2 & Hrep & Hreg).
  pose proof (Replace_links _ _ _ _ _ Hrep) as (El & _ & _).
  pose proof (links_wf_eq s s2 El Hl) as Hl2.
  pose proof (RegenerateTx_ok _ _ _ _ Hreg) as (_ & _ & row & s3 & Ho & Hput & _).
  pose proof (links_outbox _ _ Ho) as [El3 _].
  apply outbox_only_tables in Ho as (_ & Edev & _ & _ & Eret & _).
  split; [done|]. split_and!.
  - intros k d Hk Hu. destruct (Replace_device _ _ _ _ _ Hd Hrep k d Hk Hu) as [Hin Hex].
    subst s1. cbn. rewrite Eret, Edev. done.
  - intros k d Hk Hne. destruct (Replace_exact _ _ _ _ _ Hd Hrep) as (Hother & _).
    subst s1. cbn. rewrite Edev. by apply Hother.
  - by apply (RegenerateTx_resolves userID s2).
  - intros token row0 Hu Hh Hne. rewrite <- El in Hu. by apply (RegenerateTx_kills userID s2 link s1 row0).
  - intros v Hv. subst s1. cbn. rewrite lookup_insert_ne by done. by rewrite El3, El.
Qed.

(** Revoking a link and restoring it brings the same token back: in between
    it resolves to nothing, with the answer of an unknown one. *)
Theorem revoke_restore_round_trip userID token row s s1 s2 l1 l2 : links_wf s ->
  sub_links s !! userID = Some row -> sl_TokenHash row = HashToken token ->
  (0 < String.length token <= 128)%nat ->
  SetRevoked ring userID true s = (Ok l1, s1) -> SetRevoked ring userID false s1 = (Ok l2, s2) ->
  Resolve token s1 = Err (E CodeUserNotFound) /\ Resolve token s2 = Ok userID /\
  sub_links s2 = <[userID := row <| sl_RevokedAt := None |>]> (sub_links s).
Proof.
  intros Hwf Hu Hh Hl. unfold SetRevoked at 1. rewrite Hu. intros [= _ <-].
  pose proof (link_step_wf s _ Hwf (lstep_revoke userID true s)) as Hwf1.
  unfold SetRevoked in Hwf1. rewrite Hu in Hwf1. cbn [snd] in Hwf1.
  set (sa := put_link userID _ s) in *.
  assert (sub_links sa !! userID = Some (row <| sl_RevokedAt := Some (clock s) |>)) as Hua by apply lookup_insert_eq.
  pose proof (link_step_wf sa _ Hwf1 (lstep_revoke userID false sa)) as Hwf2.
  unfold SetRevoked in Hwf2 |- *. rewrite Hua in Hwf2 |- *. intros [= _ <-]. cbn [snd] in Hwf2.
  split_and!.
  - by rewrite (Resolve_row sa userID _ token Hwf1 Hua) by done.
  - exact (Resolve_row _ userID _ token Hwf2 (lookup_insert_eq _ _ _) Hh Hl).
  - cbn. by rewrite insert_insert_eq.
Qed.

End Facts.

(** ** Witnesses *)

Section Witnesses.
#[local] Existing Instance counting_entropy.
#[local] Instance no_recorder : EventRecorder := None.
#[local] Instance low_bytes : X25519 := List.map (fun b => b mod 256).
#[local] Instance low_bytes_laws : X25519Laws low_bytes.
Proof.
  split; unfold public_of, low_bytes.
  - intros k. by rewrite List.length_map.
  - intros k. induction k as [|b k IH]; cbn; constructor; [by apply Z.mod_pos_bound|done].
Qed.

Lemma Ensure_devices ring id s : devices (Ensure ring id s).2 = devices s.
Proof.
  unfold Ensure, Ensure_commit. destruct (ForUser ring id s); [done|].
  destruct (Ensure_mint ring id s) as [[[token row] s1]|] eqn:Em; [|done].
  apply Ensure_mint_ok in Em as [_ Ho]. apply outbox_only_tables in Ho as (_ & Ed & _).
  destruct (insert_link id row s1) as [[s2|]|] eqn:Ei; [|done..].
  apply insert_link_ok in Ei as (-> & _). done.
Qed.

Definition w_linked : store := (Ensure w_ring w_alice_id w_s1).2.
Definition w_link : SubLink := Eval vm_compute in
  default (MkSubLink "" "" 0 None None) (sub_links w_linked !! w_alice_id).
Definition w_token : string := Eval vm_compute in
  match ring_Decrypt w_ring (sl_TokenEncrypted w_link) with Ok t => t | Err _ => "" end.
Definition w_rotations : list Rotation := Eval vm_compute in
  match rotations_for w_ring (ListForUser w_alice_id w_linked) w_linked with Ok (rs, _) => rs | Err _ => [] end.

Lemma w_linked_devices : devices_wf w_linked.
Proof. apply (devices_wf_eq w_s1); [apply Ensure_devices|apply w_s1_wf]. Qed.

Lemma w_s1_links : links_wf w_s1.
Proof.
  assert (sub_links w_s1 = ∅) as E by (vm_compute; reflexivity).
  intros u v ru rv. by rewrite E, lookup_empty.
Qed.

Lemma w_linked_ensure : exists token row s', Ensure_mint w_ring w_alice_id w_s1 = Ok ((token, row), s') /\
  w_linked = (Ensure_commit w_ring w_alice_id token row s').2 /\ links_wf s'.
Proof.
  unfold w_linked, Ensure.
  destruct (Ensure_mint w_ring w_alice_id w_s1) as [[[token row] s']|] eqn:Em; [|discriminate Em].
  exists token, row, s'. split; [done|]. split.
  - replace (ForUser w_ring w_alice_id w_s1) with (@None Link) by (vm_compute; reflexivity). done.
  - apply Ensure_mint_ok in Em as [_ [El _]%links_outbox]. apply (links_wf_eq w_s1); [done|apply w_s1_links].
Qed.

Lemma w_linked_links : links_wf w_linked.
Proof.
  destruct w_linked_ensure as (token & row & s' & Em & -> & Hs').
  exact (link_step_wf w_ring _ _ Hs' (lstep_ensure w_ring w_alice_id token row w_s1 s' s' Em)).
Qed.

Lemma w_linked_row : sub_links w_linked !! w_alice_id = Some w_link.
Proof. vm_cast_no_check (eq_refl (Some w_link)). Qed.

Lemma w_token_hash : sl_TokenHash w_link = HashToken w_token.
Proof. vm_cast_no_check (eq_refl (sl_TokenHash w_link)). Qed.

Theorem links_resolve_uniquely_witness : Resolve w_token w_linked = Ok w_alice_id.
Proof.
  destruct w_linked_ensure as (token & row & s' & Em & Ew & Hs').
  assert (rtc (link_step w_ring) s' w_linked) as Hr.
  { rewrite Ew. apply rtc_once. exact (lstep_ensure w_ring w_alice_id token row w_s1 s' s' Em). }
  destruct (links_resolve_uniquely w_ring s' w_linked w_token w_alice_id Hs' Hr) as [_ Hi].
  - vm_compute. lia.
  - apply Hi. exists w_link. split; [exact w_linked_row|]. split; [exact w_token_hash|reflexivity].
Defined.

Definition w_phone_device : Device := Eval vm_compute in
  default (MkDevice "" "" "" "" "" "" "" None true None "" 0 0 0 0 0 0) (devices w_s1 !! w_phone).
Lemma w_phone_lookup : devices w_s1 !! w_phone = Some w_phone_device.
Proof. vm_cast_no_check (eq_refl (Some w_phone_device)). Qed.
Lemma w_linked_phone : devices w_linked !! w_phone = Some w_phone_device.
Proof. unfold w_linked. rewrite Ensure_devices. exact w_phone_lookup. Qed.
Lemma w_phone_owner : d_UserID w_phone_device = w_alice_id.
Proof. vm_cast_no_check (eq_refl w_alice_id). Qed.

Lemma w_rotate_ok : is_ok (RotateAccess_commit w_ring w_alice_id w_rotations w_linked).1 = true.
Proof. vm_cast_no_check (eq_refl true). Qed.

Theorem RotateAccess_atomic_witness :
  exists link s', RotateAccess_commit w_ring w_alice_id w_rotations w_linked = (Ok (link, 1), s') /\
    Resolve (l_Token link) s' = Ok w_alice_id /\
    ("if0", d_PublicKey w_phone_device) ∈ retired_peer_keys s'.
Proof.
  destruct (RotateAccess_commit w_ring w_alice_id w_rotations w_linked) as [r s'] eqn:E.
  pose proof (RotateAccess_atomic w_ring w_alice_id w_rotations w_linked r s' w_linked_devices w_linked_links E) as H.
  pose proof w_rotate_ok as Hok. rewrite E in Hok. destruct r as [[link n]|e]; [|discriminate Hok].
  destruct H as (-> & Hdev & _ & Hres & _). exists link, s'. split; [reflexivity|]. split; [exact Hres|].
  destruct (Hdev w_phone w_phone_device w_linked_phone w_phone_owner) as [Hin _]. exact Hin.
Defined.

Lemma SetRevoked_runs k id b s row : sub_links s !! id = Some row ->
  exists l s', SetRevoked k id b s = (Ok l, s') /\ is_Some (sub_links s' !! id).
Proof. unfold SetRevoked. intros ->. do 2 eexists. split; [done|]. cbn. rewrite lookup_insert_eq. eauto. Qed.

Theorem revoke_restore_round_trip_witness :
  exists s1 s2, Resolve w_token s1 = Err (E CodeUserNotFound) /\ Resolve w_token s2 = Ok w_alice_id.
Proof.
  destruct (SetRevoked_runs w_ring w_alice_id true w_linked w_link w_linked_row) as (l1 & s1 & E1 & row & Hrow).
  destruct (SetRevoked_runs w_ring w_alice_id false s1 row Hrow) as (l2 & s2 & E2 & _). exists s1, s2.
  assert (0 < String.length w_token <= 128)%nat as Hlen by (vm_compute; lia).
  destruct (revoke_restore_round_trip w_ring w_alice_id w_token w_link w_linked s1 s2 l1 l2
    w_linked_links w_linked_row w_token_hash Hlen E1 E2) as (H1 & H2 & _).
  exact (conj H1 H2).
Defined.
End Witnesses.
