(* ===== verification/Purchase.v ===== *)
(** * Automation operations (internal/integration/purchase.go)

    A purchase creates the account, its devices, its link and the durable
    result in one transaction, under an idempotency key that belongs to one
    principal; a quota top-up does the same for an allowance. A retry with the
    same key replays the recorded result. *)
From stdpp Require Import base tactics strings gmap list fin_maps sets.
From Stdlib Require Import ZArith Lia Ascii.
From Stdlib Require String.
From S2P Require Import Prelude GoTime Domain Store Awgparam Crypto Users Tunnel Secrets Devices.
From S2P Require Import Accounting Corrections Plans NextPlan Subscription.

Open Scope Z_scope.

(** ** The canonical request text ([json.Marshal]) *)

Definition json_escape (b : Z) : string :=
  let u4 := String backslash ("u00" +:+ String (hex_digit (b / 16)) (String (hex_digit (b mod 16)) "")) in
  if (b =? 34) || (b =? 92) then String backslash (String (char_of b) "")
  else if b =? 8 then String backslash "b" else if b =? 12 then String backslash "f"
  else if b =? 10 then String backslash "n" else if b =? 13 then String backslash "r"
  else if b =? 9 then String backslash "t"
  else if (b <? 32) || (b =? 60) || (b =? 62) || (b =? 38) then u4
  else String (char_of b) "".

(** U+2028 and U+2029, the line separators Go escapes. *)
Definition line_separator (rune : string) : option string :=
  if String.eqb rune (text_of [226; 128; 168]) then Some (String backslash "u2028")
  else if String.eqb rune (text_of [226; 128; 169]) then Some (String backslash "u2029")
  else None.

Fixpoint json_chars (fuel : nat) (s : string) : string :=
  match fuel, s with
  | S fuel, String c rest =>
      if byte_of c <? 128 then json_escape (byte_of c) +:+ json_chars fuel rest
      else match utf8_len s with
           | O => String backslash "ufffd" +:+ json_chars fuel rest
           | n => default (str_take n s) (line_separator (str_take n s)) +:+ json_chars fuel (str_drop n s)
           end
  | _, _ => ""
  end.

Definition json_string (s : string) : string :=
  String dquote (json_chars (String.length s) s +:+ String dquote "").

Definition json_member (name value : string) : string := json_string name +:+ ":" +:+ value.

(** An object of the members that are present. *)
Fixpoint json_join (l : list string) : string :=
  match l with [] => "" | [m] => m | m :: l => m +:+ "," +:+ json_join l end.
Definition json_object (members : list (option string)) : string :=
  "{" +:+ json_join (omap id members) +:+ "}".

(** ** Requests and results *)

Record DirectEntitlement := MkEntitlement {
  de_TrafficLimitBytes : Z;
  de_DurationSeconds : Z;
  de_DeviceLimit : Z;
  de_StartPolicy : StartPolicy;
  de_SpeedLimitDownKbps : option Z;
  de_SpeedLimitUpKbps : option Z;
  de_InterfaceID : string
}.

#[export] Instance eta_DirectEntitlement : Eta DirectEntitlement := fun t =>
  MkEntitlement (de_TrafficLimitBytes t) (de_DurationSeconds t) (de_DeviceLimit t) (de_StartPolicy t)
    (de_SpeedLimitDownKbps t) (de_SpeedLimitUpKbps t) (de_InterfaceID t).

Record PurchaseInput := MkPurchase {
  pu_Key : string;
  pu_ResellerID : option string;
  pu_Username : string;
  pu_TemplateID : string;
  pu_Entitlement : option DirectEntitlement;
  pu_DeviceName : string;
  pu_DeviceKeys : list KeyMaterial
}.

#[export] Instance eta_PurchaseInput : Eta PurchaseInput := fun i =>
  MkPurchase (pu_Key i) (pu_ResellerID i) (pu_Username i) (pu_TemplateID i) (pu_Entitlement i)
    (pu_DeviceName i) (pu_DeviceKeys i).

Record QuotaTopUpInput := MkTopUp {
  tu_Key : string;
  tu_ResellerID : option string;
  tu_UserID : string;
  tu_Bytes : Z
}.

Definition not_positive (v : option Z) : bool := match v with Some n => n <=? 0 | None => false end.

Definition entitlement_validate (t : DirectEntitlement) : result err unit :=
  if de_TrafficLimitBytes t <=? 0 then Err (E CodeInvalidRequest)
  else if (de_DurationSeconds t <=? 0) || (315360000 <? de_DurationSeconds t) then Err (E CodeInvalidRequest)
  else if (de_DeviceLimit t <=? 0) || (100 <? de_DeviceLimit t) then Err (E CodeInvalidRequest)
  else if not_positive (de_SpeedLimitDownKbps t) || not_positive (de_SpeedLimitUpKbps t)
  then Err (E CodeInvalidRequest)
  else if negb (bool_decide (de_StartPolicy t = StartPolicyAbsent)) && negb (StartPolicy_Valid (de_StartPolicy t))
  then Err (E CodeInvalidRequest)
  else Ok tt.

Definition ResultRetention : Z := 90 * day.
Definition MaxPurchaseDevices : Z := 100.

Definition key_char (c : ascii) : bool := (33 <=? byte_of c) && (byte_of c <=? 126).
Definition validKey (key : string) : bool :=
  negb (String.eqb key "") && (String.length key <=? 128)%nat && str_all key_char key.

Definition hashedKey (scope key : string) : string := hex (Sum256 (scope +:+ String (char_of 0) key)).

(** ** The journal of operations *)

(** The recorded result of a live key, or the journal without the expired one. *)
Definition replayTx (scope keyHash kind requestHash : string) : Tx (option OpResult) := fun s =>
  match integration_operations s !! keyHash with
  | Some op =>
      if negb (String.eqb (op_ScopeKey op) scope) then Ok (None, s)
      else if clock s <? op_ExpiresAt op then
        if negb (String.eqb (op_Kind op) kind) || negb (String.eqb (op_RequestHash op) requestHash)
        then Err (E CodeIdempotencyKeyReused)
        else Ok (Some (op_Result op), s)
      else Ok (None, s <| integration_operations ::= delete keyHash |>)
  | None => Ok (None, s)
  end.

Definition op_id_taken (id : string) (s : store) : bool :=
  existsb (fun o => String.eqb (op_ID o) id) (map_to_list (integration_operations s)).*2.

Definition recordResultTx (scope keyHash requestHash : string) (r : OpResult) : Tx unit := fun s =>
  if bool_decide (is_Some (integration_operations s !! keyHash)) || op_id_taken (or_ID r) s
  then Err (Plain "integration: record result")
  else Ok (tt, s <| integration_operations ::=
    <[keyHash := MkOperation (or_ID r) scope (or_Kind r) requestHash r (or_CreatedAt r)
                   (time_add (or_CreatedAt r) ResultRetention)]> |>).

(** ** Purchase *)

Definition policy_text (p : StartPolicy) : string :=
  match p with
  | StartImmediate => "immediate"
  | StartFirstConnection => "first_connection"
  | StartPolicyOther raw => raw
  end.

Definition entitlement_json (t : DirectEntitlement) : string :=
  let optional name v := (fun n => json_member name (itoa n)) <$> v in
  let nonempty name v := if String.eqb v "" then None else Some (json_member name (json_string v)) in
  json_object [
    Some (json_member "traffic_limit_bytes" (itoa (de_TrafficLimitBytes t)));
    Some (json_member "duration_seconds" (itoa (de_DurationSeconds t)));
    Some (json_member "device_limit" (itoa (de_DeviceLimit t)));
    nonempty "start_policy" (policy_text (de_StartPolicy t));
    optional "speed_limit_down_kbps" (de_SpeedLimitDownKbps t);
    optional "speed_limit_up_kbps" (de_SpeedLimitUpKbps t);
    nonempty "interface_id" (de_InterfaceID t)].

Definition device_count (i : PurchaseInput) : Z := Z.of_nat (length (pu_DeviceKeys i)).

(** The fingerprint of a normalised request. *)
Definition purchase_hash (i : PurchaseInput) : string :=
  let count := if 1 <? device_count i then Some (json_member "DeviceCount" (itoa (device_count i))) else None in
  let username := Some (json_member "Username" (json_string (pu_Username i))) in
  let device := Some (json_member "DeviceName" (json_string (pu_DeviceName i))) in
  hex (Sum256 match pu_Entitlement i with
    | None => json_object [username; Some (json_member "TemplateID" (json_string (pu_TemplateID i))); device; count]
    | Some t => json_object [username; device; Some (json_member "Entitlement" (entitlement_json t)); count]
    end).

Definition normalized (t : DirectEntitlement) : DirectEntitlement :=
  t <| de_StartPolicy := if bool_decide (de_StartPolicy t = StartPolicyAbsent) then StartImmediate
                         else de_StartPolicy t |>
    <| de_InterfaceID := trim_space (de_InterfaceID t) |>.

(** The validated request with its defaults filled in. *)
Definition normalize (i : PurchaseInput) : result err PurchaseInput :=
  if (device_count i <? 1) || (MaxPurchaseDevices <? device_count i) then Err (E CodeInvalidRequest)
  else
    let template := trim_space (pu_TemplateID i) in
    if negb (validKey (pu_Key i))
       || Bool.eqb (String.eqb template "") (bool_decide (pu_Entitlement i = None))
       || bool_decide (pu_ResellerID i = Some "") then Err (E CodeInvalidRequest)
    else
      entitlement ← match pu_Entitlement i with
        | None => Ok None
        | Some t =>
            if bool_decide (is_Some (pu_ResellerID i)) then Err (E CodeForbidden)
            else _ ← entitlement_validate t; Ok (Some (normalized t))
        end;
      let username := trim_space (pu_Username i) in
      let name := trim_space (pu_DeviceName i) in
      Ok (i <| pu_TemplateID := template |> <| pu_Entitlement := entitlement |>
            <| pu_Username := if String.eqb username ""
                              then "u" +:+ str_take 16 (hashedKey (scopeKey (pu_ResellerID i)) (pu_Key i))
                              else username |>
            <| pu_DeviceName := if String.eqb name "" then if device_count i =? 1 then "device-1" else "device"
                                else name |>).

Definition some_text (v : string) : OptString := if String.eqb v "" then OptStrAbsent else MkOptString true false v.

(** The account request, the interface of the devices, the template recorded. *)
Definition purchaseUserInput (i : PurchaseInput) (s : store) : result err (Users.Input * string * string) :=
  let base := (Users.input (pu_Username i)) <| Users.in_ResellerID := pu_ResellerID i |> in
  match pu_Entitlement i with
  | Some t =>
      Ok (base <| Users.in_TrafficLimitBytes := OptVal (de_TrafficLimitBytes t) |>
               <| Users.in_DurationSeconds := Some (de_DurationSeconds t) |>
               <| Users.in_DeviceLimit := OptVal (de_DeviceLimit t) |>
               <| Users.in_StartPolicy := de_StartPolicy t |>
               <| Users.in_SpeedLimitDownKbps := optOfPtr (de_SpeedLimitDownKbps t) |>
               <| Users.in_SpeedLimitUpKbps := optOfPtr (de_SpeedLimitUpKbps t) |>
               <| Users.in_InterfaceID := some_text (de_InterfaceID t) |>,
          de_InterfaceID t, "")
  | None =>
      product ← Plans.Get (pu_TemplateID i) s;
      if negb (p_Enabled product) then Err (E CodeForbidden)
      else Ok (ApplyToUser product base, default "" (p_InterfaceID product), p_ID product)
  end.

Section Service.
Context `{Entropy, EventRecorder, A : AEAD, R : Random} (ring : KeyRing).

Definition device_name (i : PurchaseInput) (n : nat) : string :=
  if 1 <? device_count i then pu_DeviceName i +:+ "-" +:+ itoa (Z.of_nat n + 1) else pu_DeviceName i.

Fixpoint create_devices (i : PurchaseInput) (userID interfaceID : string) (n : nat) (keys : list KeyMaterial)
    : Tx (list string) :=
  match keys with
  | [] => tx_ret []
  | k :: keys =>
      d ← Devices.CreateTx userID (device_name i n) k interfaceID;
      ids ← create_devices i userID interfaceID (S n) keys;
      tx_ret (d_ID d :: ids)
  end.

Definition purchase_result (id userID templateID : string) (devices : list string) (now : Z) : OpResult :=
  MkResult id "purchase" "committed" userID (default "" (head devices)) devices templateID None None now.

(** The body after the replay check. *)
Definition provisionTx (i : PurchaseInput) (scope keyHash requestHash : string) : Tx OpResult := fun s =>
  if match pu_ResellerID i with Some r => negb (product_access r (pu_TemplateID i) s) | None => false end
  then Err (E CodeForbidden)
  else
    '(input, interfaceID, templateID) ← purchaseUserInput i s;
    let limit := Users.in_DeviceLimit input in
    if o_set limit && negb (o_null limit) && (o_value limit <? device_count i)
    then Err (E CodeDeviceLimitReached)
    else
      (u ← Users.CreateTx input;
       ids ← create_devices i (u_ID u) interfaceID 0 (pu_DeviceKeys i);
       _ ← Subscription.CreateTx ring (u_ID u);
       now ← now_;
       id ← new_id;
       let r := purchase_result id (u_ID u) templateID ids now in
       _ ← recordResultTx scope keyHash requestHash r;
       tx_ret r) s.

Definition once {X} (replay : Tx (option X)) (body : Tx X) : Tx (X * bool) :=
  prior ← replay;
  match prior with
  | Some r => tx_ret (r, true)
  | None => r ← body; tx_ret (r, false)
  end.

Definition Purchase_tx (i : PurchaseInput) : Tx (OpResult * bool) :=
  let scope := scopeKey (pu_ResellerID i) in
  let keyHash := hashedKey scope (pu_Key i) in
  once (replayTx scope keyHash "purchase" (purchase_hash i)) (provisionTx i scope keyHash (purchase_hash i)).

Definition Purchase (i : PurchaseInput) (s : store) : result err (OpResult * bool) * store :=
  match normalize i with
  | Err e => (Err e, s)
  | Ok i => WithTx (Purchase_tx i) s
  end.

(** ** Quota top-ups *)

Definition topup_hash (i : QuotaTopUpInput) : string :=
  hex (Sum256 (json_object [Some (json_member "UserID" (json_string (tu_UserID i)));
                            Some (json_member "Bytes" (itoa (tu_Bytes i)))])).

Definition owns_user (reseller : option string) (userID : string) (s : store) : bool :=
  match reseller with
  | None => true
  | Some r => match live_user userID s with
              | Some u => bool_decide (u_ResellerID u = Some r)
              | None => false
              end
  end.

Definition extendTx (i : QuotaTopUpInput) (scope keyHash requestHash : string) : Tx OpResult := fun s =>
  if negb (owns_user (tu_ResellerID i) (tu_UserID i) s) then Err (E CodeUserNotFound)
  else
    (change ← AddQuotaTx (tu_UserID i) (tu_Bytes i);
     now ← now_;
     id ← new_id;
     let r := MkResult id "quota_top_up" "committed" (tu_UserID i) "" [] ""
                (Some (qc_Before change)) (Some (qc_After change)) now in
     _ ← recordResultTx scope keyHash requestHash r;
     tx_ret r) s.

Definition TopUpQuota_tx (i : QuotaTopUpInput) : Tx (OpResult * bool) :=
  let scope := scopeKey (tu_ResellerID i) in
  let keyHash := hashedKey scope (tu_Key i) in
  once (replayTx scope keyHash "quota_top_up" (topup_hash i)) (extendTx i scope keyHash (topup_hash i)).

Definition TopUpQuota (i : QuotaTopUpInput) (s : store) : result err (OpResult * bool) * store :=
  if negb (validKey (tu_Key i)) || String.eqb (tu_UserID i) "" || (tu_Bytes i <=? 0)
     || bool_decide (tu_ResellerID i = Some "")
  then (Err (E CodeInvalidRequest), s)
  else WithTx (TopUpQuota_tx i) s.

(** ** Reads and retention *)

Definition Lookup (resellerID : option string) (key : string) (s : store) : result err OpResult :=
  if negb (validKey key) then Err (E CodeInvalidRequest)
  else
    let scope := scopeKey resellerID in
    match integration_operations s !! hashedKey scope key with
    | Some op =>
        if negb (String.eqb (op_ScopeKey op) scope) then Err (E CodeNotFound)
        else if clock s <? op_ExpiresAt op then Ok (op_Result op) else Err (E CodeNotFound)
    | None => Err (E CodeNotFound)
    end.

(** SQLite's choice of the at most 500 rows of a batch. *)
Class Batch := {
  batch : list (string * Operation) -> list (string * Operation);
  batch_sub l : batch l ⊆ l;
  batch_length l : length (batch l) = Nat.min 500 (length l)
}.

(** Expiry is compared as stored text; an equal text is due. *)
Definition expired_ops (now : Z) (s : store) : list (string * Operation) :=
  filter (fun r => stored_lt now (op_ExpiresAt r.2) = false) (map_to_list (integration_operations s)).

Definition Prune `{Batch} (now : Z) (s : store) : store :=
  let gone := op_ID <$> (batch (expired_ops now s)).*2 in
  s <| integration_operations ::= filter (fun r => op_ID r.2 ∉ gone) |>.
End Service.

(** ** Lemmas: the parts of a purchase *)

Section Facts.
Context `{Entropy, Rec : EventRecorder, !RecorderFrame Rec, A : AEAD, !AEADLaws A, R : Random, !RandomLength R}.
Context (ring : KeyRing).

(** The tables an operation of the catalogue of parts leaves alone. *)
Definition same_journal (s s' : store) : Prop :=
  integration_operations s' = integration_operations s /\ clock s' = clock s.

Lemma outbox_journal s s' : outbox_only s s' -> same_journal s s' /\ sub_links s' = sub_links s.
Proof. by intros (? & ? & ? & ->). Qed.

Lemma inserted_ID u : u_ID (inserted u) = u_ID u.
Proof. destruct u. reflexivity. Qed.

Lemma put_user_users u s : users (put_user u s) = <[u_ID u := u]> (users s).
Proof. reflexivity. Qed.

Lemma user_CreateTx_parts i s u s' : Users.CreateTx i s = Ok (u, s') ->
  u = buildCreate (u_ID u) (clock s) i /\ users s !! u_ID u = None /\
  users s' = <[u_ID u := inserted u]> (users s) /\ devices s' = devices s /\
  sub_links s' = sub_links s /\ same_journal s s'.
Proof.
  intros (_ & _ & s1 & s2 & (Hu & Hk & -> & _)%new_id_frame & E & Hi & Ho)%Users.CreateTx_inv.
  apply insert_user_ok in Hi as (-> & _ & Hn & _). cbn in Hn.
  pose proof (outbox_journal _ _ Ho) as [[Hj Hc] Hl]. apply outbox_only_tables in Ho as (Hus & Hd & _).
  split_and!; [done|done| |by rewrite Hd|by rewrite Hl|by split; [rewrite Hj|rewrite Hc]].
  rewrite Hus, put_user_users, inserted_ID. reflexivity.
Qed.

Lemma device_CreateTx_parts userID name keys ifc s d s' : Devices.CreateTx userID name keys ifc s = Ok (d, s') ->
  devices s !! d_ID d = None /\ devices s' = <[d_ID d := d]> (devices s) /\
  d_UserID d = userID /\ d_PublicKey d = km_PublicKey keys /\ d_PrivKeyEnc d = km_PrivateKeyEnc keys /\
  users s' = users s /\ sub_links s' = sub_links s /\ same_journal s s'.
Proof.
  intros (s1 & s2 & id & ifcID & ip & Ho & _ & -> & _ & _ & Hi & Ho2)%device_CreateTx_inv.
  apply insertDevice_ok in Hi as (-> & Hn & _).
  pose proof (outbox_journal _ _ Ho) as [[Hj Hc] Hl]. pose proof (outbox_journal _ _ Ho2) as [[Hj2 Hc2] Hl2].
  apply outbox_only_tables in Ho as (Hu & Hd & _), Ho2 as (Hu2 & Hd2 & _).
  rewrite Hd in Hn. split_and!; try done.
  - by rewrite Hd2; cbn; rewrite Hd.
  - by rewrite Hu2; cbn; rewrite Hu.
  - by rewrite Hl2; cbn; rewrite Hl.
  - split; [by rewrite Hj2; cbn; rewrite Hj|by rewrite Hc2; cbn; rewrite Hc].
Qed.

Lemma link_CreateTx_parts userID s l s' : Subscription.CreateTx ring userID s = Ok (l, s') ->
  exists row, minted ring (l_Token l) row (clock s) /\ sub_links s' = <[userID := row]> (sub_links s) /\
    sub_links s !! userID = None /\ hash_taken (sl_TokenHash row) userID s = false /\
    users s' = users s /\ devices s' = devices s /\ same_journal s s'.
Proof.
  unfold CreateTx. destruct (Ensure_mint ring userID s) as [[[token row] s1]|] eqn:Em; [|done].
  apply Ensure_mint_ok in Em as [Hm Ho].
  destruct (insert_link userID row s1) as [[s2|]|] eqn:Ei; [|done..]. intros [= <- <-].
  apply insert_link_ok in Ei as (-> & Hn & Hf).
  pose proof (outbox_journal _ _ Ho) as [[Hj Hc] Hl]. apply outbox_only_tables in Ho as (Hu & Hd & _).
  unfold hash_taken in *. rewrite Hl in Hn, Hf.
  exists row. split_and!; try done. cbn. by rewrite Hl.
Qed.

(** The devices of an order: one per key pair, in order, and nothing else. *)
Definition device_of (userID : string) (k : KeyMaterial) (d : Device) : Prop :=
  d_UserID d = userID /\ d_PublicKey d = km_PublicKey k /\ d_PrivKeyEnc d = km_PrivateKeyEnc k.

Lemma create_devices_ok i userID ifc keys n s ids s' :
  create_devices i userID ifc n keys s = Ok (ids, s') ->
  users s' = users s /\ sub_links s' = sub_links s /\ same_journal s s' /\
  devices s ⊆ devices s' /\
  Forall2 (fun id k => devices s !! id = None /\
             exists d, devices s' !! id = Some d /\ device_of userID k d) ids keys /\
  (forall id, devices s' !! id <> devices s !! id -> id ∈ ids).
Proof.
  revert n s ids. induction keys as [|k keys IH]; intros n s ids Hc; cbn [create_devices] in Hc.
  { apply Ok_pair_inj in Hc as [<- <-]. by split_and!. }
  apply tx_bind_ok in Hc as (d & s1 & Hd & Hc).
  apply device_CreateTx_parts in Hd as (Hn & Hds & Hu & Hp & Hpr & Hus & Hl & Hj).
  apply tx_bind_ok in Hc as (rest & s2 & Hr & [<- <-]%Ok_pair_inj).
  destruct (IH _ _ _ Hr) as (Hus2 & Hl2 & Hj2 & Hsub & Hall & Hdiff).
  assert (devices s ⊆ devices s1) as Hsub1 by (rewrite Hds; by apply insert_subseteq).
  split_and!; [by rewrite Hus2|by rewrite Hl2| |by etrans| |].
  - destruct Hj, Hj2. split; congruence.
  - constructor.
    + split; [done|]. exists d. split; [|by split_and!].
      apply (lookup_weaken (devices s1)); [|done]. rewrite Hds. apply lookup_insert_eq.
    + eapply Forall2_impl; [exact Hall|]. intros id key [Hid Hex]. split; [|done].
      by apply (lookup_weaken_None (devices s) (devices s1)).
  - intros id Hne. destruct (decide (id = d_ID d)) as [->|Hid]; [apply list_elem_of_here|].
    apply list_elem_of_further, Hdiff. intros E. apply Hne. rewrite E, Hds. by rewrite lookup_insert_ne.
Qed.

(** ** Lemmas: the journal *)

Lemma recordResultTx_ok scope keyHash reqHash r s x s' :
  recordResultTx scope keyHash reqHash r s = Ok (x, s') ->
  integration_operations s !! keyHash = None /\
  s' = s <| integration_operations ::=
    <[keyHash := MkOperation (or_ID r) scope (or_Kind r) reqHash r (or_CreatedAt r)
                   (time_add (or_CreatedAt r) ResultRetention)]> |>.
Proof.
  unfold recordResultTx. case_bool_decide as Hn; [done|]. cbn [orb]. destruct (op_id_taken _ _); [done|].
  intros [= _ <-]. split; [by apply eq_None_not_Some|done].
Qed.

(** A replay changes nothing; a first use drops at most the expired entry of
    its own key. *)
Lemma replayTx_ok scope keyHash kind reqHash s o s' : replayTx scope keyHash kind reqHash s = Ok (o, s') ->
  match o with
  | Some r => s' = s /\ exists op, integration_operations s !! keyHash = Some op /\ op_ScopeKey op = scope /\
                op_Kind op = kind /\ op_RequestHash op = reqHash /\ clock s < op_ExpiresAt op /\ op_Result op = r
  | None => exists ops, s' = s <| integration_operations := ops |> /\
      (ops = integration_operations s \/ ops = delete keyHash (integration_operations s))
  end.
Proof.
  unfold replayTx. destruct (integration_operations s !! keyHash) as [op|] eqn:E.
  2: { intros [= <- <-]. exists (integration_operations s). split; [by destruct s|by left]. }
  destruct (String.eqb_spec (op_ScopeKey op) scope) as [Hs|]; cbn [negb].
  2: { intros [= <- <-]. exists (integration_operations s). split; [by destruct s|by left]. }
  destruct (Z.ltb_spec (clock s) (op_ExpiresAt op)) as [Hlt|].
  2: { intros [= <- <-]. eexists. split; [done|by right]. }
  destruct (String.eqb_spec (op_Kind op) kind) as [Hk|]; [|done].
  destruct (String.eqb_spec (op_RequestHash op) reqHash) as [Hr|]; [|done].
  intros [= <- <-]. split; [done|]. exists op. eauto 10.
Qed.

Lemma replayTx_live scope keyHash kind reqHash s op :
  integration_operations s !! keyHash = Some op -> op_ScopeKey op = scope -> op_Kind op = kind ->
  op_RequestHash op = reqHash -> clock s < op_ExpiresAt op ->
  replayTx scope keyHash kind reqHash s = Ok (Some (op_Result op), s).
Proof.
  unfold replayTx. intros -> <- <- <- Hlt. rewrite !String.eqb_refl. cbn [negb orb].
  destruct (Z.ltb_spec (clock s) (op_ExpiresAt op)); [done|lia].
Qed.

Lemma once_ok {X} (replay : Tx (option X)) body s r b s' : once replay body s = Ok ((r, b), s') ->
  (b = true /\ replay s = Ok (Some r, s')) \/
  (b = false /\ exists s1, replay s = Ok (None, s1) /\ body s1 = Ok (r, s')).
Proof.
  unfold once. intros Ho. apply tx_bind_ok in Ho as ([p|] & s1 & Hr & Hb).
  - apply Ok_pair_inj in Hb as [[= -> <-] <-]. by left.
  - apply tx_bind_ok in Hb as (x & s2 & Hb & Hret). apply Ok_pair_inj in Hret as [[= -> <-] <-]. eauto.
Qed.

(** What a body leaves in the journal: the result under the key. *)
Definition journaled (scope keyHash kind reqHash : string) (r : OpResult) (s s' : store) : Prop :=
  clock s' = clock s /\ or_CreatedAt r = clock s /\ or_Kind r = kind /\
  integration_operations s' !! keyHash =
    Some (MkOperation (or_ID r) scope kind reqHash r (clock s) (clock s + ResultRetention)).

Lemma recorded_journal scope keyHash reqHash r s s1 x s' : recordResultTx scope keyHash reqHash r s1 = Ok (x, s') ->
  clock s1 = clock s -> or_CreatedAt r = clock s1 -> journaled scope keyHash (or_Kind r) reqHash r s s'.
Proof.
  intros [_ ->]%recordResultTx_ok Ek Er. unfold journaled, time_add. cbn. rewrite Er, Ek.
  by rewrite lookup_insert_eq.
Qed.

Lemma journaled_retry scope keyHash kind reqHash r s s' s2 body :
  journaled scope keyHash kind reqHash r s s' ->
  integration_operations s2 !! keyHash = integration_operations s' !! keyHash ->
  clock s2 < clock s + ResultRetention ->
  WithTx (once (replayTx scope keyHash kind reqHash) body) s2 = (Ok (r, true), s2).
Proof.
  intros (_ & _ & _ & Ej) E Hlt. unfold WithTx, once, mbind, tx_mbind, tx_bind.
  rewrite (replayTx_live scope keyHash kind reqHash s2 _ (eq_trans E Ej)); done.
Qed.

(** The key is refused for a different operation or a different request. *)
Lemma journaled_reuse scope keyHash kind reqHash kind' reqHash' r s s' s2 body :
  journaled scope keyHash kind reqHash r s s' ->
  integration_operations s2 !! keyHash = integration_operations s' !! keyHash ->
  clock s2 < clock s + ResultRetention -> kind' <> kind \/ reqHash' <> reqHash ->
  WithTx (once (replayTx scope keyHash kind' reqHash') body) s2 = (Err (E CodeIdempotencyKeyReused), s2).
Proof.
  intros (_ & _ & _ & Ej) E Hlt Hne. unfold WithTx, once, mbind, tx_mbind, tx_bind, replayTx.
  rewrite E, Ej. cbn [op_ScopeKey op_ExpiresAt op_Kind op_RequestHash]. rewrite String.eqb_refl. cbn [negb].
  destruct (Z.ltb_spec (clock s2) (clock s + ResultRetention)); [|lia].
  destruct (String.eqb_spec kind kind') as [->|], (String.eqb_spec reqHash reqHash') as [->|]; try done.
  by destruct Hne.
Qed.

(** What a fresh purchase has created, all of it and only that. *)
Record provisioned (i : PurchaseInput) (r : OpResult) (s s' : store) : Prop := {
  pv_user : exists input ifc u, purchaseUserInput i s = Ok (input, ifc, or_TemplateID r) /\
    u = buildCreate (or_UserID r) (clock s) input /\
    users s !! or_UserID r = None /\ users s' = <[or_UserID r := inserted u]> (users s);
  pv_devices : devices s ⊆ devices s' /\
    Forall2 (fun id k => devices s !! id = None /\
               exists d, devices s' !! id = Some d /\ device_of (or_UserID r) k d)
      (or_DeviceIDs r) (pu_DeviceKeys i) /\
    (forall id, devices s' !! id <> devices s !! id -> id ∈ or_DeviceIDs r);
  pv_link : exists token row, minted ring token row (clock s) /\
    sub_links s' = <[or_UserID r := row]> (sub_links s);
  pv_access : forall reseller, pu_ResellerID i = Some reseller ->
    product_access reseller (pu_TemplateID i) s = true
}.

Lemma purchaseUserInput_reseller i s input ifc t : purchaseUserInput i s = Ok (input, ifc, t) ->
  Users.in_ResellerID input = pu_ResellerID i.
Proof.
  unfold purchaseUserInput. destruct (pu_Entitlement i); [by intros [= <- _ _]|].
  destruct (Plans.Get _ s) as [p|]; cbn; [|done]. destruct (negb _); [done|]. by intros [= <- _ _].
Qed.

Lemma provisionTx_ok i scope keyHash reqHash s r s' :
  provisionTx ring i scope keyHash reqHash s = Ok (r, s') ->
  provisioned i r s s' /\ journaled scope keyHash "purchase" reqHash r s s'.
Proof.
  unfold provisionTx. destruct (match pu_ResellerID i with Some _ => _ | None => false end) eqn:Hacc; [done|].
  destruct (purchaseUserInput i s) as [[[input ifc] tmpl]|] eqn:Hin; cbn [mbind result_bind rbind]; [|done].
  destruct (_ && _); [done|]. intros Hc.
  apply tx_bind_ok in Hc as (u & s1 & Hu & Hc). apply user_CreateTx_parts in Hu as (Eu & Hn & Hus & Hd & Hl & [Hj Hk]).
  apply tx_bind_ok in Hc as (ids & s2 & Hds & Hc). apply create_devices_ok in Hds as (Hu2 & Hl2 & [Hj2 Hk2] & Hsub & Hall & Hdiff).
  apply tx_bind_ok in Hc as (l & s3 & Hlink & Hc).
  apply link_CreateTx_parts in Hlink as (row & Hm & Hl3 & _ & _ & Hu3 & Hd3 & [Hj3 Hk3]).
  apply tx_bind_ok in Hc as (now & s3' & [<- <-]%Ok_pair_inj & Hc).
  apply tx_bind_ok in Hc as (id & s4 & Hid & Hc). apply new_id_frame in Hid as (_ & _ & -> & _).
  apply tx_bind_ok in Hc as (x & s5 & Hrec & Hret). apply Ok_pair_inj in Hret as [<- <-].
  apply recordResultTx_ok in Hrec as [_ ->]. rewrite Hd in Hsub, Hall, Hdiff.
  split; [split; cbn [or_UserID or_TemplateID or_DeviceIDs purchase_result]|].
  - exists input, ifc, u. split_and!; [done|done|done|]. cbn. by rewrite Hu3, Hu2.
  - cbn. rewrite Hd3. by split_and!.
  - exists (l_Token l), row. rewrite <- Hk, <- Hk2. split; [done|]. cbn. by rewrite Hl3, Hl2, Hl.
  - intros reseller E. rewrite E in Hacc. by apply negb_false_iff in Hacc.
  - unfold journaled. cbn. rewrite lookup_insert_eq, Hk3, Hk2, Hk. by split_and!.
Qed.

(** Dropping the expired entry of the key before the work begins. *)
Lemma provisioned_drop i r s ops s' : provisioned i r (s <| integration_operations := ops |>) s' ->
  provisioned i r s s'.
Proof. intros []. by split. Qed.

Lemma journaled_drop scope keyHash kind reqHash r s ops s' :
  journaled scope keyHash kind reqHash r (s <| integration_operations := ops |>) s' ->
  journaled scope keyHash kind reqHash r s s'.
Proof. done. Qed.

Definition purchase_key (i : PurchaseInput) : string := hashedKey (scopeKey (pu_ResellerID i)) (pu_Key i).
Definition topup_key (i : QuotaTopUpInput) : string := hashedKey (scopeKey (tu_ResellerID i)) (tu_Key i).

Lemma inserted_reseller id now inp :
  u_ResellerID (inserted (buildCreate id now inp)) = nullText (Users.in_ResellerID inp).
Proof. unfold buildCreate. by repeat case_match. Qed.

Lemma normalize_principal i j : normalize i = Ok j ->
  pu_ResellerID j = pu_ResellerID i /\ pu_Key j = pu_Key i /\ pu_DeviceKeys j = pu_DeviceKeys i /\
  1 <= device_count j <= 100 /\ pu_ResellerID i <> Some "".
Proof.
  unfold normalize. destruct (Z.ltb_spec (device_count i) 1); [done|].
  destruct (Z.ltb_spec MaxPurchaseDevices (device_count i)); [done|]. cbn [orb]. destruct (_ || _ || _) eqn:Hg; [done|].
  apply orb_false_iff in Hg as [_ Hne%bool_decide_eq_false].
  destruct (match pu_Entitlement i with None => _ | Some _ => _ end); cbn [mbind result_bind rbind]; [|done].
  intros [= <-]. unfold device_count, MaxPurchaseDevices in *. cbn. split_and!; try done; lia.
Qed.

Lemma Purchase_fresh i j s r s' : normalize i = Ok j -> Purchase ring i s = (Ok (r, false), s') ->
  provisioned j r s s' /\
  journaled (scopeKey (pu_ResellerID i)) (purchase_key i) "purchase" (purchase_hash j) r s s'.
Proof.
  intros Hn. unfold Purchase. rewrite Hn. intros Hp%WithTx_run. unfold Purchase_tx in Hp.
  destruct (normalize_principal _ _ Hn) as (Er & Ek & _). rewrite Er, Ek in Hp. fold (purchase_key i) in Hp.
  apply once_ok in Hp as [[? _]|(_ & s1 & Hr & Hb)]; [done|].
  apply replayTx_ok in Hr as (ops & -> & _). apply provisionTx_ok in Hb as [Hpv Hj].
  apply provisioned_drop in Hpv. apply journaled_drop in Hj. done.
Qed.

(** ** Properties *)



Lemma AddQuotaTx_journal id bytes s c s' : AddQuotaTx id bytes s = Ok (c, s') -> same_journal s s'.
Proof.
  unfold AddQuotaTx. destruct (bytes <=? 0); [done|]. destruct (live_user id s) as [u|]; [|done].
  destruct (u_TrafficLimitBytes u) as [limit|]; [|done]. destruct (_ <? limit); [done|]. cbv zeta.
  intros (? & s1 & [_ <-]%Ok_pair_inj & Hc)%tx_bind_ok. apply tx_bind_ok in Hc as (? & s2 & H1 & Hc).
  apply tx_bind_ok in Hc as (? & s3 & Hr%record_frame & [_ <-]%Ok_pair_inj).
  apply outbox_journal in Hr as [[E1 E2] _].
  assert (same_journal s s2) as [E3 E4]; [|split; congruence].
  unfold tx_when in H1. destruct (revives _ _).
  - apply record_frame, outbox_journal in H1 as [[? ?] _]. done.
  - by apply Ok_pair_inj in H1 as [_ <-].
Qed.

(** A top-up that answers without a replay has raised the allowance of one
    live account, the reseller's own, by the bytes paid for; however often it
    is retried within the retention, nothing changes again. *)
Theorem TopUpQuota_exactly_once i s r s1 : TopUpQuota i s = (Ok (r, false), s1) ->
  (exists u limit, live_user (tu_UserID i) s = Some u /\ u_TrafficLimitBytes u = Some limit /\
     (forall reseller, tu_ResellerID i = Some reseller -> u_ResellerID u = Some reseller) /\
     (is_i64 limit -> is_i64 (tu_Bytes i) -> users s1 !! tu_UserID i ≫= u_TrafficLimitBytes = Some (limit + tu_Bytes i)) /\
     (forall k, k <> tu_UserID i -> users s1 !! k = users s !! k) /\ devices s1 = devices s) /\
  (forall s2, integration_operations s2 !! topup_key i = integration_operations s1 !! topup_key i ->
     clock s2 < clock s + ResultRetention -> TopUpQuota i s2 = (Ok (r, true), s2)).
Proof.
  unfold TopUpQuota. destruct (_ || _) eqn:Hg; [done|]. intros Hp%WithTx_run. unfold TopUpQuota_tx in *.
  fold (topup_key i) in *. apply once_ok in Hp as [[? _]|(_ & s0 & Hr & Hb)]; [done|].
  apply replayTx_ok in Hr as (ops & -> & _). set (s0 := s <| integration_operations := ops |>) in *.
  unfold extendTx in Hb. destruct (owns_user (tu_ResellerID i) (tu_UserID i) s0) eqn:Hown; cbn [negb] in Hb; [|done].
  apply tx_bind_ok in Hb as (c & s2 & Hq & Hb). pose proof (AddQuotaTx_journal _ _ _ _ _ Hq) as [Ej Ek].
  apply AddQuotaTx_ok in Hq as (u & limit & Hl & Hlim & Hpos & Hle & Hu & Hother & Hd).
  apply tx_bind_ok in Hb as (now & s3 & [<- <-]%Ok_pair_inj & Hb).
  apply tx_bind_ok in Hb as (id & s4 & Hid & Hb). apply new_id_frame in Hid as (_ & _ & -> & _).
  apply tx_bind_ok in Hb as (x & s5 & Hrec & Hret). apply Ok_pair_inj in Hret as [<- <-].
  pose proof (recorded_journal _ _ _ _ s _ _ _ Hrec Ek eq_refl) as Hj.
  apply recordResultTx_ok in Hrec as [_ ->]. split.
  - exists u, limit. split_and!; [done|done| | |done|done].
    + intros reseller E. unfold owns_user in Hown. rewrite E, Hl in Hown. by apply bool_decide_eq_true in Hown.
    + intros Hi Hb. cbn. rewrite Hu. cbn. f_equal. unfold max_int64 in Hle.
      rewrite i64_id in Hle by (unfold is_i64 in *; lia). apply i64_id. unfold is_i64 in *. lia.
  - intros s' E Hlt. eapply journaled_retry; [|exact E|exact Hlt].
    exact Hj.
Qed.

End Facts.

(** ** Witnesses *)

Section Witnesses.
#[local] Existing Instance counting_entropy.
#[local] Instance no_recorder : EventRecorder := None.

Definition w_shop : store := w_plans <| ifaces := {[ "if0" := w_iface ]} |>.
Definition w_cart : PurchaseInput :=
  MkPurchase "order-1" None "bob" w_plan_id None "" [w_key 3; w_key 4].

Definition fresh {X} (o : result err (X * bool)) : bool := match o with Ok (_, b) => negb b | Err _ => false end.

Lemma w_purchase_fresh : fresh (Purchase w_ring w_cart w_shop).1 = true.
Proof. vm_cast_no_check (eq_refl true). Qed.

Lemma w_bought : exists r s', Purchase w_ring w_cart w_shop = (Ok (r, false), s').
Proof.
  destruct (Purchase w_ring w_cart w_shop) as [o s'] eqn:E. pose proof w_purchase_fresh as Hf. rewrite E in Hf.
  destruct o as [[r b]|]; [|discriminate Hf]. destruct b; [discriminate Hf|]. exists r, s'. reflexivity.
Qed.



Definition w_topup : QuotaTopUpInput := MkTopUp "topup-1" None (u_ID w_customer) 500.

Lemma w_topup_fresh : fresh (TopUpQuota w_topup w_sold).1 = true.
Proof. vm_cast_no_check (eq_refl true). Qed.

Theorem TopUpQuota_exactly_once_witness : exists r s', TopUpQuota w_topup w_sold = (Ok (r, false), s') /\
  TopUpQuota w_topup s' = (Ok (r, true), s').
Proof.
  destruct (TopUpQuota w_topup w_sold) as [o s'] eqn:E. pose proof w_topup_fresh as Hf. rewrite E in Hf.
  destruct o as [[r b]|]; [|discriminate Hf]. destruct b; [discriminate Hf|]. exists r, s'. split; [reflexivity|].
  destruct (TopUpQuota_exactly_once w_topup w_sold r s' E) as [_ Hretry]. apply Hretry; [reflexivity|].
  assert (clock s' = clock w_sold) as ->; [|vm_compute; reflexivity].
  replace s' with (TopUpQuota w_topup w_sold).2 by (rewrite E; reflexivity). vm_compute. reflexivity.
Defined.
End Witnesses.
